(* ===== verification/_CoqProject ===== *)
-Q . S2P
Prelude.v
JsString.v
JsMap.v
Regex.v
RoleManager.v
CasbinEffect.v
CasbinConfig.v
CasbinModel.v
CoreEnforcer.v
Rbac.v
RbacFacts.v
JsNumber.v
ResourceTypes.v
ActionTypes.v
AccessTokens.v
ReducerUtils.v
ResourceReducers.v
UiReducers.v
RootReducer.v
SliceFacts.v
RootFacts.v
UiFacts.v
CasbinMiddleware.v
Store.v
Validators.v
ValidatorFacts.v
ComponentForms.v
ComponentFormFacts.v
Utils.v
UtilFacts.v
FormChecks.v
Tutorials.v
TutorialSteps.v
TutorialFacts.v
Async.v
ApiInterface.v
Api.v
Actions.v
ActionFacts.v
ThunkFacts.v
Debounce.v
LogStream.v
LogStreamFacts.v
Watch.v
MockStore.v
MockFacts.v
Setup.v
FilesEditor.v
VolumesForm.v
WorkloadViews.v
NumberFacts.v
Sizes.v
Nodes.v
ComponentEditor.v
Shell.v
Navigation.v
Tables.v
Charts.v
Pages.v
Fields.v
Submissions.v
Terminals.v
Panels.v
Forms.v
FormFacts.v
FieldNames.v
FormSubmissions.v
ListPages.v
DetailPages.v
FieldViews.v
