(* ===== verification/Prelude.v ===== *)
(** * The dashboard of Kalm: a verification library

    Kalm is a Kubernetes dashboard.  Its API server, controller and operator are
    services of another language behind a REST API and a watch socket; the
    front end, [src/frontend/src], is the TypeScript program modelled here.

    ** The program

    A single store holds the state.  Actions are dispatched to it; the middleware
    of the access control looks at them first, then the reducer of each slice
    computes the new slice.  Thunks ask the API and dispatch what it answers; the
    handler of the watch socket dispatches the changes the server announces;
    pages read the state through selectors, ask the permission methods the login
    left in the state, and dispatch what the user does.  The permissions are
    decided by an enforcer over policy rules that the login brings.

    ** The files, and the code they model

    - [Prelude], [JsString], [JsMap], [JsNumber], [Regex]: the parts of the
      language that the code uses.  [result] is a computation that returns or
      throws, [M] adds a state; strings and their methods; insertion-ordered
      maps; binary64 numbers; regular expressions matched by derivatives.
    - [RoleManager], [CasbinEffect], [CasbinConfig], [CasbinModel],
      [CoreEnforcer]: [rbac/casbin/*.ts], one file each ([CasbinModel] has
      assertions, model and loader).  [Rbac] and [RbacFacts]: [rbac/model.ts].
    - [ResourceTypes], [ActionTypes]: [types/*.ts].  [AccessTokens]: the two
      translations of [types/deployAccessToken.ts].
    - [ReducerUtils], [ResourceReducers], [UiReducers], [RootReducer]:
      [reducers/*.ts].  [SliceFacts], [RootFacts], [UiFacts]: what they keep.
    - [CasbinMiddleware], [Store]: [middlewares/casbin.ts] and
      [configureStore.ts]; [Dashboard] is the enforcer, the state and the local
      storage, and [dispatch] one action.
    - [Validators], [ValidatorFacts]: [forms/validator.ts] and
      [forms/normalizer.ts].  [ComponentForms], [ComponentFormFacts]:
      [selectors/*.ts] and [utils/application.ts].
    - [Utils], [UtilFacts]: the other [utils/*.ts], [permission/utils.ts],
      [pages/Route/util.ts] and the choice of certificates in
      [forms/Route/index.tsx].  [FormChecks]: the other decisions of
      [forms/Route] and [forms/ComponentLike/index.tsx].
    - [Tutorials]: [tutorials/utils.ts], the check marks and highlights of
      [pages/Tutorial], and [permission/Authorization.tsx].  [TutorialSteps]: the
      three tutorials with the functions of their steps.  [TutorialFacts]: when
      a step is left.
    - [Async]: asynchronous programs as trees of the operations they perform.
      [ApiInterface]: [api/base.ts].  [Api]: [api/realApi/index.ts].  [Actions]: [actions/*.ts] and
      [errorHandler.ts].  [ActionFacts], [ThunkFacts]: what the thunks do.
    - [Debounce]: the two actions with timers, in a window with a clock.
    - [LogStream], [LogStreamFacts]: [pages/Application/Log.tsx], the page of log
      and shell streams, and the server behind its socket.
    - [Watch]: [hoc/withData.tsx].  [MockStore], [MockFacts]:
      [api/mockStore.ts] and [api/mockApi/index.ts].
    - [Setup]: [pages/Setup/index.tsx], the page that sets a cluster up, with the
      requests it makes and the answers it gets as separate events.
    - [FilesEditor], [VolumesForm], [ComponentEditor]: the parts of the form of
      components, [forms/ComponentLike/*.tsx]: the files, the disks, and the
      probes, variables, ports, tabs and main fields.
    - [NumberFacts]: the signs of sums and differences.  [Sizes]: the printing
      half of [utils/sizeConv.ts], and the fields of sizes.
    - [WorkloadViews]: the badges, counts and rows that the pages of applications
      and components compute from pods, each with its own code.
    - [Nodes]: [pages/Nodes/*.tsx], with the ranks of requests.
    - [Shell]: [hoc/*.tsx], the side bars, the application bar, the login page and
      the table of [routes.tsx].  [Navigation]: where the links lead.
    - [Tables], [Charts], [Pages]: [widgets/KRTable.tsx] with the rows of the lists,
      the charts, and the smaller pages and widgets.
    - [Fields]: [forms/Basic/*.tsx] and what the small forms add.  [Forms]: the
      fields every form renders for its values, with their validators, and the
      checks of the whole form.  [FormFacts]: the values each form hands to its
      page.  [FieldNames]: the names its fields are registered under.
      [FormSubmissions]: what reaches the API.
    - [ListPages]: how a table turns its pages and takes a search, and what the pages
      with a list show, with their buttons.
    - [DetailPages]: the pages that show one thing - a component with its routes and the
      state of its pods, the profile, a deploy key, the nodes - and the alert about the
      certificates of a route.  [FieldViews]: what the fields of [forms/Basic] show, and
      the reading of files.
    - [Submissions]: the pages with a form and the deletions of the lists.
      [Terminals]: what the log page shows, [Xterm.tsx] and the controlled dialogs.
      [Panels]: the tables of a component's facts, the panels and cards, and the
      drawer of the tutorials.

    ** Interfaces

    [ReducerUtils.WatchedSlice] is what a slice of watched resources promises: a
    slice that shows the server's resources shows them after each change event.
    [SliceFacts] has its instances, one for each slice, [RootFacts] uses them for
    the whole store, [Watch] for the socket and [MockFacts] for the
    demonstration mode.  [CoreEnforcer.ExpressionEval] is what the third-party
    compiler of matcher expressions promises.  [ActionTypes.NameResource] is the
    name by which the array helpers tell resources apart.  [Shell.UserAuth] is what
    the frame and the pages ask of the permissions.  [Fields.Throttle] with
    [Fields.ThrottleLaws] is what the text field asks of a throttle, and
    [Forms.Formik] with [Forms.FormikLaws] what the forms ask of formik: it submits
    exactly when no rendered field and no check of the form has an error.
    [FormFacts.formik_reference] is an instance.  [ApiInterface.ApiOperations] is the API
    the front end calls, with the instance [Api.RealApi].  [ListPages.TableHooks] with
    [ListPages.TableLaws] is what the tables ask of the hooks of react-table, with the
    instance [ListPages.table_reference].

    ** What the theorems show

    - Permissions.  In every state an enforcer reaches, [can] answers whether the
      current policy text allows the request ([can_decides]); roles are
      inherited through any chain ([roles_inherited]); a permission for the
      cluster covers its namespaces; a login grants exactly the permissions of
      its subjects, impersonation hides the user, a logout denies everything, a
      login that fails leaves the state and throws.  The role manager refines a
      graph of links, and its bounded search is complete for at most one name
      more than the bound.  Configurations and policies survive printing and
      parsing; the effect stream agrees with a fold over all effects.
    - The store follows the server: through any interleaving of changes, loads
      and other actions ([store_follows_server]), through the messages of the
      watch socket ([watch_follows_server]), and through the operations of the
      mock API ([demonstration_follows]).  The server keeps its resources by kind,
      namespace and name and announces those there are once more on a new
      connection; the arrays of the store know names alone, so that no two routes,
      volumes, services or role bindings of different namespaces may share one
      ([namesakes_apart], and [services_of_two_namespaces_collide] for what happens
      else), and a change that was missed stays missed ([missed_update_stays]).  The
      mock API is followed in production builds; in others its data are frozen by
      the first application that is written ([frozen_data_refuses]).  The reducer is
      total.
    - The log page: once its socket is authorized, the server streams exactly
      the chosen pods with their containers and options, less what it refuses or
      ends, through losses and reconnections of the socket
      ([streams_follow_choice]); a choice made before the authorization while
      messages are queued is left out ([queue_overtaken]).
    - Thunks, for every server and everything that happens while they wait: a
      load shows what the server answered, and a failed one changes nothing shown
      ([loads_show_answer]), and it ends with its flag down ([loads_finish]); submissions raise and lower their flag
      ([submissions_raise_then_lower]); the login status settles; a token is
      stored only after the API accepted it; after a logout no request
      impersonates; loading applications brings the list of the API and the
      components of its active ones ([applications_loaded]); a page with a form is
      left exactly after its submission was accepted ([submissions_leave]).
    - Forms: a volume that is not touched keeps its disk while exactly one disk
      offered has its claim and that one's name, and loses it when none has
      ([untouched_volumes_resubmitted]), a selected disk is one of those offered or
      none ([submitted_volumes_offered]), validators
      accept the languages they document, normalisers take the nearest number, the error
      of a field is shown after a pause and not before, a certificate is
      offered exactly for the hosts it covers, the corrections of a route settle
      ([route_form_settles]), the ports of a component are checked for exactly
      the conflicts they have ([validate_unique]).  The editor of files refines a
      list of saved files ([files_refine]), the disks of a component fit its
      workload ([volumes_consistent]), a size that is shown and typed back is the
      size stored ([size_fields_roundtrip]), and a throttled field shows what was
      typed once it settles ([field_settles]).  For each form the values that are
      submitted are described exactly ([component_form_accepts],
      [route_form_accepts], [sso_form_accepts] and the like); its fields have
      names of their own ([component_fields_once], [route_fields_once],
      [sso_fields_once]); only components in order are sent
      ([component_sent_in_order]), though a volume may lack its disk
      ([claim_not_asked]).
    - The pages: the setup page makes the next request its state asks for and ends
      ([setup_next], [setup_ends]); the charts count each item once
      ([pie_chart_partition]); the views of one pod agree ([views_agree]); the
      ranks of a node show the totals ([ranks_show_totals]); the search of a
      table finds what it shows and some texts it does not ([search_finds]); every
      row of a
      table is on a page that can be reached while the control is shown
      ([every_row_reached]), a text in the box of the search is searched
      ([text_is_searched]), each column has a cell in each row
      ([columns_filled]), and nothing can be added without the right to
      ([adding_needs_permission]); every link leads to a route
      ([no_dead_links]); one terminal is shown ([one_terminal_shown]); the brief
      table of a component is the full one without what the component leaves open
      ([brief_info_of_basic]).  The alert of a route tells of each host once
      ([alert_tells]), the status of a component counts what it lists
      ([status_counts_items]), a page shows the component's own routes
      ([own_routes_shown]), the button of a node does what it says
      ([button_as_announced]), and the fields agree on the errors they show
      ([errors_shown], [list_marked]).
    - The interface: settings survive a reload, a step of a tutorial is left
      when its check marks hold ([marks_decide_step]) and not while an action it
      waits for is missing ([awaited_action_keeps_step]), a form its rules accept
      completes its sub-steps, highlights move forward, the loop that names an
      application ends, colours are well formed.

    ** Choices of the model

    - An exception of a method in [M] drops the state it had reached, as no
      caller looks at it; where one does (the middleware) the state is returned
      with the exception.
    - Drafts of immer are the arrays they stand for: the reducers search the
      original before their only change.  Outside production the results of
      [produce] are frozen: the mock store has the setting and whether its data are,
      and [deletePod], which changes a shared array, and the operations that change
      their argument take whether that is frozen.
    - Characters are Latin-1 code units; the case of letters is that of ASCII.
      Objects used as dictionaries do not have the keys of [Object.prototype].
    - Numbers are binary64.  [parseInt] returns exact integers, of which the code
      compares and prints small ones; the hash of [stringToColor] is an exact
      integer, and its theorem shows that it stays one.
    - Fuel and bounds: [CasbinModel.loadSection] loads numbered definitions until
      one is missing, with one round for each key of the section, which [loadSections_terminates] proves enough;
      [Tutorials.free_name] has one round for each name, which
      [applicationName_terminates] proves enough; [LogStream.strip_stamps] has
      the length of the text.  The search of the role
      manager is bounded by the code itself, at ten levels.
    - Asynchronous programs: [Async.exec] relates a program to its executions.
      Every answer of the server is possible, and while a program waits any
      actions of others happen.  A spawned program runs to its end before the
      rest, as no program here does anything visible after it spawned one that
      waits.  [push] is recorded and the router's own action that follows is
      among the actions of others.  The bodies of answers have the type their
      request names in [Async.Wire].  [Async.run] is the execution with a server
      that answers at once; each program settles.
    - The local storage is a map of strings; the mock store's entry is the data
      themselves, which are plain JSON.

    ** Parameters

    The compiler of expressions ([compile], with [ExpressionEval]), the router's
    reducer ([connectRouter]) and its matcher of paths, the parsers of dates and
    certificates, [JSON.stringify], the throttle of [lodash], [getIn] of formik and its
    decision to submit, the schema [RequireString] of yup, and the server are arguments.  The functions in the steps of a tutorial are
    references, so that states stay data; the reducers take what the references
    denote ([call], [call_state], [call_validate]), which [TutorialSteps] defines
    for each tutorial of the program.  The main theorems with a hypothesis have a
    witness at a concrete instance.

    ** Not modelled

    Of the React components: the markup, the styles, and the focus, apart from
    the decisions in the files above.  The service worker; the data of the mock
    store, of which [MockStore] has the operations, and of the stories; the
    printing of times and of [Math.log]; the random identifiers.  The grid, the
    library of charts, formik, yup, axios and the socket are third-party.

    ** What is left

    The helper texts of the forms, the card of an ACME server and the styles: they arrange what [Tables],
    [Pages] and [Forms] compute, and keep no state of their own. *)

From Stdlib Require Export Ascii.
From stdpp Require Export base list gmap strings option pretty.
From Stdlib Require Export ZArith Lia.

(** ** Errors: a JavaScript computation returns or throws *)

Inductive result (A : Type) : Type :=
| Ok (a : A)
| Throw (msg : string).
Arguments Ok {A} a.
Arguments Throw {A} msg.

#[export] Instance result_ret : MRet result := fun A a => Ok a.
#[export] Instance result_bind : MBind result := fun A B f r =>
  match r with Ok a => f a | Throw e => Throw e end.
#[export] Instance result_fmap : FMap result := fun A B f r =>
  match r with Ok a => Ok (f a) | Throw e => Throw e end.

Lemma bind_Ok {A B} (f : A -> result B) (r : result A) (b : B) :
  r ≫= f = Ok b <-> exists a, r = Ok a /\ f a = Ok b.
Proof. destruct r; cbn; split; [eauto | by intros (? & [= ->] & ?) | done | by intros (? & ? & _)]. Qed.

(** ** JavaScript arrays *)

Section arrays.
Context {A : Type}.
Implicit Types (l : list A) (f : A -> bool).

(** [Array.prototype.findIndex]; [None] is the index -1. *)
Fixpoint findIndex f l : option nat :=
  match l with
  | [] => None
  | x :: l' => if f x then Some 0 else S <$> findIndex f l'
  end.

Lemma findIndex_Some f l i :
  findIndex f l = Some i <->
  exists x, l !! i = Some x /\ f x = true /\
            forall j y, j < i -> l !! j = Some y -> f y = false.
Proof.
  revert i. induction l as [|x l IH]; intros i; cbn.
  { split; [done | by intros (? & ? & _)]. }
  destruct (f x) eqn:Hx.
  - split.
    + intros [= <-]. exists x. repeat split; [done|]. intros; lia.
    + intros (y & Hy & Hf & Hmin). destruct i as [|i]; [done|].
      by rewrite (Hmin 0 x ltac:(lia) eq_refl) in Hx.
  - rewrite fmap_Some. split.
    + intros (k & (y & Hy & Hf & Hmin)%IH & ->). exists y. repeat split; [done|done|].
      intros [|j] z Hj Hz; cbn in *; [congruence|]. apply (Hmin j z); [lia|done].
    + intros (y & Hy & Hf & Hmin). destruct i as [|i]; cbn in *; [congruence|].
      exists i. split; [|done]. apply IH. exists y. repeat split; [done|done|].
      intros j z Hj Hz. apply (Hmin (S j) z); [lia|done].
Qed.

Lemma findIndex_None f l :
  findIndex f l = None <-> Forall (fun x => f x = false) l.
Proof.
  induction l as [|x l IH]; cbn; [by split|].
  destruct (f x) eqn:Hx.
  - split; [done|]. intros Hf. inversion Hf. congruence.
  - rewrite fmap_None, IH. split; [by constructor | by inversion 1].
Qed.

Lemma findIndex_existsb f l :
  (if findIndex f l is Some _ then true else false) = existsb f l.
Proof. induction l as [|x l IH]; cbn; [done|]. rewrite <- IH. destruct (f x), (findIndex f l); done. Qed.

(** [arr.splice(i, 1)] for an index in [0, length): the element is removed. *)
Definition splice1 (i : nat) l : list A := take i l ++ drop (S i) l.

Lemma splice1_delete i l : splice1 i l = delete i l.
Proof. unfold splice1. symmetry. apply delete_take_drop. Qed.

Lemma splice1_sublist i l : sublist (splice1 i l) l.
Proof. rewrite splice1_delete. apply sublist_delete. Qed.
End arrays.

(** [forEach] over an array with a state that each call may update or abort. *)
Fixpoint forEachM {S A} (f : S -> A -> result S) (l : list A) (s : S) : result S :=
  match l with
  | [] => Ok s
  | x :: l' => s' ← f s x; forEachM f l' s'
  end.

Lemma forEachM_app {S A} (f : S -> A -> result S) l1 l2 s :
  forEachM f (l1 ++ l2) s = (s' ← forEachM f l1 s; forEachM f l2 s').
Proof.
  revert s. induction l1 as [|x l1 IH]; intros s; cbn; [done|].
  destruct (f s x); cbn; [apply IH | done].
Qed.

(** [mapi] passes the index, as the second argument of a JavaScript callback. *)
Fixpoint mapi_from {A B} (i : nat) (f : nat -> A -> B) (l : list A) : list B :=
  match l with
  | [] => []
  | x :: l' => f i x :: mapi_from (S i) f l'
  end.
Definition mapi {A B} (f : nat -> A -> B) (l : list A) : list B := mapi_from 0 f l.

Lemma lookup_mapi_from {A B} (f : nat -> A -> B) l i k :
  mapi_from i f l !! k = f (i + k) <$> l !! k.
Proof.
  revert i k. induction l as [|x l IH]; intros i [|k]; cbn; [done|done| |].
  - by rewrite Nat.add_0_r.
  - rewrite IH. by replace (S i + k) with (i + S k) by lia.
Qed.

(** ** Booleans and decisions *)

Definition seqb (a b : string) : bool := String.eqb a b.
#[global] Arguments seqb : simpl never.

Lemma seqb_spec a b : Bool.reflect (a = b) (seqb a b).
Proof. apply String.eqb_spec. Qed.
Lemma seqb_true a b : seqb a b = true <-> a = b.
Proof. apply String.eqb_eq. Qed.
Lemma seqb_false a b : seqb a b = false <-> a <> b.
Proof. apply String.eqb_neq. Qed.
Lemma seqb_refl a : seqb a a = true.
Proof. by apply seqb_true. Qed.

Lemma existsb_seqb x l : existsb (seqb x) l = bool_decide (x ∈ l).
Proof.
  induction l as [|y l IH]; cbn; [symmetry; by apply bool_decide_eq_false_2, not_elem_of_nil|]. rewrite IH.
  destruct (seqb_spec x y) as [->|Hxy]; cbn; [symmetry; by apply bool_decide_eq_true_2, list_elem_of_here|].
  apply bool_decide_ext. rewrite elem_of_cons. tauto.
Qed.

Create HintDb kalm.
Create Rewrite HintDb kalm.
#[export] Hint Rewrite seqb_true seqb_false @bind_Ok : kalm.
#[export] Hint Rewrite Bool.andb_true_iff Bool.orb_true_iff Bool.negb_true_iff
  Bool.andb_false_iff Bool.orb_false_iff : kalm.
#[export] Hint Resolve seqb_refl : kalm.

(** [bsimpl] turns the boolean hypotheses and the goal into propositions. *)
Ltac bsimpl := autorewrite with kalm in *.

(** [case_seqb] splits on the string comparison in the goal. *)
Ltac case_seqb :=
  match goal with
  | |- context [seqb ?a ?b] => destruct (seqb_spec a b); try subst
  end.

(** ** State and exceptions

    A method that reads and writes shared objects, and may throw. *)

Definition M (S A : Type) : Type := S -> result (A * S).

#[export] Instance M_ret {S} : MRet (M S) := fun A a s => Ok (a, s).
#[export] Instance M_bind {S} : MBind (M S) := fun A B f m s =>
  match m s with Ok (a, s') => f a s' | Throw e => Throw e end.

Definition mget {S} : M S S := fun s => Ok (s, s).
Definition mput {S} (s : S) : M S unit := fun _ => Ok (tt, s).
Definition mgets {S A} (f : S -> A) : M S A := fun s => Ok (f s, s).
Definition mmodify {S} (f : S -> S) : M S unit := fun s => Ok (tt, f s).
Definition mthrow {S A} (e : string) : M S A := fun _ => Throw e.

(** [for (const x of l) f(x)] *)
Fixpoint mforEach {S A} (f : A -> M S unit) (l : list A) : M S unit :=
  match l with
  | [] => mret tt
  | x :: l' => f x ;; mforEach f l'
  end.

Lemma M_bind_Ok {S A B} (f : A -> M S B) (m : M S A) s b s'' :
  (m ≫= f) s = Ok (b, s'') <-> exists a s', m s = Ok (a, s') /\ f a s' = Ok (b, s'').
Proof.
  unfold mbind, M_bind. destruct (m s) as [[a s']|e]; split; try done.
  - eauto.
  - by intros (? & ? & [= <- <-] & ?).
  - by intros (? & ? & ? & _).
Qed.

(** ** Reachability under an equivalent step relation *)

Lemma bsteps_iff {A} (R R' : relation A) n x y :
  (forall a b, R a b <-> R' a b) -> bsteps R n x y -> bsteps R' n x y.
Proof. intros H. apply (bsteps_congruence id). intros. by apply H. Qed.

Lemma rtc_iff {A} (R R' : relation A) x y :
  (forall a b, R a b <-> R' a b) -> rtc R' x y -> rtc R x y.
Proof. intros H. apply (rtc_congruence id). intros. by apply H. Qed.

(** ** Mapping there and back *)

Lemma fmap_inverse {A B} (f : A -> B) (g : B -> A) (l : list A) :
  Forall (fun x => g (f x) = x) l -> g <$> (f <$> l) = l.
Proof. induction 1 as [|x l Hx _ IH]; cbn; congruence. Qed.

(** Evaluates comparisons of string literals. *)
Ltac eval_seqb :=
  repeat match goal with
  | |- context [seqb ?x ?y] =>
      let v := eval vm_compute in (seqb x y) in
      first [constr_eq v true | constr_eq v false]; change (seqb x y) with v
  end; cbn [negb andb orb].
