(* ===== verification/JsString.v ===== *)
(** JavaScript strings, as far as the source uses them.  A [string] is a
    sequence of UTF-16 code units in the Latin-1 range; each [ascii] is one
    code unit.  The operations are those of [String.prototype] (and
    [Array.prototype.join]); an index -1 is [None]. *)

From S2P Require Import Prelude.

Local Open Scope string_scope.

#[global] Arguments String.append !_ _ /.

(** ** Characters *)

Definition code (a : ascii) : N := N_of_ascii a.

(** WhiteSpace and LineTerminator of ECMAScript, within Latin-1. *)
Definition is_ws (a : ascii) : bool :=
  let n := code a in
  ((9 <=? n) && (n <=? 13) || (n =? 32) || (n =? 160))%N.

Definition is_digit (a : ascii) : bool :=
  let n := code a in ((48 <=? n) && (n <=? 57))%N.
Definition is_lower (a : ascii) : bool :=
  let n := code a in ((97 <=? n) && (n <=? 122))%N.
Definition is_upper (a : ascii) : bool :=
  let n := code a in ((65 <=? n) && (n <=? 90))%N.

Definition to_lower_char (a : ascii) : ascii :=
  let n := code a in
  if ((65 <=? n) && (n <=? 90) || (192 <=? n) && (n <=? 222) && negb (n =? 215))%N
  then ascii_of_N (n + 32) else a.

#[global] Arguments is_ws _ : simpl never.
#[global] Arguments is_digit _ : simpl never.
#[global] Arguments is_lower _ : simpl never.
#[global] Arguments is_upper _ : simpl never.
#[global] Arguments to_lower_char _ : simpl never.

(** ** Operations *)

Fixpoint str_take (n : nat) (s : string) : string :=
  match n, s with
  | S n', String a s' => String a (str_take n' s')
  | _, _ => ""
  end.

Fixpoint str_drop (n : nat) (s : string) : string :=
  match n, s with
  | S n', String _ s' => str_drop n' s'
  | _, _ => s
  end.

(** [s.substring(i, j)] for i <= j; a larger end is clamped to the length. *)
Definition substring (i j : nat) (s : string) : string := str_take (j - i) (str_drop i s).

(** [s.charAt(0)] *)
Definition charAt0 (s : string) : string := str_take 1 s.

Definition startsWith (p s : string) : bool := String.prefix p s.

Fixpoint endsWith (p s : string) : bool :=
  seqb p s || match s with "" => false | String _ s' => endsWith p s' end.

Fixpoint indexOf (p s : string) : option nat :=
  if String.prefix p s then Some 0
  else match s with "" => None | String _ s' => S <$> indexOf p s' end.

Definition includes (p s : string) : bool :=
  match indexOf p s with Some _ => true | None => false end.

Fixpoint map_chars (f : ascii -> ascii) (s : string) : string :=
  match s with "" => "" | String a s' => String (f a) (map_chars f s') end.
Definition toLowerCase : string -> string := map_chars to_lower_char.

Fixpoint trimStart (s : string) : string :=
  match s with
  | String a s' => if is_ws a then trimStart s' else s
  | "" => ""
  end.

Fixpoint trimEnd (s : string) : string :=
  match s with
  | "" => ""
  | String a s' =>
      match trimEnd s' with
      | "" => if is_ws a then "" else String a ""
      | r => String a r
      end
  end.

Definition trim (s : string) : string := trimStart (trimEnd s).

(** [s.split(c)] for a separator of one character. *)
Fixpoint split_char (c : ascii) (s : string) : list string :=
  match s with
  | "" => [""]
  | String a s' =>
      if decide (a = c) then "" :: split_char c s'
      else match split_char c s' with
           | h :: t => String a h :: t
           | [] => [String a ""]
           end
  end.

(** [s.split(sep)] for a longer separator: [skip] counts the characters of a
    separator already matched. *)
Fixpoint split_go (sep : string) (skip : nat) (s : string) : list string :=
  match s with
  | "" => [""]
  | String a s' =>
      match skip with
      | S k => split_go sep k s'
      | O =>
          if String.prefix sep s then "" :: split_go sep (String.length sep - 1) s'
          else match split_go sep 0 s' with
               | h :: t => String a h :: t
               | [] => [String a ""]
               end
      end
  end.
Definition split_str (sep s : string) : list string := split_go sep 0 s.

(** [arr.join(sep)] *)
Fixpoint join (sep : string) (l : list string) : string :=
  match l with
  | [] => ""
  | [x] => x
  | x :: l' => x +:+ sep +:+ join sep l'
  end.

(** The expansion of [$$], [$&], [$`] and [$'] in the replacement text of
    [s.replace(pattern, text)] with a string pattern; a string pattern has no
    groups, so every other [$] stands for itself. *)
Fixpoint get_substitution (matched before after repl : string) : string :=
  match repl with
  | "" => ""
  | String a r =>
      match a, r with
      | "$"%char, String "$"%char r' => String "$" (get_substitution matched before after r')
      | "$"%char, String "&"%char r' => matched +:+ get_substitution matched before after r'
      | "$"%char, String "`"%char r' => before +:+ get_substitution matched before after r'
      | "$"%char, String "'"%char r' => after +:+ get_substitution matched before after r'
      | _, _ => String a (get_substitution matched before after r)
      end
  end.

(** [s.replace(pat, repl)] with a string pattern: the first occurrence. *)
Definition replace_first (pat repl s : string) : string :=
  match indexOf pat s with
  | None => s
  | Some i =>
      let before := str_take i s in
      let after := str_drop (i + String.length pat) s in
      before +:+ get_substitution pat before after repl +:+ after
  end.

(** [s.replace(/ab/g, "xy")] for a two-character literal pattern [ab] and a
    replacement without [$]. *)
Fixpoint replace_all2 (a b : ascii) (repl s : string) : string :=
  match s with
  | String x (String y s' as t) =>
      if decide (x = a /\ y = b) then repl +:+ replace_all2 a b repl s'
      else String x (replace_all2 a b repl t)
  | _ => s
  end.

(** The decimal digits of a natural number, [n.toString()]. *)
Definition nat_to_string (n : nat) : string := pretty.pretty n.

(** The decimal digits of an integer, as [Number.prototype.toString] prints it. *)
Definition int_to_string (z : Z) : string :=
  if (z <? 0)%Z then "-" +:+ nat_to_string (Z.to_nat (- z)) else nat_to_string (Z.to_nat z).

(** A string between double quotes. *)
Definition quote_char : ascii := "034".
Definition quoted (s : string) : string := String quote_char (s +:+ String quote_char "").

(** ** Laws *)

Lemma sapp_nil_r s : s +:+ "" = s.
Proof. induction s as [|a s IH]; [done|]. cbn. by f_equal. Qed.

Lemma sapp_assoc a b c : a +:+ (b +:+ c) = (a +:+ b) +:+ c.
Proof. induction a as [|x a IH]; [done|]. cbn. by f_equal. Qed.

Lemma sapp_cons x a b : String x a +:+ b = String x (a +:+ b).
Proof. done. Qed.

Lemma slength_app a b : String.length (a +:+ b) = String.length a + String.length b.
Proof. induction a as [|x a IH]; [done|]. cbn. by f_equal. Qed.

Lemma str_take_drop n s : str_take n s +:+ str_drop n s = s.
Proof.
  revert s. induction n as [|n IH]; intros [|a s]; [done..|]. cbn. by f_equal.
Qed.

Lemma str_take_app a b : str_take (String.length a) (a +:+ b) = a.
Proof. induction a as [|x a IH]; [by destruct b|]. cbn. by f_equal. Qed.

Lemma str_drop_app a b : str_drop (String.length a) (a +:+ b) = b.
Proof. induction a as [|x a IH]; [by destruct b|]. done. Qed.

Lemma str_take_app_ge n a b : String.length a <= n ->
  str_take n (a +:+ b) = a +:+ str_take (n - String.length a) b.
Proof.
  revert n. induction a as [|x a IH]; intros n Hn; cbn in *.
  - by rewrite Nat.sub_0_r.
  - destruct n as [|n]; [lia|]. cbn. f_equal. apply IH. lia.
Qed.

Lemma str_take_all n s : String.length s <= n -> str_take n s = s.
Proof.
  revert n. induction s as [|a s IH]; intros [|n] Hn; cbn in *; [done..|lia|].
  f_equal. apply IH. lia.
Qed.

Lemma length_str_take n s : String.length (str_take n s) = n `min` String.length s.
Proof. revert s. induction n as [|n IH]; intros [|a s]; cbn; [done..|]. by rewrite IH. Qed.

Lemma sapp_inj_l p a b : p +:+ a = p +:+ b -> a = b.
Proof. induction p as [|x p IH]; [done|]. cbn. intros [= H]. auto. Qed.

Lemma startsWith_spec p s : startsWith p s = true <-> exists t, s = p +:+ t.
Proof.
  unfold startsWith. revert s. induction p as [|a p IH]; intros s; cbn.
  { split; intros _; [by exists s | by destruct s]. }
  destruct s as [|b s]; cbn; [split; [done|by intros [? ?]]|].
  destruct (ascii_dec a b) as [->|Hn].
  - rewrite IH. split; intros [t Ht]; exists t; [by subst|]. cbn in Ht. by injection Ht.
  - split; [done|]. intros [t Ht]. cbn in Ht. injection Ht. congruence.
Qed.

Lemma endsWith_spec p s : endsWith p s = true <-> exists t, s = t +:+ p.
Proof.
  induction s as [|a s IH]; cbn [endsWith]; bsimpl.
  - split.
    + intros [->|?]; [by exists "" | done].
    + intros [[|? ?] Ht]; cbn in Ht; [by left | done].
  - rewrite IH. split.
    + intros [->|[t ->]]; [by exists "" | by exists (String a t)].
    + intros [[|b t] Ht]; cbn in Ht; [by left|]. right. exists t. by injection Ht.
Qed.

(** [has_char c s]: the character occurs in the string. *)
Fixpoint has_char (c : ascii) (s : string) : bool :=
  match s with "" => false | String a s' => bool_decide (a = c) || has_char c s' end.

Lemma has_char_app c a b : has_char c (a +:+ b) = has_char c a || has_char c b.
Proof. induction a as [|x a IH]; [done|]. cbn. rewrite IH. by destruct (bool_decide _). Qed.

Lemma indexOf_char_None c s : indexOf (String c "") s = None <-> has_char c s = false.
Proof.
  induction s as [|a s IH]; cbn; [done|].
  destruct (ascii_dec c a) as [->|Hn].
  - rewrite bool_decide_true by done. destruct s; split; done.
  - rewrite bool_decide_false, fmap_None by congruence. done.
Qed.

Lemma indexOf_char_Some c s i : indexOf (String c "") s = Some i <->
  exists pre post, s = pre +:+ String c post /\ has_char c pre = false /\ i = String.length pre.
Proof.
  revert i. induction s as [|a s IH]; intros i; cbn.
  { split; [done|]. by intros ([|? ?] & ? & ? & ?). }
  destruct (ascii_dec c a) as [<-|Hn].
  - replace (String.prefix "" s) with true by (by destruct s). split.
    + intros [= <-]. by exists "", s.
    + intros ([|b pre] & post & Hs & Hc & ->); [done|]. injection Hs as <- _.
      cbn in Hc. by rewrite bool_decide_true in Hc.
  - rewrite fmap_Some. split.
    + intros (k & (pre & post & -> & Hc & ->)%IH & ->). exists (String a pre), post.
      cbn. rewrite bool_decide_false by congruence. done.
    + intros ([|b pre] & post & Hs & Hc & ->); cbn in *; [congruence|].
      injection Hs as <- ->. exists (String.length pre). split; [|done].
      apply IH. exists pre, post. by bsimpl; destruct Hc.
Qed.

(** *** Splitting and joining *)

Lemma join_cons2 sep x y l : join sep (x :: y :: l) = x +:+ sep +:+ join sep (y :: l).
Proof. done. Qed.

Lemma split_char_ne c s : split_char c s <> [].
Proof. destruct s as [|a s]; cbn; [done|]. case_decide; [done|]. by destruct (split_char c s). Qed.

Lemma join_split_char c s : join (String c "") (split_char c s) = s.
Proof.
  induction s as [|a s IH]; cbn; [done|]. destruct (decide (a = c)) as [->|Hn].
  - destruct (split_char c s) as [|h t] eqn:E; [by apply split_char_ne in E|].
    cbn [join]. rewrite <- IH. done.
  - destruct (split_char c s) as [|h t] eqn:E; [by apply split_char_ne in E|].
    destruct t as [|h' t]; cbn in *; by rewrite <- IH.
Qed.

Lemma split_char_none c s : has_char c s = false -> split_char c s = [s].
Proof.
  induction s as [|a s IH]; cbn; [done|]. intros [Ha Hs]%Bool.orb_false_iff.
  rewrite decide_False by (by apply bool_decide_eq_false in Ha). by rewrite IH.
Qed.

Lemma split_char_app c a b : has_char c a = false ->
  split_char c (a +:+ String c b) = a :: split_char c b.
Proof.
  induction a as [|x a IH]; cbn; intros Ha; [by rewrite decide_True|].
  apply Bool.orb_false_iff in Ha as [Hx Ha].
  rewrite decide_False by (by apply bool_decide_eq_false in Hx). by rewrite IH.
Qed.

Lemma split_char_sep c a b :
  split_char c (a +:+ String c b) = (split_char c a ++ split_char c b)%list.
Proof.
  induction a as [|x a IH]; cbn; [by rewrite decide_True|]. rewrite IH.
  destruct (decide (x = c)); [done|]. destruct (split_char c a) eqn:E; [by apply split_char_ne in E|done].
Qed.

Lemma split_char_join c l : l <> [] -> Forall (fun x => has_char c x = false) l ->
  split_char c (join (String c "") l) = l.
Proof.
  intros Hne Hall. induction Hall as [|x l Hx Hl IH]; [done|].
  destruct l as [|y l]; [by apply split_char_none|].
  rewrite join_cons2. change (String c "" +:+ ?r) with (String c r).
  rewrite split_char_app by done. by rewrite IH.
Qed.

(** *** Trimming *)

Definition trimmed (s : string) : Prop := trim s = s.
#[export] Instance trimmed_dec s : Decision (trimmed s).
Proof. unfold trimmed. apply _. Defined.

Lemma trimEnd_idemp s : trimEnd (trimEnd s) = trimEnd s.
Proof.
  induction s as [|a s IH]; cbn; [done|].
  destruct (trimEnd s) as [|b r] eqn:E.
  - destruct (is_ws a) eqn:Ha; cbn; [done|]. by rewrite Ha.
  - remember (String b r) as t. cbn [trimEnd]. rewrite IH. by subst t.
Qed.

Lemma trimStart_trimEnd s : trimEnd (trimStart (trimEnd s)) = trimStart (trimEnd s).
Proof.
  assert (Hs : forall t, trimEnd t = t -> trimEnd (trimStart t) = trimStart t).
  { induction t as [|a t IH]; [done|]. intros Ht. cbn [trimStart].
    destruct (is_ws a) eqn:Ha; [|exact Ht]. apply IH. cbn in Ht. rewrite Ha in Ht.
    destruct (trimEnd t); [done|]. by injection Ht. }
  apply Hs, trimEnd_idemp.
Qed.

Lemma trimStart_idemp s : trimStart (trimStart s) = trimStart s.
Proof.
  induction s as [|a s IH]; cbn; [done|]. destruct (is_ws a) eqn:Ha; [done|]. cbn. by rewrite Ha.
Qed.

Lemma trim_trimmed s : trimmed (trim s).
Proof. unfold trimmed, trim. by rewrite trimStart_trimEnd, trimStart_idemp. Qed.

#[export] Hint Resolve trim_trimmed : kalm.

Lemma trimStart_app a b : a <> "" -> trimStart a = a -> trimStart (a +:+ b) = a +:+ b.
Proof.
  destruct a as [|x a]; [done|]. cbn. destruct (is_ws x) eqn:Hx; [|done]. intros _ H.
  assert (Hlen : forall t, String.length (trimStart t) <= String.length t).
  { clear. induction t as [|y t IH]; cbn; [lia|]. destruct (is_ws y); cbn; lia. }
  specialize (Hlen a). rewrite H in Hlen. cbn in Hlen. lia.
Qed.

Lemma trimEnd_app a b : b <> "" -> trimEnd b = b -> trimEnd (a +:+ b) = a +:+ b.
Proof.
  intros Hb Ht. induction a as [|x a IH]; [done|]. cbn. rewrite IH.
  destruct (a +:+ b) as [|y r] eqn:E; [|done]. by destruct a, b.
Qed.

Lemma trimmed_parts s : trimmed s <-> trimStart s = s /\ trimEnd s = s.
Proof.
  unfold trimmed, trim. split; [|by intros [H1 H2]; rewrite H2, H1]. intros H.
  assert (He : trimEnd s = s) by (rewrite <- H; apply trimStart_trimEnd).
  by rewrite He in H.
Qed.

Lemma trimmed_app3 a m b : trimmed a -> trimmed b -> a <> "" -> b <> "" -> trimmed (a +:+ m +:+ b).
Proof.
  rewrite !trimmed_parts. intros [Ha _] [_ Hb] Hna Hnb. split; [by apply trimStart_app|].
  rewrite sapp_assoc. by apply trimEnd_app.
Qed.

Lemma trimEnd_space a : trimEnd a = a -> trimEnd (a +:+ " ") = a.
Proof.
  induction a as [|x a IH]; [done|]. cbn. intros H.
  destruct (trimEnd a) as [|y r] eqn:E.
  - destruct (is_ws x) eqn:Hx; [done|]. injection H as <-. cbn.
      change (is_ws " ") with true. cbn. done.
  - injection H as <-. by rewrite IH.
Qed.

Lemma trim_space_r a : trimmed a -> trim (a +:+ " ") = a.
Proof. intros [H1 H2]%trimmed_parts. unfold trim. by rewrite trimEnd_space. Qed.

Lemma trim_space_l a : trimmed a -> a <> "" -> trim (" " +:+ a) = a.
Proof.
  intros [H1 H2]%trimmed_parts Ha. unfold trim. rewrite (trimEnd_app " ") by done.
  cbn. done.
Qed.

(** *** Character classes of a whole string *)

Fixpoint str_forall (P : ascii -> bool) (s : string) : bool :=
  match s with "" => true | String a s' => P a && str_forall P s' end.

Lemma str_forall_app P a b : str_forall P (a +:+ b) = str_forall P a && str_forall P b.
Proof. induction a as [|x a IH]; [done|]. cbn. by rewrite IH, Bool.andb_assoc. Qed.

Lemma has_char_forall c s : has_char c s = false <-> str_forall (fun a => negb (bool_decide (a = c))) s = true.
Proof. induction s as [|a s IH]; cbn; [done|]. bsimpl. by rewrite IH. Qed.

(** *** Decimal numerals *)

Lemma pretty_N_char_digit x : is_digit (pretty_N_char x) = true.
Proof. destruct x as [|p]; [done|]. do 4 (try (destruct p as [p|p|]; try done)). Qed.

Lemma pretty_N_go_digits x s : str_forall is_digit s = true -> str_forall is_digit (pretty_N_go x s) = true.
Proof.
  revert s. induction (N.lt_wf_0 x) as [x _ IH]. intros s Hs.
  destruct (decide (0 < x)%N) as [Hx|Hx].
  - rewrite pretty_N_go_step by done. apply IH; [apply N.div_lt; lia|].
    cbn [str_forall]. by rewrite pretty_N_char_digit.
  - assert (x = 0%N) as -> by lia. by rewrite pretty_N_go_0.
Qed.

Lemma nat_to_string_digits n : str_forall is_digit (nat_to_string n) = true.
Proof.
  unfold nat_to_string, pretty, pretty_nat, pretty, pretty_N. case_decide; [done|].
  by apply pretty_N_go_digits.
Qed.

Lemma nat_to_string_inj a b : nat_to_string a = nat_to_string b -> a = b.
Proof. unfold nat_to_string. apply (inj pretty). Qed.

Lemma nat_to_string_ne n : nat_to_string n <> "".
Proof.
  intros H.
  unfold nat_to_string, pretty, pretty_nat, pretty, pretty_N in H. case_decide; [done|].
  assert (Hgo : forall x s, s <> "" -> pretty_N_go x s <> "").
  { intros x. induction (N.lt_wf_0 x) as [x _ IH]. intros s Hs.
    destruct (decide (0 < x)%N) as [Hx|Hx].
    - rewrite pretty_N_go_step by done. apply IH; [apply N.div_lt; lia|done].
    - assert (x = 0%N) as -> by lia. by rewrite pretty_N_go_0. }
  rewrite pretty_N_go_step in H by lia. by apply Hgo in H.
Qed.

Lemma str_forall_has_char P c s : P c = false -> str_forall P s = true -> has_char c s = false.
Proof.
  intros Hc. induction s as [|a s IH]; cbn; [done|].
  intros [Ha Hs]%Bool.andb_true_iff. rewrite IH by done.
  rewrite bool_decide_false; [done|]. intros ->. congruence.
Qed.

Lemma map_chars_app f a b : map_chars f (a +:+ b) = map_chars f a +:+ map_chars f b.
Proof. induction a as [|x a IH]; [done|]. cbn. by rewrite IH. Qed.

Lemma toLowerCase_digits s : str_forall is_digit s = true -> toLowerCase s = s.
Proof.
  unfold toLowerCase. induction s as [|a s IH]; [done|]. cbn.
  intros [Ha Hs]%Bool.andb_true_iff. rewrite IH by done. f_equal.
  unfold is_digit, to_lower_char in *. set (n := code a) in *.
  apply Bool.andb_true_iff in Ha as [H1%N.leb_le H2%N.leb_le].
  replace ((65 <=? n) && (n <=? 90))%N with false by (symmetry; apply Bool.andb_false_iff; left; apply N.leb_gt; lia).
  replace (192 <=? n)%N with false by (symmetry; apply N.leb_gt; lia). done.
Qed.

Lemma toLowerCase_has_char c s : to_lower_char c = c ->
  (forall a, to_lower_char a = c -> a = c) -> has_char c (toLowerCase s) = has_char c s.
Proof.
  intros Hc Ha. unfold toLowerCase. induction s as [|a s IH]; [done|]. cbn. rewrite IH. f_equal.
  apply bool_decide_ext. split; [apply Ha | by intros ->].
Qed.

(** Splitting on a two-character separator whose characters are equal. *)
Lemma split_str_pair c a b : has_char c a = false -> has_char c b = false ->
  split_str (String c (String c "")) (a +:+ String c (String c b)) = [a; b].
Proof.
  intros Ha Hb. unfold split_str.
  assert (Hone : forall s, has_char c s = false -> split_go (String c (String c "")) 0 s = [s]).
  { induction s as [|x s IH]; [done|]. cbn [has_char]. intros [Hx Hs]%Bool.orb_false_iff.
    apply bool_decide_eq_false in Hx. cbn. destruct (ascii_dec c x); [congruence|]. by rewrite IH. }
  induction a as [|x a IH]; cbn.
  - destruct (ascii_dec c c); [|done]. destruct b; by rewrite Hone.
  - cbn [has_char] in Ha. apply Bool.orb_false_iff in Ha as [Hx Ha].
    apply bool_decide_eq_false in Hx. destruct (ascii_dec c x); [congruence|]. by rewrite IH.
Qed.
