(* ===== verification/JsMap.v ===== *)
(** The ECMAScript [Map]: keys in insertion order, [set] on a present key
    keeps its position. *)

From S2P Require Import Prelude.

Section jsmap.
Context {K V : Type} `{EqDecision K}.

Implicit Types (m : list (K * V)) (k : K) (v : V).

Fixpoint map_get m k : option V :=
  match m with
  | [] => None
  | (k', v) :: m' => if decide (k = k') then Some v else map_get m' k
  end.

Definition map_has m k : bool := if map_get m k is Some _ then true else false.

Fixpoint map_set m k v : list (K * V) :=
  match m with
  | [] => [(k, v)]
  | (k', v') :: m' => if decide (k = k') then (k', v) :: m' else (k', v') :: map_set m' k v
  end.

Definition map_keys m : list K := fst <$> m.
Definition map_values m : list V := snd <$> m.

Lemma map_get_set_eq m k v : map_get (map_set m k v) k = Some v.
Proof.
  induction m as [|[k' v'] m IH]; cbn; [by rewrite decide_True|].
  destruct (decide (k = k')); cbn; [by rewrite decide_True | by rewrite decide_False].
Qed.

Lemma map_get_set_ne m k k' v : k <> k' -> map_get (map_set m k v) k' = map_get m k'.
Proof.
  intros Hk. induction m as [|[k1 v1] m IH]; cbn; [by rewrite decide_False by congruence|].
  destruct (decide (k = k1)); cbn; [by rewrite !decide_False by congruence|].
  by destruct (decide (k' = k1)).
Qed.

Lemma map_get_set m k k' v :
  map_get (map_set m k v) k' = if decide (k = k') then Some v else map_get m k'.
Proof. case_decide; [subst; apply map_get_set_eq | by apply map_get_set_ne]. Qed.

Lemma map_keys_set m k v :
  map_keys (map_set m k v) = map_keys m ++ (if map_has m k then [] else [k]).
Proof.
  unfold map_has. induction m as [|[k1 v1] m IH]; cbn; [done|].
  destruct (decide (k = k1)); cbn; [by rewrite app_nil_r|]. by f_equal.
Qed.

Lemma map_get_keys m k : is_Some (map_get m k) <-> k ∈ map_keys m.
Proof.
  induction m as [|[k1 v1] m IH]; cbn.
  - split; [by intros [? ?] | by intros ?%not_elem_of_nil].
  - rewrite elem_of_cons, <- IH. case_decide; naive_solver.
Qed.

Lemma map_has_true m k : map_has m k = true <-> is_Some (map_get m k).
Proof. unfold map_has. destruct (map_get m k); split; try done; by intros [? ?]. Qed.

Lemma map_keys_NoDup m k v : NoDup (map_keys m) -> NoDup (map_keys (map_set m k v)).
Proof.
  intros Hm. rewrite map_keys_set. destruct (map_has m k) eqn:E; [by rewrite app_nil_r|].
  apply NoDup_app. repeat split; [done| |apply NoDup_singleton].
  intros x Hx ->%list_elem_of_singleton. apply map_get_keys, map_has_true in Hx. congruence.
Qed.

Lemma map_get_elem m k v : map_get m k = Some v -> (k, v) ∈ m.
Proof.
  induction m as [|[k1 v1] m IH]; cbn; [done|]. case_decide as Hk.
  - intros [= ->]. subst. by left.
  - intros ?. right. auto.
Qed.

Lemma elem_map_get m k v : NoDup (map_keys m) -> (k, v) ∈ m -> map_get m k = Some v.
Proof.
  induction m as [|[k1 v1] m IH]; cbn; [by intros _ ?%not_elem_of_nil|].
  intros [Hk Hm]%NoDup_cons [[= -> ->]|Hin]%elem_of_cons; [by rewrite decide_True|].
  rewrite decide_False; [auto|]. intros ->. apply Hk. by apply (list_elem_of_fmap_2 fst _ (k1, v)).
Qed.
End jsmap.
Abbreviation jsmap K V := (list (K * V)).

#[export] Hint Rewrite @map_get_set_eq : kalm.
