(* ===== verification/Regex.v ===== *)
(** Regular expressions of the program's validators: patterns anchored at both
    ends, matched by derivatives, with the language each pattern denotes. *)

From S2P Require Import Prelude JsString.

(** ** Syntax and language *)

Inductive regex :=
| RNone
| REps
| RChar (f : ascii -> bool)
| RSeq (r1 r2 : regex)
| RAlt (r1 r2 : regex)
| RStar (r : regex).

(** [r?], [r+] and a literal. *)
Definition ROpt (r : regex) : regex := RAlt r REps.
Definition RPlus (r : regex) : regex := RSeq r (RStar r).
Fixpoint RLit (s : string) : regex :=
  match s with
  | "" => REps
  | String a s' => RSeq (RChar (fun c => bool_decide (c = a))) (RLit s')
  end.
Fixpoint RSeqs (l : list regex) : regex :=
  match l with [] => REps | [r] => r | r :: l' => RSeq r (RSeqs l') end.
Fixpoint RAlts (l : list regex) : regex :=
  match l with [] => RNone | [r] => r | r :: l' => RAlt r (RAlts l') end.

(** [[lo-hi]] *)
Definition in_range (lo hi c : ascii) : bool := N.leb (code lo) (code c) && N.leb (code c) (code hi).
Definition RRange (lo hi : ascii) : regex := RChar (in_range lo hi).

Inductive in_lang : regex -> string -> Prop :=
| lang_eps : in_lang REps ""
| lang_char f c : f c = true -> in_lang (RChar f) (String c "")
| lang_seq r1 r2 s1 s2 : in_lang r1 s1 -> in_lang r2 s2 -> in_lang (RSeq r1 r2) (s1 +:+ s2)
| lang_alt_l r1 r2 s : in_lang r1 s -> in_lang (RAlt r1 r2) s
| lang_alt_r r1 r2 s : in_lang r2 s -> in_lang (RAlt r1 r2) s
| lang_star_nil r : in_lang (RStar r) ""
| lang_star_cons r s1 s2 : in_lang r s1 -> in_lang (RStar r) s2 -> in_lang (RStar r) (s1 +:+ s2).
#[export] Hint Constructors in_lang : kalm.

(** ** Matching *)

Fixpoint nullable (r : regex) : bool :=
  match r with
  | RNone | RChar _ => false
  | REps | RStar _ => true
  | RSeq r1 r2 => nullable r1 && nullable r2
  | RAlt r1 r2 => nullable r1 || nullable r2
  end.

Fixpoint deriv (c : ascii) (r : regex) : regex :=
  match r with
  | RNone | REps => RNone
  | RChar f => if f c then REps else RNone
  | RSeq r1 r2 =>
      if nullable r1 then RAlt (RSeq (deriv c r1) r2) (deriv c r2) else RSeq (deriv c r1) r2
  | RAlt r1 r2 => RAlt (deriv c r1) (deriv c r2)
  | RStar r => RSeq (deriv c r) (RStar r)
  end.

(** [s.match(/^r$/)] *)
Fixpoint matches (r : regex) (s : string) : bool :=
  match s with
  | "" => nullable r
  | String c s' => matches (deriv c r) s'
  end.

(** ** Correctness *)

Lemma lang_none s : ~ in_lang RNone s.
Proof. by inversion 1. Qed.

Lemma lang_eps_iff s : in_lang REps s <-> s = "".
Proof. split; [by inversion 1 | intros ->; constructor]. Qed.

Lemma lang_char_iff f s : in_lang (RChar f) s <-> exists c, s = String c "" /\ f c = true.
Proof. split; [inversion 1; eauto | intros (c & -> & ?); by constructor]. Qed.

Lemma lang_seq_iff r1 r2 s :
  in_lang (RSeq r1 r2) s <-> exists s1 s2, s = s1 +:+ s2 /\ in_lang r1 s1 /\ in_lang r2 s2.
Proof. split; [inversion 1; eauto 6 | intros (s1 & s2 & -> & ? & ?); by constructor]. Qed.

Lemma lang_alt_iff r1 r2 s : in_lang (RAlt r1 r2) s <-> in_lang r1 s \/ in_lang r2 s.
Proof. split; [inversion 1; auto | intros [?|?]; auto with kalm]. Qed.

Lemma lang_opt_iff r s : in_lang (ROpt r) s <-> in_lang r s \/ s = "".
Proof. unfold ROpt. by rewrite lang_alt_iff, lang_eps_iff. Qed.

Lemma nullable_spec r : nullable r = true <-> in_lang r "".
Proof.
  induction r as [| |f|r1 IH1 r2 IH2|r1 IH1 r2 IH2|r IH]; cbn.
  - split; [done | by intros ?%lang_none].
  - split; [constructor | done].
  - split; [done | by intros (c & ? & _)%lang_char_iff].
  - rewrite Bool.andb_true_iff, IH1, IH2, lang_seq_iff. split; [intros [? ?]; by exists "", ""|].
    intros ([|] & [|] & ? & ? & ?); by try done.
  - by rewrite Bool.orb_true_iff, IH1, IH2, lang_alt_iff.
  - split; [constructor | done].
Qed.

(** A non-empty string of a repetition starts with a non-empty string of its body. *)
Lemma star_cons_inv r c s : in_lang (RStar r) (String c s) ->
  exists s1 s2, s = s1 +:+ s2 /\ in_lang r (String c s1) /\ in_lang (RStar r) s2.
Proof.
  remember (RStar r) as rs eqn:Er. remember (String c s) as cs eqn:Es. intros H. revert s Es.
  induction H as [| | | | | |r' s1 s2 H1 _ H2 IH]; intros s0 Es; try done.
  injection Er as ->. destruct s1 as [|c' s1]; [by apply IH|].
  cbn in Es. injection Es as -> <-. by exists s1, s2.
Qed.

Lemma deriv_spec c r s : in_lang (deriv c r) s <-> in_lang r (String c s).
Proof.
  revert s. induction r as [| |f|r1 IH1 r2 IH2|r1 IH1 r2 IH2|r IH]; intros s; cbn.
  - split; by intros ?%lang_none.
  - split; [by intros ?%lang_none | by intros ?%lang_eps_iff].
  - rewrite lang_char_iff. destruct (f c) eqn:Hf.
    + rewrite lang_eps_iff. split; [intros ->; by exists c | by intros (c' & [= <- ->] & _)].
    + split; [by intros ?%lang_none | intros (c' & [= <- ->] & ?); congruence].
  - assert (Hseq : in_lang (RSeq (deriv c r1) r2) s <->
      exists s1 s2, s = s1 +:+ s2 /\ in_lang r1 (String c s1) /\ in_lang r2 s2).
    { rewrite lang_seq_iff. split; intros (s1 & s2 & ? & ?%IH1 & ?); eauto 6. }
    assert (Hcons : in_lang (RSeq r1 r2) (String c s) <->
      (exists s1 s2, s = s1 +:+ s2 /\ in_lang r1 (String c s1) /\ in_lang r2 s2) \/
      (in_lang r1 "" /\ in_lang r2 (String c s))).
    { rewrite lang_seq_iff. split.
      - intros ([|c' s1] & s2 & He & H1 & H2); cbn in He; [right; by subst|].
        injection He as <- ->. left. eauto 6.
      - intros [(s1 & s2 & -> & ? & ?)|[? ?]]; [by exists (String c s1), s2 | by exists "", (String c s)]. }
    rewrite Hcons, <- Hseq, <- IH2, <- nullable_spec. destruct (nullable r1).
    + rewrite lang_alt_iff. naive_solver.
    + naive_solver.
  - by rewrite !lang_alt_iff, IH1, IH2.
  - rewrite lang_seq_iff. split.
    + intros (s1 & s2 & -> & H1%IH & H2). by apply (lang_star_cons r (String c s1) s2).
    + intros (s1 & s2 & -> & H1 & H2)%star_cons_inv. exists s1, s2. split; [done|]. by rewrite IH.
Qed.

Lemma matches_spec r s : matches r s = true <-> in_lang r s.
Proof.
  revert r. induction s as [|c s IH]; intros r; cbn; [apply nullable_spec|].
  by rewrite IH, deriv_spec.
Qed.

(** ** Languages of common shapes *)

Lemma lang_lit s t : in_lang (RLit s) t <-> t = s.
Proof.
  revert t. induction s as [|a s IH]; intros t; cbn [RLit]; [apply lang_eps_iff|].
  rewrite lang_seq_iff. split.
  - intros (s1 & s2 & -> & (c & -> & ->%bool_decide_eq_true)%lang_char_iff & ->%IH). done.
  - intros ->. exists (String a ""), s. split; [done|]. split; [|by apply IH].
    apply lang_char_iff. exists a. split; [done|]. by apply bool_decide_eq_true.
Qed.

Lemma lang_star_char f s : in_lang (RStar (RChar f)) s <-> str_forall f s = true.
Proof.
  induction s as [|c s IH]; [split; [done | constructor]|]. cbn [str_forall].
  rewrite Bool.andb_true_iff, <- IH. split.
  - intros (s1 & s2 & -> & (c' & [= <- ->] & Hc)%lang_char_iff & H2)%star_cons_inv. done.
  - intros [Hc Hs]. apply (lang_star_cons _ (String c "") s); [by constructor | done].
Qed.

Lemma lang_plus_char f s : in_lang (RPlus (RChar f)) s <-> s <> "" /\ str_forall f s = true.
Proof.
  unfold RPlus. rewrite lang_seq_iff. split.
  - intros (s1 & s2 & -> & (c & -> & Hc)%lang_char_iff & H2%lang_star_char). cbn. by rewrite Hc.
  - intros [Hne Hall]. destruct s as [|c s]; [done|]. cbn in Hall. apply Bool.andb_true_iff in Hall as [Hc Hs].
    exists (String c ""), s. split; [done|]. split; [by constructor | by apply lang_star_char].
Qed.

(** ** Finite languages

    The strings of a pattern without repetition, so that facts about such a
    pattern are decided by evaluation. *)

Definition all_chars : list ascii := ascii_of_nat <$> seq 0 256.

Lemma all_chars_elem c : c ∈ all_chars.
Proof.
  unfold all_chars. apply list_elem_of_fmap. exists (nat_of_ascii c).
  split; [by rewrite ascii_nat_embedding|]. apply elem_of_seq. pose proof (nat_ascii_bounded c). lia.
Qed.

Fixpoint star_free (r : regex) : bool :=
  match r with
  | RNone | REps | RChar _ => true
  | RSeq r1 r2 | RAlt r1 r2 => star_free r1 && star_free r2
  | RStar _ => false
  end.

Fixpoint enum (r : regex) : list string :=
  match r with
  | RNone | RStar _ => []
  | REps => [""]
  | RChar f => (fun c => String c "") <$> List.filter f all_chars
  | RSeq r1 r2 => s1 ← enum r1; (fun s2 => s1 +:+ s2) <$> enum r2
  | RAlt r1 r2 => enum r1 ++ enum r2
  end.

Lemma enum_spec r s : star_free r = true -> s ∈ enum r <-> in_lang r s.
Proof.
  revert s. induction r as [| |f|r1 IH1 r2 IH2|r1 IH1 r2 IH2|r IH]; intros s Hr;
    cbn [star_free enum] in Hr |- *; [| | | | |discriminate].
  - split; [by intros ?%not_elem_of_nil | by intros ?%lang_none].
  - by rewrite list_elem_of_singleton, lang_eps_iff.
  - rewrite list_elem_of_fmap, lang_char_iff. split.
    + intros (c & -> & Hc). exists c. split; [done|]. by apply list_elem_of_In, filter_In in Hc as [_ ?].
    + intros (c & -> & Hc). exists c. split; [done|]. apply list_elem_of_In, filter_In.
      split; [|done]. apply list_elem_of_In, all_chars_elem.
  - apply Bool.andb_true_iff in Hr as [H1 H2]. rewrite list_elem_of_bind, lang_seq_iff. split.
    + intros (s1 & (s2 & -> & Hs2)%list_elem_of_fmap & Hs1). exists s1, s2. split; [done|].
      split; [by apply IH1 | by apply IH2].
    + intros (s1 & s2 & -> & Hs1%IH1 & Hs2%IH2); [|done..]. exists s1. split; [|done].
      by apply list_elem_of_fmap_2.
  - apply Bool.andb_true_iff in Hr as [H1 H2]. rewrite elem_of_app, lang_alt_iff. by rewrite IH1, IH2.
Qed.

(** Membership in an explicit list of strings. *)
Definition listed (l : list string) (s : string) : bool := existsb (seqb s) l.

Lemma listed_spec l s : listed l s = true <-> s ∈ l.
Proof.
  unfold listed. rewrite existsb_exists. split.
  - intros (x & Hx & ->%seqb_true). by apply list_elem_of_In.
  - intros Hs. exists s. split; [by apply list_elem_of_In | apply seqb_refl].
Qed.

(** Two finite languages agree when their lists do. *)
Lemma enum_agrees r l : star_free r = true ->
  forallb (listed l) (enum r) && forallb (listed (enum r)) l = true ->
  forall s, in_lang r s <-> s ∈ l.
Proof.
  intros Hr [H1 H2]%Bool.andb_true_iff s. rewrite <- enum_spec by done.
  rewrite forallb_forall in H1, H2. split; intros Hs%list_elem_of_In.
  - by apply listed_spec, H1.
  - by apply listed_spec, H2.
Qed.
