(* ===== verification/RoleManager.v ===== *)
(** [rbac/casbin/roleManager.ts]: the role graph of the access-control model.

    A [Role] object is shared: [allRoles] and the [roles] arrays of other roles
    hold references to it, so roles live in a heap and a reference is an index
    in it.  A role name is [None] where the code passes [undefined] (a [g] line
    of a policy with fewer than two names). *)

From S2P Require Import Prelude JsString JsMap.


(** ** Data *)

Abbreviation name := (option string).
Abbreviation loc := nat (only parsing).

(** The name in a template or a concatenation. *)
Definition name_to_string (n : name) : string := default "undefined" n.

Record Role := mkRole { role_name : name; role_roles : list loc }.

Abbreviation Heap := (list Role).

Record DefaultRoleManager := mkRM {
  allRoles : jsmap name loc;
  maxHierarchyLevel : nat;
  hasPattern : bool;
  matchingFunc : option (name -> name -> bool)
}.

(** [new DefaultRoleManager(n)] *)
Definition newDefaultRoleManager (n : nat) : DefaultRoleManager :=
  mkRM [] n false None.

(** ** Class [Role] *)

Definition Role_some (h : Heap) (l : loc) (n : name) : bool :=
  match h !! l with Some r => bool_decide (role_name r = n) | None => false end.

Definition Role_addRole (h : Heap) (this role : loc) : Heap :=
  match h !! this, h !! role with
  | Some t, Some r =>
      if existsb (fun l => Role_some h l (role_name r)) (role_roles t) then h
      else <[this := mkRole (role_name t) (role_roles t ++ [role])]> h
  | _, _ => h
  end.

Definition Role_deleteRole (h : Heap) (this role : loc) : Heap :=
  match h !! this, h !! role with
  | Some t, Some r =>
      <[this := mkRole (role_name t)
                  (List.filter (fun l => negb (Role_some h l (role_name r))) (role_roles t))]> h
  | _, _ => h
  end.

Fixpoint Role_hasRole (h : Heap) (this : loc) (n : name) (hierarchyLevel : nat) : bool :=
  match h !! this with
  | None => false
  | Some t =>
      bool_decide (role_name t = n) ||
      match hierarchyLevel with
      | O => false
      | S k => existsb (fun l => Role_hasRole h l n k) (role_roles t)
      end
  end.

Definition Role_hasDirectRole (h : Heap) (this : loc) (n : name) : bool :=
  match h !! this with
  | None => false
  | Some t => existsb (fun l => Role_some h l n) (role_roles t)
  end.

Definition Role_getRoles (h : Heap) (this : loc) : list name :=
  match h !! this with
  | None => []
  | Some t => (fun l => default None (role_name <$> h !! l)) <$> role_roles t
  end.

(** ** Class [DefaultRoleManager] *)

Definition RM (A : Type) : Type := M (Heap * DefaultRoleManager) A.

Definition heap_set (h : Heap) : RM unit := mmodify (fun s => (h, s.2)).
Definition mgr_set (m : DefaultRoleManager) : RM unit := mmodify (fun s => (s.1, m)).
Definition with_allRoles (m : DefaultRoleManager) (a : jsmap name loc) : DefaultRoleManager :=
  mkRM a (maxHierarchyLevel m) (hasPattern m) (matchingFunc m).

(** The domain prefix of [name1]; more than one domain is an error. *)
Definition domain_name (domain : list string) (n : name) : result name :=
  match domain with
  | [] => Ok n
  | [d] => Ok (Some (d +:+ "::" +:+ name_to_string n))
  | _ => Throw "error: domain should be 1 parameter"
  end.

Definition RM_lift {A} (r : result A) : RM A :=
  match r with Ok a => mret a | Throw e => mthrow e end.

(** [this.matchingFunc!(a, b)] *)
Definition callMatchingFunc (m : DefaultRoleManager) (a b : name) : result bool :=
  match matchingFunc m with
  | Some f => Ok (f a b)
  | None => Throw "TypeError: this.matchingFunc is not a function"
  end.

(** The loop of [createRole] over the keys present when it starts. *)
Definition createRole_patterns (n : name) (role : loc) : RM unit :=
  s ← mget;
  mforEach (fun roleName =>
    s ← mget;
    b ← RM_lift (callMatchingFunc s.2 n roleName);
    if negb (b && bool_decide (n <> roleName)) then mret tt
    else match map_get (allRoles s.2) roleName with
         | Some inherit => heap_set (Role_addRole s.1 role inherit)
         | None => mret tt
         end) (map_keys (allRoles s.2)).

Definition createRole (n : name) : RM loc :=
  s ← mget;
  role ← match map_get (allRoles s.2) n with
         | Some role => mret role
         | None =>
             let newRole := length s.1 in
             heap_set (s.1 ++ [mkRole n []]);;
             mgr_set (with_allRoles s.2 (map_set (allRoles s.2) n newRole));;
             mret newRole
         end;
  if negb (hasPattern s.2) then mret role
  else createRole_patterns n role;; mret role.

Fixpoint hasRole_patterns (m : DefaultRoleManager) (n : name) (keys : list name) : result bool :=
  match keys with
  | [] => Ok false
  | role :: keys' =>
      b ← callMatchingFunc m n role;
      if b : bool then Ok true else hasRole_patterns m n keys'
  end.

Definition hasRole (n : name) : RM bool :=
  s ← mget;
  if negb (hasPattern s.2) then mret (map_has (allRoles s.2) n)
  else RM_lift (hasRole_patterns s.2 n (map_keys (allRoles s.2))).

Definition addLink (name1 name2 : name) (domain : list string) : RM unit :=
  name1 ← RM_lift (domain_name domain name1);
  name2 ← RM_lift (domain_name domain name2);
  role1 ← createRole name1;
  role2 ← createRole name2;
  s ← mget;
  heap_set (Role_addRole s.1 role1 role2).

Definition clear : RM unit := s ← mget; mgr_set (with_allRoles s.2 []).

Definition deleteLink (name1 name2 : name) (domain : list string) : RM unit :=
  name1 ← RM_lift (domain_name domain name1);
  name2 ← RM_lift (domain_name domain name2);
  b1 ← hasRole name1;
  b2 ← (if b1 : bool then hasRole name2 else mret false);
  if negb b2 then mret tt
  else
    role1 ← createRole name1;
    role2 ← createRole name2;
    s ← mget;
    heap_set (Role_deleteRole s.1 role1 role2).

(** [n.substring(domain[0].length + 2, n.length)] *)
Definition strip_domain (d : string) (n : name) : name :=
  str_drop (String.length d + 2) <$> n.

Definition getRoles (n : name) (domain : list string) : RM (list name) :=
  n ← RM_lift (domain_name domain n);
  b ← hasRole n;
  if negb b then mret []
  else
    role ← createRole n;
    s ← mget;
    let roles := Role_getRoles s.1 role in
    mret (if domain is [d] then strip_domain d <$> roles else roles).

Definition getUsers (n : name) (domain : list string) : RM (list name) :=
  n ← RM_lift (domain_name domain n);
  b ← hasRole n;
  if negb b then mret []
  else
    s ← mget;
    let users := (fun l => default None (role_name <$> s.1 !! l))
                   <$> List.filter (fun l => Role_hasDirectRole s.1 l n) (map_values (allRoles s.2)) in
    mret (if domain is [d] then strip_domain d <$> users else users).

Definition hasLink (name1 name2 : name) (domain : list string) : RM bool :=
  name1 ← RM_lift (domain_name domain name1);
  name2 ← RM_lift (domain_name domain name2);
  if bool_decide (name1 = name2) then mret true
  else
    b1 ← hasRole name1;
    b2 ← (if b1 : bool then hasRole name2 else mret false);
    if negb b2 then mret false
    else
      role1 ← createRole name1;
      s ← mget;
      mret (Role_hasRole s.1 role1 name2 (maxHierarchyLevel s.2)).

(** ** The role graph

    [link s a b]: role [a] holds a reference to role [b], both registered.
    [rm_wf] is the invariant of a manager without pattern matching (the only
    kind the class can build: [hasPattern] is private and never set). *)

Definition link (s : Heap * DefaultRoleManager) (a b : name) : Prop :=
  exists l r l', map_get (allRoles s.2) a = Some l /\ s.1 !! l = Some r /\
                 l' ∈ role_roles r /\ map_get (allRoles s.2) b = Some l'.

Record rm_wf (s : Heap * DefaultRoleManager) : Prop := {
  wf_nopattern : hasPattern s.2 = false;
  wf_names : forall n l, map_get (allRoles s.2) n = Some l ->
    exists r, s.1 !! l = Some r /\ role_name r = n;
  wf_closed : forall n l r l', map_get (allRoles s.2) n = Some l -> s.1 !! l = Some r ->
    l' ∈ role_roles r -> exists n', map_get (allRoles s.2) n' = Some l'
}.

(** Managers with the same links; names that have no link may differ. *)
Definition same_graph (s s' : Heap * DefaultRoleManager) : Prop :=
  forall a b, link s a b <-> link s' a b.

#[export] Instance same_graph_equiv : Equivalence same_graph.
Proof.
  split.
  - intros s a b. done.
  - intros s t H a b. symmetry. apply H.
  - intros s t u H1 H2 a b. rewrite (H1 a b). apply H2.
Qed.

#[export] Instance link_proper : Proper (same_graph ==> eq ==> eq ==> iff) link.
Proof. intros s s' H a ? <- b ? <-. apply H. Qed.

Lemma link_alt s a b l : rm_wf s -> map_get (allRoles s.2) a = Some l ->
  link s a b <-> exists r l' r', s.1 !! l = Some r /\ l' ∈ role_roles r /\
                           s.1 !! l' = Some r' /\ role_name r' = b.
Proof.
  intros Hwf Ha. split.
  - intros (l0 & r & l' & Ha' & Hr & Hin & Hb). rewrite Ha in Ha'. injection Ha' as <-.
    destruct (wf_names _ Hwf _ _ Hb) as (r' & ? & ?). by exists r, l', r'.
  - intros (r & l' & r' & Hr & Hin & Hr' & Hn). exists l, r, l'. repeat split; [done..|].
    destruct (wf_closed _ Hwf _ _ _ _ Ha Hr Hin) as [n' Hn'].
    destruct (wf_names _ Hwf _ _ Hn') as (r2 & Hr2 & Hn2). congruence.
Qed.

(** [Role.hasRole] searches the graph up to the given depth. *)
Lemma Role_hasRole_spec s k a b l : rm_wf s -> map_get (allRoles s.2) a = Some l ->
  Role_hasRole s.1 l b k = true <-> bsteps (link s) k a b.
Proof.
  intros Hwf. revert a l. induction k as [|k IH]; intros a l Ha; cbn;
    destruct (wf_names _ Hwf _ _ Ha) as (r & Hr & <-); rewrite Hr; bsimpl;
    rewrite bool_decide_eq_true.
  - split; [intros [->|?]; [constructor|done] | inversion 1; by left].
  - rewrite existsb_exists. split.
    + intros [->|(l' & Hin%list_elem_of_In & Hl')]; [constructor|].
      destruct (wf_closed _ Hwf _ _ _ _ Ha Hr Hin) as [n' Hn'].
      apply (bsteps_l _ _ _ n'); [by exists l, r, l' | by apply (IH _ l')].
    + inversion 1 as [|? ? n' ? (l0 & r0 & l' & Ha' & Hr' & Hin & Hn') Hst]; subst; [by left|].
      right. exists l'. rewrite Ha in Ha'. injection Ha' as <-. rewrite Hr in Hr'. injection Hr' as <-.
      split; [by apply list_elem_of_In | by apply (IH n')].
Qed.

(** [createRole] registers the name and keeps the graph. *)
Lemma createRole_spec s n : rm_wf s ->
  exists l s', createRole n s = Ok (l, s') /\ rm_wf s' /\ same_graph s s' /\
    maxHierarchyLevel s'.2 = maxHierarchyLevel s.2 /\
    (forall l0, map_get (allRoles s.2) n = Some l0 -> l = l0) /\
    forall n', map_get (allRoles s'.2) n' =
          if decide (n' = n) then Some l else map_get (allRoles s.2) n'.
Proof.
  intros Hwf. pose proof (wf_nopattern _ Hwf) as Hp. destruct s as [h m].
  unfold createRole, mbind, M_bind, mget. cbn -[map_set] in *.
  destruct (map_get (allRoles m) n) as [l|] eqn:Hn; cbn -[map_set].
  - rewrite Hp. exists l, (h, m). repeat split; try done; try apply Hwf; [congruence|].
    intros n'; cbn. case_decide; congruence.
  - rewrite Hp. cbn -[map_set].
    set (m' := with_allRoles m _). set (h' := h ++ [_]).
    assert (Hg : forall n', map_get (allRoles m') n' =
              if decide (n' = n) then Some (length h) else map_get (allRoles m) n').
    { intros n'. cbn -[map_set map_get]. rewrite map_get_set. repeat case_decide; congruence. }
    assert (Hlt : forall n' l', map_get (allRoles m) n' = Some l' -> h' !! l' = h !! l').
    { intros n' l' (r & Hr & _)%(wf_names _ Hwf). cbn in Hr. apply lookup_app_l.
      by eapply lookup_lt_Some. }
    assert (Hnew : h' !! length h = Some (mkRole n [])) by (by apply list_lookup_middle).
    assert (Hwf' : rm_wf (h', m')).
    { split; [apply Hwf| |]; cbn; intros n' l'; rewrite Hg; case_decide as Hd.
      - intros [= <-]. exists (mkRole n []). by subst.
      - intros Hl. rewrite (Hlt _ _ Hl). by apply (wf_names _ Hwf).
      - intros r l2 [= <-]. rewrite Hnew. intros [= <-]. by intros ?%not_elem_of_nil.
      - intros r l2 Hl. rewrite (Hlt _ _ Hl). intros Hr Hin.
        destruct (wf_closed _ Hwf _ _ _ _ Hl Hr Hin) as [n2 Hn2]. exists n2. rewrite Hg.
        case_decide; [|done]. cbn in Hn2. congruence. }
    exists (length h), (h', m'). split; [done|]. split; [done|]. repeat split; try done.
    + intros (l & r & l' & Hl & Hr & Hin & Hl'). exists l, r, l'. cbn in *. rewrite !Hg.
      rewrite !decide_False by congruence. by rewrite (Hlt _ _ Hl).
    + intros (l & r & l' & Hl & Hr & Hin & Hl'). cbn in *. rewrite Hg in Hl. case_decide.
      * injection Hl as <-. rewrite Hnew in Hr. injection Hr as <-. by apply not_elem_of_nil in Hin.
      * rewrite (Hlt _ _ Hl) in Hr.
        destruct (wf_closed _ Hwf _ _ _ _ Hl Hr Hin) as [n2 Hn2]. cbn in Hn2.
        exists l, r, l'. repeat split; [done..|]. rewrite Hg in Hl'. case_decide; [|done].
        injection Hl' as <-. apply (wf_names _ Hwf) in Hn2 as (r2 & Hr2 & _). cbn in Hr2.
        apply lookup_lt_Some in Hr2. lia.
Qed.

Lemma Role_some_spec s l n : rm_wf s ->
  (exists n', map_get (allRoles s.2) n' = Some l) ->
  Role_some s.1 l n = true <-> map_get (allRoles s.2) n = Some l.
Proof.
  intros Hwf [n' Hn']. destruct (wf_names _ Hwf _ _ Hn') as (r & Hr & Hname).
  unfold Role_some. rewrite Hr, bool_decide_eq_true. split; [by intros <-; rewrite Hname|].
  intros Hn. destruct (wf_names _ Hwf _ _ Hn) as (r2 & Hr2 & <-). congruence.
Qed.

(** Replacing the reference list of a registered role by another list of
    registered roles keeps the invariant and changes only its own links. *)
Lemma set_roles_spec s a l r roles : rm_wf s ->
  map_get (allRoles s.2) a = Some l -> s.1 !! l = Some r ->
  (forall l', l' ∈ roles -> exists n', map_get (allRoles s.2) n' = Some l') ->
  let s' := (<[l := mkRole (role_name r) roles]> s.1, s.2) in
  rm_wf s' /\
  forall x y, link s' x y <->
    if decide (x = a) then (exists l', l' ∈ roles /\ map_get (allRoles s.2) y = Some l') else link s x y.
Proof.
  intros Hwf Ha Hr Hroles s'.
  assert (Hl : s'.1 !! l = Some (mkRole (role_name r) roles)).
  { apply list_lookup_insert_eq. by eapply lookup_lt_Some. }
  assert (Hne : forall l', l' <> l -> s'.1 !! l' = s.1 !! l').
  { intros l' ?. by apply list_lookup_insert_ne. }
  assert (Huniq : forall n l', map_get (allRoles s.2) n = Some l' -> l' = l -> n = a).
  { intros n l' Hn ->. destruct (wf_names _ Hwf _ _ Hn) as (? & ? & <-).
    destruct (wf_names _ Hwf _ _ Ha) as (? & ? & <-). congruence. }
  split; [split|].
  - apply (wf_nopattern _ Hwf).
  - intros n l' Hn. destruct (decide (l' = l)) as [->|Hd].
    + rewrite Hl. eexists. split; [done|]. cbn. rewrite (Huniq _ _ Hn eq_refl).
      destruct (wf_names _ Hwf _ _ Ha) as (? & ? & <-). congruence.
    + rewrite Hne by done. by apply (wf_names _ Hwf).
  - intros n l1 r1 l2 Hn. destruct (decide (l1 = l)) as [->|Hd].
    + rewrite Hl. intros [= <-]. apply Hroles.
    + rewrite Hne by done. apply (wf_closed _ Hwf _ _ _ _ Hn).
  - intros x y. case_decide as Hx.
    + subst x. split.
      * intros (l1 & r1 & l2 & Hl1 & Hr1 & Hin & Hy). cbn in Hl1. assert (l1 = l) as -> by congruence.
        rewrite Hl in Hr1. injection Hr1 as <-. by exists l2.
      * intros (l2 & Hin & Hy). by exists l, (mkRole (role_name r) roles), l2.
    + split; intros (l1 & r1 & l2 & Hl1 & Hr1 & Hin & Hy); exists l1, r1, l2; cbn in *;
        (repeat split; [done| |done|done]);
        [rewrite <- (Hne l1); [done|] | rewrite (Hne l1); [done|]];
        intros ->; by apply Hx, (Huniq _ _ Hl1).
Qed.

Lemma Role_addRole_spec s a b l1 l2 : rm_wf s ->
  map_get (allRoles s.2) a = Some l1 -> map_get (allRoles s.2) b = Some l2 ->
  let s' := (Role_addRole s.1 l1 l2, s.2) in
  rm_wf s' /\ forall x y, link s' x y <-> link s x y \/ (x = a /\ y = b).
Proof.
  intros Hwf Ha Hb. unfold Role_addRole.
  destruct (wf_names _ Hwf _ _ Ha) as (r1 & Hr1 & Hn1).
  destruct (wf_names _ Hwf _ _ Hb) as (r2 & Hr2 & Hn2). rewrite Hr1, Hr2, Hn2.
  destruct (existsb _ (role_roles r1)) eqn:E.
  - rewrite <- surjective_pairing. split; [done|]. intros x y.
    split; [by left|]. intros [?|[-> ->]]; [done|].
    apply existsb_exists in E as (l & Hin%list_elem_of_In & Hl).
    apply Role_some_spec in Hl; [|done|by apply (wf_closed _ Hwf _ _ _ _ Ha Hr1)].
    by exists l1, r1, l.
  - destruct (set_roles_spec s a l1 r1 (role_roles r1 ++ [l2]) Hwf Ha Hr1) as [Hwf' Hlink].
    { intros l' [Hin| ->%list_elem_of_singleton]%elem_of_app; [|by eexists].
      by apply (wf_closed _ Hwf _ _ _ _ Ha Hr1). }
    split; [done|]. intros x y. rewrite (Hlink x y). case_decide as Hx; [subst x|naive_solver].
    split.
    + intros (l' & [Hin| ->%list_elem_of_singleton]%elem_of_app & Hy); [left; by exists l1, r1, l'|].
      right. split; [done|]. destruct (wf_names _ Hwf _ _ Hy) as (? & ? & <-). congruence.
    + intros [(l & r & l' & Hl & Hr & Hin & Hy)|[_ ->]].
      * exists l'. split; [|done]. apply elem_of_app. left. congruence.
      * exists l2. split; [|done]. apply elem_of_app. right. by apply list_elem_of_singleton.
Qed.

Lemma Role_deleteRole_spec s a b l1 l2 : rm_wf s ->
  map_get (allRoles s.2) a = Some l1 -> map_get (allRoles s.2) b = Some l2 ->
  let s' := (Role_deleteRole s.1 l1 l2, s.2) in
  rm_wf s' /\ forall x y, link s' x y <-> link s x y /\ ~ (x = a /\ y = b).
Proof.
  intros Hwf Ha Hb. unfold Role_deleteRole.
  destruct (wf_names _ Hwf _ _ Ha) as (r1 & Hr1 & Hn1).
  destruct (wf_names _ Hwf _ _ Hb) as (r2 & Hr2 & Hn2). rewrite Hr1, Hr2, Hn2.
  set (keep := List.filter _ (role_roles r1)) in *.
  assert (Hkeep : forall l', l' ∈ keep <-> l' ∈ role_roles r1 /\ l' <> l2).
  { intros l'. unfold keep. rewrite !list_elem_of_In, filter_In, <- list_elem_of_In.
    split; intros [Hin Hl']; (split; [done|]).
    - bsimpl. intros ->. by rewrite (proj2 (Role_some_spec s l2 b Hwf (ex_intro _ b Hb)) Hb) in Hl'.
    - bsimpl. apply Bool.not_true_iff_false. intros Hs%Role_some_spec; [|done|].
      + congruence.
      + by apply (wf_closed _ Hwf _ _ _ _ Ha Hr1). }
  destruct (set_roles_spec s a l1 r1 keep Hwf Ha Hr1) as [Hwf' Hlink].
  { intros l' [Hin _]%Hkeep. by apply (wf_closed _ Hwf _ _ _ _ Ha Hr1). }
  split; [done|]. intros x y. rewrite (Hlink x y). case_decide as Hx; [subst x|naive_solver].
  split.
  - intros (l' & [Hin Hne]%Hkeep & Hy). split; [by exists l1, r1, l'|]. intros [_ ->]. congruence.
  - intros [(l & r & l' & Hl & Hr & Hin & Hy) Hnot]. exists l'. split; [|done]. apply Hkeep.
    split; [congruence|]. intros ->. apply Hnot. split; [done|].
    destruct (wf_names _ Hwf _ _ Hy) as (? & ? & <-). congruence.
Qed.

Lemma hasRole_spec s n : rm_wf s -> hasRole n s = Ok (map_has (allRoles s.2) n, s).
Proof. intros Hwf. unfold hasRole, mbind, M_bind, mget. by rewrite (wf_nopattern _ Hwf). Qed.

Lemma createRole_present s n l : rm_wf s -> map_get (allRoles s.2) n = Some l ->
  createRole n s = Ok (l, s).
Proof.
  intros Hwf Hn. unfold createRole, mbind, M_bind, mget. rewrite Hn. cbn.
  by rewrite (wf_nopattern _ Hwf).
Qed.

Lemma link_registered s a b : link s a b ->
  is_Some (map_get (allRoles s.2) a) /\ is_Some (map_get (allRoles s.2) b).
Proof. intros (l & r & l' & ? & _ & _ & ?). by split; eexists. Qed.

Lemma bsteps_registered s k a b : bsteps (link s) k a b -> a = b \/
  (is_Some (map_get (allRoles s.2) a) /\ is_Some (map_get (allRoles s.2) b)).
Proof.
  induction 1 as [|k x y z Hxy Hyz IH]; [by left|]. right.
  destruct (link_registered _ _ _ Hxy) as [Hx Hy]. destruct IH as [<-|[_ Hz]]; done.
Qed.

Definition hasLink_result (s : Heap * DefaultRoleManager) (a b : name) (r : bool) : Prop :=
  hasLink a b [] s = Ok (r, s) /\
  (r = true <-> bsteps (link s) (maxHierarchyLevel s.2) a b).

(** [hasLink] always answers, changes nothing, and answers whether the second
    role is reachable within [maxHierarchyLevel] links. *)
Lemma hasLink_total s a b : rm_wf s -> exists r, hasLink_result s a b r.
Proof.
  intros Hwf. unfold hasLink_result, hasLink, mbind, M_bind. cbn.
  destruct (bool_decide (a = b)) eqn:Hab.
  { exists true. apply bool_decide_eq_true in Hab as ->. split; [done|]. split; [constructor|done]. }
  apply bool_decide_eq_false in Hab. rewrite hasRole_spec by done.
  assert (Hno : map_has (allRoles s.2) a = false \/ map_has (allRoles s.2) b = false ->
                ~ bsteps (link s) (maxHierarchyLevel s.2) a b).
  { intros Hor [?|[Ha Hb]]%bsteps_registered; [done|].
    apply map_has_true in Ha, Hb. destruct Hor; congruence. }
  destruct (map_has (allRoles s.2) a) eqn:Ha; cbn.
  2: { exists false. split; [done|]. split; [done|]. intros ?. exfalso. by apply Hno; [left|]. }
  rewrite hasRole_spec by done.
  destruct (map_has (allRoles s.2) b) eqn:Hb; cbn.
  2: { exists false. split; [done|]. split; [done|]. intros ?. exfalso. by apply Hno; [right|]. }
  apply map_has_true in Ha as [l Hl]. rewrite (createRole_present s a l) by done. cbn.
  eexists. split; [done|]. by apply Role_hasRole_spec.
Qed.

Lemma hasLink_spec s a b r s' : rm_wf s -> hasLink a b [] s = Ok (r, s') ->
  s' = s /\ (r = true <-> bsteps (link s) (maxHierarchyLevel s.2) a b).
Proof. intros Hwf H. destruct (hasLink_total s a b Hwf) as (r' & H' & ?).
  rewrite H in H'. by injection H' as <- <-. Qed.

Lemma addLink_spec s a b : rm_wf s ->
  exists s', addLink a b [] s = Ok (tt, s') /\ rm_wf s' /\
    maxHierarchyLevel s'.2 = maxHierarchyLevel s.2 /\
    (forall x y, link s' x y <-> link s x y \/ (x = a /\ y = b)) /\
    forall n, is_Some (map_get (allRoles s'.2) n) <->
         n = a \/ n = b \/ is_Some (map_get (allRoles s.2) n).
Proof.
  intros Hwf. unfold addLink, mbind, M_bind. cbn.
  destruct (createRole_spec s a Hwf) as (l1 & s1 & -> & Hwf1 & Hg1 & Hm1 & Hold1 & Hget1).
  destruct (createRole_spec s1 b Hwf1) as (l2 & s2 & -> & Hwf2 & Hg2 & Hm2 & Hold2 & Hget2). cbn.
  assert (Hb : map_get (allRoles s2.2) b = Some l2) by (by rewrite Hget2, decide_True).
  assert (Ha1 : map_get (allRoles s1.2) a = Some l1) by (by rewrite Hget1, decide_True).
  assert (Ha : map_get (allRoles s2.2) a = Some l1).
  { rewrite Hget2. destruct (decide (a = b)) as [->|Hd]; [|done]. by rewrite (Hold2 l1). }
  destruct (Role_addRole_spec s2 a b l1 l2 Hwf2 Ha Hb) as [Hwf3 Hlink].
  eexists. split; [done|]. split; [done|]. split; [cbn; congruence|]. split.
  - intros x y. rewrite (Hlink x y), (Hg1 x y), (Hg2 x y). done.
  - intros n. cbn. rewrite Hget2. case_decide as Hnb; [naive_solver|].
    rewrite Hget1. case_decide; naive_solver.
Qed.

Lemma deleteLink_spec s a b : rm_wf s ->
  exists s', deleteLink a b [] s = Ok (tt, s') /\ rm_wf s' /\
    forall x y, link s' x y <-> link s x y /\ ~ (x = a /\ y = b).
Proof.
  intros Hwf. unfold deleteLink, mbind, M_bind. cbn.
  assert (Hno : map_has (allRoles s.2) a = false \/ map_has (allRoles s.2) b = false ->
                forall x y, link s x y <-> link s x y /\ ~ (x = a /\ y = b)).
  { intros Hor x y. split; [|naive_solver]. intros Hl. split; [done|]. intros [-> ->].
    apply link_registered in Hl as [Ha%map_has_true Hb%map_has_true]. destruct Hor; congruence. }
  rewrite hasRole_spec by done. destruct (map_has (allRoles s.2) a) eqn:Ha; cbn.
  2: { exists s. split; [done|]. split; [done|]. apply Hno. by left. }
  rewrite hasRole_spec by done. destruct (map_has (allRoles s.2) b) eqn:Hb; cbn.
  2: { exists s. split; [done|]. split; [done|]. apply Hno. by right. }
  apply map_has_true in Ha as [l1 Hl1], Hb as [l2 Hl2].
  rewrite (createRole_present s a l1) by done. cbn.
  rewrite (createRole_present s b l2) by done. cbn.
  eexists. split; [done|]. by apply Role_deleteRole_spec.
Qed.

Lemma clear_spec s : hasPattern s.2 = false ->
  exists s', clear s = Ok (tt, s') /\ rm_wf s' /\ maxHierarchyLevel s'.2 = maxHierarchyLevel s.2 /\
    (forall n, map_get (allRoles s'.2) n = None) /\ forall x y, ~ link s' x y.
Proof.
  intros Hp. eexists. split; [done|]. split; [by split|]. split; [done|].
  split; [done|]. intros x y (? & ? & ? & ? & _). done.
Qed.

Lemma newDefaultRoleManager_wf h n : rm_wf (h, newDefaultRoleManager n).
Proof. by split. Qed.

(** Direct roles and direct users of a name, as lists of names. *)
Lemma getRoles_spec s a : rm_wf s ->
  exists roles, getRoles a [] s = Ok (roles, s) /\ forall b, b ∈ roles <-> link s a b.
Proof.
  intros Hwf. unfold getRoles, mbind, M_bind. cbn. rewrite hasRole_spec by done.
  destruct (map_has (allRoles s.2) a) eqn:Ha; cbn.
  - apply map_has_true in Ha as [l Hl]. rewrite (createRole_present s a l) by done. cbn.
    eexists. split; [done|]. intros b. rewrite (link_alt s a b l Hwf Hl).
    destruct (wf_names _ Hwf _ _ Hl) as (r & Hr & Hn). unfold Role_getRoles. rewrite Hr.
    rewrite list_elem_of_fmap. split.
    + intros (l' & -> & Hin). destruct (wf_closed _ Hwf _ _ _ _ Hl Hr Hin) as [n' Hn'].
      destruct (wf_names _ Hwf _ _ Hn') as (r' & Hr' & Hnm). exists r, l', r'. by rewrite Hr'.
    + intros (r0 & l' & r' & Hr0 & Hin & Hr' & <-). exists l'. rewrite Hr'.
      split; [done|]. congruence.
  - exists []. split; [done|]. intros b. split; [by intros ?%not_elem_of_nil|].
    intros [Ha'%map_has_true _]%link_registered. congruence.
Qed.

Lemma getUsers_spec s b : rm_wf s -> NoDup (map_keys (allRoles s.2)) ->
  exists users, getUsers b [] s = Ok (users, s) /\ forall a, a ∈ users <-> link s a b.
Proof.
  intros Hwf Hnd. unfold getUsers, mbind, M_bind. cbn. rewrite hasRole_spec by done.
  destruct (map_has (allRoles s.2) b) eqn:Hb; cbn.
  - eexists. split; [done|]. intros a. rewrite list_elem_of_fmap. split.
    + intros (l & -> & Hin). apply list_elem_of_In, filter_In in Hin as [Hin Hd].
      apply list_elem_of_In, list_elem_of_fmap in Hin as ([n l0] & -> & Hin).
      apply (elem_map_get _ _ _ Hnd) in Hin. cbn in *.
      destruct (wf_names _ Hwf _ _ Hin) as (r & Hr & <-). rewrite Hr. cbn.
      unfold Role_hasDirectRole in Hd. rewrite Hr in Hd.
      apply existsb_exists in Hd as (l' & Hl'%list_elem_of_In & Hs).
      apply Role_some_spec in Hs; [|done|by apply (wf_closed _ Hwf _ _ _ _ Hin Hr)].
      by exists l0, r, l'.
    + intros (l & r & l' & Hl & Hr & Hin & Hb'). exists l. rewrite Hr. cbn.
      split; [by destruct (wf_names _ Hwf _ _ Hl) as (? & ? & <-); congruence|].
      apply list_elem_of_In, filter_In. split.
      * apply list_elem_of_In, list_elem_of_fmap. exists (a, l). split; [done|].
        by apply map_get_elem.
      * unfold Role_hasDirectRole. rewrite Hr. apply existsb_exists. exists l'.
        split; [by apply list_elem_of_In|]. apply Role_some_spec; [done| |done]. by exists b.
  - exists []. split; [done|]. intros a. split; [by intros ?%not_elem_of_nil|].
    intros [_ Hb'%map_has_true]%link_registered. congruence.
Qed.

(** ** Completeness of the depth bound

    With at most [maxHierarchyLevel + 1] registered names the bounded search
    finds every inherited role. *)

Section shorten.
Context {A : Type} `{EqDecision A} (R : A -> A -> Prop).

(** [route x l y]: a path from [x] to [y] whose later nodes are [l]. *)
Inductive route : A -> list A -> A -> Prop :=
| route_nil x : route x [] x
| route_cons x y l z : R x y -> route y l z -> route x (y :: l) z.

Lemma route_nsteps x l y : route x l y -> nsteps R (length l) x y.
Proof. induction 1; cbn; [constructor | by eapply nsteps_l]. Qed.

Lemma nsteps_route n x y : nsteps R n x y -> exists l, route x l y.
Proof.
  induction 1 as [|? x y z Hxy _ [l Hl]]; [by exists []; constructor|].
  exists (y :: l). by econstructor.
Qed.

Lemma route_from x l y w : route x l y -> w ∈ l ->
  exists l', route w l' y /\ sublist (w :: l') l.
Proof.
  induction 1 as [x|x z l y Hxz Hr IH]; [by intros ?%not_elem_of_nil|].
  intros [->|Hin]%elem_of_cons; [by exists l|].
  destruct (IH Hin) as (l' & ? & ?). exists l'. split; [done|]. by apply sublist_cons.
Qed.

Lemma route_NoDup x l y : route x l y ->
  exists l', route x l' y /\ NoDup (x :: l') /\ sublist l' l.
Proof.
  induction 1 as [x|x z l y Hxz Hr (l' & Hr' & Hnd & Hsub)].
  { exists []. split; [constructor|]. split; [apply NoDup_singleton|done]. }
  destruct (decide (x ∈ z :: l')) as [Hin|Hno].
  - apply elem_of_cons in Hin as [->|Hin].
    + exists l'. split; [done|]. split; [done|]. by apply sublist_cons.
    + destruct (route_from _ _ _ _ Hr' Hin) as (l2 & Hr2 & Hsub2). exists l2. split; [done|].
      split; [by eapply sublist_NoDup; [eapply NoDup_cons_1_2|]|].
      apply sublist_cons. etrans; [|done]. etrans; [|done]. by apply sublist_cons.
  - exists (z :: l'). split; [by econstructor|]. split; [by apply NoDup_cons|].
    by apply sublist_skip.
Qed.

(** Paths stay inside a list of nodes that contains every target. *)
Lemma route_bound x l y (D : list A) : route x l y ->
  x ∈ D -> (forall a b, R a b -> b ∈ D) -> bsteps R (length D - 1) x y.
Proof.
  intros (l' & Hr & Hnd & _)%route_NoDup Hx HD.
  assert (Hincl : forall w, w ∈ l' -> w ∈ D).
  { clear -Hr HD. induction Hr as [|x z l y Hxz Hr IH]; intros w; [by intros ?%not_elem_of_nil|].
    intros [->|?]%elem_of_cons; [by eapply HD | auto]. }
  assert (Hlen : length (x :: l') <= length D).
  { apply submseteq_length, NoDup_submseteq; [done|]. intros w [->|?]%elem_of_cons; auto. }
  apply (bsteps_weaken (length l')); [cbn in Hlen; lia|].
  apply bsteps_nsteps. exists (length l'). split; [lia|]. by apply route_nsteps.
Qed.
End shorten.

Theorem reachable_within_bound s a b : rm_wf s ->
  length (allRoles s.2) <= S (maxHierarchyLevel s.2) ->
  rtc (link s) a b <-> bsteps (link s) (maxHierarchyLevel s.2) a b.
Proof.
  intros Hwf Hlen. split; [|intros H; apply rtc_bsteps; eauto].
  intros [n Hn]%rtc_nsteps. destruct (nsteps_route _ _ _ _ Hn) as [l Hl].
  destruct l as [|z l']; [inversion Hl; constructor|].
  assert (Ha : a ∈ map_keys (allRoles s.2)).
  { inversion Hl as [|? ? ? ? Haz]; subst. apply map_get_keys, (link_registered _ _ _ Haz). }
  apply (bsteps_weaken (length (map_keys (allRoles s.2)) - 1)).
  - unfold map_keys. rewrite length_fmap. lia.
  - eapply route_bound; [done|done|]. intros x y Hxy. apply map_get_keys, (link_registered _ _ _ Hxy).
Qed.

(** ** Refinement: a manager is a set of edges

    The sequences of operations a client may run, and the relation they build. *)

Inductive rm_op :=
| OpAddLink (a b : name)
| OpDeleteLink (a b : name)
| OpClear.

Definition run_op (op : rm_op) : RM unit :=
  match op with
  | OpAddLink a b => addLink a b []
  | OpDeleteLink a b => deleteLink a b []
  | OpClear => clear
  end.

Abbreviation edges := (list (name * name)).

Definition spec_op (E : edges) (op : rm_op) : edges :=
  match op with
  | OpAddLink a b => (a, b) :: E
  | OpDeleteLink a b => filter (fun e => e <> (a, b)) E
  | OpClear => []
  end.

Definition edge (E : edges) (a b : name) : Prop := (a, b) ∈ E.

(** The manager [s] represents the edges [E]. *)
Record represents (n : nat) (s : Heap * DefaultRoleManager) (E : edges) : Prop := {
  rep_wf : rm_wf s;
  rep_level : maxHierarchyLevel s.2 = n;
  rep_keys : NoDup (map_keys (allRoles s.2));
  rep_link : forall a b, link s a b <-> edge E a b
}.

Lemma createRole_keys s n l s' : rm_wf s -> createRole n s = Ok (l, s') ->
  NoDup (map_keys (allRoles s.2)) -> NoDup (map_keys (allRoles s'.2)).
Proof.
  intros Hwf. pose proof (wf_nopattern _ Hwf) as Hp. destruct s as [h m].
  unfold createRole, mbind, M_bind, mget. cbn -[map_set] in *.
  destruct (map_get (allRoles m) n) as [l0|]; cbn -[map_set]; rewrite Hp; cbn -[map_set];
    intros [= <- <-]; [done|apply map_keys_NoDup].
Qed.

Lemma addLink_keys s a b s' : rm_wf s -> addLink a b [] s = Ok (tt, s') ->
  NoDup (map_keys (allRoles s.2)) -> NoDup (map_keys (allRoles s'.2)).
Proof.
  intros Hwf. unfold addLink, mbind, M_bind. cbn.
  destruct (createRole_spec s a Hwf) as (l1 & s1 & H1 & Hwf1 & _). rewrite H1.
  destruct (createRole_spec s1 b Hwf1) as (l2 & s2 & H2 & _). rewrite H2. cbn.
  intros [= <-] Hk. apply (createRole_keys s1 b l2 s2 Hwf1 H2).
  by apply (createRole_keys s a l1 s1 Hwf H1).
Qed.

Lemma deleteLink_manager s a b s' : rm_wf s -> deleteLink a b [] s = Ok (tt, s') -> s'.2 = s.2.
Proof.
  intros Hwf. unfold deleteLink, mbind, M_bind. cbn.
  rewrite hasRole_spec by done. destruct (map_has (allRoles s.2) a) eqn:Ha; cbn; [|by intros [= <-]].
  rewrite hasRole_spec by done. destruct (map_has (allRoles s.2) b) eqn:Hb; cbn; [|by intros [= <-]].
  apply map_has_true in Ha as [l1 Hl1], Hb as [l2 Hl2].
  rewrite (createRole_present s a l1) by done. cbn.
  rewrite (createRole_present s b l2) by done. cbn. by intros [= <-].
Qed.

Lemma run_op_represents n s E op : represents n s E ->
  exists s', run_op op s = Ok (tt, s') /\ represents n s' (spec_op E op).
Proof.
  intros [Hwf Hn Hk Hl]. destruct op as [a b|a b|]; cbn.
  - destruct (addLink_spec s a b Hwf) as (s' & Hs' & Hwf' & Hm & Hlink & _).
    exists s'. split; [done|]. split; [done|congruence|exact (addLink_keys _ _ _ _ Hwf Hs' Hk)|].
    intros x y. rewrite Hlink, Hl. unfold edge. rewrite elem_of_cons. naive_solver.
  - destruct (deleteLink_spec s a b Hwf) as (s' & Hs' & Hwf' & Hlink).
    pose proof (deleteLink_manager _ _ _ _ Hwf Hs') as Hm.
    exists s'. split; [done|]. split; [done|congruence|by rewrite Hm|].
    intros x y. rewrite Hlink, Hl. unfold edge. rewrite list_elem_of_filter. naive_solver.
  - destruct (clear_spec s (wf_nopattern _ Hwf)) as (s' & Hs' & Hwf' & Hm & _ & Hno).
    exists s'. split; [done|]. split; [done|congruence| |].
    + injection Hs' as <-. apply NoDup_nil_2.
    + intros x y. split; [by intros ?%Hno | by intros ?%not_elem_of_nil].
Qed.

Lemma run_ops_represents n ops : forall s E, represents n s E ->
  exists s', mforEach run_op ops s = Ok (tt, s') /\ represents n s' (foldl spec_op E ops).
Proof.
  induction ops as [|op ops IH]; intros s E Hrep; [by exists s|].
  destruct (run_op_represents n s E op Hrep) as (s1 & H1 & Hrep1).
  destruct (IH s1 _ Hrep1) as (s' & H' & Hrep'). exists s'. split; [|done].
  cbn. unfold mbind, M_bind. by rewrite H1.
Qed.

Lemma new_represents h n : represents n (h, newDefaultRoleManager n) [].
Proof.
  split; [apply newDefaultRoleManager_wf|done|apply NoDup_nil_2|].
  intros a b. split; [by intros (? & ? & ? & ? & _) | by intros ?%not_elem_of_nil].
Qed.

(** C31: Refinement of the role manager to a set of edges.  After any sequence of
    [addLink], [deleteLink] and [clear] on a new manager with hierarchy level
    [n], none of which throws, [hasLink] answers whether the second name is at
    most [n] edges away, [getRoles] answers the successors and [getUsers] the
    predecessors of a name, and none of the three changes the manager. *)
Theorem role_manager_refines h n ops :
  exists s, mforEach run_op ops (h, newDefaultRoleManager n) = Ok (tt, s) /\
    let E := foldl spec_op [] ops in
    (forall a b, exists r, hasLink a b [] s = Ok (r, s) /\ (r = true <-> bsteps (edge E) n a b)) /\
    (forall a, exists l, getRoles a [] s = Ok (l, s) /\ forall b, b ∈ l <-> (a, b) ∈ E) /\
    (forall b, exists l, getUsers b [] s = Ok (l, s) /\ forall a, a ∈ l <-> (a, b) ∈ E).
Proof.
  destruct (run_ops_represents n ops _ _ (new_represents h n)) as (s & Hs & [Hwf Hn Hk Hl]).
  exists s. split; [done|]. cbn. split; [|split].
  - intros a b. destruct (hasLink_total s a b Hwf) as (r & Hr & Hspec). exists r. split; [done|].
    rewrite Hspec, Hn. split; apply bsteps_iff; intros; [|symmetry]; apply Hl.
  - intros a. destruct (getRoles_spec s a Hwf) as (l & ? & Hspec). exists l. split; [done|].
    intros b. rewrite Hspec. apply Hl.
  - intros b. destruct (getUsers_spec s b Hwf Hk) as (l & ? & Hspec). exists l. split; [done|].
    intros a. rewrite Hspec. apply Hl.
Qed.

(** C32: The hierarchy bound loses no inherited role in a manager with at most one
    name more than the bound: [hasLink] then answers exactly whether the second
    name is reachable from the first through any number of links, cycles
    included. *)
Theorem hasLink_complete s a b : rm_wf s ->
  length (allRoles s.2) <= S (maxHierarchyLevel s.2) ->
  exists r, hasLink a b [] s = Ok (r, s) /\ (r = true <-> rtc (link s) a b).
Proof.
  intros Hwf Hlen. destruct (hasLink_total s a b Hwf) as (r & Hr & Hspec). exists r.
  split; [done|]. rewrite Hspec. symmetry. by apply reachable_within_bound.
Qed.

(** A cycle of three roles. *)
Definition cycle_ops : list rm_op :=
  [OpAddLink (Some "a") (Some "b"); OpAddLink (Some "b") (Some "c"); OpAddLink (Some "c") (Some "a")].

Definition cycle_manager : Heap * DefaultRoleManager :=
  match mforEach run_op cycle_ops ([], newDefaultRoleManager 10) with
  | Ok (_, s) => s
  | Throw _ => ([], newDefaultRoleManager 10)
  end.

Lemma cycle_manager_wf : rm_wf cycle_manager.
Proof.
  unfold cycle_manager.
  by destruct (run_ops_represents 10 cycle_ops _ _ (new_represents [] 10)) as (s & -> & [? ? ? ?]).
Qed.

Lemma hasLink_complete_witness :
  exists r, hasLink (Some "c") (Some "b") [] cycle_manager = Ok (r, cycle_manager) /\
    (r = true <-> rtc (link cycle_manager) (Some "c") (Some "b")).
Proof. apply (hasLink_complete cycle_manager); [apply cycle_manager_wf | vm_compute; lia]. Defined.
