(* ===== verification/CasbinEffect.v ===== *)
(** [rbac/casbin/effect.ts]: combining the effects of the matched policies. *)

From S2P Require Import Prelude.

(** ** Data *)

(** The enum [Effect] is numeric, and a matcher may return any number. *)
Definition Effect : Type := Z.
Definition Allow : Effect := 1%Z.
Definition Indeterminate : Effect := 2%Z.
Definition Deny : Effect := 3%Z.

Record DefaultEffectorStream := mkStream { st_done : bool; st_res : bool; st_expr : string }.

(** ** Operations *)

(** [DefaultEffector.newStream] *)
Definition newStream (expr : string) : DefaultEffectorStream := mkStream false false expr.

Definition current (s : DefaultEffectorStream) : bool := st_res s.

Definition expr_allow_override : string := "some(where (p_eft == allow))".
Definition expr_deny_override : string := "!some(where (p_eft == deny))".
Definition expr_allow_and_deny : string :=
  "some(where (p_eft == allow)) && !some(where (p_eft == deny))".
Definition expr_priority : string := "priority(p_eft) || deny".

(** [pushEffect]: the new stream; the pair it returns is its [res] and [done]. *)
Definition pushEffect (s : DefaultEffectorStream) (eft : Effect) : result DefaultEffectorStream :=
  let e := st_expr s in
  if seqb e expr_allow_override then
    Ok (if (eft =? Allow)%Z then mkStream true true e else s)
  else if seqb e expr_deny_override then
    Ok (if (eft =? Deny)%Z then mkStream true false e else mkStream (st_done s) true e)
  else if seqb e expr_allow_and_deny then
    Ok (if (eft =? Allow)%Z then mkStream (st_done s) true e
        else if (eft =? Deny)%Z then mkStream true false e
        else s)
  else if seqb e expr_priority then
    Ok (if negb (eft =? Indeterminate)%Z then mkStream true (eft =? Allow)%Z e else s)
  else Throw "unsupported effect".

(** The use of a stream: effects are pushed until the stream is done. *)
Fixpoint pushAll (s : DefaultEffectorStream) (efts : list Effect) : result DefaultEffectorStream :=
  match efts with
  | [] => Ok s
  | eft :: efts' =>
      s' ← pushEffect s eft;
      if st_done s' then Ok s' else pushAll s' efts'
  end.

(** ** What a stream computes *)

Definition has_eft (e : Effect) (efts : list Effect) : bool := existsb (Z.eqb e) efts.

Definition decisive (e : Effect) : bool := negb (e =? Indeterminate)%Z.

(** The declarative reading of the four policy effects. *)
Definition effect_spec (expr : string) (efts : list Effect) : option bool :=
  if seqb expr expr_allow_override then Some (has_eft Allow efts)
  else if seqb expr expr_deny_override then
    Some (negb (has_eft Deny efts) && negb (bool_decide (efts = [])))
  else if seqb expr expr_allow_and_deny then
    Some (has_eft Allow efts && negb (has_eft Deny efts))
  else if seqb expr expr_priority then
    Some (if List.find decisive efts is Some e then (e =? Allow)%Z else false)
  else None.

Lemma has_eft_cons e x efts : has_eft e (x :: efts) = (x =? e)%Z || has_eft e efts.
Proof. unfold has_eft. cbn [existsb]. by rewrite Z.eqb_sym. Qed.

Lemma find_decisive_cons x efts :
  List.find decisive (x :: efts) = if decisive x then Some x else List.find decisive efts.
Proof. done. Qed.

Lemma pushAll_cons s e efts : pushAll s (e :: efts) =
  (s' ← pushEffect s e; if st_done s' then Ok s' else pushAll s' efts).
Proof. done. Qed.

Lemma pushAll_allow efts : pushAll (newStream expr_allow_override) efts =
  Ok (mkStream (has_eft Allow efts) (has_eft Allow efts) expr_allow_override).
Proof.
  induction efts as [|e efts IH]; [done|]. rewrite pushAll_cons, has_eft_cons.
  change (pushEffect _ e) with (Ok (if (e =? Allow)%Z then mkStream true true expr_allow_override
                                    else newStream expr_allow_override)).
  destruct (e =? Allow)%Z; [done|]. apply IH.
Qed.

(** For the deny-override and the combined effect: the result after a prefix
    that left the stream with result [b] and not done. *)
Lemma pushAll_deny b efts :
  st_res <$> pushAll (mkStream false b expr_deny_override) efts =
  Ok (negb (has_eft Deny efts) && (b || negb (bool_decide (efts = [])))).
Proof.
  revert b. induction efts as [|e efts IH]; intros b; [by destruct b|].
  rewrite pushAll_cons, has_eft_cons.
  change (pushEffect _ e) with (Ok (if (e =? Deny)%Z then mkStream true false expr_deny_override
                                    else mkStream false true expr_deny_override)).
  rewrite (bool_decide_false (e :: efts = [])), Bool.orb_true_r by done.
  destruct (e =? Deny)%Z; [done|]. cbn [mbind result_bind st_done]. rewrite IH. cbn.
  by rewrite Bool.andb_true_r.
Qed.

Lemma pushAll_both b efts :
  st_res <$> pushAll (mkStream false b expr_allow_and_deny) efts =
  Ok ((b || has_eft Allow efts) && negb (has_eft Deny efts)).
Proof.
  revert b. induction efts as [|e efts IH]; intros b; [by destruct b|].
  rewrite pushAll_cons, !has_eft_cons.
  change (pushEffect _ e) with (Ok (if (e =? Allow)%Z then mkStream false true expr_allow_and_deny
    else if (e =? Deny)%Z then mkStream true false expr_allow_and_deny
    else mkStream false b expr_allow_and_deny)).
  destruct (Z.eqb_spec e Allow) as [->|Ha]; cbn [mbind result_bind st_done].
  - rewrite IH. cbn. by rewrite Bool.orb_true_r.
  - destruct (e =? Deny)%Z; cbn [st_done]; [cbn; by rewrite Bool.andb_false_r|]. apply IH.
Qed.

Lemma pushAll_priority efts :
  st_res <$> pushAll (newStream expr_priority) efts =
  Ok (if List.find decisive efts is Some e then (e =? Allow)%Z else false).
Proof.
  induction efts as [|e efts IH]; [done|]. rewrite pushAll_cons, find_decisive_cons.
  change (pushEffect _ e) with (Ok (if decisive e then mkStream true (e =? Allow)%Z expr_priority
                                    else newStream expr_priority)).
  destruct (decisive e); [done|]. apply IH.
Qed.

Lemma pushAll_spec expr efts r : effect_spec expr efts = Some r ->
  st_res <$> pushAll (newStream expr) efts = Ok r.
Proof.
  unfold effect_spec. destruct (seqb_spec expr expr_allow_override) as [->|].
  { intros [= <-]. by rewrite pushAll_allow. }
  destruct (seqb_spec expr expr_deny_override) as [->|].
  { intros [= <-]. apply pushAll_deny. }
  destruct (seqb_spec expr expr_allow_and_deny) as [->|].
  { intros [= <-]. unfold newStream. rewrite pushAll_both. done. }
  destruct (seqb_spec expr expr_priority) as [->|]; [|done].
  intros [= <-]. apply pushAll_priority.
Qed.

(** ** Properties *)

(** C35: For each of the four supported policy effects, pushing the effects of
    the policies until the stream is done leaves the result that the effect
    means declaratively: some allow; no deny among at least one policy; some
    allow and no deny; the first decisive effect is an allow.  Stopping early
    never changes the answer. *)
Theorem effect_stream_correct expr efts r : effect_spec expr efts = Some r ->
  exists s, pushAll (newStream expr) efts = Ok s /\ current s = r.
Proof.
  intros H%pushAll_spec. destruct (pushAll _ _) as [s|e]; [|done].
  exists s. split; [done|]. by injection H.
Qed.

Example effect_stream_correct_witness :
  effect_spec expr_allow_and_deny [Allow; Deny; Allow] = Some false /\
  exists s, pushAll (newStream expr_allow_and_deny) [Allow; Deny; Allow] = Ok s /\ current s = false.
Proof. split; [reflexivity|]. apply effect_stream_correct. reflexivity. Defined.
