(* ===== verification/CasbinConfig.v ===== *)
(** [rbac/casbin/config.ts]: the ini-like format of the access-control model. *)

From S2P Require Import Prelude JsString.

(** ** Data *)

(** [Config.data]; its iteration order is never used. *)
Abbreviation Config := (gmap string (gmap string string)).

Definition DEFAULT_SECTION : string := "default".
Definition DEFAULT_COMMENT : string := "#".
Definition DEFAULT_COMMENT_SEM : string := ";".
Definition DEFAULT_MULTI_LINE_SEPARATOR : string := "\".

(** The locals of [parseBuffer] and the configuration it fills. *)
Record ParseState := mkParse { ps_section : string; ps_currentLine : string; ps_data : Config }.

(** ** Operations *)

Definition addConfig (data : Config) (section option value : string) : Config :=
  let section := if seqb section "" then DEFAULT_SECTION else section in
  <[section := <[option := value]> (default ∅ (data !! section))]> data.

Definition write (data : Config) (section : string) (lineNum : nat) (line : string) : result Config :=
  match indexOf "=" line with
  | None => Throw ("parse the content error : line " +:+ nat_to_string lineNum)
  | Some equalIndex =>
      let key := str_take equalIndex line in
      let value := str_drop (equalIndex + 1) line in
      Ok (addConfig data section (trim key) (trim value))
  end.

Definition cut_comment (mark n : string) : string :=
  match indexOf mark n with Some pos => str_take pos n | None => n end.

(** The callback of [lines.forEach], on line [n] at [index]. *)
Definition parseLine (linesCount : nat) (st : ParseState) (index : nat) (n : string) : result ParseState :=
  let n := cut_comment DEFAULT_COMMENT n in
  let n := cut_comment DEFAULT_COMMENT_SEM n in
  let line := trim n in
  if seqb line "" then Ok st
  else
    let lineNumber := index + 1 in
    if startsWith "[" line && endsWith "]" line then
      data ← (if negb (String.length (ps_currentLine st) =? 0)
              then write (ps_data st) (ps_section st) (lineNumber - 1) (ps_currentLine st)
              else Ok (ps_data st));
      Ok (mkParse (substring 1 (String.length line - 1) line) "" data)
    else
      let multi := includes DEFAULT_MULTI_LINE_SEPARATOR line in
      let currentLine := ps_currentLine st +:+
        (if multi then trim (substring 0 (String.length line - 1) line) else line) in
      let shouldWrite := if multi then lineNumber + 1 =? linesCount else true in
      if shouldWrite then
        data ← write (ps_data st) (ps_section st) lineNumber currentLine;
        Ok (mkParse (ps_section st) "" data)
      else Ok (mkParse (ps_section st) currentLine (ps_data st)).

Fixpoint parseLines (linesCount index : nat) (lines : list string) (st : ParseState) : result ParseState :=
  match lines with
  | [] => Ok st
  | n :: lines' =>
      st' ← parseLine linesCount st index n;
      parseLines linesCount (S index) lines' st'
  end.

(** [parseBuffer]; the bytes of the text decode to the text. *)
Definition parseBuffer (text : string) : result Config :=
  let lines := split_char "010" text in
  st ← parseLines (length lines) 0 lines (mkParse "" "" ∅);
  Ok (ps_data st).

Definition newConfigFromText (text : string) : result Config := parseBuffer text.

Definition get (data : Config) (key : string) : string :=
  let keys := split_str "::" (toLowerCase key) in
  let '(section, option) :=
    match keys with
    | s :: o :: _ => (s, o)
    | s :: _ => (DEFAULT_SECTION, s)
    | [] => (DEFAULT_SECTION, "")
    end in
  match data !! section with
  | Some item => default "" (item !! option)
  | None => ""
  end.

Definition getString (data : Config) (key : string) : string := get data key.
Definition getStrings (data : Config) (key : string) : list string := split_char "," (get data key).
Definition getBool (data : Config) (key : string) : bool := negb (seqb (get data key) "").

(** [set] *)
Definition set (data : Config) (key value : string) : result Config :=
  if seqb key "" then Throw "key is empty"
  else
    match split_str "::" (toLowerCase key) with
    | s :: o :: _ => Ok (addConfig data s o value)
    | o :: _ => Ok (addConfig data "" o value)
    | [] => Ok data
    end.

(** ** Rendering, and the parser's inverse *)

Definition plain (c : ascii) : bool :=
  negb (bool_decide (c = "010"%char) || bool_decide (c = "#"%char) ||
        bool_decide (c = ";"%char) || bool_decide (c = "\"%char)).

(** A key: not empty, trimmed, without the characters the format gives a
    meaning, and not opening like a section header. *)
Definition clean_key (k : string) : bool :=
  negb (seqb k "") && bool_decide (trimmed k) && str_forall plain k &&
  negb (has_char "=" k) && negb (startsWith "[" k).
Definition clean_value (v : string) : bool :=
  negb (seqb v "") && bool_decide (trimmed v) && str_forall plain v.
Definition clean_section (s : string) : bool := str_forall plain s.

Inductive item := Header (s : string) | Entry (k v : string).

Definition clean_item (i : item) : bool :=
  match i with Header s => clean_section s | Entry k v => clean_key k && clean_value v end.

Definition render_item (i : item) : string :=
  match i with
  | Header s => "[" +:+ s +:+ "]"
  | Entry k v => k +:+ " = " +:+ v
  end.

Definition render (l : list item) : string := join (String "010" "") (render_item <$> l).

(** What is written, read in order from section [s]: the entries of the sections, where
    the section without a name is the one called default. *)
Record Setting := mkSetting { set_section : string; set_key : string; set_value : string }.
Fixpoint settings (s : string) (l : list item) : list Setting :=
  match l with
  | [] => []
  | Header s' :: l' => settings s' l'
  | Entry k v :: l' => mkSetting (if decide (s = "") then "default" else s) k v :: settings s l'
  end.
(** The value a key of a section is given last. *)
Definition given (section key : string) (l : list Setting) : option string :=
  last (omap (fun e => if decide (set_section e = section /\ set_key e = key) then Some (set_value e) else None) l).
(** The configuration has these settings and no other section, key or value. *)
Definition holds_exactly (data : Config) (l : list Setting) : Prop :=
  (forall section key, (m ← data !! section; m !! key) = given section key l) /\
  (forall section, is_Some (data !! section) <-> section ∈ (set_section <$> l)).

(** What [write] does for each item, in order. *)
Fixpoint written (s : string) (l : list item) (data : Config) : Config :=
  match l with
  | [] => data
  | Header s' :: l' => written s' l' data
  | Entry k v :: l' => written s l' (addConfig data s k v)
  end.

Lemma plain_no_char c s : plain c = false -> str_forall plain s = true -> has_char c s = false.
Proof.
  intros Hc. rewrite has_char_forall. induction s as [|a s IH]; cbn; [done|].
  intros [Ha Hs]%Bool.andb_true_iff. rewrite IH by done.
  rewrite bool_decide_false; [done|]. intros ->. congruence.
Qed.

Lemma cut_comment_none c s : has_char c s = false -> cut_comment (String c "") s = s.
Proof. intros H. unfold cut_comment. by rewrite (proj2 (indexOf_char_None c s)). Qed.

Lemma includes_char_none c s : has_char c s = false -> includes (String c "") s = false.
Proof. intros H. unfold includes. by rewrite (proj2 (indexOf_char_None c s)). Qed.

Lemma clean_item_plain i : clean_item i = true -> str_forall plain (render_item i) = true.
Proof.
  destruct i as [s|k v]; unfold clean_item, clean_section, clean_key, clean_value, render_item.
  - intros H. rewrite !str_forall_app, H. done.
  - bsimpl. intros [[[[_ Hk] _] _] [_ Hv]]. rewrite !str_forall_app, Hk, Hv. done.
Qed.

Lemma write_entry data s n k v : clean_item (Entry k v) = true ->
  write data s n (k +:+ " = " +:+ v) = Ok (addConfig data s k v).
Proof.
  unfold clean_item, clean_key, clean_value. bsimpl.
  rewrite !bool_decide_eq_true. intros [[[[[_ Hkt] _] Hke] _] [[Hvn Hvt] _]]. unfold write.
  replace (k +:+ " = " +:+ v) with ((k +:+ " ") +:+ String "=" (" " +:+ v))
    by (by rewrite <- sapp_assoc).
  rewrite (proj2 (indexOf_char_Some "=" _ (String.length (k +:+ " ")))).
  2: { exists (k +:+ " "), (" " +:+ v). by rewrite has_char_app, Hke. }
  rewrite str_take_app.
  replace (String.length (k +:+ " ") + 1) with (String.length ((k +:+ " ") +:+ "="))
    by (by rewrite !slength_app).
  replace ((k +:+ " ") +:+ String "=" (" " +:+ v)) with (((k +:+ " ") +:+ "=") +:+ (" " +:+ v))
    by (by rewrite <- (sapp_assoc (k +:+ " "))).
  rewrite str_drop_app, trim_space_r, trim_space_l by done. done.
Qed.

(** One rendered line, read between two entries. *)
Lemma parseLine_item lc i sec data it : clean_item it = true ->
  parseLine lc (mkParse sec "" data) i (render_item it) =
  Ok (match it with
      | Header s => mkParse s "" data
      | Entry k v => mkParse sec "" (addConfig data sec k v)
      end).
Proof.
  intros Hc. pose proof (clean_item_plain _ Hc) as Hp. unfold parseLine.
  rewrite (cut_comment_none "#") by (by apply plain_no_char).
  rewrite (cut_comment_none ";") by (by apply plain_no_char).
  destruct it as [s|k v]; cbn [render_item] in *.
  - rewrite (trimmed_app3 "[" s "]") by done.
    assert (endsWith "]" ("[" +:+ s +:+ "]") = true) as ->
      by (apply endsWith_spec; by exists ("[" +:+ s); rewrite sapp_assoc).
    assert (startsWith "[" ("[" +:+ s +:+ "]") = true) as ->
      by (apply startsWith_spec; by exists (s +:+ "]")).
    change (seqb ("[" +:+ s +:+ "]") "") with false.
    cbn. do 2 f_equal. unfold substring. cbn [str_drop].
    rewrite slength_app. cbn [String.length].
    replace (String.length s + 1 - 0 - 1) with (String.length s) by lia. apply str_take_app.
  - pose proof Hc as Hc'. unfold clean_item, clean_key, clean_value in Hc'. bsimpl.
    rewrite !bool_decide_eq_true in Hc'. destruct Hc' as [[[[[Hkn Hkt] _] _] Hks] [[Hvn Hvt] _]].
    rewrite (trimmed_app3 k " = " v) by done. rewrite (includes_char_none "\") by (by apply plain_no_char).
    destruct k as [|a k]; [done|].
    assert (Hs : startsWith "[" (String a k +:+ " = " +:+ v) = false).
    { apply Bool.not_true_iff_false. intros [t Ht]%startsWith_spec. cbn in Ht. injection Ht as -> _.
      apply Bool.not_true_iff_false in Hks. apply Hks, startsWith_spec. by exists k. }
    rewrite Hs. change (seqb (String a k +:+ _) "") with false. cbn [andb ps_currentLine ps_section ps_data].
    change ("" +:+ ?x) with x. by rewrite write_entry.
Qed.

Lemma parseLines_items lc i sec data l : forallb clean_item l = true ->
  ps_data <$> parseLines lc i (render_item <$> l) (mkParse sec "" data) = Ok (written sec l data).
Proof.
  revert i sec data. induction l as [|it l IH]; intros i sec data; [done|].
  cbn [forallb]. bsimpl. intros [Hc Hl].
  change (render_item <$> it :: l) with (render_item it :: (render_item <$> l)). cbn [parseLines].
  rewrite parseLine_item by done. destruct it as [s|k v]; cbn [mbind result_bind]; by rewrite IH.
Qed.

(** ** Properties *)

Lemma given_cons section key e l :
  given section key (e :: l) =
  match given section key l with
  | Some v => Some v
  | None => if decide (set_section e = section /\ set_key e = key) then Some (set_value e) else None
  end.
Proof.
  unfold given. cbn [omap list_omap]. destruct (decide _); [|by destruct (last _)]. rewrite last_cons. by destruct (last _).
Qed.

Lemma written_settings l : forall s data section key,
  (m ← written s l data !! section; m !! key) =
    (match given section key (settings s l) with Some v => Some v | None => m ← data !! section; m !! key end) /\
  (is_Some (written s l data !! section) <-> is_Some (data !! section) \/ section ∈ (set_section <$> settings s l)).
Proof.
  induction l as [|[s'|k v] l IH]; intros s data section key; cbn [written settings].
  - split; [done|]. rewrite fmap_nil, elem_of_nil. tauto.
  - apply IH.
  - destruct (IH s (addConfig data s k v) section key) as [IH1 IH2]. rewrite IH1, IH2, given_cons, fmap_cons, elem_of_cons.
    cbn [set_section set_key set_value]. unfold addConfig, DEFAULT_SECTION.
    assert (Hs : (if seqb s "" then "default" else s) = (if decide (s = "") then "default" else s)).
    { destruct (seqb_spec s "") as [->|Hne]; [done|]. by rewrite decide_False. }
    rewrite Hs. set (sec := if decide (s = "") then "default" else s). split.
    + destruct (given section key (settings s l)); [done|]. destruct (decide (sec = section)) as [->|Hsec].
      * rewrite lookup_insert_eq. cbn [mbind option_bind]. destruct (decide (k = key)) as [->|Hk].
        { by rewrite lookup_insert_eq, decide_True. }
        rewrite lookup_insert_ne, decide_False by naive_solver. by destruct (data !! section).
      * rewrite lookup_insert_ne, decide_False by naive_solver. done.
    + destruct (decide (sec = section)) as [->|Hsec].
      * rewrite lookup_insert_eq. split; [tauto|]. intros _. left. by eexists.
      * rewrite lookup_insert_ne by done. split; [|naive_solver]. tauto.
Qed.

(** C36: Reading back a rendered configuration gives exactly the sections, keys and
    values that were rendered.  Each key of a section has the value that was written
    last for it, the section without a name is the one called default, and the
    configuration has no other section, key or value. *)
Theorem config_roundtrip l : forallb clean_item l = true -> l <> [] ->
  exists data, newConfigFromText (render l) = Ok data /\ holds_exactly data (settings "" l).
Proof.
  intros Hl Hne. exists (written "" l ∅). split.
  - unfold newConfigFromText, parseBuffer, render.
    rewrite split_char_join; [|by destruct l|].
    + pose proof (parseLines_items (length (render_item <$> l)) 0 "" ∅ l Hl) as H.
      destruct (parseLines _ _ _ _); [|done]. cbn in *. by injection H as ->.
    + apply Forall_fmap, Forall_forall. intros it Hit. cbn.
      apply plain_no_char; [done|]. apply clean_item_plain.
      rewrite forallb_forall in Hl. apply Hl. by apply list_elem_of_In.
  - split; intros section; [intros key|]; destruct (written_settings l "" ∅ section "") as [_ H2].
    + destruct (written_settings l "" ∅ section key) as [-> _]. rewrite lookup_empty. by destruct (given _ _ _).
    + rewrite H2, lookup_empty. split; [|tauto]. by intros [[]|].
Qed.

Example config_roundtrip_witness :
  let l := [Header "matchers"; Entry "m" "a == b"; Entry "e" "x"; Entry "m" "c"; Header ""; Entry "x" "1 = 2"] in
  exists data, newConfigFromText (render l) = Ok data /\ holds_exactly data (settings "" l) /\
    given "matchers" "m" (settings "" l) = Some "c" /\ given "matchers" "e" (settings "" l) = Some "x" /\
    given "default" "x" (settings "" l) = Some "1 = 2".
Proof.
  cbn zeta. destruct (config_roundtrip [Header "matchers"; Entry "m" "a == b"; Entry "e" "x"; Entry "m" "c"; Header ""; Entry "x" "1 = 2"])
    as (data & H1 & H2); [reflexivity|discriminate|].
  exists data. split; [exact H1|]. split; [exact H2|]. split_and!; reflexivity.
Defined.
