(* ===== verification/CasbinModel.v ===== *)
(** [rbac/casbin/assertion.ts], [model.ts] and [persist.ts]: the access-control
    model, its policies, and the adapter that loads them from a string. *)

From S2P Require Import Prelude JsString JsMap RoleManager CasbinConfig.

(** ** Data *)

(** The role manager an assertion refers to: its own, still empty one from the
    constructor, or the one passed to [buildRoleLinks] and shared with the
    enforcer. *)
Inductive rm_ref := RmOwn | RmShared.

Record Assertion := mkAssertion {
  ast_key : string;
  ast_value : string;
  ast_tokens : list string;
  ast_policy : list (list string);
  ast_rm : rm_ref
}.

(** [Model.model]: section name to key to assertion. *)
Abbreviation Model := (jsmap string (jsmap string Assertion)).

Definition sectionNameMap : jsmap string string :=
  [("r", "request_definition"); ("p", "policy_definition"); ("g", "role_definition");
   ("e", "policy_effect"); ("m", "matchers")].

Definition requiredSections : list string := ["r"; "p"; "e"; "m"].

(** ** [Assertion.buildRoleLinks] *)


Fixpoint count_char (c : ascii) (s : string) : nat :=
  match s with
  | "" => 0
  | String a s' => (if decide (a = c) then 1 else 0) + count_char c s'
  end.

(** The body of the loop over the rules. *)
Definition link_rule (count : nat) (rule : list string) : RM unit :=
  let rule := if count <? length rule then take count rule else rule in
  addLink (rule !! 0) (rule !! 1) (drop 2 rule).

Definition Assertion_buildRoleLinks (ast : Assertion) : RM Assertion :=
  let ast := mkAssertion (ast_key ast) (ast_value ast) (ast_tokens ast) (ast_policy ast) RmShared in
  let count := count_char "_" (ast_value ast) in
  if count <? 2 then
    mthrow ("the number of " +:+ quoted "_" +:+ " in role definition should be at least 2")
  else
    mforEach (link_rule count) (ast_policy ast);;
    mret ast.

(** ** [FunctionMap] *)

Section functionmap.
Context {F : Type}.
Definition loadFunctionMap : jsmap string F := [].
Definition addFunction (fm : jsmap string F) (name : string) (func : F) : jsmap string F :=
  if map_has fm name then fm else map_set fm name func.
Definition getFunctions (fm : jsmap string F) : jsmap string F := fm.
End functionmap.

(** ** [escapeAssertion] and the string literals of a matcher *)

Definition escapeAssertion (s : string) : string :=
  let s := replace_all2 "r" "." "r_" s in
  let s := replace_all2 "p" "." "p_" s in
  s.

Definition is_line_terminator (a : ascii) : bool :=
  bool_decide (a = "010"%char) || bool_decide (a = "013"%char).

(** [value.match(/Q(.*?)Q/g)] where Q is the double quote: [inside] holds the
    text read since an opening quote. *)
Fixpoint match_quoted (inside : option string) (s : string) : list string :=
  match s with
  | "" => []
  | String a s' =>
      match inside with
      | None => match_quoted (if decide (a = quote_char) then Some "" else None) s'
      | Some cur =>
          if decide (a = quote_char) then quoted cur :: match_quoted None s'
          else if is_line_terminator a then match_quoted None s'
          else match_quoted (Some (cur +:+ String a "")) s'
      end
  end.

Definition placeholder (index : nat) : string := "$<" +:+ nat_to_string index +:+ ">".

Fixpoint replace_indexed (f : nat -> string -> string -> string) (i : nat) (l : list string) (value : string) : string :=
  match l with
  | [] => value
  | n :: l' => replace_indexed f (S i) l' (f i n value)
  end.

Definition escapeMatcher (value : string) : string :=
  let stringArguments := match_quoted None value in
  let value := replace_indexed (fun index n v => replace_first n (placeholder index) v) 0 stringArguments value in
  let value := escapeAssertion value in
  replace_indexed (fun index n v => replace_first (placeholder index) n v) 0 stringArguments value.

(** ** [Model] *)

Definition newAssertion (sec key value : string) : Assertion :=
  if seqb sec "r" || seqb sec "p" then
    mkAssertion key value ((fun n => key +:+ "_" +:+ trim n) <$> split_char "," value) [] RmOwn
  else if seqb sec "m" then mkAssertion key (escapeMatcher value) [] [] RmOwn
  else mkAssertion key (escapeAssertion value) [] [] RmOwn.

(** [addDef]; the boolean result says whether the definition was added. *)
Definition addDef (m : Model) (sec key value : string) : Model * bool :=
  if seqb value "" then (m, false)
  else
    let ast := newAssertion sec key value in
    match map_get m sec with
    | Some nodeMap => (map_set m sec (map_set nodeMap key ast), true)
    | None => (map_set m sec [(key, ast)], true)
    end.

Definition getKeySuffix (i : nat) : string := if i =? 1 then "" else nat_to_string i.

(** The name of a section; [sectionNameMap[sec]]. *)
Definition sectionName (sec : string) : string := default "undefined" (map_get sectionNameMap sec).

Definition loadAssertion (m : Model) (cfg : Config) (sec key : string) : Model * bool :=
  addDef m sec key (getString cfg (sectionName sec +:+ "::" +:+ key)).

(** The [for (;;)] loop of [loadSection]; [None] when the fuel runs out. *)
Fixpoint loadSection_from (fuel : nat) (m : Model) (cfg : Config) (sec : string) (i : nat) : option Model :=
  match fuel with
  | O => None
  | S fuel' =>
      let '(m', added) := loadAssertion m cfg sec (sec +:+ getKeySuffix i) in
      if added : bool then loadSection_from fuel' m' cfg sec (S i) else Some m'
  end.

(** One more iteration than the section has entries. *)
Definition loadSection_fuel (cfg : Config) (sec : string) : nat :=
  S (size (default ∅ (cfg !! toLowerCase (sectionName sec)))).

Definition loadSection (m : Model) (cfg : Config) (sec : string) : option Model :=
  loadSection_from (loadSection_fuel cfg sec) m cfg sec 1.

Fixpoint loadSections (secs : list string) (m : Model) (cfg : Config) : option Model :=
  match secs with
  | [] => Some m
  | s :: secs' => m' ← loadSection m cfg s; loadSections secs' m' cfg
  end.

Definition hasSection (m : Model) (sec : string) : bool := map_has m sec.

Definition loadModelFromConfig (m : Model) (cfg : Config) : result Model :=
  match loadSections (map_keys sectionNameMap) m cfg with
  | None => Throw "loadSection does not terminate"
  | Some m' =>
      let ms := sectionName <$> List.filter (fun n => negb (hasSection m' n)) requiredSections in
      if 0 <? length ms then Throw ("missing required sections: " +:+ join "," ms) else Ok m'
  end.

Definition loadModelFromText (m : Model) (text : string) : result Model :=
  cfg ← newConfigFromText text;
  loadModelFromConfig m cfg.

Definition newModelFromString (text : string) : result Model := loadModelFromText [] text.

Definition set_policy (ast : Assertion) (policy : list (list string)) : Assertion :=
  mkAssertion (ast_key ast) (ast_value ast) (ast_tokens ast) policy (ast_rm ast).

Definition clear_assertion (e : string * Assertion) : string * Assertion :=
  (e.1, set_policy e.2 []).
Definition clear_section (e : string * jsmap string Assertion) : string * jsmap string Assertion :=
  (e.1, if seqb e.1 "p" || seqb e.1 "g" then clear_assertion <$> e.2 else e.2).
Definition clearPolicy (m : Model) : Model := clear_section <$> m.

(** [Model.buildRoleLinks]: the assertions of section [g], in order. *)
Fixpoint buildRoleLinks_all (l : jsmap string Assertion) : RM (jsmap string Assertion) :=
  match l with
  | [] => mret []
  | (k, ast) :: l' =>
      ast' ← Assertion_buildRoleLinks ast;
      r ← buildRoleLinks_all l';
      mret ((k, ast') :: r)
  end.

Definition Model_buildRoleLinks (m : Model) : RM Model :=
  match map_get m "g" with
  | None => mret m
  | Some astMap => astMap' ← buildRoleLinks_all astMap; mret (map_set m "g" astMap')
  end.

(** ** [persist.ts] *)

Definition policyTokens (line : string) : list string := trim <$> split_char "," line.

Definition loadPolicyLine (m : Model) (line : string) : Model :=
  if seqb line "" || seqb (trim line) "" || seqb (charAt0 line) "#" then m
  else
    let tokens := policyTokens line in
    let key := default "" (tokens !! 0) in
    let sec := substring 0 1 key in
    match map_get m sec with
    | None => m
    | Some item =>
        match map_get item key with
        | None => m
        | Some ast => map_set m sec (map_set item key (set_policy ast (ast_policy ast ++ [drop 1 tokens])))
        end
    end.

(** [StringAdapter.loadRules] with the handler [loadPolicyLine]. *)
Definition loadRule (m : Model) (n : string) : Model :=
  if seqb (trim n) "" then m else loadPolicyLine m n.

Definition StringAdapter_loadPolicy (policy : string) (m : Model) : Model :=
  foldl loadRule m (split_char "010" policy).

(** ** Termination of [loadSection] *)

Definition no_colon (s : string) : bool := negb (has_char ":" s).

(** The option that iteration [i] of [loadSection] looks up. *)
Definition section_option (sec : string) (i : nat) : string := toLowerCase (sec +:+ getKeySuffix i).

Lemma getKeySuffix_inj i j : getKeySuffix i = getKeySuffix j -> i = j.
Proof.
  unfold getKeySuffix. destruct (Nat.eqb_spec i 1), (Nat.eqb_spec j 1); subst; try done.
  - intros H. symmetry in H. by apply nat_to_string_ne in H.
  - intros H. by apply nat_to_string_ne in H.
  - apply nat_to_string_inj.
Qed.

Lemma getKeySuffix_digits i : str_forall is_digit (getKeySuffix i) = true.
Proof. unfold getKeySuffix. destruct (i =? 1); [done|]. apply nat_to_string_digits. Qed.

Lemma section_option_inj sec i j : section_option sec i = section_option sec j -> i = j.
Proof.
  unfold section_option, toLowerCase. rewrite !map_chars_app. intros H%sapp_inj_l.
  fold (toLowerCase (getKeySuffix i)) in H. fold (toLowerCase (getKeySuffix j)) in H.
  rewrite !toLowerCase_digits in H by apply getKeySuffix_digits. by apply getKeySuffix_inj.
Qed.

Lemma to_lower_colon a : to_lower_char a = ":"%char -> a = ":"%char.
Proof. destruct a as [[] [] [] [] [] [] [] []]; vm_compute; congruence. Qed.

Lemma get_section_key cfg name key : no_colon name = true -> no_colon key = true ->
  get cfg (name +:+ "::" +:+ key) =
  default "" (default ∅ (cfg !! toLowerCase name) !! toLowerCase key).
Proof.
  unfold no_colon. rewrite !Bool.negb_true_iff. intros Hn Hk. unfold get.
  assert (toLowerCase (name +:+ "::" +:+ key) = toLowerCase name +:+ String ":" (String ":" (toLowerCase key))) as ->
    by (unfold toLowerCase; by rewrite !map_chars_app).
  rewrite split_str_pair; [|rewrite toLowerCase_has_char; [done|done|apply to_lower_colon]..].
  destruct (cfg !! toLowerCase name); cbn; [done|]. by rewrite lookup_empty.
Qed.

Section terminates.
Context (cfg : Config) (sec : string).
Hypothesis Hsec : no_colon sec = true.
Hypothesis Hname : no_colon (sectionName sec) = true.

Let entries : gmap string string := default ∅ (cfg !! toLowerCase (sectionName sec)).

Lemma loadAssertion_added m m' i : loadAssertion m cfg sec (sec +:+ getKeySuffix i) = (m', true) ->
  section_option sec i ∈ dom entries.
Proof.
  unfold loadAssertion, addDef, getString. rewrite get_section_key; [|done|].
  - fold entries. fold (section_option sec i). destruct (entries !! section_option sec i) eqn:E; [|done].
    intros _. apply elem_of_dom. by eexists.
  - unfold no_colon in *. rewrite has_char_app, Bool.negb_orb, Hsec.
    by rewrite (str_forall_has_char is_digit) by (done || apply getKeySuffix_digits).
Qed.

Lemma present_bound k : (forall j, 1 <= j <= k -> section_option sec j ∈ dom entries) -> k <= size entries.
Proof.
  intros H.
  assert (Hnd : NoDup (section_option sec <$> seq 1 k)).
  { apply NoDup_fmap_2; [|apply NoDup_seq]. intros ? ?. apply section_option_inj. }
  assert (Hs : size (list_to_set (section_option sec <$> seq 1 k) : gset string) <= size (dom entries)).
  { apply subseteq_size. intros x. rewrite elem_of_list_to_set, list_elem_of_fmap.
    intros (j & -> & Hj). apply H. apply elem_of_seq in Hj. lia. }
  by rewrite size_list_to_set, length_fmap, length_seq, size_dom in Hs.
Qed.

Lemma loadSection_from_total fuel m i : 1 <= i -> size entries < fuel + (i - 1) ->
  (forall j, 1 <= j <= i - 1 -> section_option sec j ∈ dom entries) ->
  is_Some (loadSection_from fuel m cfg sec i).
Proof.
  revert m i. induction fuel as [|fuel IH]; intros m i Hi Hf Hpre; cbn.
  - apply present_bound in Hpre. lia.
  - destruct (loadAssertion m cfg sec _) as [m' []] eqn:E; [|by eexists].
    apply IH; [lia|lia|]. intros j Hj. destruct (decide (j = i)) as [->|]; [|apply Hpre; lia].
    by apply (loadAssertion_added m m').
Qed.

Lemma loadSection_total m : is_Some (loadSection m cfg sec).
Proof. apply loadSection_from_total; [lia|unfold loadSection_fuel, entries; lia|lia]. Qed.
End terminates.

Lemma loadSections_total secs m cfg :
  Forall (fun sec => no_colon sec = true /\ no_colon (sectionName sec) = true) secs ->
  is_Some (loadSections secs m cfg).
Proof.
  intros H. revert m. induction H as [|sec secs [H1 H2] _ IH]; intros m; [by eexists|].
  cbn [loadSections]. destruct (loadSection_total cfg sec H1 H2 m) as [m' ->]. apply IH.
Qed.

(** ** Loading policies *)

(** The assertion at a section and key. *)
Definition assertion (m : Model) (sec key : string) : option Assertion :=
  item ← map_get m sec; map_get item key.

(** The rules a policy line adds to the assertion at [sec], [key]. *)
Definition line_rules (sec key : string) (n : string) : list (list string) :=
  if seqb (trim n) "" || seqb n "" || seqb (charAt0 n) "#" then []
  else
    let tokens := policyTokens n in
    let k := default "" (tokens !! 0) in
    if seqb k key && seqb (substring 0 1 k) sec then [drop 1 tokens] else [].

#[global] Arguments assertion : simpl never.
#[global] Arguments line_rules : simpl never.
#[global] Arguments loadRule : simpl never.

Definition policyRules (sec key text : string) : list (list string) :=
  mjoin (line_rules sec key <$> split_char "010" text).

Definition add_rules (rules : list (list string)) (ast : Assertion) : Assertion :=
  set_policy ast (ast_policy ast ++ rules).

Lemma add_rules_nil (o : option Assertion) : add_rules [] <$> o = o.
Proof. destruct o as [[]|]; [|done]. cbn. unfold add_rules, set_policy. cbn. by rewrite app_nil_r. Qed.

Lemma loadRule_assertion m n sec key :
  assertion (loadRule m n) sec key = add_rules (line_rules sec key n) <$> assertion m sec key.
Proof.
  unfold loadRule, loadPolicyLine, line_rules.
  destruct (seqb (trim n) "") eqn:Ht; cbn [orb]; [by rewrite add_rules_nil|].
  rewrite Bool.orb_false_r. destruct (seqb n "" || _) eqn:Hc; [by rewrite add_rules_nil|].
  set (tokens := policyTokens n). set (k := default "" (tokens !! 0)).
  destruct (map_get m (substring 0 1 k)) as [item|] eqn:Hitem.
  - destruct (map_get item k) as [ast|] eqn:Hast.
    + unfold assertion. rewrite map_get_set. destruct (decide (substring 0 1 k = sec)) as [<-|Hs].
      * rewrite Hitem. cbn. rewrite map_get_set. destruct (decide (k = key)) as [<-|Hk].
        -- rewrite !seqb_refl, Hast. done.
        -- rewrite (proj2 (seqb_false _ _)) by done. by rewrite add_rules_nil.
      * rewrite (proj2 (seqb_false (substring 0 1 k) sec)) by done.
        by rewrite Bool.andb_false_r, add_rules_nil.
    + destruct (seqb_spec k key) as [<-|]; cbn [andb]; [|by rewrite add_rules_nil].
      destruct (seqb_spec (substring 0 1 k) sec) as [<-|]; [|by rewrite add_rules_nil].
      unfold assertion. rewrite Hitem. cbn. by rewrite Hast.
  - destruct (seqb k key && _) eqn:E; [|by rewrite add_rules_nil]. bsimpl. destruct E as [<- <-].
    unfold assertion. by rewrite Hitem.
Qed.

Lemma loadPolicy_assertion text m sec key :
  assertion (StringAdapter_loadPolicy text m) sec key =
  add_rules (policyRules sec key text) <$> assertion m sec key.
Proof.
  unfold StringAdapter_loadPolicy, policyRules. revert m.
  induction (split_char "010" text) as [|n l IH]; intros m; cbn; [by rewrite add_rules_nil|].
  rewrite IH, loadRule_assertion. destruct (assertion m sec key) as [ast|]; [|done].
  cbn. unfold add_rules, set_policy. cbn. by rewrite <- app_assoc.
Qed.

Lemma clearPolicy_assertion m sec key :
  assertion (clearPolicy m) sec key =
  (if seqb sec "p" || seqb sec "g" then fun ast => set_policy ast [] else id) <$> assertion m sec key.
Proof.
  unfold assertion, clearPolicy. induction m as [|[k v] m IH]; cbn; [by destruct (seqb sec "p" || seqb sec "g")|].
  destruct (decide (sec = k)) as [->|]; [|done]. cbn.
  destruct (seqb k "p" || seqb k "g"); [|by destruct (map_get v key)].
  induction v as [|[k' ast] v IHv]; cbn; [done|]. by destruct (decide (key = k')).
Qed.

(** ** Building the role links *)

(** The links that a list of [g] rules asks for. *)
Definition rule_link (policy : list (list string)) (a b : name) : Prop :=
  exists rule, rule ∈ policy /\ a = rule !! 0 /\ b = rule !! 1.

Lemma link_rule_2 rule : link_rule 2 rule = addLink (rule !! 0) (rule !! 1) [].
Proof. by destruct rule as [|x [|y [|z rule]]]. Qed.

Lemma link_rules_spec l s : rm_wf s ->
  exists s', mforEach (link_rule 2) l s = Ok (tt, s') /\ rm_wf s' /\
    maxHierarchyLevel s'.2 = maxHierarchyLevel s.2 /\
    forall a b, link s' a b <-> link s a b \/ rule_link l a b.
Proof.
  revert s. induction l as [|rule l IH]; intros s Hwf.
  - exists s. split; [done|]. split; [done|]. split; [done|]. intros a b.
    split; [by left|]. intros [?|(? & ?%not_elem_of_nil & _)]; done.
  - cbn [mforEach]. unfold mbind, M_bind. rewrite link_rule_2.
    destruct (addLink_spec s (rule !! 0) (rule !! 1) Hwf) as (s1 & -> & Hwf1 & Hm1 & Hl1 & _).
    destruct (IH s1 Hwf1) as (s2 & -> & Hwf2 & Hm2 & Hl2). exists s2.
    split; [done|]. split; [done|]. split; [congruence|]. intros a b. rewrite Hl2, Hl1.
    unfold rule_link. setoid_rewrite elem_of_cons. naive_solver.
Qed.

Lemma buildRoleLinks_spec ast s : rm_wf s -> count_char "_" (ast_value ast) = 2 ->
  exists s', Assertion_buildRoleLinks ast s =
      Ok (mkAssertion (ast_key ast) (ast_value ast) (ast_tokens ast) (ast_policy ast) RmShared, s') /\
    rm_wf s' /\ maxHierarchyLevel s'.2 = maxHierarchyLevel s.2 /\
    forall a b, link s' a b <-> link s a b \/ rule_link (ast_policy ast) a b.
Proof.
  intros Hwf Hc. unfold Assertion_buildRoleLinks. cbn [ast_value ast_policy ast_key ast_tokens].
  rewrite Hc. change (2 <? 2) with false. cbn iota.
  destruct (link_rules_spec (ast_policy ast) s Hwf) as (s' & Hs & Hrest).
  exists s'. split; [|done]. unfold mbind, M_bind. by rewrite Hs.
Qed.

(** ** Rendering policies *)

Definition clean_field (s : string) : bool :=
  bool_decide (trimmed s) && negb (has_char "," s) && negb (has_char "010" s).

Definition clean_rule (r : string * list string) : bool :=
  clean_field r.1 && negb (seqb r.1 "") && negb (startsWith "#" r.1) && forallb clean_field r.2.

(** A policy line in the form the API server sends: [p, role, view, ns, *]. *)
Definition render_rule (r : string * list string) : string := join ", " (r.1 :: r.2).
Definition render_policy (l : list (string * list string)) : string :=
  join (String "010" "") (render_rule <$> l).

Lemma trim_space_l' a : trimmed a -> trim (" " +:+ a) = a.
Proof. intros Ha. destruct a as [|x a]; [done|]. by apply trim_space_l. Qed.

Lemma clean_field_spec s : clean_field s = true <->
  trimmed s /\ has_char "," s = false /\ has_char "010" s = false.
Proof. unfold clean_field. bsimpl. rewrite bool_decide_eq_true. tauto. Qed.

Lemma policyTokens_join k l : Forall (fun s => clean_field s = true) (k :: l) ->
  policyTokens (join ", " (k :: l)) = k :: l.
Proof.
  unfold policyTokens. revert k. induction l as [|x l IH]; intros k Hall;
    apply Forall_cons_1 in Hall as [(Ht & Hc & _)%clean_field_spec Hl].
  - cbn [join]. rewrite split_char_none by done. cbn. by rewrite Ht.
  - rewrite join_cons2. change (", " +:+ ?s) with (String "," (" " +:+ s)).
    rewrite split_char_app by done. rewrite fmap_cons, Ht. f_equal.
    specialize (IH x Hl). apply Forall_cons_1 in Hl as [(Htx & Hcx & _)%clean_field_spec Hl].
    destruct l as [|y l].
    + cbn [join]. rewrite split_char_none by (by rewrite has_char_app, Hcx).
      rewrite fmap_cons. by rewrite trim_space_l'.
    + rewrite join_cons2 in *. change (", " +:+ ?s) with (String "," (" " +:+ s)) in *.
      rewrite split_char_app in IH by done. rewrite sapp_assoc.
      rewrite split_char_app by (by rewrite has_char_app, Hcx).
      rewrite fmap_cons in *. rewrite trim_space_l' by done. f_equal.
      by injection IH.
Qed.

Lemma has_char_join c sep l : has_char c sep = false -> Forall (fun s => has_char c s = false) l ->
  has_char c (join sep l) = false.
Proof.
  intros Hs Hl. induction Hl as [|x l Hx Hl IH]; [done|]. destruct l as [|y l]; [done|].
  by rewrite join_cons2, !has_char_app, Hx, Hs, IH.
Qed.

Lemma trimEnd_empty s : trimEnd s = "" -> str_forall is_ws s = true.
Proof.
  induction s as [|a s IH]; [done|]. cbn. destruct (trimEnd s); [|done].
  destruct (is_ws a); [|done]. intros _. by rewrite IH.
Qed.

Lemma trim_app_ne a b : trimmed a -> a <> "" -> trim (a +:+ b) <> "".
Proof.
  intros [Hs _]%trimmed_parts Hne Ht. destruct a as [|x a]; [done|].
  assert (Hx : is_ws x = false).
  { destruct (is_ws x) eqn:E; [|done]. cbn in Hs. rewrite E in Hs.
    assert (Hlen : forall t, String.length (trimStart t) <= String.length t).
    { clear. induction t as [|y t IH]; cbn; [lia|]. destruct (is_ws y); cbn; lia. }
    specialize (Hlen a). rewrite Hs in Hlen. cbn in Hlen. lia. }
  unfold trim in Ht. destruct (trimEnd (String x a +:+ b)) as [|y r] eqn:E.
  - apply trimEnd_empty in E. cbn in E. by rewrite Hx in E.
  - cbn in E. destruct (trimEnd (a +:+ b)); [rewrite Hx in E|]; injection E as <- <-;
      cbn in Ht; by rewrite Hx in Ht.
Qed.

Lemma line_rules_render sec key r : clean_rule r = true ->
  line_rules sec key (render_rule r) =
  if seqb r.1 key && seqb (substring 0 1 r.1) sec then [r.2] else [].
Proof.
  destruct r as [k l]. unfold clean_rule. cbn [fst snd]. bsimpl. intros [[[Hk Hne] Hh] Hl].
  assert (Hall : Forall (fun s => clean_field s = true) (k :: l)).
  { apply Forall_cons. split; [done|]. apply Forall_forall. intros x Hx.
    rewrite forallb_forall in Hl. by apply Hl, list_elem_of_In. }
  unfold line_rules, render_rule. cbn [fst snd]. rewrite policyTokens_join by done.
  assert (Hjoin : exists t, join ", " (k :: l) = k +:+ t).
  { destruct l; [exists ""; by rewrite sapp_nil_r | by eexists]. }
  destruct Hjoin as [t ->]. apply clean_field_spec in Hk as (Hkt & _ & _).
  rewrite (proj2 (seqb_false (trim _) "")) by (by apply trim_app_ne).
  destruct k as [|a k]; [done|]. cbn [orb].
  assert (seqb (charAt0 (String a k +:+ t)) "#" = false) as ->.
  { apply seqb_false. unfold charAt0. cbn. intros [= ->].
    apply Bool.not_true_iff_false in Hh. apply Hh, startsWith_spec. by exists k. }
  done.
Qed.

Lemma policyRules_render sec key l : l <> [] -> forallb clean_rule l = true ->
  policyRules sec key (render_policy l) =
  mjoin ((fun r => if seqb r.1 key && seqb (substring 0 1 r.1) sec then [r.2] else []) <$> l).
Proof.
  intros Hne Hall. unfold policyRules, render_policy. rewrite forallb_forall in Hall.
  rewrite split_char_join; [|by destruct l|].
  - clear Hne. induction l as [|r l IH]; [done|]. rewrite !fmap_cons. cbn [mjoin list_join].
    rewrite line_rules_render by (apply Hall; by left).
    f_equal. apply IH. intros x Hx. apply Hall. by right.
  - apply Forall_fmap, Forall_forall. intros [k fs] Hin. specialize (Hall (k, fs) ltac:(by apply list_elem_of_In)).
    unfold clean_rule in Hall. cbn [fst snd] in Hall. bsimpl. destruct Hall as [[[Hk _] _] Hl].
    apply has_char_join; [done|]. apply Forall_cons. split; [by apply clean_field_spec in Hk as (_ & _ & ?)|].
    apply Forall_forall. intros x Hx. rewrite forallb_forall in Hl.
    specialize (Hl x ltac:(by apply list_elem_of_In)). by apply clean_field_spec in Hl as (_ & _ & ?).
Qed.

(** ** Properties *)

(** The unbounded loop of [loadSection] terminates: whatever the
    configuration, loading all the sections of a model stays within one more
    iteration than a section has entries, since every iteration consumes a new
    key. *)
Theorem loadSections_terminates m cfg :
  exists m', loadSections (map_keys sectionNameMap) m cfg = Some m'.
Proof.
  apply loadSections_total. apply Forall_forall. intros sec Hsec.
  repeat (apply elem_of_cons in Hsec as [->|Hsec]; [by vm_compute|]). by apply not_elem_of_nil in Hsec.
Qed.

(** C37: Loading a rendered policy text into a model appends to each assertion
    exactly the rules written for its key, in order, and leaves everything else
    of every assertion as it was. *)
Theorem policy_roundtrip m l sec key : l <> [] -> forallb clean_rule l = true ->
  assertion (StringAdapter_loadPolicy (render_policy l) m) sec key =
  add_rules (mjoin ((fun r => if seqb r.1 key && seqb (substring 0 1 r.1) sec then [r.2] else []) <$> l))
    <$> assertion m sec key.
Proof. intros Hne Hl. by rewrite loadPolicy_assertion, policyRules_render. Qed.

Example policy_roundtrip_witness :
  let m : Model := [("p", [("p", mkAssertion "p" "sub, act" ["p_sub"; "p_act"] [] RmOwn)])] in
  let l := [("p", ["alice"; "view"]); ("g", ["alice"; "bob"]); ("p", ["bob"; ""])] in
  l <> [] /\ forallb clean_rule l = true /\
  assertion (StringAdapter_loadPolicy (render_policy l) m) "p" "p" =
    Some (mkAssertion "p" "sub, act" ["p_sub"; "p_act"] [["alice"; "view"]; ["bob"; ""]] RmOwn).
Proof.
  cbn zeta. split; [discriminate|]. split; [reflexivity|].
  rewrite policy_roundtrip; [reflexivity|discriminate|reflexivity].
Defined.
