(* ===== verification/CoreEnforcer.v ===== *)
(** [rbac/casbin/coreEnforcer.ts].

    The matcher expression is compiled by the package [expression-eval], which
    is a parameter ([compile]).  Its result is a function of the context: the
    request and policy parameters (strings, or [None] for [undefined]) and the
    functions, which may read and change the role manager. *)

From S2P Require Import Prelude JsString JsMap RoleManager CasbinEffect CasbinModel.

(** ** Data *)

(** What a matcher returns: the code distinguishes booleans and numbers; of
    any other value only its truth value is used. *)
Inductive MatcherResult := RBool (b : bool) | RNum (n : Z) | ROther (truthy : bool).

Definition func : Type := list (option string) -> RM bool.

(** [{ ...parameters, ...functions }] *)
Record Context := mkContext {
  ctx_params : gmap string (option string);
  ctx_funcs : gmap string func
}.

Definition Matcher : Type := Context -> RM MatcherResult.

Record CoreEnforcer := mkEnforcer {
  e_model : Model;
  e_fm : jsmap string func;
  e_adapter : string;
  e_matcherMap : jsmap string Matcher;
  e_roles : Heap * DefaultRoleManager
}.

Definition EM (A : Type) : Type := M CoreEnforcer A.

Definition with_model (e : CoreEnforcer) (m : Model) : CoreEnforcer :=
  mkEnforcer m (e_fm e) (e_adapter e) (e_matcherMap e) (e_roles e).
Definition with_roles (e : CoreEnforcer) (r : Heap * DefaultRoleManager) : CoreEnforcer :=
  mkEnforcer (e_model e) (e_fm e) (e_adapter e) (e_matcherMap e) r.
Definition with_matcherMap (e : CoreEnforcer) (mm : jsmap string Matcher) : CoreEnforcer :=
  mkEnforcer (e_model e) (e_fm e) (e_adapter e) mm (e_roles e).

(** [new CoreEnforcer(model, adapter)] *)
Definition newCoreEnforcer (model : Model) (adapter : string) : CoreEnforcer :=
  mkEnforcer model loadFunctionMap adapter [] ([], newDefaultRoleManager 10).

(** A computation on the enforcer's role manager. *)
Definition on_roles {A} (f : RM A) : EM A := fun e =>
  match f (e_roles e) with
  | Ok (a, r) => Ok (a, with_roles e r)
  | Throw msg => Throw msg
  end.

Definition EM_lift {A} (r : result A) : EM A :=
  match r with Ok a => mret a | Throw msg => mthrow msg end.

(** ** Operations *)

(** The role manager of an assertion that was never linked is its own. *)
Definition with_rm_ref {A} (rm : rm_ref) (f : RM A) : RM A :=
  match rm with
  | RmShared => f
  | RmOwn => fun s =>
      match f ([], newDefaultRoleManager 10) with Ok (a, _) => Ok (a, s) | Throw msg => Throw msg end
  end.

Definition generateGFunction (rm : rm_ref) : func := fun args =>
  let name1 := default "" (mjoin (args !! 0)) in
  let name2 := default "" (mjoin (args !! 1)) in
  if length args =? 2 then with_rm_ref rm (hasLink (Some name1) (Some name2) [])
  else match mjoin (args !! 2) with
       | Some domain => with_rm_ref rm (hasLink (Some name1) (Some name2) [domain])
       | None => mthrow "TypeError: args[2] is undefined"
       end.

Definition setAdapter (adapter : string) : EM unit :=
  mmodify (fun e => mkEnforcer (e_model e) (e_fm e) adapter (e_matcherMap e) (e_roles e)).

Definition clearPolicy : EM unit := mmodify (fun e => with_model e (CasbinModel.clearPolicy (e_model e))).

Definition addFunction (name : string) (f : func) : EM unit :=
  mmodify (fun e => mkEnforcer (e_model e) (CasbinModel.addFunction (e_fm e) name f) (e_adapter e)
                      (e_matcherMap e) (e_roles e)).

Definition buildRoleLinksInternal : EM unit :=
  on_roles clear;;
  e ← mget;
  m ← on_roles (Model_buildRoleLinks (e_model e));
  mmodify (fun e => with_model e m).

Definition loadPolicy : EM unit :=
  mmodify (fun e => with_model e (CasbinModel.clearPolicy (e_model e)));;
  mmodify (fun e => with_model e (StringAdapter_loadPolicy (e_adapter e) (e_model e)));;
  buildRoleLinksInternal.

(** [tokens.forEach((token, j) => parameters[token] = vals[j])] *)
Fixpoint set_params (tokens : list string) (vals : list string) (p : gmap string (option string)) :
    gmap string (option string) :=
  match tokens with
  | [] => p
  | t :: tokens' => set_params tokens' (tail vals) (<[t := head vals]> p)
  end.

Definition set_empty_params (tokens : list string) (p : gmap string (option string)) :
    gmap string (option string) := foldl (fun p t => <[t := Some ""]> p) p tokens.

(** The functions of a call: those of the function map, then one per [g]. *)
Definition build_functions (e : CoreEnforcer) : gmap string func :=
  let fs := foldl (fun fs '(key, value) => <[key := value]> fs) ∅ (getFunctions (e_fm e)) in
  foldl (fun fs '(key, ast) => <[key := generateGFunction (ast_rm ast)]> fs) fs
    (default [] (map_get (e_model e) "g")).

(** The [switch (typeof result)]. *)
Definition result_effect (r : MatcherResult) : result Effect :=
  match r with
  | RBool b => Ok (if b then Allow else Indeterminate)
  | RNum n => Ok (if (n =? 0)%Z then Indeterminate else n)
  | ROther _ => Throw "matcher result should be boolean or number"
  end.

(** The correction by the policy's own [p_eft]. *)
Definition policy_effect (eft : option string) (eftRes : Effect) : Effect :=
  match eft with
  | Some eft =>
      if negb (seqb eft "") && (eftRes =? Allow)%Z then
        if seqb eft "allow" then Allow
        else if seqb eft "deny" then Deny
        else Indeterminate
      else eftRes
  | None => eftRes
  end.

Definition truthy (r : MatcherResult) : bool :=
  match r with RBool b => b | RNum n => negb (n =? 0)%Z | ROther b => b end.

Definition eval_matcher (expression : Matcher) (params : gmap string (option string))
    (functions : gmap string func) : EM MatcherResult :=
  on_roles (expression (mkContext params functions)).

Definition invalid_request (rTokensLen : option nat) (rvals : list string) : string :=
  "invalid request size: expected " +:+ from_option nat_to_string "undefined" rTokensLen +:+
  ", got " +:+ nat_to_string (length rvals) +:+ ", rvals: " +:+ join "," rvals +:+ String quote_char "".

(** The loop over the policies. *)
Fixpoint enforce_policies (expression : Matcher) (functions : gmap string func)
    (rTokens : option (list string)) (pTokens : list string) (rvals : list string)
    (policies : list (list string)) (stream : DefaultEffectorStream) : EM DefaultEffectorStream :=
  match policies with
  | [] => mret stream
  | policy :: policies' =>
      if bool_decide (length <$> rTokens <> Some (length rvals)) then
        mthrow (invalid_request (length <$> rTokens) rvals)
      else
        let parameters := set_params pTokens policy (set_params (default [] rTokens) rvals ∅) in
        r ← eval_matcher expression parameters functions;
        eftRes ← EM_lift (result_effect r);
        let eftRes := policy_effect (mjoin (parameters !! "p_eft")) eftRes in
        stream ← EM_lift (pushEffect stream eftRes);
        if st_done stream then mret stream
        else enforce_policies expression functions rTokens pTokens rvals policies' stream
  end.

(** The branch for a model without policies. *)
Definition enforce_empty (expression : Matcher) (functions : gmap string func)
    (rTokens : option (list string)) (pTokens : list string) (rvals : list string)
    (stream : DefaultEffectorStream) : EM DefaultEffectorStream :=
  let parameters := set_empty_params pTokens (set_params (default [] rTokens) rvals ∅) in
  r ← eval_matcher expression parameters functions;
  EM_lift (pushEffect stream (if truthy r then Allow else Indeterminate)).

(** The value at a section and key, when it is a non-empty string. *)
Definition model_value (m : Model) (key : string) : option string :=
  v ← ast_value <$> assertion m key key;
  if seqb v "" then None else Some v.

Section compiled.
(** [compile] of the package [expression-eval]. *)
Variable compile : string -> result Matcher.

Definition getExpression (exp : string) : EM Matcher :=
  e ← mget;
  match map_get (e_matcherMap e) exp with
  | Some expression => mret expression
  | None =>
      expression ← EM_lift (compile exp);
      mput (with_matcherMap e (map_set (e_matcherMap e) exp expression));;
      mret expression
  end.

Definition privateEnforce (rvals : list string) : EM bool :=
  e ← mget;
  let functions := build_functions e in
  match model_value (e_model e) "m" with
  | None => mthrow "Unable to find matchers in model"
  | Some expString =>
      match model_value (e_model e) "e" with
      | None => mthrow "Unable to find policy_effect in model"
      | Some effectExpr =>
          expression ← getExpression expString;
          let p := assertion (e_model e) "p" "p" in
          let policies := from_option ast_policy [] p in
          let pTokens := from_option ast_tokens [] p in
          let rTokens := ast_tokens <$> assertion (e_model e) "r" "r" in
          let stream := newStream effectExpr in
          stream ← (if negb (length policies =? 0)
                    then enforce_policies expression functions rTokens pTokens rvals policies stream
                    else enforce_empty expression functions rTokens pTokens rvals stream);
          mret (current stream)
      end
  end.

Definition enforce (rvals : list string) : EM bool := privateEnforce rvals.
End compiled.
