(* ===== verification/Rbac.v ===== *)
(** [rbac/model.ts]: the access-control model of the dashboard and the
    enforcer the permission checks go through. *)

From S2P Require Import Prelude JsString JsMap RoleManager CasbinEffect CasbinConfig CasbinModel CoreEnforcer.

(** ** Data *)

Definition RBACModel : string := "
[request_definition]
r = sub, act, scope, obj

[policy_definition]
p = sub, act, scope, obj

[role_definition]
g = _, _

[policy_effect]
e = some(where (p.eft == allow))

[matchers]
m = g(r.sub, p.sub) && (r.scope == p.scope || p.scope == " +:+ quoted "*" +:+
  ") && objMatchFunc(r.obj, p.obj) && r.act == p.act
".

Definition ActionView : string := "view".
Definition ActionEdit : string := "edit".
Definition ActionManage : string := "manage".
Definition ResourceAll : string := "*".
Definition AllScope : string := "*".

(** The fields [enforcer] and [policyAdapter]. *)
Record RBACEnforcer := mkRBAC { enforcer : CoreEnforcer; policyAdapter : string }.

(** ** Operations *)

Definition objMatch (key1 key2 : string) : bool :=
  match indexOf "*" key2 with
  | None => seqb key1 key2
  | Some i =>
      if i <? String.length key1 then seqb (str_take i key1) (str_take i key2)
      else seqb key1 (str_take i key2)
  end.

Definition objMatchFunc : func := fun args =>
  let name1 := default "" (mjoin (args !! 0)) in
  let name2 := default "" (mjoin (args !! 1)) in
  mret (objMatch name1 name2).

Definition newRBACEnforcer (policies : string) : result RBACEnforcer :=
  model ← newModelFromString RBACModel;
  let enforcer := newCoreEnforcer model policies in
  match (addFunction "objMatchFunc" objMatchFunc;; loadPolicy) enforcer with
  | Ok (_, enforcer) => Ok (mkRBAC enforcer policies)
  | Throw msg => Throw msg
  end.

(** A method of the inner enforcer, called through the wrapper. *)
Definition on_enforcer {A} (f : EM A) : M RBACEnforcer A := fun this =>
  match f (enforcer this) with
  | Ok (a, e) => Ok (a, mkRBAC e (policyAdapter this))
  | Throw msg => Throw msg
  end.

Definition loadPolicies (policies : string) : M RBACEnforcer unit :=
  mmodify (fun this => mkRBAC (enforcer this) policies);;
  on_enforcer (setAdapter policies;; loadPolicy).

Section compiled.
Variable compile : string -> result Matcher.

Definition can (subject action scope resource : string) : M RBACEnforcer bool :=
  on_enforcer (enforce compile [subject; action; scope; resource]).
Definition canView (subject scope resource : string) : M RBACEnforcer bool :=
  on_enforcer (enforce compile [subject; ActionView; scope; resource]).
Definition canEdit (subject scope resource : string) : M RBACEnforcer bool :=
  on_enforcer (enforce compile [subject; ActionEdit; scope; resource]).
Definition canManage (subject scope resource : string) : M RBACEnforcer bool :=
  on_enforcer (enforce compile [subject; ActionManage; scope; resource]).
Definition canViewNamespace (subject scope : string) : M RBACEnforcer bool :=
  on_enforcer (enforce compile [subject; ActionView; scope; ResourceAll]).
Definition canEditNamespace (subject scope : string) : M RBACEnforcer bool :=
  on_enforcer (enforce compile [subject; ActionEdit; scope; ResourceAll]).
Definition canManageNamespace (subject scope : string) : M RBACEnforcer bool :=
  on_enforcer (enforce compile [subject; ActionManage; scope; ResourceAll]).
Definition canViewCluster (subject : string) : M RBACEnforcer bool :=
  on_enforcer (enforce compile [subject; ActionView; AllScope; ResourceAll]).
Definition canEditCluster (subject : string) : M RBACEnforcer bool :=
  on_enforcer (enforce compile [subject; ActionEdit; AllScope; ResourceAll]).
Definition canManageCluster (subject : string) : M RBACEnforcer bool :=
  on_enforcer (enforce compile [subject; ActionManage; AllScope; ResourceAll]).
End compiled.

(** ** The matcher expression

    The JavaScript meaning of the expressions the matcher is made of, and the
    documented contract of [expression-eval] on the matcher of the model. *)

Inductive operand := Ident (x : string) | StrLit (s : string).
Inductive expr :=
| EEq (a b : operand)
| ECall (f : string) (args : list operand)
| EAnd (a b : expr)
| EOr (a b : expr).

Definition eval_operand (ctx : Context) (o : operand) : option string :=
  match o with Ident x => mjoin (ctx_params ctx !! x) | StrLit s => Some s end.

Fixpoint eval_expr (e : expr) (ctx : Context) : RM bool :=
  match e with
  | EEq a b => mret (bool_decide (eval_operand ctx a = eval_operand ctx b))
  | ECall f args =>
      match ctx_funcs ctx !! f with
      | Some f => f (eval_operand ctx <$> args)
      | None => mthrow "TypeError: not a function"
      end
  | EAnd a b => v ← eval_expr a ctx; if v : bool then eval_expr b ctx else mret false
  | EOr a b => v ← eval_expr a ctx; if v : bool then mret true else eval_expr b ctx
  end.

Definition expr_matcher (e : expr) : Matcher := fun ctx => b ← eval_expr e ctx; mret (RBool b).

Definition matcher_text : string :=
  "g(r_sub, p_sub) && (r_scope == p_scope || p_scope == " +:+ quoted "*" +:+
  ") && objMatchFunc(r_obj, p_obj) && r_act == p_act".

Definition matcher_expr : expr :=
  EAnd (EAnd (EAnd (ECall "g" [Ident "r_sub"; Ident "p_sub"])
                   (EOr (EEq (Ident "r_scope") (Ident "p_scope")) (EEq (Ident "p_scope") (StrLit "*"))))
             (ECall "objMatchFunc" [Ident "r_obj"; Ident "p_obj"]))
       (EEq (Ident "r_act") (Ident "p_act")).

(** [expression-eval] evaluates the text as JavaScript does. *)
Class ExpressionEval (compile : string -> result Matcher) : Prop := {
  compile_matcher : exists f, compile matcher_text = Ok f /\
    forall ctx s, f ctx s = expr_matcher matcher_expr ctx s
}.

(** A compiler with this contract, for the witnesses. *)
Definition sample_compile (exp : string) : result Matcher :=
  if seqb exp matcher_text then Ok (expr_matcher matcher_expr) else Throw "Unexpected token".

#[export] Instance sample_compile_ok : ExpressionEval sample_compile.
Proof. split. exists (expr_matcher matcher_expr). by vm_compute. Qed.

(** ** Resource patterns *)

Lemma objMatch_exact key1 key2 : has_char "*" key2 = false -> objMatch key1 key2 = seqb key1 key2.
Proof. intros H. unfold objMatch. by rewrite (proj2 (indexOf_char_None _ _)). Qed.

Lemma objMatch_prefix key1 pre post : has_char "*" pre = false ->
  objMatch key1 (pre +:+ String "*" post) = startsWith pre key1.
Proof.
  intros H. unfold objMatch.
  rewrite (proj2 (indexOf_char_Some "*" _ (String.length pre))) by (by exists pre, post).
  rewrite str_take_app. apply Bool.eq_true_iff_eq. rewrite startsWith_spec.
  destruct (Nat.ltb_spec (String.length pre) (String.length key1)) as [Hlt|Hge]; rewrite seqb_true.
  - split; [intros <-; eexists; symmetry; apply str_take_drop|]. intros [t ->]. apply str_take_app.
  - split; [intros ->; exists ""; by rewrite sapp_nil_r|]. intros [t ->].
    rewrite slength_app in Hge. destruct t; [by rewrite sapp_nil_r|]. cbn in Hge. lia.
Qed.

(** A pattern that matches the resource [*] matches every resource. *)
Lemma objMatch_all pat obj : objMatch "*" pat = true -> objMatch obj pat = true.
Proof.
  destruct (has_char "*" pat) eqn:H.
  - assert (Hi : exists i, indexOf "*" pat = Some i).
    { destruct (indexOf "*" pat) eqn:E; [by eexists|]. apply indexOf_char_None in E. congruence. }
    destruct Hi as [i (pre & post & -> & Hpre & ->)%indexOf_char_Some].
    rewrite !objMatch_prefix by done. rewrite !startsWith_spec. intros [t Ht].
    destruct pre as [|a pre]; [by exists obj|]. cbn in Ht. injection Ht as <- _.
    cbn in Hpre. done.
  - rewrite objMatch_exact by done. intros <-%seqb_true. done.
Qed.

(** A resource pattern without [*] matches only itself; a pattern with [*]
    matches exactly the resources that start with what stands before its first
    [*]. *)
Theorem objMatch_spec key1 key2 :
  objMatch key1 key2 = true <->
    if has_char "*" key2
    then exists pre post, key2 = pre +:+ String "*" post /\ has_char "*" pre = false /\ startsWith pre key1 = true
    else key1 = key2.
Proof.
  destruct (has_char "*" key2) eqn:H.
  - split.
    + assert (Hi : exists i, indexOf "*" key2 = Some i).
      { destruct (indexOf "*" key2) eqn:E; [by eexists|]. apply indexOf_char_None in E. congruence. }
      destruct Hi as [i (pre & post & -> & Hpre & ->)%indexOf_char_Some].
      rewrite objMatch_prefix by done. intros Hs. by exists pre, post.
    + intros (pre & post & -> & Hpre & Hs). by rewrite objMatch_prefix.
  - rewrite objMatch_exact by done. apply seqb_true.
Qed.
