(* ===== verification/RbacFacts.v ===== *)
(** What the access-control enforcer of [Rbac] decides: the invariant of an
    enforcer, the decision as a statement about the loaded rules, and the
    theorems about permissions. *)

From S2P Require Import Prelude JsString JsMap RoleManager CasbinEffect CasbinConfig CasbinModel CoreEnforcer Rbac.

(** ** Specification *)

(** A policy rule [p, sub, act, scope, obj] allows a request, over role links [L]. *)
Definition rule_allows (L : name -> name -> Prop) (rule : list string) (sub act scope obj : string) : Prop :=
  bsteps L 10 (Some sub) (Some (default "" (rule !! 0))) /\
  rule !! 1 = Some act /\
  (rule !! 2 = Some scope \/ rule !! 2 = Some "*") /\
  objMatch obj (default "" (rule !! 3)) = true.

(** Without any policy rule the code evaluates the matcher once, with empty
    policy fields. *)
Definition effective_rules (P : list (list string)) : list (list string) :=
  match P with [] => [["";"";"";""]] | _ => P end.

Definition allowed (P G : list (list string)) (sub act scope obj : string) : Prop :=
  Exists (fun rule => rule_allows (rule_link G) rule sub act scope obj) (effective_rules P).

(** The rules of a policy text. *)
Definition text_p (text : string) : list (list string) := policyRules "p" "p" text.
Definition text_g (text : string) : list (list string) := policyRules "g" "g" text.

Definition text_allows (text sub act scope obj : string) : Prop :=
  allowed (text_p text) (text_g text) sub act scope obj.

(** ** The invariant of an enforcer *)

Definition p_assertion (P : list (list string)) : Assertion :=
  mkAssertion "p" "sub, act, scope, obj" ["p_sub"; "p_act"; "p_scope"; "p_obj"] P RmOwn.
Definition g_assertion (G : list (list string)) (rm : rm_ref) : Assertion :=
  mkAssertion "g" "_, _" [] G rm.

(** The parts of the model that loading policies never changes. *)
Record model_shape (m : Model) : Prop := {
  shape_r : ast_tokens <$> assertion m "r" "r" = Some ["r_sub"; "r_act"; "r_scope"; "r_obj"];
  shape_m : model_value m "m" = Some matcher_text;
  shape_e : model_value m "e" = Some expr_allow_override;
  shape_g : exists ast, map_get m "g" = Some [("g", ast)]
}.

Record enforcer_inv (compile : string -> result Matcher) (P G : list (list string)) (e : CoreEnforcer) : Prop := {
  inv_shape : model_shape (e_model e);
  inv_p : assertion (e_model e) "p" "p" = Some (p_assertion P);
  inv_g : assertion (e_model e) "g" "g" = Some (g_assertion G RmShared);
  inv_fm : e_fm e = [("objMatchFunc", objMatchFunc)];
  inv_cache : forall k f, map_get (e_matcherMap e) k = Some f -> compile k = Ok f;
  inv_wf : rm_wf (e_roles e);
  inv_level : maxHierarchyLevel (e_roles e).2 = 10;
  inv_links : forall a b, link (e_roles e) a b <-> rule_link G a b
}.

Lemma rule_allows_proper L L' rule sub act scope obj : (forall a b, L a b <-> L' a b) ->
  rule_allows L rule sub act scope obj <-> rule_allows L' rule sub act scope obj.
Proof.
  intros HL. unfold rule_allows.
  assert (H : forall n a b, bsteps L n a b <-> bsteps L' n a b).
  { intros n a b. split; induction 1; econstructor; try done; by apply HL. }
  by rewrite H.
Qed.

Lemma with_roles_id e : with_roles e (e_roles e) = e.
Proof. by destruct e. Qed.

(** ** Evaluating the matcher *)

Section enforce.
Context (compile : string -> result Matcher) `{!ExpressionEval compile}.
Context (P G : list (list string)).

Definition rbac_functions : gmap string func :=
  <["g" := generateGFunction RmShared]> {[ "objMatchFunc" := objMatchFunc ]}.

Lemma build_functions_inv e : enforcer_inv compile P G e -> build_functions e = rbac_functions.
Proof.
  intros H. unfold build_functions. rewrite (inv_fm _ _ _ _ H).
  destruct (shape_g _ (inv_shape _ _ _ _ H)) as [ast Hg].
  pose proof (inv_g _ _ _ _ H) as Hast. unfold assertion in Hast. rewrite Hg in *. cbn in Hast.
  injection Hast as ->. done.
Qed.

Definition request_params (sub act scope obj : string) : gmap string (option string) :=
  set_params ["r_sub"; "r_act"; "r_scope"; "r_obj"] [sub; act; scope; obj] ∅.
Definition rule_params (rule : list string) sub act scope obj : gmap string (option string) :=
  set_params ["p_sub"; "p_act"; "p_scope"; "p_obj"] rule (request_params sub act scope obj).

Lemma empty_rule_params sub act scope obj :
  set_empty_params ["p_sub"; "p_act"; "p_scope"; "p_obj"] (request_params sub act scope obj) =
  rule_params ["";"";"";""] sub act scope obj.
Proof. done. Qed.

Lemma eval_matcher_expr s rule sub act scope obj : rm_wf s -> maxHierarchyLevel s.2 = 10 ->
  exists b, eval_expr matcher_expr (mkContext (rule_params rule sub act scope obj) rbac_functions) s = Ok (b, s) /\
    (b = true <-> rule_allows (link s) rule sub act scope obj).
Proof.
  intros Hwf Hlev.
  set (ctx := mkContext _ _).
  assert (Hr : eval_operand ctx (Ident "r_sub") = Some sub /\ eval_operand ctx (Ident "r_act") = Some act /\
    eval_operand ctx (Ident "r_scope") = Some scope /\ eval_operand ctx (Ident "r_obj") = Some obj)
    by (repeat split; vm_compute; reflexivity).
  assert (Hp : eval_operand ctx (Ident "p_sub") = rule !! 0 /\ eval_operand ctx (Ident "p_act") = rule !! 1 /\
    eval_operand ctx (Ident "p_scope") = rule !! 2 /\ eval_operand ctx (Ident "p_obj") = rule !! 3)
    by (destruct rule as [|? [|? [|? [|? ?]]]]; repeat split; vm_compute; reflexivity).
  destruct Hr as (Hr1 & Hr2 & Hr3 & Hr4), Hp as (Hp1 & Hp2 & Hp3 & Hp4).
  destruct (hasLink_total s (Some sub) (Some (default "" (rule !! 0))) Hwf) as (b & Hb & Hspec).
  rewrite Hlev in Hspec.
  unfold rule_allows. unfold matcher_expr. cbn [eval_expr].
  change (ctx_funcs ctx !! "g") with (Some (generateGFunction RmShared)).
  change (ctx_funcs ctx !! "objMatchFunc") with (Some objMatchFunc).
  rewrite !fmap_cons, Hr1, Hr2, Hr3, Hr4, Hp1, Hp2, Hp3, Hp4.
  cbn [fmap list_fmap]. unfold generateGFunction, objMatchFunc. cbn [lookup list_lookup mjoin option_join
    length Nat.eqb with_rm_ref default from_option id eval_operand].
  unfold mbind, M_bind, mret, M_ret. rewrite Hb.
  exists (b && (bool_decide (Some scope = rule !! 2) || bool_decide (rule !! 2 = Some "*"))
            && objMatch obj (default "" (rule !! 3)) && bool_decide (Some act = rule !! 1)).
  split.
  - destruct b; [|done]. destruct (bool_decide (Some scope = _)); [|destruct (bool_decide (rule !! 2 = _)); [|done]];
      cbn; destruct (objMatch _ _); done.
  - bsimpl. rewrite Hspec, !bool_decide_eq_true. intuition congruence.
Qed.

(** The compiled matcher on one set of rule parameters. *)
Lemma eval_matcher_inv f e rule sub act scope obj :
  (forall ctx s, f ctx s = expr_matcher matcher_expr ctx s) -> enforcer_inv compile P G e ->
  exists b, eval_matcher f (rule_params rule sub act scope obj) rbac_functions e = Ok (RBool b, e) /\
    (b = true <-> rule_allows (rule_link G) rule sub act scope obj).
Proof.
  intros Hf Hinv.
  destruct (eval_matcher_expr (e_roles e) rule sub act scope obj (inv_wf _ _ _ _ Hinv) (inv_level _ _ _ _ Hinv))
    as (b & Hb & Hspec).
  exists b. split.
  - unfold eval_matcher, on_roles. rewrite Hf. unfold expr_matcher, mbind, M_bind. rewrite Hb.
    cbn. by rewrite with_roles_id.
  - rewrite Hspec. apply rule_allows_proper, (inv_links _ _ _ _ Hinv).
Qed.

Lemma enforce_policies_inv f e rules sub act scope obj :
  (forall ctx s, f ctx s = expr_matcher matcher_expr ctx s) -> enforcer_inv compile P G e ->
  exists st, enforce_policies f rbac_functions (Some ["r_sub"; "r_act"; "r_scope"; "r_obj"])
      ["p_sub"; "p_act"; "p_scope"; "p_obj"] [sub; act; scope; obj] rules (newStream expr_allow_override) e
    = Ok (st, e) /\
    (st_res st = true <-> Exists (fun rule => rule_allows (rule_link G) rule sub act scope obj) rules).
Proof.
  intros Hf Hinv. induction rules as [|rule rules IH].
  { exists (newStream expr_allow_override). split; [done|]. rewrite Exists_nil. done. }
  cbn [enforce_policies]. rewrite bool_decide_false by (intros H; by apply H). cbn [default from_option id].
  destruct (eval_matcher_inv f e rule sub act scope obj Hf Hinv) as (b & Hb & Hspec).
  unfold rule_params, request_params in Hb. unfold mbind at 1, M_bind at 1. rewrite Hb.
  replace (mjoin (_ !! "p_eft")) with (@None string)
    by (destruct rule as [|? [|? [|? [|? ?]]]]; vm_compute; reflexivity).
  destruct b.
  - eexists. split; [done|]. rewrite Exists_cons. cbn. split; [|done]. intros _. left. by apply Hspec.
  - destruct IH as (st & Hst & IH). exists st. split; [exact Hst|]. rewrite Exists_cons, IH.
    split; [by right|]. intros [H|H]; [|done]. by apply Hspec in H.
Qed.

Lemma enforce_empty_inv f e sub act scope obj :
  (forall ctx s, f ctx s = expr_matcher matcher_expr ctx s) -> enforcer_inv compile P G e ->
  exists st, enforce_empty f rbac_functions (Some ["r_sub"; "r_act"; "r_scope"; "r_obj"])
      ["p_sub"; "p_act"; "p_scope"; "p_obj"] [sub; act; scope; obj] (newStream expr_allow_override) e
    = Ok (st, e) /\
    (st_res st = true <-> rule_allows (rule_link G) ["";"";"";""] sub act scope obj).
Proof.
  intros Hf Hinv. unfold enforce_empty. cbn [default from_option id].
  destruct (eval_matcher_inv f e ["";"";"";""] sub act scope obj Hf Hinv) as (b & Hb & Hspec).
  rewrite <- empty_rule_params in Hb. unfold request_params in Hb.
  unfold mbind, M_bind. rewrite Hb. destruct b; eexists; (split; [done|]); rewrite <- Hspec; done.
Qed.

Lemma enforcer_inv_cache e mm : enforcer_inv compile P G e ->
  (forall k f, map_get mm k = Some f -> compile k = Ok f) ->
  enforcer_inv compile P G (with_matcherMap e mm).
Proof. intros [] Hmm. by split. Qed.

Lemma getExpression_inv e : enforcer_inv compile P G e ->
  exists f e', getExpression compile matcher_text e = Ok (f, e') /\ enforcer_inv compile P G e' /\
    e_model e' = e_model e /\ e_adapter e' = e_adapter e /\
    forall ctx s, f ctx s = expr_matcher matcher_expr ctx s.
Proof.
  intros Hinv. destruct (compile_matcher (compile := compile)) as (f & Hc & Hf).
  unfold getExpression, mbind, M_bind, mget. cbn [fst snd].
  destruct (map_get (e_matcherMap e) matcher_text) as [f'|] eqn:Hget.
  - assert (f' = f) as -> by (apply (inv_cache _ _ _ _ Hinv) in Hget; congruence).
    by exists f, e.
  - rewrite Hc. exists f, (with_matcherMap e (map_set (e_matcherMap e) matcher_text f)).
    split; [done|]. split; [|done]. apply enforcer_inv_cache; [done|].
    intros k f'. rewrite map_get_set. case_decide as Hk; [intros [= <-]; congruence|].
    apply (inv_cache _ _ _ _ Hinv).
Qed.

Lemma enforce_inv e sub act scope obj : enforcer_inv compile P G e ->
  exists b e', enforce compile [sub; act; scope; obj] e = Ok (b, e') /\ enforcer_inv compile P G e' /\
    e_adapter e' = e_adapter e /\ (b = true <-> allowed P G sub act scope obj).
Proof.
  intros Hinv. destruct (getExpression_inv e Hinv) as (f & e' & Hf & Hinv' & Hm & Ha & Hfeq).
  assert (Hr : ast_tokens <$> assertion (e_model e) "r" "r" = Some ["r_sub"; "r_act"; "r_scope"; "r_obj"])
    by apply (shape_r _ (inv_shape _ _ _ _ Hinv)).
  unfold enforce, privateEnforce. unfold mbind at 1, M_bind at 1, mget. cbn [fst snd].
  rewrite (shape_m _ (inv_shape _ _ _ _ Hinv)), (shape_e _ (inv_shape _ _ _ _ Hinv)).
  rewrite (build_functions_inv e Hinv), (inv_p _ _ _ _ Hinv), Hr.
  cbn [from_option ast_policy ast_tokens p_assertion].
  unfold mbind at 1, M_bind at 1. rewrite Hf.
  destruct (Nat.eqb_spec (length P) 0) as [HP|HP]; cbn [negb].
  - destruct (enforce_empty_inv f e' sub act scope obj Hfeq Hinv') as (st & Hst & Hspec).
    unfold mbind, M_bind. rewrite Hst. exists (st_res st), e'. split; [done|]. split; [done|]. split; [done|].
    apply nil_length_inv in HP. unfold allowed, effective_rules.
    rewrite HP, Exists_cons, Exists_nil. unfold current. rewrite Hspec. tauto.
  - destruct (enforce_policies_inv f e' P sub act scope obj Hfeq Hinv') as (st & Hst & Hspec).
    unfold mbind, M_bind. rewrite Hst. exists (st_res st), e'. split; [done|]. split; [done|]. split; [done|].
    unfold allowed, effective_rules. replace (match P with [] => _ | _ => P end) with P by (by destruct P).
    done.
Qed.
End enforce.

(** ** Loading policies *)

(** What an enforcer of the dashboard is before its policies are loaded. *)
Record enforcer_pre (compile : string -> result Matcher) (e : CoreEnforcer) : Prop := {
  pre_shape : model_shape (e_model e);
  pre_p : exists P, assertion (e_model e) "p" "p" = Some (p_assertion P);
  pre_g : exists G rm, assertion (e_model e) "g" "g" = Some (g_assertion G rm);
  pre_fm : e_fm e = [("objMatchFunc", objMatchFunc)];
  pre_cache : forall k f, map_get (e_matcherMap e) k = Some f -> compile k = Ok f;
  pre_pattern : hasPattern (e_roles e).2 = false;
  pre_level : maxHierarchyLevel (e_roles e).2 = 10
}.

Lemma enforcer_inv_pre compile P G e : enforcer_inv compile P G e -> enforcer_pre compile e.
Proof. intros []. split; eauto. by apply wf_nopattern. Qed.

(** Two models that agree on the definitions, whatever their policies. *)
Lemma model_shape_preserved m m' : model_shape m ->
  (forall sec key, ast_value <$> assertion m' sec key = ast_value <$> assertion m sec key) ->
  (forall sec key, ast_tokens <$> assertion m' sec key = ast_tokens <$> assertion m sec key) ->
  (exists ast, map_get m' "g" = Some [("g", ast)]) -> model_shape m'.
Proof.
  intros [Hr Hm He _] Hv Ht Hg. split; [by rewrite Ht| | |done];
    unfold model_value in *; by rewrite Hv.
Qed.

Lemma clearPolicy_shape m : model_shape m -> model_shape (CasbinModel.clearPolicy m).
Proof.
  intros H. apply (model_shape_preserved _ _ H); [intros sec key; rewrite clearPolicy_assertion;
    destruct (seqb sec "p" || seqb sec "g"), (assertion m sec key); done..|].
  destruct (shape_g _ H) as [ast Hg]. exists (set_policy ast []). clear -Hg.
  induction m as [|[k v] m IH]; [done|]. cbn in *. destruct (decide ("g" = k)) as [<-|]; [|auto].
  injection Hg as ->. done.
Qed.

Lemma loadRule_g m n ast : map_get m "g" = Some [("g", ast)] ->
  exists ast', map_get (loadRule m n) "g" = Some [("g", ast')].
Proof.
  intros Hg. unfold loadRule, loadPolicyLine. destruct (seqb (trim n) ""); [by exists ast|].
  destruct (_ || _); [by exists ast|]. set (k := default "" _).
  destruct (map_get m (substring 0 1 k)) as [item|] eqn:Hitem; [|by exists ast].
  destruct (map_get item k) as [a|] eqn:Ha; [|by exists ast].
  rewrite map_get_set. case_decide as Hs; [|by exists ast].
  rewrite Hs, Hg in Hitem. injection Hitem as <-. cbn in Ha |- *.
  destruct (decide (k = "g")) as [->|]; [|done]. by eexists.
Qed.

Lemma loadPolicy_shape text m : model_shape m -> model_shape (StringAdapter_loadPolicy text m).
Proof.
  intros H. apply (model_shape_preserved _ _ H).
  - intros sec key. rewrite loadPolicy_assertion. by destruct (assertion m sec key).
  - intros sec key. rewrite loadPolicy_assertion. by destruct (assertion m sec key).
  - destruct (shape_g _ H) as [ast Hg]. unfold StringAdapter_loadPolicy. clear H. revert m ast Hg.
    induction (split_char "010" text) as [|n l IH]; intros m ast Hg; [by exists ast|].
    destruct (loadRule_g m n ast Hg) as [ast' Hg']. cbn [foldl]. by eapply IH.
Qed.

Lemma assertion_set_g m l sec key : assertion (map_set m "g" l) sec key =
  if decide (sec = "g") then map_get l key else assertion m sec key.
Proof.
  unfold assertion. rewrite map_get_set. destruct (decide ("g" = sec)) as [<-|Hne]; cbn.
  - by rewrite decide_True.
  - by rewrite decide_False by congruence.
Qed.

Lemma model_buildRoleLinks_spec m G rm s : model_shape m -> rm_wf s ->
  assertion m "g" "g" = Some (g_assertion G rm) ->
  exists m' s', Model_buildRoleLinks m s = Ok (m', s') /\ model_shape m' /\ rm_wf s' /\
    maxHierarchyLevel s'.2 = maxHierarchyLevel s.2 /\
    assertion m' "p" "p" = assertion m "p" "p" /\
    assertion m' "g" "g" = Some (g_assertion G RmShared) /\
    forall a b, link s' a b <-> link s a b \/ rule_link G a b.
Proof.
  intros Hm Hwf Hg. destruct (shape_g _ Hm) as [ast Hgm].
  unfold assertion in Hg. rewrite Hgm in Hg. cbn in Hg. injection Hg as ->.
  destruct (buildRoleLinks_spec (g_assertion G rm) s Hwf eq_refl) as (s' & Hb & Hwf' & Hl & Hlinks).
  exists (map_set m "g" [("g", g_assertion G RmShared)]), s'. split.
  { unfold Model_buildRoleLinks. rewrite Hgm. cbn [buildRoleLinks_all].
    unfold mbind, M_bind. by rewrite Hb. }
  assert (Hasst : forall sec key, assertion (map_set m "g" [("g", g_assertion G RmShared)]) sec key =
    if decide (sec = "g") then map_get [("g", g_assertion G RmShared)] key else assertion m sec key)
    by (intros; apply assertion_set_g).
  split.
  - apply (model_shape_preserved _ _ Hm).
    + intros sec key. rewrite Hasst. case_decide as Hs; [|done]. subst. unfold assertion. rewrite Hgm.
      cbn. by destruct (decide (key = "g")).
    + intros sec key. rewrite Hasst. case_decide as Hs; [|done]. subst. unfold assertion. rewrite Hgm.
      cbn. by destruct (decide (key = "g")).
    + eexists. apply map_get_set_eq.
  - rewrite !Hasst. done.
Qed.

Lemma loadPolicy_inv compile e : enforcer_pre compile e ->
  exists e', loadPolicy e = Ok (tt, e') /\ e_adapter e' = e_adapter e /\
    enforcer_inv compile (text_p (e_adapter e)) (text_g (e_adapter e)) e'.
Proof.
  intros [Hshape [P HP] (G & rm & HG) Hfm Hcache Hpat Hlev].
  set (m := StringAdapter_loadPolicy (e_adapter e) (CasbinModel.clearPolicy (e_model e))).
  assert (Hm : model_shape m) by (by apply loadPolicy_shape, clearPolicy_shape).
  assert (Hmp : assertion m "p" "p" = Some (p_assertion (text_p (e_adapter e)))).
  { unfold m. rewrite loadPolicy_assertion, clearPolicy_assertion, HP. done. }
  assert (Hmg : assertion m "g" "g" = Some (g_assertion (text_g (e_adapter e)) rm)).
  { unfold m. rewrite loadPolicy_assertion, clearPolicy_assertion, HG. done. }
  destruct (clear_spec (e_roles e) Hpat) as (s & Hs & Hwf & Hls & _ & Hnone).
  destruct (model_buildRoleLinks_spec m _ rm s Hm Hwf Hmg) as
    (m' & s' & Hb & Hm' & Hwf' & Hl' & Hp' & Hg' & Hlinks).
  exists (mkEnforcer m' (e_fm e) (e_adapter e) (e_matcherMap e) s').
  split; [|split; [done|]].
  - unfold loadPolicy, buildRoleLinksInternal, mbind, M_bind, mmodify, on_roles, mget.
    cbn [e_roles e_model with_model with_roles e_adapter e_fm e_matcherMap fst snd].
    rewrite Hs. cbn [e_roles e_model with_model with_roles e_adapter e_fm e_matcherMap fst snd].
    fold m. rewrite Hb. done.
  - split; cbn; try done; [by rewrite Hp' | congruence |].
    intros a b. rewrite Hlinks. split; [|by right]. intros [H|H]; [|done]. by apply Hnone in H.
Qed.

(** ** The enforcer of the dashboard *)

Definition rbac_inv (compile : string -> result Matcher) (text : string) (r : RBACEnforcer) : Prop :=
  policyAdapter r = text /\ e_adapter (enforcer r) = text /\
  enforcer_inv compile (text_p text) (text_g text) (enforcer r).

Definition base_model : Model := match newModelFromString RBACModel with Ok m => m | Throw _ => [] end.

Lemma newModel_base : newModelFromString RBACModel = Ok base_model.
Proof. vm_compute. reflexivity. Qed.

Lemma base_model_shape : model_shape base_model.
Proof. split; [by vm_compute..|]. exists (g_assertion [] RmOwn). by vm_compute. Qed.

Lemma newRBACEnforcer_inv compile text :
  exists r, newRBACEnforcer text = Ok r /\ rbac_inv compile text r.
Proof.
  unfold newRBACEnforcer. rewrite newModel_base. cbn [mbind result_bind].
  set (e0 := mkEnforcer base_model [("objMatchFunc", objMatchFunc)] text [] ([], newDefaultRoleManager 10)).
  destruct (loadPolicy_inv compile e0) as (e & He & Ha & Hinv).
  { split; try done; [apply base_model_shape | exists []; by vm_compute | exists [], RmOwn; by vm_compute]. }
  exists (mkRBAC e text). split; [|done].
  change ((addFunction "objMatchFunc" objMatchFunc;; loadPolicy) (newCoreEnforcer base_model text))
    with (loadPolicy e0). by rewrite He.
Qed.

Lemma loadPolicies_inv compile old text r : rbac_inv compile old r ->
  exists r', loadPolicies text r = Ok (tt, r') /\ rbac_inv compile text r'.
Proof.
  intros (Hpa & Hea & Hinv). set (e0 := enforcer r) in *.
  set (e1 := mkEnforcer (e_model e0) (e_fm e0) text (e_matcherMap e0) (e_roles e0)).
  destruct (loadPolicy_inv compile e1) as (e & He & Ha & Hinv').
  { by destruct (enforcer_inv_pre _ _ _ _ Hinv). }
  exists (mkRBAC e text). split; [|done].
  change (loadPolicies text r) with
    (match loadPolicy e1 with Ok (a, e) => Ok (a, mkRBAC e text) | Throw msg => Throw msg end).
  by rewrite He.
Qed.

(** The states an enforcer goes through, with the policy text loaded last. *)
Inductive rbac_reach (compile : string -> result Matcher) : string -> RBACEnforcer -> Prop :=
| reach_new text r :
    newRBACEnforcer text = Ok r -> rbac_reach compile text r
| reach_load old text r r' :
    rbac_reach compile old r -> loadPolicies text r = Ok (tt, r') -> rbac_reach compile text r'
| reach_can text r sub act scope obj b r' :
    rbac_reach compile text r -> can compile sub act scope obj r = Ok (b, r') ->
    rbac_reach compile text r'.

Section reachable.
Context (compile : string -> result Matcher) `{!ExpressionEval compile}.

Lemma can_inv text r sub act scope obj : rbac_inv compile text r ->
  exists b r', can compile sub act scope obj r = Ok (b, r') /\ rbac_inv compile text r' /\
    (b = true <-> text_allows text sub act scope obj).
Proof.
  intros (Hpa & Hea & Hinv).
  destruct (enforce_inv compile _ _ _ sub act scope obj Hinv) as (b & e & He & Hinv' & Ha & Hspec).
  exists b, (mkRBAC e (policyAdapter r)). split; [unfold can, on_enforcer; by rewrite He|].
  split; [|done]. split; [done|]. split; [cbn; congruence|done].
Qed.

Lemma reach_inv text r : rbac_reach compile text r -> rbac_inv compile text r.
Proof.
  induction 1 as [text r Hr|old text r r' _ IH Hl|text r sub act scope obj b r' _ IH Hc].
  - destruct (newRBACEnforcer_inv compile text) as (r0 & Hr0 & ?). congruence.
  - destruct (loadPolicies_inv compile old text r IH) as (r0 & Hr0 & ?). congruence.
  - destruct (can_inv text r sub act scope obj IH) as (b0 & r0 & Hr0 & ? & _). congruence.
Qed.

Lemma can_reach text r sub act scope obj : rbac_reach compile text r ->
  exists b r', can compile sub act scope obj r = Ok (b, r') /\
    (b = true <-> text_allows text sub act scope obj).
Proof.
  intros H%reach_inv. destruct (can_inv text r sub act scope obj H) as (b & r' & ? & _ & ?).
  by exists b, r'.
Qed.

Lemma can_true_iff text r sub act scope obj : rbac_reach compile text r ->
  (exists r', can compile sub act scope obj r = Ok (true, r')) <-> text_allows text sub act scope obj.
Proof.
  intros H. destruct (can_reach text r sub act scope obj H) as (b & r' & Hc & Hspec).
  rewrite <- Hspec. split.
  - intros (r2 & Hc2). congruence.
  - intros ->. by exists r'.
Qed.
End reachable.

(** ** Changing the rules *)

Lemma rule_link_mono G G' a b : (forall r, r ∈ G -> r ∈ G') -> rule_link G a b -> rule_link G' a b.
Proof. intros HG (r & Hr & ? & ?). exists r. auto. Qed.

Lemma rule_allows_mono L L' rule sub act scope obj : (forall a b, L a b -> L' a b) ->
  rule_allows L rule sub act scope obj -> rule_allows L' rule sub act scope obj.
Proof.
  intros HL [H ?]. split; [|done]. clear -HL H. induction H; econstructor; eauto.
Qed.

(** Only the empty action is allowed without a policy rule. *)
Lemma allowed_nonempty P G sub act scope obj : act <> "" ->
  allowed P G sub act scope obj <-> Exists (fun rule => rule_allows (rule_link G) rule sub act scope obj) P.
Proof.
  intros Hact. unfold allowed, effective_rules. destruct P; [|done].
  rewrite Exists_cons, !Exists_nil. split; [|done]. intros [(_ & H & _)|?]; [|done]. cbn in H. congruence.
Qed.

Lemma allowed_mono P P' G G' sub act scope obj : act <> "" ->
  (forall r, r ∈ P -> r ∈ P') -> (forall r, r ∈ G -> r ∈ G') ->
  allowed P G sub act scope obj -> allowed P' G' sub act scope obj.
Proof.
  intros Hact HP HG. rewrite !allowed_nonempty by done. rewrite !Exists_exists.
  intros (rule & Hin & Ha). exists rule. split; [auto|].
  eapply rule_allows_mono; [|exact Ha]. intros a b. by apply rule_link_mono.
Qed.

Lemma policyRules_app sec key t1 t2 :
  policyRules sec key (t1 +:+ String "010" t2) = policyRules sec key t1 ++ policyRules sec key t2.
Proof. unfold policyRules. by rewrite split_char_sep, fmap_app, join_app. Qed.

(** ** Properties *)

Section properties.
Context (compile : string -> result Matcher) `{!ExpressionEval compile}.

(** C1: In every state an enforcer can reach, a permission check answers
    (it never throws), and answers exactly whether some [p] rule of the policy
    text loaded last matches: its role is the subject or inherited within ten
    [g] links, its action is the requested one, its scope is the requested one
    or [*], and its resource pattern matches. *)
Theorem can_decides text r sub act scope obj : rbac_reach compile text r ->
  exists b r', can compile sub act scope obj r = Ok (b, r') /\
    (b = true <-> text_allows text sub act scope obj).
Proof. apply can_reach. done. Qed.

(** A permission on the whole cluster (scope [*], resource [*]) implies the
    same permission on every namespace and every resource. *)
Theorem cluster_permission_covers text r sub act r1 scope obj :
  rbac_reach compile text r -> act <> "" ->
  can compile sub act AllScope ResourceAll r = Ok (true, r1) ->
  exists r2, can compile sub act scope obj r = Ok (true, r2).
Proof.
  intros Hr Hact Hc. apply (can_true_iff compile text); [done|].
  assert (H : text_allows text sub act AllScope ResourceAll).
  { apply (can_true_iff compile text r); [done|]. by exists r1. }
  unfold text_allows in *. rewrite allowed_nonempty in * by done.
  apply Exists_exists in H as (rule & Hin & Hs & Ha & Hsc & Ho). apply Exists_exists.
  exists rule. split; [done|]. split; [done|]. split; [done|]. split; [by right; destruct Hsc|].
  by apply objMatch_all.
Qed.

(** Loading a text with further lines appended never revokes a permission. *)
Theorem appended_policies_keep_permissions text more r r' sub act scope obj r1 :
  rbac_reach compile text r -> rbac_reach compile (text +:+ String "010" more) r' -> act <> "" ->
  can compile sub act scope obj r = Ok (true, r1) ->
  exists r2, can compile sub act scope obj r' = Ok (true, r2).
Proof.
  intros Hr Hr' Hact Hc.
  apply (can_true_iff compile (text +:+ String "010" more) r'); [done|].
  assert (H : text_allows text sub act scope obj).
  { apply (can_true_iff compile text r); [done|]. by exists r1. }
  unfold text_allows, text_p, text_g in *. rewrite !policyRules_app.
  eapply allowed_mono; [done| | |exact H]; intros rule ?; apply elem_of_app; by left.
Qed.

(** C30: Roles are inherited transitively as long as the policy names at most
    eleven subjects and roles: whoever reaches a role through any chain of [g]
    rules has every permission of the role. *)
Theorem roles_inherited text r sub role act scope obj r1 :
  rbac_reach compile text r -> act <> "" ->
  length (allRoles (e_roles (enforcer r)).2) <= 11 ->
  rtc (rule_link (text_g text)) (Some sub) (Some role) ->
  can compile role act scope obj r = Ok (true, r1) ->
  exists r2, can compile sub act scope obj r = Ok (true, r2).
Proof.
  intros Hr Hact Hlen Hrtc Hc. apply (can_true_iff compile text); [done|].
  assert (H : text_allows text role act scope obj).
  { apply (can_true_iff compile text r); [done|]. by exists r1. }
  destruct (reach_inv compile text r Hr) as (_ & _ & Hinv).
  pose proof (inv_links _ _ _ _ Hinv) as Hl. pose proof (inv_level _ _ _ _ Hinv) as Hlev.
  assert (Hmono : forall a b, rtc (rule_link (text_g text)) a b -> bsteps (rule_link (text_g text)) 10 a b).
  { intros a b Hab. rewrite <- Hlev. apply (bsteps_iff _ _ _ _ _ Hl).
    apply reachable_within_bound; [apply (inv_wf _ _ _ _ Hinv)|by rewrite Hlev|].
    by apply (rtc_iff _ _ _ _ Hl). }
  unfold text_allows in *. rewrite allowed_nonempty in * by done.
  apply Exists_exists in H as (rule & Hin & Hs & Hrest). apply Exists_exists.
  exists rule. split; [done|]. split; [|done]. apply Hmono. etrans; [done|]. by eapply rtc_bsteps; eauto.
Qed.
End properties.

(** ** Witnesses *)

Definition fresh (text : string) : RBACEnforcer :=
  match newRBACEnforcer text with Ok r => r | Throw _ => mkRBAC (newCoreEnforcer [] "") "" end.

Lemma fresh_ok text : newRBACEnforcer text = Ok (fresh text).
Proof. unfold fresh. destruct (newRBACEnforcer_inv sample_compile text) as (r & -> & _). done. Qed.

Lemma fresh_reach compile text : rbac_reach compile text (fresh text).
Proof. apply reach_new, fresh_ok. Qed.

Definition lines (l : list string) : string := join (String "010" "") l.

(** The policy of [rbac/model.test.ts]. *)
Definition test_policy : string := lines [
  "";
  "p, role_ns1Viewer, view, ns1, *";
  "p, role_ns1Editor, edit, ns1, *";
  "g, role_ns1Editor, role_ns1Viewer";
  "g, role_ns1Owner, role_ns1Editor";
  "p, role_ns1Owner, manage, ns1, *";
  "";
  "p, role_ns2Viewer, view, ns2, *";
  "p, role_ns2Editor, edit, ns2, *";
  "p, role_ns2Owner, manage, ns2, *";
  "g, role_ns2Editor, role_ns2Viewer";
  "g, role_ns2Owner, role_ns2Editor";
  "";
  "p, role_clusterViewer, view, *, *";
  "p, role_clusterEditor, edit, *, *";
  "g, role_clusterEditor, role_clusterViewer";
  "g, role_clusterOwner, role_clusterEditor";
  "p, role_clusterOwner, manage, *, *";
  "";
  "g, ns1Viewer, role_ns1Viewer";
  "g, ns1Editor, role_ns1Editor";
  "g, ns1Owner, role_ns1Owner";
  "";
  "g, clusterViewer, role_clusterViewer";
  "g, clusterEditor, role_clusterEditor";
  "g, clusterOwner, role_clusterOwner";
  "";
  "p, Nio, edit, ns2, components/*";
  ""].

(** The answers of the checks of [rbac/model.test.ts], in its order. *)
Definition answer (m : M RBACEnforcer bool) (r : RBACEnforcer) : option bool :=
  match m r with Ok (b, _) => Some b | Throw _ => None end.

Definition namespace_answers (sub scope : string) : list (option bool) :=
  (fun f => answer (f sub scope) (fresh test_policy)) <$>
    [canViewNamespace sample_compile; canEditNamespace sample_compile; canManageNamespace sample_compile].

Example test_namespace_checks :
  (fun sub => (namespace_answers sub "ns1", namespace_answers sub "ns2")) <$>
    ["ns1Viewer"; "ns1Editor"; "ns1Owner"; "clusterViewer"; "clusterEditor"; "clusterOwner"] =
  let t := Some true in let f := Some false in
  [([t; f; f], [f; f; f]); ([t; t; f], [f; f; f]); ([t; t; t], [f; f; f]);
   ([t; f; f], [t; f; f]); ([t; t; f], [t; t; f]); ([t; t; t], [t; t; t])].
Proof. vm_compute. reflexivity. Qed.

Example test_component_checks :
  (fun obj => answer (can sample_compile "Nio" "edit" "ns2" obj) (fresh test_policy)) <$>
    ["components/abc"; "pod/abc"] = [Some true; Some false].
Proof. vm_compute. reflexivity. Qed.

Lemma can_decides_witness : exists b r',
  can sample_compile "ns1Editor" "view" "ns1" "pods" (fresh test_policy) = Ok (b, r') /\
  (b = true <-> text_allows test_policy "ns1Editor" "view" "ns1" "pods").
Proof. apply (can_decides sample_compile), fresh_reach. Defined.

Lemma cluster_permission_covers_witness : exists r2,
  can sample_compile "clusterOwner" "view" "ns7" "pods" (fresh test_policy) = Ok (true, r2).
Proof.
  eapply (cluster_permission_covers sample_compile test_policy (fresh test_policy));
    [apply fresh_reach | done | vm_compute; reflexivity].
Defined.

Lemma appended_policies_keep_permissions_witness : exists r2,
  can sample_compile "ns1Editor" "view" "ns1" "pods"
    (fresh (test_policy +:+ String "010" "p, role_ns1Viewer, edit, ns3, *")) = Ok (true, r2).
Proof.
  eapply (appended_policies_keep_permissions sample_compile test_policy _ (fresh test_policy));
    [apply fresh_reach | apply fresh_reach | done | vm_compute; reflexivity].
Defined.

Definition chain_policy : string := lines ["g, a, b"; "g, b, c"; "p, c, edit, ns1, *"].

Lemma roles_inherited_witness : exists r2,
  can sample_compile "a" "edit" "ns1" "pods" (fresh chain_policy) = Ok (true, r2).
Proof.
  eapply (roles_inherited sample_compile chain_policy (fresh chain_policy) "a" "c");
    [apply fresh_reach | done | vm_compute; lia | | vm_compute; reflexivity].
  apply (rtc_l _ _ (Some "b")); [exists ["a"; "b"]|apply rtc_once; exists ["b"; "c"]];
    (split; [|split; reflexivity]); vm_compute; set_solver.
Defined.
