(* ===== verification/JsNumber.v ===== *)
(** The ECMAScript [Number] type: IEEE 754 binary64 values, as the
    specification floats of the standard library, and JSON-like values for the
    places where the program uses [any]. *)

From Corelib Require Import Floats.SpecFloat.
From S2P Require Import Prelude.

Abbreviation number := spec_float.

(** An integer literal. *)
Definition num (z : Z) : number := binary_normalize 53 1024 z 0 false.

Definition NaN : number := S754_nan.
Definition isNaN (x : number) : bool := match x with S754_nan => true | _ => false end.

(** [x < y], [x > y], [x <= y], [x >= y] and [x === y] on numbers. *)
Definition nlt (x y : number) : bool := SFltb x y.
Definition ngt (x y : number) : bool := SFltb y x.
Definition nle (x y : number) : bool := SFleb x y.
Definition nge (x y : number) : bool := SFleb y x.
Definition neqb (x y : number) : bool := SFeqb x y.

Definition nadd (x y : number) : number := SFadd 53 1024 x y.
Definition nsub (x y : number) : number := SFsub 53 1024 x y.
Definition nmul (x y : number) : number := SFmul 53 1024 x y.
Definition ndiv (x y : number) : number := SFdiv 53 1024 x y.

#[export] Instance number_eq_dec : EqDecision number.
Proof. solve_decision. Defined.

(** Values of type [any] that the program stores and does not inspect. *)
Inductive JsValue :=
| JUndefined
| JNull
| JBool (b : bool)
| JNumber (n : number)
| JString (s : string)
| JArray (l : list JsValue)
| JObject (fields : list (string * JsValue)).
