(* ===== verification/ResourceTypes.v ===== *)
(** [types/*.ts]: the resources the dashboard shows and edits, and the constant
    objects and constructors the forms start from.

    Every interface is a record with its fields in the source's order, [T | undefined]
    fields are [option T], an object used as a dictionary is the list of its
    entries in enumeration order, and a [number] is a binary64 value. *)

From S2P Require Import Prelude JsMap JsNumber.

Abbreviation dict T := (list (string * T)).

(** ** [types/common.ts] *)

Definition EnvTypeExternal : string := "external".
Definition EnvTypeStatic : string := "static".
Definition EnvTypeLinked : string := "linked".

Record ControlledDialogParams := mkDialog { dialog_open : bool; dialog_data : JsValue }.

Record MetricItem := mkMetricItem { metric_x : number; metric_y : number }.
Abbreviation MetricList := (list MetricItem).

Record Metrics := mkMetrics {
  isMetricServerEnabled : bool;
  metrics_cpu : MetricList;
  metrics_memory : MetricList
}.

(** ** [types/componentTemplate.ts] *)

Definition workloadTypeServer : string := "server".
Definition workloadTypeCronjob : string := "cronjob".
Definition workloadTypeDaemonSet : string := "daemonset".
Definition workloadTypeStatefulSet : string := "statefulset".

Record ComponentLikeEnv := mkEnv { env_name : string; env_type : string; env_value : string }.

Definition PortProtocolHTTP : string := "http".
Definition PortProtocolHTTPS : string := "https".
Definition PortProtocolHTTP2 : string := "http2".
Definition PortProtocolGRPC : string := "grpc".
Definition PortProtocolGRPCWEB : string := "grpc-web".
Definition PortProtocolTCP : string := "tcp".
Definition PortProtocolUDP : string := "udp".

Record ComponentLikePort := mkPort {
  port_protocol : string;
  containerPort : number;
  servicePort : number
}.

Definition PodAffinityTypePreferFanout : string := "prefer-fanout".
Definition PodAffinityTypePreferGather : string := "prefer-gather".

Definition VolumeTypeTemporaryMemory : string := "emptyDirMemory".
Definition VolumeTypeTemporaryDisk : string := "emptyDir".
Definition VolumeTypePersistentVolumeClaim : string := "pvc".
Definition VolumeTypeHostPath : string := "hostPath".
Definition VolumeTypePersistentVolumeClaimTemplate : string := "pvcTemplate".
Definition VolumeTypePersistentVolumeClaimTemplateNew : string := "pvcTemplate-new".
Definition VolumeTypePersistentVolumeClaimNew : string := "pvc-new".

Record Volume := mkVolume {
  vol_type : string;
  vol_path : string;
  vol_size : string;
  vol_storageClassName : string;
  vol_pvc : string;
  vol_pvToMatch : string;
  vol_claimName : string;
  vol_hostPath : option string
}.

Record PreInjectedFile := mkPreInjectedFile {
  file_content : string;
  file_mountPath : string;
  file_mountPathTmp : option string;
  file_base64 : option bool;
  file_readonly : option bool
}.

Record HttpHeader := mkHttpHeader { header_name : string; header_value : string }.

(** [number | string] *)
Inductive PortRef := PortNumber (n : number) | PortName (s : string).

Record ProbeHttpGet := mkProbeHttpGet {
  httpGet_host : option string;
  httpGet_httpHeaders : option (list HttpHeader);
  httpGet_path : option string;
  httpGet_port : PortRef;
  httpGet_scheme : option string
}.
Record ProbeTcpSocket := mkProbeTcpSocket { tcp_host : option string; tcp_port : PortRef }.

Record Probe := mkProbe {
  probe_exec : option (option (list string));
  probe_httpGet : option ProbeHttpGet;
  probe_tcpSocket : option ProbeTcpSocket;
  initialDelaySeconds : option number;
  timeoutSeconds : option number;
  periodSeconds : option number;
  successThreshold : option number;
  failureThreshold : option number
}.

Record ResourceAmounts := mkAmounts { amount_cpu : option string; amount_memory : option string }.
Record ResourceRequirements := mkResourceRequirements {
  limits : option ResourceAmounts;
  requests : option ResourceAmounts
}.

Record EndpointProtection := mkEndpointProtection {
  protected_ports : option (list string);
  protected_groups : option (list string)
}.

Record ComponentLike := mkComponentLike {
  comp_name : string;
  comp_image : string;
  comp_replicas : number;
  comp_command : option string;
  comp_resourceRequirements : option ResourceRequirements;
  comp_cpuRequest : option string;
  comp_memoryRequest : option string;
  comp_cpuLimit : option string;
  comp_memoryLimit : option string;
  comp_workloadType : option string;
  comp_schedule : option string;
  comp_restartStrategy : option string;
  comp_terminationGracePeriodSeconds : option number;
  comp_dnsPolicy : string;
  comp_env : option (list ComponentLikeEnv);
  comp_ports : option (list ComponentLikePort);
  comp_volumes : option (list Volume);
  comp_preInjectedFiles : option (list PreInjectedFile);
  comp_livenessProbe : option Probe;
  comp_readinessProbe : option Probe;
  comp_nodeSelectorLabels : option (dict string);
  comp_preferNotCoLocated : option bool;
  comp_podAffinityType : option string;
  comp_protectedEndpoint : option EndpointProtection
}.

Definition newEmptyComponentLike : ComponentLike := {|
  comp_name := "";
  comp_image := "";
  comp_replicas := num 1;
  comp_command := None;
  comp_resourceRequirements := None;
  comp_cpuRequest := None;
  comp_memoryRequest := None;
  comp_cpuLimit := None;
  comp_memoryLimit := None;
  comp_workloadType := Some workloadTypeServer;
  comp_schedule := Some "* * * * *";
  comp_restartStrategy := None;
  comp_terminationGracePeriodSeconds := None;
  comp_dnsPolicy := "ClusterFirst";
  comp_env := None;
  comp_ports := None;
  comp_volumes := None;
  comp_preInjectedFiles := None;
  comp_livenessProbe := None;
  comp_readinessProbe := None;
  comp_nodeSelectorLabels := None;
  comp_preferNotCoLocated := None;
  comp_podAffinityType := None;
  comp_protectedEndpoint := None
|}.

(** ** [types/application.ts] *)

Record ServiceStatusPort := mkServiceStatusPort {
  ssp_name : string;
  ssp_protocol : string;
  ssp_port : number;
  ssp_targetPort : number
}.
Record ServiceStatus := mkServiceStatus {
  svcStatus_name : string;
  svcStatus_clusterIP : string;
  svcStatus_ports : list ServiceStatusPort
}.

Record PodContainer := mkPodContainer {
  container_name : string;
  container_restartCount : number;
  container_ready : bool;
  container_started : bool;
  container_startedAt : number
}.
Record PodWarning := mkPodWarning { warning_message : string }.
Record PodStatus := mkPodStatus {
  pod_name : string;
  pod_node : string;
  pod_status : string;
  pod_statusText : string;
  pod_message : string;
  pod_podIps : list string;
  pod_hostIp : string;
  pod_phase : string;
  pod_createTimestamp : number;
  pod_startTimestamp : number;
  pod_isTerminating : bool;
  pod_restarts : number;
  pod_containers : list PodContainer;
  pod_warnings : list PodWarning;
  pod_metrics : Metrics
}.

Record IstioMetricHistories := mkIstio {
  httpRequestsTotal : option MetricList;
  httpRespCode2XXCount : option MetricList;
  httpRespCode4XXCount : option MetricList;
  httpRespCode5XXCount : option MetricList;
  httpRequestBytes : option MetricList;
  httpResponseBytes : option MetricList;
  tcpSentBytesTotal : option MetricList;
  tcpReceivedBytesTotal : option MetricList
}.

Record ApplicationComponentDetails := mkComponentDetails {
  cd_component : ComponentLike;
  cd_metrics : Metrics;
  cd_pods : list PodStatus;
  cd_services : list ServiceStatus;
  cd_istioMetricHistories : IstioMetricHistories
}.

Record Application := mkApplicationForm {
  application_name : string;
  application_istioMetricHistories : option IstioMetricHistories
}.
Record ApplicationDetails := mkApplication {
  app_name : string;
  app_istioMetricHistories : option IstioMetricHistories;
  app_status : string;
  app_metrics : Metrics;
  app_roles : list string
}.

(** ** [types/certificate.ts] *)

Definition dns01Mananged : string := "default-dns01-issuer".
Definition issuerManaged : string := "issuerManaged".
Definition selfManaged : string := "selfManaged".
Definition cloudFlare : string := "cloudFlare".
Definition caForTest : string := "caForTest".
Definition dns01Issuer : string := "default-dns01-issuer".
Definition http01Issuer : string := "default-http01-issuer".

Record Certificate := mkCertificate {
  cert_name : string;
  cert_isSelfManaged : option bool;
  cert_isSignedByTrustedCA : option bool;
  cert_expireTimestamp : option number;
  cert_selfManagedCertContent : string;
  cert_selfManagedCertPrivateKey : string;
  cert_httpsCertIssuer : option string;
  cert_domains : list string;
  cert_ready : option string;
  cert_reason : option string;
  cert_wildcardCertDNSChallengeDomainMap : option (dict string)
}.

Record CertificateFormType := mkCertificateForm {
  form_certificate : Certificate;
  form_managedType : string
}.

Definition emptyCertificate (ready reason : option string) : Certificate :=
  mkCertificate "" None None None "" "" None [] ready reason None.
Definition newEmptyCertificateForm : CertificateFormType :=
  mkCertificateForm (emptyCertificate (Some "") (Some "")) issuerManaged.
Definition newUpdateEmptyCertificateForm : CertificateFormType :=
  mkCertificateForm (emptyCertificate (Some "") (Some "")) selfManaged.
Definition newEmptyCertificateUploadForm : CertificateFormType :=
  mkCertificateForm (emptyCertificate None None) selfManaged.

Record AcmeCloudFlare := mkAcmeCloudFlare { acme_account : string; acme_secret : string }.
Record CertificateIssuer := mkCertificateIssuer {
  issuer_name : string;
  issuer_acmeCloudFlare : option AcmeCloudFlare;
  issuer_caForTest : option unit
}.
Record CertificateIssuerFormType := mkIssuerForm {
  issuerForm_issuer : CertificateIssuer;
  issuerForm_issuerType : string
}.
Definition newEmptyCertificateIssuerForm : CertificateIssuerFormType :=
  mkIssuerForm (mkCertificateIssuer "" None None) cloudFlare.

Record AcmeServerInfo := mkAcmeServerInfo {
  acmeDomain : string;
  nsDomain : string;
  ipForNameServer : string;
  acme_ready : bool
}.
Record AcmeServerFormType := mkAcmeServerForm { acmeForm_acmeDomain : string; acmeForm_nsDomain : string }.

(** ** [types/sso.ts] *)

Record ProtectedEndpoint := mkProtectedEndpoint {
  endpoint_name : string;
  endpoint_namespace : string;
  endpoint_endpointName : string;
  endpoint_ports : option (list number);
  endpoint_groups : option (list string)
}.

Definition newEmptyProtectedEndpoint : ProtectedEndpoint :=
  mkProtectedEndpoint "" "" "" (Some []) (Some []).

Definition SSO_CONNECTOR_TYPE_GITHUB : string := "github".
Definition SSO_CONNECTOR_TYPE_GITLAB : string := "gitlab".

Record GitlabConfig := mkGitlabConfig {
  gitlab_baseURL : string;
  gitlab_clientID : string;
  gitlab_clientSecret : string;
  gitlab_groups : list string
}.
Record GithubOrg := mkGithubOrg { org_name : string; org_teams : list string }.
Record GithubConfig := mkGithubConfig {
  github_clientID : string;
  github_clientSecret : string;
  github_orgs : list GithubOrg
}.

(** The two connector interfaces, told apart by their [type]. *)
Inductive SSOConnector :=
| SSOGithubConnector (id name : string) (config : GithubConfig)
| SSOGitlabConnector (id name : string) (config : GitlabConfig).

Definition connector_type (c : SSOConnector) : string :=
  match c with
  | SSOGithubConnector _ _ _ => SSO_CONNECTOR_TYPE_GITHUB
  | SSOGitlabConnector _ _ _ => SSO_CONNECTOR_TYPE_GITLAB
  end.

Record SSOConfig := mkSSOConfig {
  sso_domain : string;
  sso_connectors : option (list SSOConnector)
}.

(** [id] is the result of [ID()], a random identifier. *)
Definition newEmptyGithubConnector (id : string) : SSOConnector :=
  SSOGithubConnector id "" (mkGithubConfig "" "" []).
Definition newEmptyGitlabConnector (id : string) : SSOConnector :=
  SSOGitlabConnector id "" (mkGitlabConfig "https://gitlab.com" "" "" []).
Definition newEmptySSOConfig : SSOConfig := mkSSOConfig "" (Some []).

(** ** [types/cluster.ts] *)

Record VersionInfo := mkVersionInfo {
  buildDate : string;
  compiler : string;
  gitCommit : string;
  gitTreeState : string;
  gitVersion : string;
  goVersion : string;
  platform : string
}.

Record ClusterInfo := mkClusterInfo {
  ingressIP : string;
  ingressHostname : string;
  httpPort : number;
  httpsPort : number;
  tlsPort : number;
  cluster_version : string;
  canBeInitialized : bool;
  isProduction : bool;
  kubernetesVersion : VersionInfo;
  kalmVersion : VersionInfo
}.

Record TemporaryAdmin := mkTemporaryAdmin { admin_username : string; admin_password : string; admin_email : string }.
Record InitializeClusterResponse := mkInitializeCluster {
  init_clusterInfo : ClusterInfo;
  init_temporaryAdmin : TemporaryAdmin;
  init_sso : SSOConfig
}.

(** ** [types/debounce.ts] *)

Record Debounce := mkDebounce { deb_timer : number; deb_debouncing : bool }.

(** ** [types/disk.ts] *)

Record Disk := mkDisk {
  disk_name : string;
  disk_isInUse : bool;
  disk_componentNamespace : option string;
  disk_componentName : option string;
  disk_phase : string;
  disk_capacity : string;
  disk_stsVolClaimTemplate : option string
}.

Record VolumeOption := mkVolumeOption {
  option_name : string;
  option_isInUse : bool;
  option_componentNamespace : option string;
  option_componentName : option string;
  option_capacity : string;
  option_pvc : string;
  option_pvToMatch : string;
  option_storageClassName : string
}.

Record StorageClass := mkStorageClass {
  sc_name : string;
  sc_isManaged : bool;
  sc_docLink : string;
  sc_priceLink : string
}.

(** ** [types/domain.ts]

    The reducer builds partial objects with a cast, so each field that it may
    leave out is optional. *)

Record Domain := mkDomain {
  dom_aRecords : option (list string);
  dom_cname : option string;
  dom_domain : string;
  dom_ns : option (list string);
  dom_isLoaded : option bool
}.

(** ** [types/node.ts] *)

(** [cpu], [memory], [pods] and further entries. *)
Record ResourceList := mkResourceList {
  rl_cpu : string;
  rl_memory : string;
  rl_pods : string;
  rl_others : dict string
}.

Record PodRequests := mkPodRequests {
  preq_podName : string;
  preq_namespace : string;
  preq_requests : ResourceList
}.
Record AllocatedResources := mkAllocated {
  alloc_podsCount : number;
  alloc_requests : ResourceList;
  alloc_limits : ResourceList;
  alloc_podsRequests : list PodRequests
}.
Record NodeAddress := mkNodeAddress { address_type : string; address_address : string }.
Record NodeCondition := mkNodeCondition {
  cond_type : string;
  cond_status : string;
  cond_lastHeartbeatTime : string;
  cond_lastTransitionTime : string;
  cond_reason : string;
  cond_message : string
}.
Record NodeInfo := mkNodeInfo {
  machineID : string;
  systemUUID : string;
  bootID : string;
  kernelVersion : string;
  osImage : string;
  containerRuntimeVersion : string;
  kubeletVersion : string;
  kubeProxyVersion : string;
  operatingSystem : string;
  architecture : string
}.
Record NodeImage := mkNodeImage { image_names : list string; image_sizeBytes : number }.
Record NodeStatus := mkNodeStatus {
  nodeStatus_capacity : ResourceList;
  nodeStatus_allocatable : ResourceList;
  nodeStatus_addresses : list NodeAddress;
  nodeStatus_conditions : list NodeCondition;
  nodeStatus_nodeInfo : NodeInfo;
  nodeStatus_images : list NodeImage
}.
(** [node.labels || {}] guards against a missing dictionary. *)
Record Node := mkNode {
  node_name : string;
  node_creationTimestamp : number;
  node_labels : option (dict string);
  node_annotations : option (dict string);
  node_roles : list string;
  node_statusTexts : list string;
  node_internalIP : string;
  node_externalIP : string;
  node_allocatedResources : AllocatedResources;
  node_status : NodeStatus;
  node_metrics : Metrics
}.
Record NodesListResponse := mkNodesList { nodesList_nodes : list Node; nodesList_metrics : Metrics }.

(** ** [types/registry.ts] *)

Definition PublicRegistriesList : list string :=
  ["docker.io"; "gcr.io"; "k8s.gcr.io"; "us.gcr.io"; "eu.gcr.io"; "asia.gcr.io"; "quay.io"].

Record RepositoryTag := mkRepositoryTag {
  tag_name : string;
  tag_manifest : string;
  tag_timeCreatedMs : string;
  tag_timeUploadedMs : string
}.
Record Repository := mkRepository { repo_name : string; repo_tags : list RepositoryTag }.
Record Registry := mkRegistry {
  reg_name : string;
  reg_username : string;
  reg_password : string;
  reg_host : string;
  reg_poolingIntervalSeconds : number;
  reg_authenticationVerified : bool;
  reg_repositories : list Repository
}.
Record RegistryFormType := mkRegistryForm {
  regForm_name : string;
  regForm_username : string;
  regForm_password : string;
  regForm_host : string
}.
Definition newEmptyRegistry : RegistryFormType := mkRegistryForm "" "" "" "".

(** ** [types/route.ts] *)

Definition AllHttpMethods : list string :=
  ["GET"; "POST"; "PUT"; "PATCH"; "DELETE"; "HEAD"; "OPTIONS"; "CONNECT"; "TRACE"].

Record HttpRouteCondition := mkRouteCondition {
  rc_type : string;
  rc_name : string;
  rc_operator : string;
  rc_value : string
}.
Record HttpRouteDestination := mkDestination { dest_host : string; dest_weight : number }.
Record HttpRouteRetry := mkRetry {
  attempts : number;
  perTtyTimeoutSeconds : number;
  retryOn : list string
}.
Record HttpRouteMirror := mkMirror { mirror_destination : HttpRouteDestination; mirror_percentage : number }.
Record HttpRouteFault := mkFault { fault_percentage : number; fault_errorStatus : number }.
Record HttpRouteDelay := mkDelay { delay_percentage : number; delay_delaySeconds : number }.
Record HttpRouteCORS := mkCORS {
  cors_allowOrigin : list string;
  cors_allowMethods : list string;
  cors_allowCredentials : bool;
  cors_allowHeaders : list string;
  cors_maxAge : string
}.

Definition methodsModeAll : string := "all".
Definition methodsModeSpecific : string := "specific".
Definition httpMethods : list string :=
  ["GET"; "POST"; "PUT"; "PATCH"; "DELETE"; "OPTIONS"; "HEAD"; "TRACE"; "CONNECT"].

Record HttpRoute := mkHttpRoute {
  route_name : string;
  route_namespace : string;
  route_hosts : list string;
  route_paths : list string;
  route_methods : list string;
  route_schemes : list string;
  route_stripPath : option bool;
  route_conditions : option (list HttpRouteCondition);
  route_destinations : list HttpRouteDestination;
  route_httpRedirectToHttps : option bool;
  route_timeout : option number;
  route_retries : option HttpRouteRetry;
  route_mirror : option HttpRouteMirror;
  route_fault : option HttpRouteFault;
  route_delay : option HttpRouteDelay;
  route_cors : option HttpRouteCORS;
  route_methodsMode : option string
}.

Definition newEmptyRouteForm (id : string) : HttpRoute := {|
  route_namespace := "kalm-system";
  route_name := "http-route-" +:+ id;
  route_hosts := [];
  route_paths := ["/"];
  route_conditions := Some [];
  route_destinations := [];
  route_httpRedirectToHttps := Some false;
  route_schemes := ["http"];
  route_methods := ["GET"];
  route_timeout := Some (num 5);
  route_retries := Some (mkRetry (num 3) (num 2) ["gateway-error"; "connect-failure"; "refused-stream"]);
  route_methodsMode := Some methodsModeAll;
  route_stripPath := None;
  route_mirror := None;
  route_fault := None;
  route_delay := None;
  route_cors := None
|}.

(** ** [types/service.ts] *)

Record ServicePort := mkServicePort {
  sp_appProtocol : string;
  sp_protocol : string;
  sp_port : number;
  sp_targetPort : option PortRef;
  sp_nodePort : option number
}.
Record Service := mkService {
  service_name : string;
  service_namespace : string;
  service_ports : list ServicePort
}.

(** ** [types/member.tsx] *)

Definition SubjectTypeUser : string := "user".
Definition SubjectTypeGroup : string := "group".

Record RoleBinding := mkRoleBinding {
  rb_name : string;
  rb_namespace : string;
  rb_subject : string;
  rb_subjectType : string;
  rb_role : string;
  rb_expiredAtTimestamp : number
}.
Definition newEmptyRoleBinding (isClusterLevel : bool) : RoleBinding :=
  mkRoleBinding "" "" "" SubjectTypeUser (if isClusterLevel then "clusterViewer" else "viewer") (num 1).

(** ** [types/authorization.ts] *)

Record LoginStatus := mkLoginStatus {
  ls_authorized : bool;
  ls_email : string;
  ls_avatarUrl : string;
  ls_groups : list string;
  ls_policies : string;
  ls_impersonation : string;
  ls_impersonationType : string
}.

(** ** [types/deployAccessToken.ts]: data *)

Definition DeployAccessTokenScopeCluster : string := "cluster".
Definition DeployAccessTokenScopeNamespace : string := "namespace".
Definition DeployAccessTokenScopeComponent : string := "component".

(** [name] is undefined when the resource of a component has no slash. *)
Record AccessTokenRule := mkAccessTokenRule {
  rule_namespace : string;
  rule_name : option string;
  rule_verb : string;
  rule_kind : string
}.
Record AccessToken := mkAccessToken {
  at_name : string;
  at_memo : string;
  at_creator : string;
  at_token : string;
  at_rules : list AccessTokenRule
}.
Record DeployAccessToken := mkDeployAccessToken {
  dat_name : string;
  dat_memo : string;
  dat_scope : string;
  dat_resources : list string;
  dat_token : string;
  dat_creator : string
}.
Definition newEmptyDeployAccessToken : DeployAccessToken :=
  mkDeployAccessToken "" "" DeployAccessTokenScopeCluster [] "" "".

(** ** [types/deployKey.ts] *)

Definition DeployKeyScopeCluster : string := "cluster".
Definition DeployKeyScopeNamespace : string := "namespace".
Definition DeployKeyScopeComponent : string := "component".

Record DeployKey := mkDeployKey {
  dk_name : string;
  dk_scope : string;
  dk_resources : list string;
  dk_key : string;
  dk_creator : string
}.
Definition newEmptyDeployKeyForm : DeployKey := mkDeployKey "" DeployKeyScopeCluster [] "" "".

(** ** [types/dns.ts] *)

Record GoogleDNSARecordResponse := mkDNSA { dnsA_name : string; dnsA_type : number; dnsA_TTL : number; dnsA_data : string }.
Record GoogleDNSCNAMEResponse := mkDNSCNAME { dnsC_TTL : number; dnsC_data : string; dnsC_name : string; dnsC_type : number }.
Record GoogleDNSNSResponse := mkDNSNS { dnsN_TTL : number; dnsN_data : string; dnsN_name : string; dnsN_type : number }.
