(* ===== verification/ActionTypes.v ===== *)
(** [types/*.ts]: the Redux actions of the dashboard, one inductive type per
    union of the source with the source's action names as constructors, and
    the resources that are kept in arrays by name. *)

From S2P Require Import Prelude JsNumber ResourceTypes.

(** ** Tutorials ([types/tutorial.tsx])

    The completion hooks are function objects; [FnRef] stands for one, and the
    code that calls hooks takes the function each reference denotes. *)

Abbreviation FnRef := nat (only parsing).

Record FormValidator := mkFormValidator { fv_form : string; fv_field : string; fv_validate : FnRef }.

Record TutorialSubStep := mkSubStep {
  sub_title : JsValue;
  sub_irrevocable : option bool;
  sub_formValidator : option (list FormValidator);
  sub_shouldCompleteByAction : option FnRef;
  sub_shouldCompleteByState : option FnRef
}.

Record TutorialHighlight := mkHighlight {
  hl_title : string;
  hl_description : string;
  hl_anchor : string;
  hl_position : option string;
  hl_requirePathnamePrefix : option string;
  hl_requirePathname : option string;
  hl_triggeredByAction : option FnRef;
  hl_triggeredByState : option FnRef
}.

Record TutorialStep := mkStep {
  step_name : string;
  step_description : JsValue;
  step_error : option bool;
  step_subSteps : list TutorialSubStep;
  step_highlights : list TutorialHighlight
}.

Record Tutorial := mkTutorial {
  tut_title : string;
  tut_steps : list TutorialStep;
  tut_nextStep : option (string * FnRef)
}.

Inductive TutorialActions :=
| SET_TUTORIAL_ACTION (tutorial : Tutorial)
| SET_TUTORIAL_STEP_COMPLETION_STATUS (isCompleted : bool) (stepIndex subStepIndex : nat)
| SET_TUTORIAL_HIGHLIGHT_STATUS (stepIndex highlightIndex : nat)
| OPEN_TUTORIAL_DRAWER
| CLOSE_TUTORIAL_DRAWER
| RESET_TUTORIAL_ACTION
| SET_TUTORIAL_FORM_VALUES (form : string) (values : JsValue).

(** ** Authorization, notifications, settings and dialogs ([types/common.ts]) *)

(** The methods a login installs close over the subjects of the login and call
    the one enforcer of the middleware; before a login every method answers no. *)
Inductive PermissionMethods :=
| emptyPermissionMethods
| SubjectMethods (subjects : list string).

(** [Partial<SettingObject>] *)
Record SettingsPatch := mkSettingsPatch {
  patch_isDisplayingHelpers : option bool;
  patch_isSubmittingApplication : option bool;
  patch_isOpenRootDrawer : option bool;
  patch_isShowTopProgress : option bool;
  patch_usingApplicationCard : option bool;
  patch_usingTheme : option string
}.

Inductive CommonActions :=
| LOGOUT
| LOAD_LOGIN_STATUS_FAILED
| LOAD_LOGIN_STATUS_PENDING
| SET_AUTH_TOKEN (token : string)
| LOAD_LOGIN_STATUS_FULFILLED (loginStatus : LoginStatus)
| SET_NOTIFICATION_MESSAGE (message variant : string)
| SET_SETTINGS (patch : SettingsPatch)
| INIT_CONTROLLED_DIALOG (dialogID : string)
| DESTROY_CONTROLLED_DIALOG (dialogID : string)
| OPEN_CONTROLLED_DIALOG (dialogID : string) (data : JsValue)
| CLOSE_CONTROLLED_DIALOG (dialogID : string)
| CLEAR_CONTROLLED_DIALOG_DATA (dialogID : string)
| SET_AUTH_METHODS (methods : PermissionMethods).

(** [types/namespace.ts] *)
Inductive NamespaceActions :=
| SET_CURRENT_NAMESPACE (namespace : string).

(** [types/application.ts] *)
Inductive ApplicationActions :=
| CREATE_APPLICATION (application : ApplicationDetails)
| UPDATE_APPLICATION (application : ApplicationDetails)
| DELETE_APPLICATION (applicationName : string)
| LOAD_APPLICATIONS_FULFILLED (applicationList : list ApplicationDetails)
| LOAD_APPLICATIONS_PENDING
| LOAD_APPLICATIONS_FAILED
| LOAD_APPLICATION_PENDING
| LOAD_APPLICATION_FULFILLED (application : ApplicationDetails)
| LOAD_APPLICATION_FAILED
| SET_IS_SUBMITTING_APPLICATION (isSubmittingApplication : bool)
| SET_IS_SUBMITTING_APPLICATION_COMPONENT (isSubmittingApplicationComponent : bool)
| CREATE_COMPONENT (applicationName : string) (component : ApplicationComponentDetails)
| UPDATE_COMPONENT (applicationName : string) (component : ApplicationComponentDetails)
| DELETE_COMPONENT (applicationName componentName : string)
| LOAD_COMPONENTS_FULFILLED (applicationName : string) (components : list ApplicationComponentDetails)
| LOAD_COMPONENTS_PENDING
| LOAD_COMPONENTS_FAILED
| LOAD_ALL_NAMESAPCES_COMPONETS (components : gmap string (list ApplicationComponentDetails)).

(** [types/certificate.ts] *)
Inductive CertificateActions :=
| LOAD_CERTIFICATES_PENDING
| LOAD_CERTIFICATES_FAILED
| LOAD_CERTIFICATES_FULFILLED (certificates : option (list Certificate))
| LOAD_ACME_SERVER_PENDING
| LOAD_ACME_SERVER_FAILED
| LOAD_ACME_SERVER_FULFILLED (acmeServer : option AcmeServerInfo)
| SET_IS_SUBMITTING_ACME_SERVER (isSubmittingAcmeServer : bool)
| SET_IS_SUBMITTING_CERTIFICATE (isSubmittingCertificate : bool)
| DELETE_CERTIFICATE (name : string)
| LOAD_CERTIFICATE_ISSUERS_PENDING
| LOAD_CERTIFICATE_ISSUERS_FAILED
| LOAD_CERTIFICATE_ISSUERS_FULFILLED (certificateIssuers : option (list CertificateIssuer))
| CREATE_CERTIFICATE (certificate : Certificate)
| CREATE_ACME_SERVER (acmeServer : AcmeServerInfo)
| DELETE_ACME_SERVER
| CREATE_CERTIFICATE_ISSUER (certificateIssuer : CertificateIssuer).

(** [types/cluster.ts] *)
Inductive ClusterActions :=
| LOAD_CLUSTER_INFO_PENDING
| LOAD_CLUSTER_INFO_FAILED
| LOAD_CLUSTER_INFO_FULFILlED (info : ClusterInfo).

(** [types/debounce.ts] *)
Inductive DebounceActions :=
| SET_DEBOUNCING (name : string) (debouncing : bool)
| SET_TIMER (name : string) (timer : number).

(** [types/deployAccessToken.ts] *)
Inductive DeployAccessTokenActions :=
| CREATE_DEPLOY_ACCESS_TOKEN_FAILED
| CREATE_DEPLOY_ACCESS_TOKEN_PENDING
| DELETE_DEPLOY_ACCESS_TOKEN_FAILED
| DELETE_DEPLOY_ACCESS_TOKEN_PENDING
| LOAD_DEPLOY_ACCESS_TOKENS_FAILED
| LOAD_DEPLOY_ACCESS_TOKENS_PENDING
| LOAD_DEPLOY_ACCESS_TOKENS_FULFILLED (tokens : list DeployAccessToken)
| DELETE_DEPLOY_ACCESS_TOKEN_FULFILLED
| CREATE_DEPLOY_ACCESS_TOKEN_FULFILLED (token : DeployAccessToken).

(** [types/disk.ts] *)
Inductive VolumeActions :=
| LOAD_PERSISTENT_VOLUMES (persistentVolumes : list Disk)
| DELETE_PERSISTENT_VOLUME (name : string)
| LOAD_STORAGE_CLASSES (storageClasses : list StorageClass)
| LOAD_SIMPLE_OPTIONS (simpleOptions : list VolumeOption)
| LOAD_STATEFULSET_OPTIONS (statefulSetOptions : list VolumeOption).

(** [types/domain.ts] *)
Inductive DomainActions :=
| SET_DOMAIN_A_RECORDS (domain : string) (aRecords : list string)
| SET_DOMAIN_CNAME (domain : string) (cname : string)
| SET_DOMAIN_NS (domain : string) (ns : list string)
| LOADED_DOMAIN_STATUS (domain : string)
| INIT_DOMAIN_STATUS (domain : string).

(** [types/node.ts] *)
Inductive NodeActions :=
| LOAD_NODES_FULFILlED (response : NodesListResponse)
| LOAD_NODES_PENDING
| LOAD_NODES_FAILED.

(** [types/registry.ts] *)
Inductive RegistriesActions :=
| LOAD_REGISTRIES_FULFILLED (registries : list Registry)
| LOAD_REGISTRIES_PENDING
| LOAD_REGISTRIES_FAILED
| CREATE_REGISTRY (registry : Registry)
| UPDATE_REGISTRY (registry : Registry)
| DELETE_REGISTRY (name : string)
| SET_IS_SUBMITTING_REGISTRY (isSubmittingRegistry : bool).

(** [types/route.ts] *)
Inductive RouteActions :=
| LOAD_ROUTES_FULFILLED (httpRoutes : list HttpRoute)
| LOAD_ROUTES_PENDING
| LOAD_ROUTES_FAILED
| DELETE_ROUTE_PENDING
| DELETE_ROUTE_FAILED
| CREATE_ROUTE_PENDING
| CREATE_ROUTE_FAILED
| UPDATE_ROUTE_PENDING
| UPDATE_ROUTE_FAILED
| DELETE_ROUTE_FULFILLED (route : HttpRoute)
| CREATE_ROUTE_FULFILLED (route : HttpRoute)
| UPDATE_ROUTE_FULFILLED (route : HttpRoute).

(** [types/service.ts] *)
Inductive ServiceActions :=
| LOAD_SERVICES_PENDING
| LOAD_SERVICES_FAILED
| LOAD_SERVICES_FULFILLED (services : list Service).

(** [types/sso.ts] *)
Inductive SSOConfigActions :=
| LOAD_SSO_CONFIG_PENDING
| LOAD_SSO_CONFIG_FAILED
| LOAD_SSO_CONFIG_FULFILLED (config : SSOConfig)
| CREATE_SSO_CONFIG_PENDING
| CREATE_SSO_CONFIG_FAILED
| CREATE_SSO_CONFIG_FULFILLED (config : SSOConfig)
| UPDATE_SSO_CONFIG_PENDING
| UPDATE_SSO_CONFIG_FAILED
| UPDATE_SSO_CONFIG_FULFILLED (config : SSOConfig)
| DELETE_SSO_CONFIG_PENDING
| DELETE_SSO_CONFIG_FAILED
| DELETE_SSO_CONFIG_FULFILLED
| LOAD_PROTECTED_ENDPOINTS_PENDING
| LOAD_PROTECTED_ENDPOINTS_FAILED
| LOAD_PROTECTED_ENDPOINTS_FULFILLED (endpoints : list ProtectedEndpoint)
| CREATE_PROTECTED_ENDPOINT_PENDING
| CREATE_PROTECTED_ENDPOINT_FAILED
| CREATE_PROTECTED_ENDPOINT_FULFILLED (endpoint : ProtectedEndpoint)
| UPDATE_PROTECTED_ENDPOINT_PENDING
| UPDATE_PROTECTED_ENDPOINT_FAILED
| UPDATE_PROTECTED_ENDPOINT_FULFILLED (endpoint : ProtectedEndpoint)
| DELETE_PROTECTED_ENDPOINT_PENDING
| DELETE_PROTECTED_ENDPOINT_FAILED
| DELETE_PROTECTED_ENDPOINT_FULFILLED.

(** [types/member.tsx] *)
Inductive RoleBindingsActions :=
| LOAD_ROLE_BINDINGS_PENDING
| LOAD_ROLE_BINDINGS_FAILED
| CREATE_ROLE_BINDINGS_PENDING
| CREATE_ROLE_BINDINGS_FAILED
| DELETE_ROLE_BINDINGS_PENDING
| DELETE_ROLE_BINDINGS_FAILED
| LOAD_ROLE_BINDINGS_FULFILLED (roleBindings : list RoleBinding)
| CREATE_ROLE_BINDINGS_FULFILLED
| DELETE_ROLE_BINDINGS_FULFILLED.

(** ** Changes the server reports ([types/resources.ts]) *)

Inductive ResourceActionType :=
| RESOURCE_ACTION_UPDATE
| RESOURCE_ACTION_ADD
| RESOURCE_ACTION_DELETE.

(** [WATCHED_RESOURCE_CHANGE]; the constructor is the [kind]. *)
Inductive ResourceActions :=
| NodeResourceAction (action : ResourceActionType) (data : Node)
| ApplicationResourceAction (action : ResourceActionType) (data : ApplicationDetails)
| ComponentResourceAction (action : ResourceActionType) (namespace : string)
    (data : ApplicationComponentDetails)
| HttpRouteResourceAction (action : ResourceActionType) (namespace : string) (data : HttpRoute)
| HttpsCertResourceAction (action : ResourceActionType) (data : Certificate)
| RegistryResourceAction (action : ResourceActionType) (data : Registry)
| VolumeResourceAction (action : ResourceActionType) (data : Disk)
| SSOConfigResourceAction (action : ResourceActionType) (data : SSOConfig)
| ProtectedEndpointResourceAction (action : ResourceActionType) (data : ProtectedEndpoint)
| DeployAccessTokenResourceAction (action : ResourceActionType) (data : DeployAccessToken)
| ServiceResourceAction (action : ResourceActionType) (data : Service)
| RoleBindingResourceAction (action : ResourceActionType) (data : RoleBinding).

(** ** All actions ([types/index.ts]) *)

(** [RouterAction] is an action of [connected-react-router], of no concern to
    the reducers of the program. *)
Inductive Actions :=
| RouterAction (payload : JsValue)
| Common (a : CommonActions)
| Namespaces (a : NamespaceActions)
| Applications (a : ApplicationActions)
| Nodes (a : NodeActions)
| Registries (a : RegistriesActions)
| Routes (a : RouteActions)
| Certificates (a : CertificateActions)
| Services (a : ServiceActions)
| Volumes (a : VolumeActions)
| Cluster (a : ClusterActions)
| Tutorials (a : TutorialActions)
| Resources (a : ResourceActions)
| Debounces (a : DebounceActions)
| SSO (a : SSOConfigActions)
| Domains (a : DomainActions)
| DeployAccessTokens (a : DeployAccessTokenActions)
| RoleBindings (a : RoleBindingsActions).

Coercion Common : CommonActions >-> Actions.
Coercion Namespaces : NamespaceActions >-> Actions.
Coercion Applications : ApplicationActions >-> Actions.
Coercion Nodes : NodeActions >-> Actions.
Coercion Registries : RegistriesActions >-> Actions.
Coercion Routes : RouteActions >-> Actions.
Coercion Certificates : CertificateActions >-> Actions.
Coercion Services : ServiceActions >-> Actions.
Coercion Volumes : VolumeActions >-> Actions.
Coercion Cluster : ClusterActions >-> Actions.
Coercion Tutorials : TutorialActions >-> Actions.
Coercion Resources : ResourceActions >-> Actions.
Coercion Debounces : DebounceActions >-> Actions.
Coercion SSO : SSOConfigActions >-> Actions.
Coercion Domains : DomainActions >-> Actions.
Coercion DeployAccessTokens : DeployAccessTokenActions >-> Actions.
Coercion RoleBindings : RoleBindingsActions >-> Actions.

(** ** Resources with a name ([NameResource] of [reducers/utils.ts]) *)

Class NameResource (T : Type) := resource_name : T -> string.

#[export] Instance Application_name : NameResource ApplicationDetails := app_name.
#[export] Instance Component_name : NameResource ApplicationComponentDetails := fun c => comp_name (cd_component c).
#[export] Instance Certificate_name : NameResource Certificate := cert_name.
#[export] Instance CertificateIssuer_name : NameResource CertificateIssuer := issuer_name.
#[export] Instance Registry_name : NameResource Registry := reg_name.
#[export] Instance RoleBinding_name : NameResource RoleBinding := rb_name.
#[export] Instance HttpRoute_name : NameResource HttpRoute := route_name.
#[export] Instance Service_name : NameResource Service := service_name.
#[export] Instance Node_name : NameResource Node := node_name.
#[export] Instance Disk_name : NameResource Disk := disk_name.
#[export] Instance DeployAccessToken_name : NameResource DeployAccessToken := dat_name.
