(* ===== verification/AccessTokens.v ===== *)
(** [types/deployAccessToken.ts]: deploy tokens as the forms show them (a scope
    and a list of resources) and as the API stores them (a list of rules). *)

From S2P Require Import Prelude JsString JsNumber ResourceTypes.

(** ** Conversions *)

(** [const [namespace, componentName] = resource.split("/")] *)
Definition component_rule (resource : string) : AccessTokenRule :=
  match split_char "/" resource with
  | namespace :: rest => mkAccessTokenRule namespace (head rest) "edit" "components"
  | [] => mkAccessTokenRule "" None "edit" "components"
  end.

Definition DeployAccessTokenToAccessToken (dat : DeployAccessToken) : AccessToken :=
  let rules :=
    if seqb (dat_scope dat) DeployAccessTokenScopeCluster then
      [mkAccessTokenRule "*" (Some "*") "edit" "components"]
    else if seqb (dat_scope dat) DeployAccessTokenScopeNamespace then
      (fun namespace => mkAccessTokenRule namespace (Some "*") "edit" "components") <$> dat_resources dat
    else component_rule <$> dat_resources dat in
  mkAccessToken (dat_name dat) (dat_memo dat) (dat_creator dat) (dat_token dat) rules.

(** [name === "*"] *)
Definition is_star (name : option string) : bool := bool_decide (name = Some "*").

(** [`${rule.namespace}/${rule.name}`] *)
Definition component_resource (rule : AccessTokenRule) : string :=
  rule_namespace rule +:+ "/" +:+ default "undefined" (rule_name rule).

Definition AccessTokenToDeployAccessToken (at_ : AccessToken) : DeployAccessToken :=
  let '(scope, resources) :=
    match at_rules at_ with
    | [] => ("", [])
    | rule0 :: rest =>
        if Nat.eqb (length (rule0 :: rest)) 1 && seqb (rule_namespace rule0) "*" && is_star (rule_name rule0) then
          (DeployAccessTokenScopeCluster, [])
        else if is_star (rule_name rule0) then
          (DeployAccessTokenScopeNamespace, rule_namespace <$> rule0 :: rest)
        else (DeployAccessTokenScopeComponent, component_resource <$> rule0 :: rest)
    end in
  mkDeployAccessToken (at_name at_) (at_memo at_) scope resources (at_token at_) (at_creator at_).

(** ** Round trips *)

(** A resource [namespace/component] with one slash and a component that is
    not the star. *)
Definition component_resource_ok (r : string) : Prop :=
  exists ns c, r = ns +:+ "/" +:+ c /\ has_char "/" ns = false /\ has_char "/" c = false /\ c <> "*".

(** The tokens with one of the three scopes: for the cluster, for applications by their
    names, and for components of applications. *)
Definition token_ok (dat : DeployAccessToken) : Prop :=
  (dat_scope dat = DeployAccessTokenScopeCluster /\ dat_resources dat = []) \/
  (dat_scope dat = DeployAccessTokenScopeNamespace /\ Forall (fun r => r <> "*") (dat_resources dat)) \/
  (dat_scope dat = DeployAccessTokenScopeComponent /\ Forall component_resource_ok (dat_resources dat)).

(** A token for applications or components that names none has no rule, and no scope
    afterwards. *)
Definition names_nothing (dat : DeployAccessToken) : Prop :=
  dat_scope dat <> DeployAccessTokenScopeCluster /\ dat_resources dat = [].
#[export] Instance names_nothing_dec dat : Decision (names_nothing dat).
Proof. unfold names_nothing. apply _. Defined.
Definition without_scope (dat : DeployAccessToken) : DeployAccessToken :=
  mkDeployAccessToken (dat_name dat) (dat_memo dat) "" (dat_resources dat) (dat_token dat) (dat_creator dat).

Lemma component_rule_pair ns c : has_char "/" ns = false -> has_char "/" c = false ->
  component_rule (ns +:+ "/" +:+ c) = mkAccessTokenRule ns (Some c) "edit" "components".
Proof.
  intros Hns Hc. unfold component_rule. change ("/" +:+ c) with (String "/" c).
  by rewrite split_char_app, (split_char_none _ c).
Qed.

Lemma component_resource_rule r : component_resource_ok r ->
  component_resource (component_rule r) = r /\ is_star (rule_name (component_rule r)) = false.
Proof.
  intros (ns & c & -> & Hns & Hc & Hstar). rewrite component_rule_pair by done. split; [done|].
  apply bool_decide_eq_false_2. cbn. congruence.
Qed.

(** C38: A token survives the trip to the API and back: converting it to rules and the
    rules back gives the token with its scope and resources, for the cluster, for any
    applications and for any components.  Only a token for applications or components
    that names none of them comes back changed: it has no rule, and its scope is lost. *)
Theorem access_token_roundtrip dat : token_ok dat ->
  AccessTokenToDeployAccessToken (DeployAccessTokenToAccessToken dat) =
    if decide (names_nothing dat) then without_scope dat else dat.
Proof.
  destruct dat as [name memo scope resources token creator]. unfold names_nothing, without_scope.
  intros [[Hs Hr]|[[Hs Hall]|[Hs Hall]]]; cbn in *; subst scope;
    unfold DeployAccessTokenToAccessToken, AccessTokenToDeployAccessToken;
    cbn [dat_scope dat_resources at_rules]; eval_seqb.
  - subst resources. by rewrite decide_False by naive_solver.
  - pose proof (fmap_inverse (fun ns => mkAccessTokenRule ns (Some "*") "edit" "components")
      rule_namespace resources (Forall_true _ _ (fun _ => eq_refl))) as Hmap.
    destruct resources as [|r [|r2 rest]]; [by rewrite decide_True| |]; rewrite decide_False by naive_solver.
    + apply Forall_cons in Hall as [Hr _]. cbn. by rewrite (proj2 (seqb_false _ _) Hr).
    + cbn in Hmap |- *. by rewrite Hmap.
  - pose proof (fmap_inverse component_rule component_resource resources) as Hmap.
    destruct resources as [|r rest]; [by rewrite decide_True|]. rewrite decide_False by naive_solver. apply Forall_cons in Hall as Hr. destruct Hr as [Hr _].
    destruct (component_resource_rule r Hr) as [_ Hn]. cbn in Hmap |- *.
    rewrite Hn, Bool.andb_false_r, Hmap; [done|].
    eapply Forall_impl; [exact Hall|]. intros r' Hr'. by apply component_resource_rule.
Qed.

Lemma access_token_roundtrip_witness :
  AccessTokenToDeployAccessToken (DeployAccessTokenToAccessToken
    (mkDeployAccessToken "ci" "" "component" ["shop/web"; "shop/worker"] "secret" "ann")) =
  mkDeployAccessToken "ci" "" "component" ["shop/web"; "shop/worker"] "secret" "ann" /\
  AccessTokenToDeployAccessToken (DeployAccessTokenToAccessToken (mkDeployAccessToken "ci" "" "namespace" [] "secret" "ann")) =
  mkDeployAccessToken "ci" "" "" [] "secret" "ann".
Proof.
  split.
  - apply (access_token_roundtrip (mkDeployAccessToken "ci" "" "component" ["shop/web"; "shop/worker"] "secret" "ann")). right; right.
    split; [reflexivity|]. repeat constructor; [exists "shop", "web" | exists "shop", "worker"]; done.
  - apply (access_token_roundtrip (mkDeployAccessToken "ci" "" "namespace" [] "secret" "ann")). right; left. by split.
Defined.

(** The rules of such tokens. *)
Definition edits_components (r : AccessTokenRule) : Prop :=
  rule_verb r = "edit" /\ rule_kind r = "components".
Definition namespace_rule (r : AccessTokenRule) : Prop := edits_components r /\ rule_name r = Some "*".
Definition single_rule (r : AccessTokenRule) : Prop :=
  edits_components r /\ has_char "/" (rule_namespace r) = false /\
  exists c, rule_name r = Some c /\ has_char "/" c = false /\ c <> "*".

Lemma single_rule_inverse r : single_rule r -> component_rule (component_resource r) = r.
Proof.
  destruct r as [ns n verb kind]. intros ([Hv Hk] & Hns & c & Hn & Hc & _). cbn in *. subst.
  by apply component_rule_pair.
Qed.

(** Rules survive the trip to the forms and back: rules that allow editing
    every component of some namespaces, or single components whose names have
    no slash, come back as they were. *)
Theorem access_rules_roundtrip at_ :
  Forall namespace_rule (at_rules at_) \/ Forall single_rule (at_rules at_) ->
  DeployAccessTokenToAccessToken (AccessTokenToDeployAccessToken at_) = at_.
Proof.
  destruct at_ as [name memo creator token rules]. cbn. intros Hkind.
  unfold AccessTokenToDeployAccessToken, DeployAccessTokenToAccessToken. cbn [at_rules].
  destruct rules as [|r rest]; [done|]. destruct Hkind as [Hall|Hall].
  - pose proof (fmap_inverse rule_namespace
      (fun ns => mkAccessTokenRule ns (Some "*") "edit" "components") (r :: rest)) as Hmap.
    change (length (r :: rest)) with (S (length rest)).
    apply Forall_cons in Hall as Hr. destruct Hr as [[[Hv Hk] Hn] _]. rewrite Hn.
    change (is_star (Some "*")) with true. rewrite Bool.andb_true_r.
    destruct (Nat.eqb (S (length rest)) 1 && seqb (rule_namespace r) "*") eqn:E; cbn [dat_scope dat_resources];
      eval_seqb.
    + apply Bool.andb_true_iff in E as [Hlen Hns%seqb_true]. destruct rest; [|done].
      destruct r; cbn in *; by subst.
    + rewrite Hmap; [done|]. eapply Forall_impl; [exact Hall|].
      intros [] [[? ?] ?]; cbn in *; by subst.
  - pose proof (fmap_inverse component_resource component_rule (r :: rest)) as Hmap.
    apply Forall_cons in Hall as Hr. destruct Hr as [(_ & _ & c & Hn & _ & Hc) _].
    assert (is_star (rule_name r) = false) as ->.
    { apply bool_decide_eq_false_2. rewrite Hn. congruence. }
    rewrite Bool.andb_false_r. cbn [dat_scope dat_resources]. eval_seqb. rewrite Hmap; [done|].
    eapply Forall_impl; [exact Hall|]. apply single_rule_inverse.
Qed.

Lemma access_rules_roundtrip_witness :
  DeployAccessTokenToAccessToken (AccessTokenToDeployAccessToken
    (mkAccessToken "ci" "" "ann" "secret"
      [mkAccessTokenRule "shop" (Some "*") "edit" "components";
       mkAccessTokenRule "blog" (Some "*") "edit" "components"])) =
  mkAccessToken "ci" "" "ann" "secret"
    [mkAccessTokenRule "shop" (Some "*") "edit" "components";
     mkAccessTokenRule "blog" (Some "*") "edit" "components"].
Proof. apply access_rules_roundtrip. left. repeat constructor. Defined.
