(* ===== verification/ReducerUtils.v ===== *)
(** [reducers/utils.ts]: arrays of named resources, and what they promise to the
    reducers.

    The reducers work on drafts of [immer]: a draft is the array being changed
    and [original(arr)] the array before the action, so a function that searches
    the original before its only change searches the current array. *)

From S2P Require Import Prelude JsNumber ResourceTypes ActionTypes.

(** ** Operations *)

Section utils.
Context {T : Type} `{NameResource T}.

Definition addOrUpdateInArray (arr : list T) (data : T) (updateExisted : bool) : list T :=
  match findIndex (fun x => seqb (resource_name x) (resource_name data)) arr with
  | None => arr ++ [data]
  | Some index => if negb updateExisted then arr else <[index := data]> arr
  end.

Definition removeInArrayByName (arr : list T) (name : string) : list T :=
  match findIndex (fun x => seqb (resource_name x) name) arr with
  | None => arr
  | Some index => splice1 index arr
  end.

Definition removeInArray (arr : list T) (data : T) : list T :=
  match findIndex (fun x => seqb (resource_name x) (resource_name data)) arr with
  | None => arr
  | Some index => splice1 index arr
  end.

Definition isInArray (arr : list T) (data : T) : bool :=
  match findIndex (fun x => seqb (resource_name x) (resource_name data)) arr with
  | None => false
  | Some _ => true
  end.
End utils.

(** ** Arrays as finite maps

    An array of resources with distinct keys represents a finite map.  The key
    of a resource is its name, or its name and namespace. *)

Section table.
Context {K T : Type} `{Countable K} (key : T -> K).

Definition keys (arr : list T) : list K := key <$> arr.
Definition table (arr : list T) : gmap K T := list_to_map ((fun x => (key x, x)) <$> arr).

Lemma table_fst arr : ((fun x => (key x, x)) <$> arr).*1 = keys arr.
Proof. unfold keys. rewrite <- list_fmap_compose. by apply list_fmap_ext. Qed.

Lemma table_Some arr k d : NoDup (keys arr) -> table arr !! k = Some d <-> d ∈ arr /\ key d = k.
Proof.
  intros Hnd. unfold table. rewrite <- elem_of_list_to_map by (by rewrite table_fst).
  rewrite list_elem_of_fmap. naive_solver.
Qed.

Lemma table_None arr k : table arr !! k = None <-> k ∉ keys arr.
Proof. unfold table. rewrite <- not_elem_of_list_to_map. by rewrite table_fst. Qed.

Lemma table_is_Some arr k : is_Some (table arr !! k) <-> k ∈ keys arr.
Proof.
  rewrite <- not_eq_None_Some, table_None. split; [|tauto].
  intros Hn. by apply dec_stable.
Qed.

Lemma keys_app arr arr' : keys (arr ++ arr') = keys arr ++ keys arr'.
Proof. apply fmap_app. Qed.

Lemma keys_insert i d x arr : arr !! i = Some x -> key x = key d -> keys (<[i := d]> arr) = keys arr.
Proof.
  intros Hi Hk. unfold keys. rewrite list_fmap_insert. apply list_insert_id.
  rewrite list_lookup_fmap, Hi. cbn. congruence.
Qed.

Lemma table_push arr d : key d ∉ keys arr -> table (arr ++ [d]) = <[key d := d]> (table arr).
Proof.
  intros Hn. unfold table. rewrite fmap_app, list_to_map_app. cbn.
  rewrite <- insert_union_r by (apply table_None; done). by rewrite map_union_empty.
Qed.

Lemma table_cons arr d : table (d :: arr) = <[key d := d]> (table arr).
Proof. done. Qed.

(** Replacing or removing an element whose key occurs once. *)
Lemma table_set arr i x d : NoDup (keys arr) -> arr !! i = Some x -> key x = key d ->
  table (<[i := d]> arr) = <[key d := d]> (table arr).
Proof.
  intros Hnd Hi Hk. rewrite <- (take_drop_middle arr i x Hi) in Hnd |- *.
  assert (Hlen : length (take i arr) = i).
  { rewrite length_take. apply lookup_lt_Some in Hi. lia. }
  rewrite insert_app_r_alt, Hlen, Nat.sub_diag by lia. cbn [insert list_insert].
  unfold table. rewrite !fmap_app, !list_to_map_app. cbn [fmap list_fmap].
  rewrite keys_app, NoDup_app in Hnd. destruct Hnd as (_ & Hdis & _).
  assert (Hnone : key d ∉ keys (take i arr)).
  { intros Hin. apply (Hdis _ Hin). rewrite <- Hk. by left. }
  apply table_None in Hnone. unfold table in Hnone.
  rewrite !list_to_map_cons, <- !insert_union_r by (by rewrite ?Hk).
  rewrite Hk. by rewrite insert_insert_eq.
Qed.

Lemma table_splice arr i x : NoDup (keys arr) -> arr !! i = Some x ->
  table (splice1 i arr) = delete (key x) (table arr) /\ NoDup (keys (splice1 i arr)).
Proof.
  intros Hnd Hi. rewrite splice1_delete.
  pose proof (delete_Permutation arr i x Hi) as Hp.
  assert (Hnd' : NoDup (keys (x :: delete i arr))).
  { eapply NoDup_Permutation_proper; [symmetry; apply fmap_Permutation, Hp|exact Hnd]. }
  assert (Ht : table arr = table (x :: delete i arr)).
  { unfold table. apply list_to_map_proper; [by rewrite table_fst|]. apply fmap_Permutation, Hp. }
  apply NoDup_cons in Hnd' as [Hx Hd]. split; [|done].
  rewrite Ht, table_cons, delete_insert_eq, delete_id; [done|]. by apply table_None.
Qed.
End table.

Arguments keys : simpl never.
Arguments table : simpl never.

(** ** What the operations do to the map of an array *)

Section operations.
Context {K T : Type} `{Countable K} (key : T -> K).

(** [f] recognizes the key [k]. *)
Definition recognizes (f : T -> bool) (k : K) : Prop := forall x, f x = true <-> key x = k.

Lemma findIndex_key_None f k arr : recognizes f k -> findIndex f arr = None <-> k ∉ keys key arr.
Proof.
  intros Hf. rewrite findIndex_None, Forall_forall. unfold keys. rewrite list_elem_of_fmap. split.
  - intros Hall (x & -> & Hin). specialize (Hall x Hin). by rewrite (proj2 (Hf x)) in Hall.
  - intros Hn x Hin. destruct (f x) eqn:E; [|done]. apply Hf in E as <-. destruct Hn. by exists x.
Qed.

Lemma findIndex_key_Some f k arr i : recognizes f k -> findIndex f arr = Some i ->
  exists x, arr !! i = Some x /\ key x = k.
Proof. intros Hf (x & Hx & Hfx & _)%findIndex_Some. exists x. split; [done|]. by apply Hf. Qed.

Lemma put_table f d arr : recognizes f (key d) -> NoDup (keys key arr) ->
  let arr' := match findIndex f arr with None => arr ++ [d] | Some i => <[i := d]> arr end in
  table key arr' = <[key d := d]> (table key arr) /\ NoDup (keys key arr').
Proof.
  intros Hf Hnd. cbn. destruct (findIndex f arr) as [i|] eqn:E.
  - destruct (findIndex_key_Some f _ arr i Hf E) as (x & Hx & Hk).
    rewrite (keys_insert key i d x arr Hx Hk). split; [|done]. by apply (table_set key arr i x).
  - apply (findIndex_key_None f _ arr Hf) in E. split; [by apply table_push|].
    rewrite keys_app. apply NoDup_app. split; [done|]. split; [|apply NoDup_singleton].
    intros k Hin ->%list_elem_of_singleton. done.
Qed.

Lemma remove_table f k arr : recognizes f k -> NoDup (keys key arr) ->
  let arr' := match findIndex f arr with None => arr | Some i => splice1 i arr end in
  table key arr' = delete k (table key arr) /\ NoDup (keys key arr').
Proof.
  intros Hf Hnd. cbn. destruct (findIndex f arr) as [i|] eqn:E.
  - destruct (findIndex_key_Some f _ arr i Hf E) as (x & Hx & <-). by apply table_splice.
  - split; [|done]. symmetry. apply delete_id, table_None. by apply (findIndex_key_None f _ arr Hf).
Qed.

Lemma find_table f k arr : recognizes f k ->
  (if findIndex f arr is Some _ then true else false) = bool_decide (is_Some (table key arr !! k)).
Proof.
  intros Hf. symmetry. destruct (findIndex f arr) as [i|] eqn:E.
  - apply bool_decide_eq_true_2, table_is_Some. apply dec_stable. intros Hn.
    apply (findIndex_key_None f k arr Hf) in Hn. congruence.
  - apply bool_decide_eq_false_2. rewrite table_is_Some. by apply (findIndex_key_None f k arr Hf).
Qed.
End operations.

Section names.
Context {T : Type} `{NameResource T}.

Lemma recognizes_name n : recognizes resource_name (fun x : T => seqb (resource_name x) n) n.
Proof. intros x. apply seqb_true. Qed.

(** Arrays with distinct names. *)
Definition unique_names (arr : list T) : Prop := NoDup (keys resource_name arr).
Definition names (arr : list T) : gmap string T := table resource_name arr.

Lemma addOrUpdate_table arr d : unique_names arr ->
  names (addOrUpdateInArray arr d true) = <[resource_name d := d]> (names arr) /\
  unique_names (addOrUpdateInArray arr d true).
Proof. apply (put_table resource_name), recognizes_name. Qed.

Lemma add_table arr d : unique_names arr ->
  names (addOrUpdateInArray arr d false) =
    (if decide (is_Some (names arr !! resource_name d)) then names arr
     else <[resource_name d := d]> (names arr)) /\
  unique_names (addOrUpdateInArray arr d false).
Proof.
  intros Hnd. destruct (addOrUpdate_table arr d Hnd) as [Ht Hnd'].
  pose proof (find_table resource_name _ _ arr (recognizes_name (resource_name d))) as Hf.
  unfold addOrUpdateInArray in *. destruct (findIndex _ arr); cbn [negb].
  - symmetry in Hf. apply bool_decide_eq_true_1 in Hf. by rewrite decide_True.
  - symmetry in Hf. apply bool_decide_eq_false_1 in Hf. by rewrite decide_False.
Qed.

Lemma removeByName_table arr n : unique_names arr ->
  names (removeInArrayByName arr n) = delete n (names arr) /\ unique_names (removeInArrayByName arr n).
Proof. apply (remove_table resource_name), recognizes_name. Qed.

Lemma remove_in_table arr d : unique_names arr ->
  names (removeInArray arr d) = delete (resource_name d) (names arr) /\ unique_names (removeInArray arr d).
Proof. apply (remove_table resource_name), recognizes_name. Qed.

Lemma isInArray_table arr d : isInArray arr d = bool_decide (is_Some (names arr !! resource_name d)).
Proof. exact (find_table resource_name _ _ arr (recognizes_name (resource_name d))). Qed.
End names.

Arguments names : simpl never.

(** ** Following the server

    What the reducers of watched resources promise to the rest of the program:
    a slice that holds the server's resources and receives the change events
    of the server in order keeps holding the server's resources. *)

Section server.
Context {K T : Type} `{Countable K} (key : T -> K) (valid : T -> Prop).

(** A change of the server's resources and the event it sends.  A connection that
    opens announces the resources that are there already once more. *)
Inductive server_step : gmap K T -> ResourceActionType * T -> gmap K T -> Prop :=
| server_add m d : valid d -> m !! key d = None ->
    server_step m (RESOURCE_ACTION_ADD, d) (<[key d := d]> m)
| server_replay m d : valid d -> m !! key d = Some d ->
    server_step m (RESOURCE_ACTION_ADD, d) m
| server_update m d : valid d -> is_Some (m !! key d) ->
    server_step m (RESOURCE_ACTION_UPDATE, d) (<[key d := d]> m)
| server_delete m d : is_Some (m !! key d) ->
    server_step m (RESOURCE_ACTION_DELETE, d) (delete (key d) m).

(** [holds s m]: the slice [s] shows the resources [m].  The slice follows the server
    as long as its resources fit into it. *)
Class WatchedSlice {S : Type} (change : S -> ResourceActionType * T -> S)
    (holds : S -> gmap K T -> Prop) (fits : gmap K T -> Prop) : Prop := {
  watched_step : forall s m ev m', holds s m -> server_step m ev m' -> fits m' -> holds (change s ev) m'
}.
End server.

Definition any_map {K T : Type} `{Countable K} (m : gmap K T) : Prop := True.
Definition any_resource {T} (d : T) : Prop := True.

(** Arrays: an array with distinct names holds the map from names. *)
Section array_change.
Context {T : Type} `{NameResource T}.

Definition array_holds (arr : list T) (m : gmap string T) : Prop :=
  unique_names arr /\ names arr = m.

(** The two ways a reducer handles an added resource: replace what is there, or
    keep it. *)
Definition change_put (arr : list T) (ev : ResourceActionType * T) : list T :=
  match ev.1 with
  | RESOURCE_ACTION_DELETE => removeInArray arr ev.2
  | _ => addOrUpdateInArray arr ev.2 true
  end.

Definition change_keep (arr : list T) (ev : ResourceActionType * T) : list T :=
  match ev.1 with
  | RESOURCE_ACTION_DELETE => removeInArray arr ev.2
  | RESOURCE_ACTION_ADD => addOrUpdateInArray arr ev.2 false
  | RESOURCE_ACTION_UPDATE => addOrUpdateInArray arr ev.2 true
  end.

#[export] Instance change_put_watched : WatchedSlice resource_name any_resource change_put array_holds any_map.
Proof.
  split. intros arr m ev m' [Hnd <-] Hstep _. inversion Hstep as [m0 d _ Hn|m0 d _ Hn|m0 d _ Hn|m0 d Hn]; subst; cbn; apply and_comm;
    [by apply addOrUpdate_table | | by apply addOrUpdate_table | by apply remove_in_table].
  destruct (addOrUpdate_table arr d Hnd) as [-> ?]. split; [|done]. by apply insert_id.
Qed.

#[export] Instance change_keep_watched : WatchedSlice resource_name any_resource change_keep array_holds any_map.
Proof.
  split. intros arr m ev m' [Hnd <-] Hstep _.
  inversion Hstep as [m0 d _ Hn|m0 d _ Hn|m0 d _ Hn|m0 d Hn]; subst; cbn; apply and_comm.
  - destruct (add_table arr d Hnd) as [-> ?]. split; [|done].
    rewrite decide_False; [done|]. rewrite Hn. by intros [? ?].
  - destruct (add_table arr d Hnd) as [-> ?]. split; [|done]. rewrite decide_True; [done|]. rewrite Hn. by eexists.
  - by apply addOrUpdate_table.
  - by apply remove_in_table.
Qed.

(** *** Resources of namespaces

    The server tells them apart by namespace and name, the arrays by name alone: an
    array shows them as long as no two of them share a name. *)
Section namespaced.
Variable namespace_of : T -> string.
Definition full_key (d : T) : string * string := (namespace_of d, resource_name d).
Definition names_apart (m : gmap (string * string) T) : Prop :=
  forall k1 k2, is_Some (m !! k1) -> is_Some (m !! k2) -> k1.2 = k2.2 -> k1 = k2.
Definition namespaced_holds (arr : list T) (m : gmap (string * string) T) : Prop :=
  unique_names arr /\ forall k d, m !! k = Some d <-> names arr !! k.2 = Some d /\ full_key d = k.

(** The elements of the array are the resources, each once. *)
Lemma namespaced_elements arr m : namespaced_holds arr m ->
  NoDup arr /\ forall d, d ∈ arr <-> m !! full_key d = Some d.
Proof.
  intros [Hnd Hm]. split; [exact (NoDup_fmap_1 _ _ Hnd)|]. intros d. rewrite Hm. unfold names.
  rewrite table_Some by done. cbn. tauto.
Qed.

Lemma put_namespaced arr arr' m d : unique_names arr' -> names arr' = <[resource_name d := d]> (names arr) ->
  (forall k x, m !! k = Some x <-> names arr !! k.2 = Some x /\ full_key x = k) ->
  names_apart (<[full_key d := d]> m) -> namespaced_holds arr' (<[full_key d := d]> m).
Proof.
  intros Hu Hn Hm Hap. split; [done|]. intros k x. rewrite Hn.
  destruct (decide (k = full_key d)) as [->|Hk].
  - rewrite lookup_insert_eq. cbn. rewrite lookup_insert_eq. split; [by intros [= <-]|by intros [-> _]].
  - rewrite lookup_insert_ne by done. rewrite Hm. destruct (decide (k.2 = resource_name d)) as [E|E].
    + split.
      * intros [H1 H2]. destruct Hk. apply (Hap k (full_key d)); [|by rewrite lookup_insert_eq|done].
        destruct (decide (k = full_key d)) as [->|Hk]; [by rewrite lookup_insert_eq|]. rewrite lookup_insert_ne by done.
        exists x. by apply Hm.
      * rewrite E, lookup_insert_eq. by intros [[= <-] <-].
    + by rewrite lookup_insert_ne.
Qed.

Lemma present_name (m : gmap (string * string) T) arr d : (forall k x, m !! k = Some x <-> names arr !! k.2 = Some x /\ full_key x = k) ->
  is_Some (m !! full_key d) -> exists x, m !! full_key d = Some x /\ names arr !! resource_name d = Some x /\ full_key x = full_key d.
Proof. intros Hm [x Hx]. exists x. split; [done|]. by apply Hm in Hx. Qed.

Lemma remove_namespaced arr m d : namespaced_holds arr m -> is_Some (m !! full_key d) ->
  namespaced_holds (removeInArray arr d) (delete (full_key d) m).
Proof.
  intros [Hnd Hm] Hin. destruct (remove_in_table arr d Hnd) as [Hn Hu]. split; [done|]. intros k x. rewrite Hn.
  destruct (present_name m arr d Hm Hin) as (y & Hy & Hny & Hky).
  destruct (decide (k = full_key d)) as [->|Hk].
  - rewrite lookup_delete_eq. cbn. rewrite lookup_delete_eq. naive_solver.
  - rewrite lookup_delete_ne by done. rewrite Hm. destruct (decide (k.2 = resource_name d)) as [E|E].
    + rewrite E, lookup_delete_eq, Hny. naive_solver.
    + by rewrite lookup_delete_ne.
Qed.

Lemma insert_same (m : gmap (string * string) T) d : m !! full_key d = Some d -> <[full_key d := d]> m = m.
Proof. apply insert_id. Qed.

#[export] Instance put_namespaced_watched : WatchedSlice full_key any_resource change_put namespaced_holds names_apart.
Proof.
  split. intros arr m ev m' Hs Hstep Hap. pose proof Hs as [Hnd Hm].
  inversion Hstep as [m0 d _ Hn|m0 d _ Hn|m0 d _ Hn|m0 d Hn]; subst; cbn; [| | |by apply remove_namespaced];
    destruct (addOrUpdate_table arr d Hnd) as [Ht Hu].
  - by apply (put_namespaced arr).
  - rewrite <- (insert_same m' d Hn). apply (put_namespaced arr); [done..|]. by rewrite insert_same.
  - by apply (put_namespaced arr).
Qed.

#[export] Instance keep_namespaced_watched : WatchedSlice full_key any_resource change_keep namespaced_holds names_apart.
Proof.
  split. intros arr m ev m' Hs Hstep Hap. pose proof Hs as [Hnd Hm].
  inversion Hstep as [m0 d _ Hn|m0 d _ Hn|m0 d _ Hn|m0 d Hn]; subst; cbn; [| | |by apply remove_namespaced].
  - destruct (add_table arr d Hnd) as [Ht Hu]. apply (put_namespaced arr); [done| |done..].
    rewrite Ht, decide_False; [done|]. intros [x Hx].
    assert (Hxm : m !! full_key x = Some x).
    { apply Hm. split; [|done]. cbn. apply table_Some in Hx as Hx'; [|done]. destruct Hx' as [_ ->]. exact Hx. }
    assert (full_key x = full_key d) as E.
    { apply Hap; [| |].
      - destruct (decide (full_key d = full_key x)) as [->|Hne]; [by rewrite lookup_insert_eq|]. by rewrite lookup_insert_ne.
      - by rewrite lookup_insert_eq.
      - cbn. apply table_Some in Hx; [|done]. by destruct Hx. }
    rewrite E in Hxm. congruence.
  - destruct (add_table arr d Hnd) as [Ht Hu]. split; [done|]. intros k x. rewrite Ht, decide_True; [apply Hm|].
    exists d. by apply Hm in Hn as [? _].
  - destruct (addOrUpdate_table arr d Hnd) as [Ht Hu]. by apply (put_namespaced arr).
Qed.
End namespaced.

(** [if (!isInArray(arr, d)) arr = addOrUpdateInArray(arr, d)] *)
Lemma add_unless_present arr (d : T) :
  (if negb (isInArray arr d) then addOrUpdateInArray arr d true else arr) = addOrUpdateInArray arr d false.
Proof. unfold isInArray, addOrUpdateInArray. by destruct (findIndex _ arr). Qed.

(** A slice that applies an array change to one of its fields. *)
Lemma field_watched {K S} `{Countable K} (key : T -> K) (get : S -> list T) (change : S -> ResourceActionType * T -> S) arr_change holds fits
    `{!WatchedSlice key any_resource arr_change holds fits} :
  (forall s ev, get (change s ev) = arr_change (get s) ev) ->
  WatchedSlice key any_resource change (fun s m => holds (get s) m) fits.
Proof. intros Hget. split. intros s m ev m' Hs Hstep Hfit. rewrite Hget. by eapply watched_step. Qed.
End array_change.
