(* ===== verification/ResourceReducers.v ===== *)
(** [reducers/*.ts] of the cluster's resources: the state of each slice, its
    initial state and its reducer. *)

From S2P Require Import Prelude JsString JsNumber ResourceTypes ActionTypes ReducerUtils.

(** ** [reducers/application.ts] *)

Record ApplicationState := mkApplicationState {
  applications : list ApplicationDetails;
  app_isListLoading : bool;
  app_isListFirstLoaded : bool;
  app_isItemLoading : bool;
  app_isSubmittingApplication : bool
}.

Definition application_initialState : ApplicationState :=
  mkApplicationState [] false false false false.

Definition set_applications (s : ApplicationState) (l : list ApplicationDetails) : ApplicationState :=
  mkApplicationState l (app_isListLoading s) (app_isListFirstLoaded s) (app_isItemLoading s)
    (app_isSubmittingApplication s).
Definition set_app_isListLoading (s : ApplicationState) (b : bool) : ApplicationState :=
  mkApplicationState (applications s) b (app_isListFirstLoaded s) (app_isItemLoading s)
    (app_isSubmittingApplication s).
Definition set_app_isItemLoading (s : ApplicationState) (b : bool) : ApplicationState :=
  mkApplicationState (applications s) (app_isListLoading s) (app_isListFirstLoaded s) b
    (app_isSubmittingApplication s).

(** The cases of [WATCHED_RESOURCE_CHANGE] for an application. *)
Definition application_change (arr : list ApplicationDetails) (action : ResourceActionType)
    (data : ApplicationDetails) : list ApplicationDetails :=
  match action with
  | RESOURCE_ACTION_ADD =>
      if seqb (app_status data) "Active" && negb (isInArray arr data)
      then addOrUpdateInArray arr data false else arr
  | RESOURCE_ACTION_DELETE => removeInArray arr data
  | RESOURCE_ACTION_UPDATE =>
      if seqb (app_status data) "Terminating" then removeInArray arr data
      else addOrUpdateInArray arr data true
  end.

Definition application_reducer (state : ApplicationState) (action : Actions) : ApplicationState :=
  match action with
  | Common LOGOUT => application_initialState
  | Applications (SET_IS_SUBMITTING_APPLICATION b) =>
      mkApplicationState (applications state) (app_isListLoading state) (app_isListFirstLoaded state)
        (app_isItemLoading state) b
  | Applications LOAD_APPLICATIONS_PENDING => set_app_isListLoading state true
  | Applications LOAD_APPLICATIONS_FAILED => set_app_isListLoading state false
  | Applications (LOAD_APPLICATIONS_FULFILLED applicationList) =>
      mkApplicationState applicationList false true (app_isItemLoading state)
        (app_isSubmittingApplication state)
  | Applications LOAD_APPLICATION_PENDING => set_app_isItemLoading state true
  | Applications LOAD_APPLICATION_FAILED => set_app_isItemLoading state false
  | Applications (LOAD_APPLICATION_FULFILLED application) =>
      set_applications (set_app_isItemLoading state false)
        (addOrUpdateInArray (applications state) application true)
  | Applications (CREATE_APPLICATION application) =>
      set_applications state (addOrUpdateInArray (applications state) application true)
  | Applications (UPDATE_APPLICATION application) =>
      set_applications state (addOrUpdateInArray (applications state) application true)
  | Applications (DELETE_APPLICATION applicationName) =>
      set_applications state (removeInArrayByName (applications state) applicationName)
  | Resources (ApplicationResourceAction act data) =>
      set_applications state (application_change (applications state) act data)
  | _ => state
  end.

(** ** [reducers/component.ts] *)

Record ComponentState := mkComponentState {
  components : gmap string (list ApplicationComponentDetails);
  comp_isListLoading : bool;
  comp_isListFirstLoaded : bool;
  isSubmittingApplicationComponent : bool
}.

Definition component_initialState : ComponentState := mkComponentState ∅ false false false.

Definition set_components (s : ComponentState) (m : gmap string (list ApplicationComponentDetails))
    : ComponentState :=
  mkComponentState m (comp_isListLoading s) (comp_isListFirstLoaded s) (isSubmittingApplicationComponent s).
Definition set_comp_isListLoading (s : ComponentState) (b : bool) : ComponentState :=
  mkComponentState (components s) b (comp_isListFirstLoaded s) (isSubmittingApplicationComponent s).

Definition isComponentInState (state : ComponentState) (applicationName : string)
    (component : ApplicationComponentDetails) : bool :=
  match components state !! applicationName with
  | None => false
  | Some l =>
      match findIndex (fun c => seqb (resource_name c) (resource_name component)) l with
      | None => false
      | Some _ => true
      end
  end.

Definition putComponentIntoState (state : ComponentState) (applicationName : string)
    (component : ApplicationComponentDetails) (isCreate : bool) : ComponentState :=
  let '(m, l, componentIndex) :=
    match components state !! applicationName with
    | None => (<[applicationName := []]> (components state), [], None)
    | Some l =>
        (components state, l,
         findIndex (fun c => seqb (resource_name c) (resource_name component)) l)
    end in
  match componentIndex with
  | None =>
      if isCreate then set_components state (<[applicationName := l ++ [component]]> m)
      else set_components state m
  | Some i => set_components state (<[applicationName := <[i := component]> l]> m)
  end.

Definition deleteComponentFromState (state : ComponentState) (applicationName componentName : string)
    : ComponentState :=
  match components state !! applicationName with
  | None => state
  | Some l =>
      match findIndex (fun c => seqb (resource_name c) componentName) l with
      | Some i => set_components state (<[applicationName := splice1 i l]> (components state))
      | None => state
      end
  end.

(** The cases of [WATCHED_RESOURCE_CHANGE] for a component. *)
Definition component_change (state : ComponentState) (action : ResourceActionType) (namespace : string)
    (data : ApplicationComponentDetails) : ComponentState :=
  match action with
  | RESOURCE_ACTION_ADD =>
      if negb (isComponentInState state namespace data)
      then putComponentIntoState state namespace data true else state
  | RESOURCE_ACTION_DELETE => deleteComponentFromState state namespace (resource_name data)
  | RESOURCE_ACTION_UPDATE => putComponentIntoState state namespace data false
  end.

Definition component_reducer (state : ComponentState) (action : Actions) : ComponentState :=
  match action with
  | Common LOGOUT => component_initialState
  | Applications (SET_IS_SUBMITTING_APPLICATION_COMPONENT b) =>
      mkComponentState (components state) (comp_isListLoading state) (comp_isListFirstLoaded state) b
  | Applications LOAD_COMPONENTS_PENDING => set_comp_isListLoading state true
  | Applications LOAD_COMPONENTS_FAILED => set_comp_isListLoading state false
  | Applications (LOAD_COMPONENTS_FULFILLED applicationName l) =>
      mkComponentState (<[applicationName := l]> (components state)) false true
        (isSubmittingApplicationComponent state)
  | Applications (LOAD_ALL_NAMESAPCES_COMPONETS m) => set_components state m
  | Applications (CREATE_COMPONENT applicationName component) =>
      putComponentIntoState state applicationName component true
  | Applications (UPDATE_COMPONENT applicationName component) =>
      putComponentIntoState state applicationName component false
  | Applications (DELETE_COMPONENT applicationName componentName) =>
      deleteComponentFromState state applicationName componentName
  | Resources (ComponentResourceAction act namespace data) => component_change state act namespace data
  | _ => state
  end.

(** ** [reducers/certificate.ts] *)

Record CertificateState := mkCertificateState {
  cert_isLoading : bool;
  cert_isFirstLoaded : bool;
  isSubmittingCreateCertificate : bool;
  certificates : list Certificate;
  certificateIssuers : list CertificateIssuer;
  isSubmittingCreateAcmeServer : bool;
  isAcmeServerLoading : bool;
  acmeServer : option AcmeServerInfo
}.

Definition certificate_initialState : CertificateState :=
  mkCertificateState false false false [] [] false false None.

Definition set_cert_isLoading (s : CertificateState) (b : bool) : CertificateState :=
  mkCertificateState b (cert_isFirstLoaded s) (isSubmittingCreateCertificate s) (certificates s)
    (certificateIssuers s) (isSubmittingCreateAcmeServer s) (isAcmeServerLoading s) (acmeServer s).
Definition set_certificates (s : CertificateState) (l : list Certificate) : CertificateState :=
  mkCertificateState (cert_isLoading s) (cert_isFirstLoaded s) (isSubmittingCreateCertificate s) l
    (certificateIssuers s) (isSubmittingCreateAcmeServer s) (isAcmeServerLoading s) (acmeServer s).
Definition set_certificateIssuers (s : CertificateState) (l : list CertificateIssuer) : CertificateState :=
  mkCertificateState (cert_isLoading s) (cert_isFirstLoaded s) (isSubmittingCreateCertificate s)
    (certificates s) l (isSubmittingCreateAcmeServer s) (isAcmeServerLoading s) (acmeServer s).
Definition set_acme (s : CertificateState) (loading : bool) (server : option AcmeServerInfo) : CertificateState :=
  mkCertificateState (cert_isLoading s) (cert_isFirstLoaded s) (isSubmittingCreateCertificate s)
    (certificates s) (certificateIssuers s) (isSubmittingCreateAcmeServer s) loading server.

Definition certificate_reducer (state : CertificateState) (action : Actions) : CertificateState :=
  match action with
  | Certificates LOAD_CERTIFICATES_PENDING => set_cert_isLoading state true
  | Certificates LOAD_CERTIFICATES_FAILED => set_cert_isLoading state false
  | Certificates (LOAD_CERTIFICATES_FULFILLED l) =>
      mkCertificateState (cert_isLoading state) true (isSubmittingCreateCertificate state)
        (default [] l) (certificateIssuers state) (isSubmittingCreateAcmeServer state)
        (isAcmeServerLoading state) (acmeServer state)
  | Certificates LOAD_ACME_SERVER_PENDING => set_acme state true (acmeServer state)
  | Certificates LOAD_ACME_SERVER_FAILED => set_acme state false (acmeServer state)
  | Certificates (LOAD_ACME_SERVER_FULFILLED server) => set_acme state false server
  | Certificates (LOAD_CERTIFICATE_ISSUERS_FULFILLED l) => set_certificateIssuers state (default [] l)
  | Certificates (DELETE_CERTIFICATE name) =>
      set_certificates state (removeInArrayByName (certificates state) name)
  | Certificates (CREATE_CERTIFICATE certificate) =>
      set_certificates state (addOrUpdateInArray (certificates state) certificate true)
  | Certificates (CREATE_CERTIFICATE_ISSUER issuer) =>
      set_certificateIssuers state (addOrUpdateInArray (certificateIssuers state) issuer true)
  | Resources (HttpsCertResourceAction act data) =>
      match act with
      | RESOURCE_ACTION_ADD =>
          if negb (isInArray (certificates state) data)
          then set_certificates state (addOrUpdateInArray (certificates state) data true) else state
      | RESOURCE_ACTION_DELETE => set_certificates state (removeInArray (certificates state) data)
      | RESOURCE_ACTION_UPDATE => set_certificates state (addOrUpdateInArray (certificates state) data true)
      end
  | Certificates (SET_IS_SUBMITTING_CERTIFICATE b) =>
      mkCertificateState (cert_isLoading state) (cert_isFirstLoaded state) b (certificates state)
        (certificateIssuers state) (isSubmittingCreateAcmeServer state) (isAcmeServerLoading state)
        (acmeServer state)
  | Certificates (SET_IS_SUBMITTING_ACME_SERVER b) =>
      mkCertificateState (cert_isLoading state) (cert_isFirstLoaded state)
        (isSubmittingCreateCertificate state) (certificates state) (certificateIssuers state) b
        (isAcmeServerLoading state) (acmeServer state)
  | _ => state
  end.

(** ** [reducers/registry.ts] *)

Record RegistryState := mkRegistryState {
  reg_isLoading : bool;
  reg_isFirstLoaded : bool;
  isSubmittingRegistry : bool;
  registries : list Registry
}.

Definition registry_initialState : RegistryState := mkRegistryState false false false [].

Definition set_registries (s : RegistryState) (l : list Registry) : RegistryState :=
  mkRegistryState (reg_isLoading s) (reg_isFirstLoaded s) (isSubmittingRegistry s) l.
Definition set_reg_isLoading (s : RegistryState) (b : bool) : RegistryState :=
  mkRegistryState b (reg_isFirstLoaded s) (isSubmittingRegistry s) (registries s).

Definition registry_reducer (state : RegistryState) (action : Actions) : RegistryState :=
  match action with
  | Common LOGOUT => registry_initialState
  | Registries LOAD_REGISTRIES_PENDING => set_reg_isLoading state true
  | Registries LOAD_REGISTRIES_FAILED => set_reg_isLoading state false
  | Registries (LOAD_REGISTRIES_FULFILLED l) =>
      mkRegistryState false false (isSubmittingRegistry state) l
  | Registries (CREATE_REGISTRY registry) =>
      set_registries state (addOrUpdateInArray (registries state) registry true)
  | Registries (UPDATE_REGISTRY registry) =>
      set_registries state (addOrUpdateInArray (registries state) registry true)
  | Registries (DELETE_REGISTRY name) =>
      set_registries state (removeInArrayByName (registries state) name)
  | Resources (RegistryResourceAction act data) =>
      match act with
      | RESOURCE_ACTION_ADD =>
          if negb (isInArray (registries state) data)
          then set_registries state (addOrUpdateInArray (registries state) data true) else state
      | RESOURCE_ACTION_DELETE => set_registries state (removeInArray (registries state) data)
      | RESOURCE_ACTION_UPDATE => set_registries state (addOrUpdateInArray (registries state) data true)
      end
  | Registries (SET_IS_SUBMITTING_REGISTRY b) =>
      mkRegistryState (reg_isLoading state) (reg_isFirstLoaded state) b (registries state)
  | _ => state
  end.

(** ** [reducers/roleBinding.ts] *)

Record RoleBindingState := mkRoleBindingState {
  rb_isLoading : bool;
  rb_isFirstLoaded : bool;
  roleBindings : list RoleBinding
}.

Definition roleBinding_initialState : RoleBindingState := mkRoleBindingState false false [].

Definition set_roleBindings (s : RoleBindingState) (l : list RoleBinding) : RoleBindingState :=
  mkRoleBindingState (rb_isLoading s) (rb_isFirstLoaded s) l.

Definition roleBinding_reducer (state : RoleBindingState) (action : Actions) : RoleBindingState :=
  match action with
  | Common LOGOUT => roleBinding_initialState
  | RoleBindings (LOAD_ROLE_BINDINGS_FULFILLED l) => mkRoleBindingState false true l
  | RoleBindings LOAD_ROLE_BINDINGS_FAILED =>
      mkRoleBindingState false (rb_isFirstLoaded state) (roleBindings state)
  | RoleBindings LOAD_ROLE_BINDINGS_PENDING =>
      mkRoleBindingState true (rb_isFirstLoaded state) (roleBindings state)
  | Resources (RoleBindingResourceAction act data) =>
      match act with
      | RESOURCE_ACTION_ADD => set_roleBindings state (addOrUpdateInArray (roleBindings state) data true)
      | RESOURCE_ACTION_DELETE => set_roleBindings state (removeInArray (roleBindings state) data)
      | RESOURCE_ACTION_UPDATE => set_roleBindings state (addOrUpdateInArray (roleBindings state) data true)
      end
  | _ => state
  end.

(** ** [reducers/route.ts] *)

Record RouteState := mkRouteState {
  route_isLoading : bool;
  route_isFirstLoaded : bool;
  httpRoutes : list HttpRoute
}.

Definition route_initialState : RouteState := mkRouteState false false [].

Definition set_httpRoutes (s : RouteState) (l : list HttpRoute) : RouteState :=
  mkRouteState (route_isLoading s) (route_isFirstLoaded s) l.

Definition route_reducer (state : RouteState) (action : Actions) : RouteState :=
  match action with
  | Routes LOAD_ROUTES_PENDING => mkRouteState true (route_isFirstLoaded state) (httpRoutes state)
  | Routes LOAD_ROUTES_FAILED => mkRouteState false (route_isFirstLoaded state) (httpRoutes state)
  | Routes (LOAD_ROUTES_FULFILLED l) => mkRouteState false true l
  | Routes (CREATE_ROUTE_FULFILLED route) =>
      set_httpRoutes state (addOrUpdateInArray (httpRoutes state) route true)
  | Routes (UPDATE_ROUTE_FULFILLED route) =>
      set_httpRoutes state (addOrUpdateInArray (httpRoutes state) route true)
  | Routes (DELETE_ROUTE_FULFILLED route) =>
      set_httpRoutes state (removeInArray (httpRoutes state) route)
  | Resources (HttpRouteResourceAction act _ data) =>
      match act with
      | RESOURCE_ACTION_ADD => set_httpRoutes state (addOrUpdateInArray (httpRoutes state) data false)
      | RESOURCE_ACTION_DELETE => set_httpRoutes state (removeInArray (httpRoutes state) data)
      | RESOURCE_ACTION_UPDATE => set_httpRoutes state (addOrUpdateInArray (httpRoutes state) data true)
      end
  | _ => state
  end.

(** ** [reducers/service.ts] *)

Record ServiceState := mkServiceState {
  service_isLoading : bool;
  service_isFirstLoaded : bool;
  services : list Service
}.

Definition service_initialState : ServiceState := mkServiceState false false [].

Definition set_services (s : ServiceState) (l : list Service) : ServiceState :=
  mkServiceState (service_isLoading s) (service_isFirstLoaded s) l.

Definition service_reducer (state : ServiceState) (action : Actions) : ServiceState :=
  match action with
  | Services LOAD_SERVICES_PENDING => mkServiceState true (service_isFirstLoaded state) (services state)
  | Services LOAD_SERVICES_FAILED => mkServiceState false (service_isFirstLoaded state) (services state)
  | Services (LOAD_SERVICES_FULFILLED l) => mkServiceState false true l
  | Resources (ServiceResourceAction act data) =>
      match act with
      | RESOURCE_ACTION_ADD => set_services state (addOrUpdateInArray (services state) data true)
      | RESOURCE_ACTION_DELETE => set_services state (removeInArray (services state) data)
      | RESOURCE_ACTION_UPDATE => set_services state (addOrUpdateInArray (services state) data true)
      end
  | _ => state
  end.

(** ** [reducers/sso.ts] *)

Record SSOState := mkSSOState {
  sso_isLoading : bool;
  sso_loaded : bool;
  sso_config : option SSOConfig;
  isProtectedEndpointsLoaded : bool;
  isProtectedEndpointsLoading : bool;
  protectedEndpoints : list ProtectedEndpoint
}.

Definition sso_initialState : SSOState := mkSSOState false false None false false [].

Definition set_sso_config (s : SSOState) (c : option SSOConfig) : SSOState :=
  mkSSOState (sso_isLoading s) (sso_loaded s) c (isProtectedEndpointsLoaded s)
    (isProtectedEndpointsLoading s) (protectedEndpoints s).
Definition set_sso_isLoading (s : SSOState) (b : bool) : SSOState :=
  mkSSOState b (sso_loaded s) (sso_config s) (isProtectedEndpointsLoaded s)
    (isProtectedEndpointsLoading s) (protectedEndpoints s).
Definition set_endpoints_loading (s : SSOState) (b : bool) : SSOState :=
  mkSSOState (sso_isLoading s) (sso_loaded s) (sso_config s) (isProtectedEndpointsLoaded s) b
    (protectedEndpoints s).
Definition set_protectedEndpoints (s : SSOState) (l : list ProtectedEndpoint) : SSOState :=
  mkSSOState (sso_isLoading s) (sso_loaded s) (sso_config s) (isProtectedEndpointsLoaded s)
    (isProtectedEndpointsLoading s) l.

Definition findIndex_endpoint (endpoint : ProtectedEndpoint) (arr : list ProtectedEndpoint) : option nat :=
  findIndex (fun x => seqb (endpoint_name x) (endpoint_name endpoint) &&
                      seqb (endpoint_namespace x) (endpoint_namespace endpoint)) arr.

Definition endpoint_change (arr : list ProtectedEndpoint) (act : ResourceActionType)
    (endpoint : ProtectedEndpoint) : list ProtectedEndpoint :=
  match act with
  | RESOURCE_ACTION_UPDATE | RESOURCE_ACTION_ADD =>
      match findIndex_endpoint endpoint arr with
      | None => endpoint :: arr
      | Some index => <[index := endpoint]> arr
      end
  | RESOURCE_ACTION_DELETE =>
      match findIndex_endpoint endpoint arr with
      | Some index => splice1 index arr
      | None => arr
      end
  end.

Definition sso_reducer (state : SSOState) (action : Actions) : SSOState :=
  match action with
  | Common LOGOUT => sso_initialState
  | SSO LOAD_SSO_CONFIG_PENDING => set_sso_isLoading state true
  | SSO LOAD_SSO_CONFIG_FAILED => set_sso_isLoading state false
  | SSO (LOAD_SSO_CONFIG_FULFILLED config) =>
      mkSSOState false true (Some config) (isProtectedEndpointsLoaded state)
        (isProtectedEndpointsLoading state) (protectedEndpoints state)
  | SSO LOAD_PROTECTED_ENDPOINTS_PENDING => set_endpoints_loading state true
  | SSO LOAD_PROTECTED_ENDPOINTS_FAILED => set_endpoints_loading state false
  | SSO (LOAD_PROTECTED_ENDPOINTS_FULFILLED l) =>
      mkSSOState (sso_isLoading state) (sso_loaded state) (sso_config state) true false l
  | Resources (SSOConfigResourceAction act data) =>
      match act with
      | RESOURCE_ACTION_ADD => set_sso_config state (Some data)
      | RESOURCE_ACTION_DELETE => set_sso_config state None
      | RESOURCE_ACTION_UPDATE => set_sso_config state (Some data)
      end
  | Resources (ProtectedEndpointResourceAction act data) =>
      set_protectedEndpoints state (endpoint_change (protectedEndpoints state) act data)
  | _ => state
  end.

(** ** [reducers/node.ts] *)

Record NodeState := mkNodeState {
  node_isLoading : bool;
  node_isFirstLoaded : bool;
  nodes_metrics : Metrics;
  nodes : list Node;
  node_labels_list : list string
}.

Definition node_initialState : NodeState :=
  mkNodeState false false (mkMetrics false [] []) [] [].

(** [Set.prototype.add] on the values in insertion order. *)
Definition set_add (l : list string) (x : string) : list string :=
  if bool_decide (x ∈ l) then l else l ++ [x].

Definition label_text (e : string * string) : string := e.1 +:+ ":" +:+ e.2.

Definition setLabels (state : NodeState) : NodeState :=
  let labelsSet :=
    foldl (fun acc node => foldl set_add acc (label_text <$> default [] (node_labels node))) []
      (nodes state) in
  mkNodeState (node_isLoading state) (node_isFirstLoaded state) (nodes_metrics state) (nodes state) labelsSet.

Definition set_nodes (s : NodeState) (l : list Node) : NodeState :=
  mkNodeState (node_isLoading s) (node_isFirstLoaded s) (nodes_metrics s) l (node_labels_list s).
Definition set_node_isLoading (s : NodeState) (b : bool) : NodeState :=
  mkNodeState b (node_isFirstLoaded s) (nodes_metrics s) (nodes s) (node_labels_list s).

Definition node_reducer (state : NodeState) (action : Actions) : NodeState :=
  match action with
  | Resources (NodeResourceAction act data) =>
      setLabels
        match act with
        | RESOURCE_ACTION_ADD =>
            if negb (isInArray (nodes state) data)
            then set_nodes state (addOrUpdateInArray (nodes state) data true) else state
        | RESOURCE_ACTION_DELETE => set_nodes state (removeInArray (nodes state) data)
        | RESOURCE_ACTION_UPDATE => set_nodes state (addOrUpdateInArray (nodes state) data true)
        end
  | Common LOGOUT => node_initialState
  | Nodes LOAD_NODES_PENDING => set_node_isLoading state true
  | Nodes LOAD_NODES_FAILED => set_node_isLoading state false
  | Nodes (LOAD_NODES_FULFILlED response) =>
      setLabels (mkNodeState false true (nodesList_metrics response) (nodesList_nodes response)
                   (node_labels_list state))
  | _ => state
  end.

(** ** [reducers/persistentVolume.ts] *)

Record PersistentVolumeState := mkPersistentVolumeState {
  persistentVolumes : list Disk;
  storageClasses : list StorageClass;
  simpleOptions : list VolumeOption;
  statefulSetOptions : list VolumeOption
}.

Definition persistentVolume_initialState : PersistentVolumeState := mkPersistentVolumeState [] [] [] [].

Definition set_persistentVolumes (s : PersistentVolumeState) (l : list Disk) : PersistentVolumeState :=
  mkPersistentVolumeState l (storageClasses s) (simpleOptions s) (statefulSetOptions s).

Definition persistentVolume_reducer (state : PersistentVolumeState) (action : Actions) : PersistentVolumeState :=
  match action with
  | Common LOGOUT => persistentVolume_initialState
  | Volumes (LOAD_PERSISTENT_VOLUMES l) => set_persistentVolumes state l
  | Volumes (LOAD_STORAGE_CLASSES l) =>
      mkPersistentVolumeState (persistentVolumes state) l (simpleOptions state) (statefulSetOptions state)
  | Volumes (DELETE_PERSISTENT_VOLUME name) =>
      set_persistentVolumes state (removeInArrayByName (persistentVolumes state) name)
  | Resources (VolumeResourceAction act data) =>
      match act with
      | RESOURCE_ACTION_ADD => set_persistentVolumes state (addOrUpdateInArray (persistentVolumes state) data true)
      | RESOURCE_ACTION_DELETE => set_persistentVolumes state (removeInArray (persistentVolumes state) data)
      | RESOURCE_ACTION_UPDATE => set_persistentVolumes state (addOrUpdateInArray (persistentVolumes state) data true)
      end
  | Volumes (LOAD_SIMPLE_OPTIONS l) =>
      mkPersistentVolumeState (persistentVolumes state) (storageClasses state) l (statefulSetOptions state)
  | Volumes (LOAD_STATEFULSET_OPTIONS l) =>
      mkPersistentVolumeState (persistentVolumes state) (storageClasses state) (simpleOptions state) l
  | _ => state
  end.

(** ** [reducers/deployAccessToken.ts] *)

Record DeployAccessTokenState := mkDeployAccessTokenState {
  dat_isLoading : bool;
  dat_loaded : bool;
  deployAccessTokens : list DeployAccessToken
}.

Definition deployAccessToken_initialState : DeployAccessTokenState := mkDeployAccessTokenState false false [].

Definition set_deployAccessTokens (s : DeployAccessTokenState) (l : list DeployAccessToken)
    : DeployAccessTokenState :=
  mkDeployAccessTokenState (dat_isLoading s) (dat_loaded s) l.

Definition deployAccessToken_reducer (state : DeployAccessTokenState) (action : Actions)
    : DeployAccessTokenState :=
  match action with
  | Common LOGOUT => deployAccessToken_initialState
  | DeployAccessTokens LOAD_DEPLOY_ACCESS_TOKENS_PENDING =>
      mkDeployAccessTokenState true (dat_loaded state) (deployAccessTokens state)
  | DeployAccessTokens LOAD_DEPLOY_ACCESS_TOKENS_FAILED =>
      mkDeployAccessTokenState false (dat_loaded state) (deployAccessTokens state)
  | DeployAccessTokens (LOAD_DEPLOY_ACCESS_TOKENS_FULFILLED l) => mkDeployAccessTokenState false true l
  | Resources (DeployAccessTokenResourceAction act data) =>
      match act with
      | RESOURCE_ACTION_ADD => set_deployAccessTokens state (addOrUpdateInArray (deployAccessTokens state) data true)
      | RESOURCE_ACTION_DELETE => set_deployAccessTokens state (removeInArray (deployAccessTokens state) data)
      | RESOURCE_ACTION_UPDATE => set_deployAccessTokens state (addOrUpdateInArray (deployAccessTokens state) data true)
      end
  | _ => state
  end.

(** ** [reducers/cluster.ts]: [info] is [{}] before the first load *)

Record ClusterState := mkClusterState {
  cluster_info : option ClusterInfo;
  cluster_isLoading : bool;
  cluster_isFirstLoaded : bool
}.

Definition cluster_initialState : ClusterState := mkClusterState None false false.

Definition cluster_reducer (state : ClusterState) (action : Actions) : ClusterState :=
  match action with
  | Common LOGOUT => cluster_initialState
  | Cluster LOAD_CLUSTER_INFO_PENDING => mkClusterState (cluster_info state) true (cluster_isFirstLoaded state)
  | Cluster LOAD_CLUSTER_INFO_FAILED => mkClusterState (cluster_info state) false (cluster_isFirstLoaded state)
  | Cluster (LOAD_CLUSTER_INFO_FULFILlED info) => mkClusterState (Some info) false true
  | _ => state
  end.
