(* ===== verification/UiReducers.v ===== *)
(** [reducers/*.ts] of the user interface: login, current namespace, settings,
    dialogs, debounced tasks, domains, notifications and the tutorial.

    Some of these reducers read and write [window.localStorage]; the storage is
    passed along.  An initial state is computed once, when the program starts,
    and a reducer that resets its state returns that same value. *)

From S2P Require Import Prelude JsString JsNumber ResourceTypes ActionTypes.

(** [window.localStorage] *)
Abbreviation Storage := (gmap string string).

(** [localStorage.getItem(k) || d] *)
Definition item_or (st : Storage) (k d : string) : string :=
  match st !! k with
  | None => d
  | Some v => if seqb v "" then d else v
  end.

(** ** [reducers/auth.ts] *)

Record AuthState := mkAuthState {
  auth_firstLoaded : bool;
  auth_isLoading : bool;
  auth_authorized : bool;
  auth_token : string;
  auth_email : string;
  auth_groups : list string;
  auth_policies : string;
  auth_avatarUrl : string;
  auth_impersonation : string;
  auth_impersonationType : string;
  permissionMethods : PermissionMethods
}.

Definition AUTHORIZED_TOKEN_KEY : string := "AUTHORIZED_TOKEN_KEY".

Definition auth_initialState (st : Storage) : AuthState := {|
  auth_authorized := false;
  auth_firstLoaded := false;
  auth_isLoading := false;
  auth_token := item_or st AUTHORIZED_TOKEN_KEY "";
  auth_email := "";
  auth_groups := [];
  auth_policies := "";
  auth_avatarUrl := "";
  auth_impersonation := "";
  auth_impersonationType := "";
  permissionMethods := emptyPermissionMethods
|}.

Definition set_auth_isLoading (s : AuthState) (b : bool) : AuthState :=
  mkAuthState (auth_firstLoaded s) b (auth_authorized s) (auth_token s) (auth_email s) (auth_groups s)
    (auth_policies s) (auth_avatarUrl s) (auth_impersonation s) (auth_impersonationType s)
    (permissionMethods s).

Definition auth_reducer (initialState state : AuthState) (st : Storage) (action : Actions)
    : AuthState * Storage :=
  match action with
  | Common (LOAD_LOGIN_STATUS_FULFILLED loginStatus) =>
      ({| auth_authorized := ls_authorized loginStatus;
          auth_email := ls_email loginStatus;
          auth_policies := ls_policies loginStatus;
          auth_impersonation := ls_impersonation loginStatus;
          auth_groups := ls_groups loginStatus;
          auth_impersonationType := ls_impersonationType loginStatus;
          auth_avatarUrl := ls_avatarUrl loginStatus;
          auth_firstLoaded := true;
          auth_isLoading := false;
          auth_token := auth_token state;
          permissionMethods := permissionMethods state |}, st)
  | Common LOAD_LOGIN_STATUS_FAILED => (set_auth_isLoading state false, st)
  | Common LOAD_LOGIN_STATUS_PENDING => (set_auth_isLoading state true, st)
  | Common (SET_AUTH_TOKEN token) =>
      (mkAuthState (auth_firstLoaded state) (auth_isLoading state) (auth_authorized state) token
         (auth_email state) (auth_groups state) (auth_policies state) (auth_avatarUrl state)
         (auth_impersonation state) (auth_impersonationType state) (permissionMethods state),
       <[AUTHORIZED_TOKEN_KEY := token]> st)
  | Common LOGOUT => (initialState, delete AUTHORIZED_TOKEN_KEY st)
  | Common (SET_AUTH_METHODS methods) =>
      (mkAuthState (auth_firstLoaded state) (auth_isLoading state) (auth_authorized state)
         (auth_token state) (auth_email state) (auth_groups state) (auth_policies state)
         (auth_avatarUrl state) (auth_impersonation state) (auth_impersonationType state) methods, st)
  | _ => (state, st)
  end.

(** ** [reducers/namespaces.ts] *)

Record NamespacesState := mkNamespacesState { active : string }.

Definition LAST_SELECTED_NAMESPACE_CACHE_KEY : string := "LAST_SELECTED_NAMESPACE_CACHE_KEY".

(** [search_namespace] is the [namespace] parameter of the page's address when
    the parser of query strings gives it as one string. *)
Definition namespaces_initialState (search_namespace : option string) (st : Storage) : NamespacesState :=
  mkNamespacesState
    match search_namespace with
    | Some ns => ns
    | None => item_or st LAST_SELECTED_NAMESPACE_CACHE_KEY ""
    end.

Definition namespaces_reducer (initialState state : NamespacesState) (st : Storage) (action : Actions)
    : NamespacesState * Storage :=
  match action with
  | Common LOGOUT => (initialState, st)
  | Namespaces (SET_CURRENT_NAMESPACE namespace) =>
      (mkNamespacesState namespace, <[LAST_SELECTED_NAMESPACE_CACHE_KEY := namespace]> st)
  | _ => (state, st)
  end.

(** ** [reducers/settings.ts]

    [isSubmittingApplication] is missing from the initial state. *)

Record SettingObject := mkSettingObject {
  isDisplayingHelpers : bool;
  set_isSubmittingApplication : option bool;
  isOpenRootDrawer : bool;
  isShowTopProgress : bool;
  usingApplicationCard : bool;
  usingTheme : string
}.

Definition bool_toString (b : bool) : string := if b then "true" else "false".

Definition settings_initialState (st : Storage) : SettingObject := {|
  isDisplayingHelpers := bool_decide (st !! "isDisplayingHelpers" = Some "true");
  isOpenRootDrawer := bool_decide (st !! "isOpenRootDrawer" <> Some "false");
  usingApplicationCard := bool_decide (st !! "usingApplicationCard" = Some "true");
  usingTheme := default "light" (st !! "usingTheme");
  isShowTopProgress := false;
  set_isSubmittingApplication := None
|}.

(** [Object.assign(state, payload)] *)
Definition assign_settings (s : SettingObject) (p : SettingsPatch) : SettingObject := {|
  isDisplayingHelpers := default (isDisplayingHelpers s) (patch_isDisplayingHelpers p);
  set_isSubmittingApplication :=
    match patch_isSubmittingApplication p with Some b => Some b | None => set_isSubmittingApplication s end;
  isOpenRootDrawer := default (isOpenRootDrawer s) (patch_isOpenRootDrawer p);
  isShowTopProgress := default (isShowTopProgress s) (patch_isShowTopProgress p);
  usingApplicationCard := default (usingApplicationCard s) (patch_usingApplicationCard p);
  usingTheme := default (usingTheme s) (patch_usingTheme p)
|}.

(** The four [setItem] calls that end the reducer, for every action. *)
Definition save_settings (s : SettingObject) (st : Storage) : Storage :=
  <["usingTheme" := if seqb (usingTheme s) "" then "light" else usingTheme s]>
    (<["usingApplicationCard" := bool_toString (usingApplicationCard s)]>
      (<["isOpenRootDrawer" := bool_toString (isOpenRootDrawer s)]>
        (<["isDisplayingHelpers" := bool_toString (isDisplayingHelpers s)]> st))).

Definition settings_reducer (state : SettingObject) (st : Storage) (action : Actions)
    : SettingObject * Storage :=
  let state' :=
    match action with
    | Common (SET_SETTINGS patch) => assign_settings state patch
    | _ => state
    end in
  (state', save_settings state' st).

(** ** [reducers/dialog.ts] *)

Abbreviation DialogState := (gmap string ControlledDialogParams).

Definition dialog_initialState : DialogState := ∅.
Definition emptyControlledDialogParams : ControlledDialogParams := mkDialog false (JObject []).

Definition dialog_reducer (state : DialogState) (action : Actions) : DialogState :=
  match action with
  | Common LOGOUT => dialog_initialState
  | Common (INIT_CONTROLLED_DIALOG dialogID) => <[dialogID := emptyControlledDialogParams]> state
  | Common (DESTROY_CONTROLLED_DIALOG dialogID) => delete dialogID state
  | Common (OPEN_CONTROLLED_DIALOG dialogID data) => <[dialogID := mkDialog true data]> state
  | Common (CLOSE_CONTROLLED_DIALOG dialogID) =>
      match state !! dialogID with
      | Some d => <[dialogID := mkDialog false (dialog_data d)]> state
      | None => state
      end
  | Common (CLEAR_CONTROLLED_DIALOG_DATA dialogID) =>
      match state !! dialogID with
      | Some d => <[dialogID := mkDialog (dialog_open d) (JObject [])]> state
      | None => state
      end
  | _ => state
  end.

(** ** [reducers/debounce.ts] *)

Abbreviation DebounceState := (gmap string Debounce).

Definition debounce_reducer (state : DebounceState) (action : Actions) : DebounceState :=
  match action with
  | Debounces (SET_DEBOUNCING name debouncing) =>
      match state !! name with
      | Some d => <[name := mkDebounce (deb_timer d) debouncing]> state
      | None => <[name := mkDebounce (num 0) debouncing]> state
      end
  | Debounces (SET_TIMER name timer) =>
      match state !! name with
      | Some d => <[name := mkDebounce timer (deb_debouncing d)]> state
      | None => <[name := mkDebounce timer false]> state
      end
  | _ => state
  end.

(** ** [reducers/domain.ts] *)

Abbreviation DomainState := (gmap string Domain).

Definition bare_domain (domain : string) : Domain := mkDomain None None domain None None.

Definition with_aRecords (d : Domain) (l : list string) : Domain :=
  mkDomain (Some l) (dom_cname d) (dom_domain d) (dom_ns d) (dom_isLoaded d).
Definition with_cname (d : Domain) (c : string) : Domain :=
  mkDomain (dom_aRecords d) (Some c) (dom_domain d) (dom_ns d) (dom_isLoaded d).
Definition with_ns (d : Domain) (l : list string) : Domain :=
  mkDomain (dom_aRecords d) (dom_cname d) (dom_domain d) (Some l) (dom_isLoaded d).
Definition with_isLoaded (d : Domain) (b : bool) : Domain :=
  mkDomain (dom_aRecords d) (dom_cname d) (dom_domain d) (dom_ns d) (Some b).

Definition domain_reducer (state : DomainState) (action : Actions) : DomainState :=
  match action with
  | Domains (INIT_DOMAIN_STATUS domain) =>
      match state !! domain with
      | Some _ => state
      | None => <[domain := with_isLoaded (bare_domain domain) false]> state
      end
  | Domains (LOADED_DOMAIN_STATUS domain) =>
      match state !! domain with
      | Some d => <[domain := with_isLoaded d true]> state
      | None => <[domain := with_isLoaded (bare_domain domain) true]> state
      end
  | Domains (SET_DOMAIN_A_RECORDS domain aRecords) =>
      match state !! domain with
      | Some d => <[domain := with_aRecords d aRecords]> state
      | None => <[domain := with_aRecords (bare_domain domain) aRecords]> state
      end
  | Domains (SET_DOMAIN_CNAME domain cname) =>
      match state !! domain with
      | Some d => <[domain := with_cname d cname]> state
      | None => <[domain := with_cname (bare_domain domain) cname]> state
      end
  | Domains (SET_DOMAIN_NS domain ns) =>
      match state !! domain with
      | Some d => <[domain := with_ns d ns]> state
      | None => <[domain := with_ns (bare_domain domain) ns]> state
      end
  | _ => state
  end.

(** ** [reducers/notification.ts]: the initial state is the empty object *)

Record Notification := mkNotification { notification_message : string; notification_variant : string }.

Definition notification_reducer (state : option Notification) (action : Actions) : option Notification :=
  match action with
  | Common (SET_NOTIFICATION_MESSAGE message variant) => Some (mkNotification message variant)
  | _ => state
  end.

(** ** [reducers/tutorial.ts] *)

Record TutorialState := mkTutorialState {
  drawerOpen : bool;
  tutorial : option Tutorial;
  tutorialStepStatus : gmap string bool;
  latestHighlight : option string;
  currentStepIndex : Z;
  formValues : option (gmap string JsValue)
}.

Definition DISABLE_TUTORIAL_AUTO_OPEN : string := "DISABLE_TUTORIAL_AUTO_OPEN".

Definition tutorial_initialState (st : Storage) : TutorialState :=
  mkTutorialState (seqb (item_or st DISABLE_TUTORIAL_AUTO_OPEN "") "") None ∅ None (-1) None.

Definition set_drawerOpen (s : TutorialState) (b : bool) : TutorialState :=
  mkTutorialState b (tutorial s) (tutorialStepStatus s) (latestHighlight s) (currentStepIndex s) (formValues s).
Definition set_stepStatus (s : TutorialState) (m : gmap string bool) : TutorialState :=
  mkTutorialState (drawerOpen s) (tutorial s) m (latestHighlight s) (currentStepIndex s) (formValues s).

(** [arr[i]] *)
Definition at_index {A} (l : list A) (i : Z) : option A :=
  if (i <? 0)%Z then None else l !! Z.to_nat i.

(** [`${step}-${subStep}`] *)
Definition statusKey (step : Z) (subStep : nat) : string :=
  int_to_string step +:+ "-" +:+ nat_to_string subStep.

Definition completed (status : gmap string bool) (step : Z) (subStep : nat) : bool :=
  default false (status !! statusKey step subStep).

Definition tryMoveToNextStep (state : TutorialState) : result TutorialState :=
  match tutorial state ≫= fun t => at_index (tut_steps t) (currentStepIndex state) with
  | None => Throw "TypeError: Cannot read property of undefined"
  | Some currentStep =>
      if Nat.eqb (length (step_subSteps currentStep)) 0 then Ok state
      else
        let notCompletedSubSteps :=
          List.filter (fun subStepIndex =>
              negb (completed (tutorialStepStatus state) (currentStepIndex state) subStepIndex))
            (seq 0 (length (step_subSteps currentStep))) in
        if Nat.ltb 0 (length notCompletedSubSteps) then Ok state
        else Ok (mkTutorialState (drawerOpen state) (tutorial state) (tutorialStepStatus state)
                   (latestHighlight state) (currentStepIndex state + 1) (formValues state))
  end.

Section tutorial_reducer.
(** The function each hook reference denotes. *)
Variable call : FnRef -> Actions -> bool.

(** [currentStep.subSteps.forEach(...)]: the step status after the hooks. *)
Definition run_hooks (action : Actions) (step : Z) (subSteps : list TutorialSubStep)
    (status : gmap string bool) : gmap string bool :=
  foldl (fun status e =>
      let '(subStepIndex, subStep) := e in
      if negb (completed status step subStepIndex) &&
         match sub_shouldCompleteByAction subStep with
         | Some f => call f action
         | None => false
         end
      then <[statusKey step subStepIndex := true]> status
      else status)
    status (imap (fun i s => (i, s)) subSteps).

(** What remains of the reducer after the actions that do not need a tutorial. *)
Definition tutorial_progress (state : TutorialState) (action : Actions) : result TutorialState :=
  match tutorial state with
  | None => Ok state
  | Some t =>
      match at_index (tut_steps t) (currentStepIndex state) with
      | None => Ok state
      | Some currentStep =>
          match action with
          | Tutorials (SET_TUTORIAL_STEP_COMPLETION_STATUS isCompleted stepIndex subStepIndex) =>
              tryMoveToNextStep
                (set_stepStatus state
                   (<[statusKey (Z.of_nat stepIndex) subStepIndex := isCompleted]> (tutorialStepStatus state)))
          | Tutorials (SET_TUTORIAL_HIGHLIGHT_STATUS stepIndex highlightIndex) =>
              Ok (mkTutorialState (drawerOpen state) (tutorial state) (tutorialStepStatus state)
                    (Some (nat_to_string stepIndex +:+ "-" +:+ nat_to_string highlightIndex))
                    (currentStepIndex state) (formValues state))
          | _ =>
              tryMoveToNextStep
                (set_stepStatus state
                   (run_hooks action (currentStepIndex state) (step_subSteps currentStep)
                      (tutorialStepStatus state)))
          end
      end
  end.

Definition tutorial_reducer (initialState state : TutorialState) (st : Storage) (action : Actions)
    : result (TutorialState * Storage) :=
  match action with
  | Tutorials OPEN_TUTORIAL_DRAWER => Ok (set_drawerOpen state true, st)
  | Tutorials CLOSE_TUTORIAL_DRAWER =>
      Ok (set_drawerOpen state false, <[DISABLE_TUTORIAL_AUTO_OPEN := "true"]> st)
  | Tutorials RESET_TUTORIAL_ACTION => Ok (set_drawerOpen initialState (drawerOpen state), st)
  | Tutorials (SET_TUTORIAL_ACTION t) =>
      Ok (mkTutorialState (drawerOpen state) (Some t) (tutorialStepStatus initialState)
            (latestHighlight initialState) 0 (formValues initialState), st)
  | Tutorials (SET_TUTORIAL_FORM_VALUES form values) =>
      let m := match formValues state with
               | Some m => <[form := values]> m
               | None => {[form := values]}
               end in
      Ok (mkTutorialState (drawerOpen state) (tutorial state) (tutorialStepStatus state)
            (latestHighlight state) (currentStepIndex state) (Some m), st)
  | _ => state' ← tutorial_progress state action; Ok (state', st)
  end.
End tutorial_reducer.
