(* ===== verification/RootReducer.v ===== *)
(** [reducers/index.ts]: the state of the store and its reducer, with the
    invariant of the resource arrays and what the reducer of each watched
    resource promises. *)

From S2P Require Import Prelude JsString JsNumber ResourceTypes ActionTypes ReducerUtils ResourceReducers UiReducers.

(** ** State and reducer *)

Record RootState {RouterState : Type} := mkRootState {
  root_namespaces : NamespacesState;
  root_applications : ApplicationState;
  root_components : ComponentState;
  root_auth : AuthState;
  root_router : RouterState;
  root_notification : option Notification;
  root_dialogs : DialogState;
  root_nodes : NodeState;
  root_registries : RegistryState;
  root_persistentVolumes : PersistentVolumeState;
  root_settings : SettingObject;
  root_roles : RoleBindingState;
  root_routes : RouteState;
  root_cluster : ClusterState;
  root_tutorial : TutorialState;
  root_services : ServiceState;
  root_certificates : CertificateState;
  root_debounce : DebounceState;
  root_sso : SSOState;
  root_deployAccessTokens : DeployAccessTokenState;
  root_domain : DomainState
}.
Arguments RootState : clear implicits.

(** The initial states that depend on the storage and the page's address when
    the program starts. *)
Record Boot := mkBoot {
  boot_namespaces : NamespacesState;
  boot_auth : AuthState;
  boot_settings : SettingObject;
  boot_tutorial : TutorialState
}.

Definition boot (search_namespace : option string) (st : Storage) : Boot :=
  mkBoot (namespaces_initialState search_namespace st) (auth_initialState st)
    (settings_initialState st) (tutorial_initialState st).

Section root.
Context {RouterState : Type}.
(** [connectRouter(history)] of [connected-react-router], and the hooks of the
    tutorials. *)
Variable connectRouter : RouterState -> Actions -> RouterState.
Variable call : FnRef -> Actions -> bool.

Definition root_initialState (b : Boot) (router : RouterState) : RootState RouterState := {|
  root_namespaces := boot_namespaces b;
  root_applications := application_initialState;
  root_components := component_initialState;
  root_auth := boot_auth b;
  root_router := router;
  root_notification := None;
  root_dialogs := dialog_initialState;
  root_nodes := node_initialState;
  root_registries := registry_initialState;
  root_persistentVolumes := persistentVolume_initialState;
  root_settings := boot_settings b;
  root_roles := roleBinding_initialState;
  root_routes := route_initialState;
  root_cluster := cluster_initialState;
  root_tutorial := boot_tutorial b;
  root_services := service_initialState;
  root_certificates := certificate_initialState;
  root_debounce := ∅;
  root_sso := sso_initialState;
  root_deployAccessTokens := deployAccessToken_initialState;
  root_domain := ∅
|}.

(** [combineReducers] calls the reducers in the order of its argument. *)
Definition root_reducer (b : Boot) (s : RootState RouterState * Storage) (action : Actions)
    : result (RootState RouterState * Storage) :=
  let '(state, st) := s in
  let '(namespaces, st) := namespaces_reducer (boot_namespaces b) (root_namespaces state) st action in
  let nodes := node_reducer (root_nodes state) action in
  let registries := registry_reducer (root_registries state) action in
  let '(auth, st) := auth_reducer (boot_auth b) (root_auth state) st action in
  let dialogs := dialog_reducer (root_dialogs state) action in
  let router := connectRouter (root_router state) action in
  let persistentVolumes := persistentVolume_reducer (root_persistentVolumes state) action in
  let applications := application_reducer (root_applications state) action in
  let components := component_reducer (root_components state) action in
  let notification := notification_reducer (root_notification state) action in
  let '(settings, st) := settings_reducer (root_settings state) st action in
  let sso := sso_reducer (root_sso state) action in
  let roles := roleBinding_reducer (root_roles state) action in
  let routes := route_reducer (root_routes state) action in
  r ← tutorial_reducer call (boot_tutorial b) (root_tutorial state) st action;
  let '(tutorial, st) := (r : TutorialState * Storage) in
  let cluster := cluster_reducer (root_cluster state) action in
  let services := service_reducer (root_services state) action in
  let certificates := certificate_reducer (root_certificates state) action in
  let debounce := debounce_reducer (root_debounce state) action in
  let domain := domain_reducer (root_domain state) action in
  let deployAccessTokens := deployAccessToken_reducer (root_deployAccessTokens state) action in
  Ok (mkRootState RouterState namespaces applications components auth router notification dialogs
        nodes registries persistentVolumes settings roles routes cluster tutorial services
        certificates debounce sso deployAccessTokens domain, st).

(** Dispatching a sequence of actions. *)
Definition reduce_all (b : Boot) (actions : list Actions) (s : RootState RouterState * Storage)
    : result (RootState RouterState * Storage) :=
  forEachM (root_reducer b) actions s.
End root.
