(* ===== verification/SliceFacts.v ===== *)
(** The slices of watched resources follow the server: the interface
    [WatchedSlice] holds of the reducer of each kind. *)

From S2P Require Import Prelude JsString JsNumber ResourceTypes ActionTypes ReducerUtils ResourceReducers.

(** ** Slices that keep one array by name *)

Tactic Notation "by_field" constr(get) uconstr(arr_change) :=
  match goal with
  | |- WatchedSlice ?key _ ?change _ _ =>
      let Q := fresh in pose proof (field_watched key get change arr_change) as Q; apply Q; [first [exact change_put_watched | exact change_keep_watched | exact (put_namespaced_watched _) | exact (keep_namespaced_watched _)]|]; clear Q
  end;
  intros s [[] d]; cbn; rewrite <- ?add_unless_present; by try destruct (isInArray _ _).

#[export] Instance registry_watched : WatchedSlice reg_name any_resource
  (fun s ev => registry_reducer s (RegistryResourceAction ev.1 ev.2))
  (fun s m => array_holds (registries s) m) any_map.
Proof. by_field registries change_keep. Qed.

#[export] Instance certificate_watched : WatchedSlice cert_name any_resource
  (fun s ev => certificate_reducer s (HttpsCertResourceAction ev.1 ev.2))
  (fun s m => array_holds (certificates s) m) any_map.
Proof. by_field certificates change_keep. Qed.

#[export] Instance node_watched : WatchedSlice node_name any_resource
  (fun s ev => node_reducer s (NodeResourceAction ev.1 ev.2))
  (fun s m => array_holds (nodes s) m) any_map.
Proof. by_field nodes change_keep. Qed.

(** *** Slices of namespaced resources, by name all the same *)

(** The namespace of the claim behind a disk. *)
Definition disk_namespace (d : Disk) : string := default "" (disk_componentNamespace d).

#[export] Instance volume_watched : WatchedSlice (full_key disk_namespace) any_resource
  (fun s ev => persistentVolume_reducer s (VolumeResourceAction ev.1 ev.2))
  (fun s m => namespaced_holds disk_namespace (persistentVolumes s) m) names_apart.
Proof. by_field persistentVolumes change_put. Qed.

#[export] Instance token_watched : WatchedSlice dat_name any_resource
  (fun s ev => deployAccessToken_reducer s (DeployAccessTokenResourceAction ev.1 ev.2))
  (fun s m => array_holds (deployAccessTokens s) m) any_map.
Proof. by_field deployAccessTokens change_put. Qed.

#[export] Instance service_watched : WatchedSlice (full_key service_namespace) any_resource
  (fun s ev => service_reducer s (ServiceResourceAction ev.1 ev.2))
  (fun s m => namespaced_holds service_namespace (services s) m) names_apart.
Proof. by_field services change_put. Qed.

#[export] Instance roleBinding_watched : WatchedSlice (full_key rb_namespace) any_resource
  (fun s ev => roleBinding_reducer s (RoleBindingResourceAction ev.1 ev.2))
  (fun s m => namespaced_holds rb_namespace (roleBindings s) m) names_apart.
Proof. by_field roleBindings change_put. Qed.

#[export] Instance route_watched ns : WatchedSlice (full_key route_namespace) any_resource
  (fun s ev => route_reducer s (HttpRouteResourceAction ev.1 ns ev.2))
  (fun s m => namespaced_holds route_namespace (httpRoutes s) m) names_apart.
Proof. by_field httpRoutes change_keep. Qed.

(** ** Applications: only the active ones are shown *)

(** [status] is [Active] or [Terminating]. *)
Definition application_valid (d : ApplicationDetails) : Prop :=
  app_status d = "Active" \/ app_status d = "Terminating".

Definition is_active (e : string * ApplicationDetails) : Prop := app_status e.2 = "Active".

Definition applications_hold (s : ApplicationState) (m : gmap string ApplicationDetails) : Prop :=
  array_holds (applications s) (filter is_active m).

#[export] Instance application_watched : WatchedSlice app_name application_valid
  (fun s ev => application_reducer s (ApplicationResourceAction ev.1 ev.2)) applications_hold any_map.
Proof.
  split. intros s m ev m' [Hnd Hm] Hstep _. unfold applications_hold, array_holds.
  inversion Hstep as [m0 d Hv Hn|m0 d Hv Hn|m0 d Hv Hn|m0 d Hn]; subst; cbn; apply and_comm.
  - assert (Hno : isInArray (applications s) d = false).
    { rewrite isInArray_table, Hm. apply bool_decide_eq_false_2.
      change (resource_name d) with (app_name d). rewrite map_lookup_filter_None_2 by (by left).
      by intros [? ?]. }
    rewrite Hno. destruct Hv as [Hs|Hs].
    + rewrite Hs. eval_seqb. destruct (add_table (applications s) d Hnd) as [Ht ?]. split; [|done].
      rewrite isInArray_table in Hno. apply bool_decide_eq_false_1 in Hno.
      rewrite Ht, decide_False by done. rewrite Hm. by rewrite map_filter_insert_True.
    + rewrite Hs. eval_seqb. split; [|done]. rewrite Hm, map_filter_insert_False by (by unfold is_active; cbn; rewrite Hs).
      by rewrite delete_id.
  - destruct Hv as [Hs|Hs].
    + assert (isInArray (applications s) d = true) as ->.
      { rewrite isInArray_table, Hm. apply bool_decide_eq_true_2. exists d. by apply map_lookup_filter_Some. }
      rewrite Bool.andb_false_r. by split.
    + rewrite Hs. eval_seqb. by split.
  - destruct Hv as [Hs|Hs]; rewrite Hs; eval_seqb.
    + destruct (addOrUpdate_table (applications s) d Hnd) as [-> ?]. split; [|done].
      rewrite Hm. by rewrite map_filter_insert_True.
    + destruct (remove_in_table (applications s) d Hnd) as [-> ?]. split; [|done].
      rewrite Hm, map_filter_insert_False by (by unfold is_active; cbn; rewrite Hs).
      by rewrite map_filter_delete.
  - destruct (remove_in_table (applications s) d Hnd) as [-> ?]. split; [|done].
    by rewrite Hm, map_filter_delete.
Qed.

(** ** Protected endpoints: by name and namespace *)

Definition endpoint_key (e : ProtectedEndpoint) : string * string := (endpoint_name e, endpoint_namespace e).

Definition endpoints_hold (s : SSOState) (m : gmap (string * string) ProtectedEndpoint) : Prop :=
  NoDup (keys endpoint_key (protectedEndpoints s)) /\ table endpoint_key (protectedEndpoints s) = m.

Lemma recognizes_endpoint e : recognizes endpoint_key
  (fun x => seqb (endpoint_name x) (endpoint_name e) && seqb (endpoint_namespace x) (endpoint_namespace e))
  (endpoint_key e).
Proof.
  intros x. rewrite Bool.andb_true_iff, !seqb_true. unfold endpoint_key.
  split; [by intros [-> ->] | by intros [= -> ->]].
Qed.

(** A new endpoint is put in front. *)
Lemma endpoint_put arr e : NoDup (keys endpoint_key arr) ->
  let arr' := match findIndex_endpoint e arr with None => e :: arr | Some i => <[i := e]> arr end in
  table endpoint_key arr' = <[endpoint_key e := e]> (table endpoint_key arr) /\ NoDup (keys endpoint_key arr').
Proof.
  intros Hnd. pose proof (put_table endpoint_key _ e arr (recognizes_endpoint e) Hnd) as Hput.
  pose proof (findIndex_key_None endpoint_key _ _ arr (recognizes_endpoint e)) as Hnone.
  cbn in *. unfold findIndex_endpoint. destruct (findIndex _ arr) as [i|]; [done|].
  split; [done|]. apply NoDup_cons. split; [by apply Hnone|done].
Qed.

#[export] Instance endpoint_watched : WatchedSlice endpoint_key any_resource
  (fun s ev => sso_reducer s (ProtectedEndpointResourceAction ev.1 ev.2)) endpoints_hold any_map.
Proof.
  split. intros s m ev m' [Hnd <-] Hstep _. unfold endpoints_hold.
  inversion Hstep as [m0 d _ Hn|m0 d _ Hn|m0 d _ Hn|m0 d Hn]; subst; cbn; apply and_comm;
    [by apply endpoint_put | | by apply endpoint_put |].
  { destruct (endpoint_put (protectedEndpoints s) d Hnd) as [Ht Hu]. split; [|exact Hu]. cbn in Ht. rewrite Ht. by apply insert_id. }
  pose proof (remove_table endpoint_key _ _ _ (recognizes_endpoint d) Hnd) as Hr. cbn in Hr.
  unfold findIndex_endpoint. by destruct (findIndex _ _).
Qed.

(** ** Components: by application and name *)

Definition component_key (c : string * ApplicationComponentDetails) : string * string :=
  (c.1, resource_name c.2).

Definition component_at (s : ComponentState) (ns n : string) : option ApplicationComponentDetails :=
  l ← components s !! ns; names l !! n.

Definition components_unique (s : ComponentState) : Prop :=
  forall ns l, components s !! ns = Some l -> unique_names l.

Definition components_hold (s : ComponentState)
    (m : gmap (string * string) (string * ApplicationComponentDetails)) : Prop :=
  components_unique s /\ forall ns n, m !! (ns, n) = pair ns <$> component_at s ns n.

Lemma set_components_unique s ns l : components_unique s -> unique_names l ->
  components_unique (set_components s (<[ns := l]> (components s))).
Proof. intros Hu Hl ns' l'. cbn. rewrite lookup_insert. case_decide; naive_solver. Qed.

Lemma component_at_set s ns l ns' n :
  component_at (set_components s (<[ns := l]> (components s))) ns' n =
    if decide (ns = ns') then names l !! n else component_at s ns' n.
Proof. unfold component_at. cbn. rewrite lookup_insert. by case_decide. Qed.

(** A component that is created, or that is there and updated, is put into the state. *)
Lemma put_component s ns c isCreate : components_unique s ->
  (isCreate = true \/ is_Some (component_at s ns (resource_name c))) ->
  components_unique (putComponentIntoState s ns c isCreate) /\
  forall ns' n, component_at (putComponentIntoState s ns c isCreate) ns' n =
    if decide ((ns, resource_name c) = (ns', n)) then Some c else component_at s ns' n.
Proof.
  intros Hu Hc. unfold putComponentIntoState.
  destruct (components s !! ns) as [l|] eqn:Hl.
  - pose proof (Hu _ _ Hl) as Hnd.
    pose proof (put_table resource_name _ c l (recognizes_name (resource_name c)) Hnd) as [Ht Hnd'].
    pose proof (findIndex_key_None resource_name _ _ l (recognizes_name (resource_name c))) as Hnone.
    destruct (findIndex _ l) as [i|].
    + split; [by apply set_components_unique|]. intros ns' n. rewrite component_at_set.
      unfold names. rewrite Ht, lookup_insert. unfold component_at, names.
      repeat case_decide; try done; simplify_eq; by rewrite ?Hl.
    + assert (isCreate = true) as ->.
      { destruct Hc as [?|Hc]; [done|]. unfold component_at in Hc. rewrite Hl in Hc. cbn in Hc.
        apply table_is_Some in Hc. by apply Hnone in Hc. }
      split; [by apply set_components_unique|]. intros ns' n. rewrite component_at_set.
      unfold names. rewrite Ht, lookup_insert. unfold component_at, names.
      repeat case_decide; try done; simplify_eq; by rewrite ?Hl.
  - destruct Hc as [->|Hc]; [|unfold component_at in Hc; rewrite Hl in Hc; by destruct Hc].
    rewrite insert_insert_eq. split; [by apply set_components_unique, NoDup_singleton|].
    intros ns' n. rewrite component_at_set. unfold component_at, names, table. cbn.
    rewrite lookup_insert, lookup_empty. repeat case_decide; try done; simplify_eq; by rewrite Hl.
Qed.

Lemma delete_component s ns n : components_unique s ->
  components_unique (deleteComponentFromState s ns n) /\
  forall ns' n', component_at (deleteComponentFromState s ns n) ns' n' =
    if decide ((ns, n) = (ns', n')) then None else component_at s ns' n'.
Proof.
  intros Hu. unfold deleteComponentFromState. destruct (components s !! ns) as [l|] eqn:Hl.
  - pose proof (Hu _ _ Hl) as Hnd.
    pose proof (remove_table resource_name _ _ l (recognizes_name n) Hnd) as [Ht Hnd'].
    pose proof (findIndex_key_None resource_name _ _ l (recognizes_name n)) as Hnone.
    destruct (findIndex _ l) as [i|].
    + split; [by apply set_components_unique|]. intros ns' n'. rewrite component_at_set.
      unfold names. rewrite Ht, lookup_delete. unfold component_at, names.
      repeat case_decide; try done; simplify_eq; by rewrite ?Hl.
    + split; [done|]. intros ns' n'. case_decide as Hd; [|done]. injection Hd as <- <-.
      unfold component_at, names. rewrite Hl. cbn. apply table_None. by apply Hnone.
  - split; [done|]. intros ns' n'. case_decide as Hd; [|done]. injection Hd as <- <-.
    unfold component_at. by rewrite Hl.
Qed.

Lemma isComponentInState_spec s ns c :
  isComponentInState s ns c = bool_decide (is_Some (component_at s ns (resource_name c))).
Proof.
  unfold isComponentInState, component_at. destruct (components s !! ns) as [l|]; cbn.
  - apply (find_table resource_name), recognizes_name.
  - done.
Qed.

Lemma pair_fmap_is_Some (ns : string) (o : option ApplicationComponentDetails) :
  is_Some (pair ns <$> o) <-> is_Some o.
Proof. apply fmap_is_Some. Qed.

#[export] Instance component_watched : WatchedSlice component_key any_resource
  (fun s ev => component_reducer s (ComponentResourceAction ev.1 ev.2.1 ev.2.2)) components_hold any_map.
Proof.
  split. intros s m ev m' [Hu Hm] Hstep _. unfold components_hold.
  inversion Hstep as [m0 [ns c] _ Hn|m0 [ns c] _ Hn|m0 [ns c] _ Hn|m0 [ns c] Hn]; subst;
    unfold component_key in Hn; cbn [fst snd] in Hn; rewrite Hm in Hn; cbn [fst snd component_reducer component_change].
  - rewrite isComponentInState_spec, bool_decide_eq_false_2
      by (rewrite <- (pair_fmap_is_Some ns), Hn; by intros [? ?]).
    destruct (put_component s ns c true Hu) as [Hu' Hat]; [by left|]. split; [done|].
    intros ns' n. rewrite lookup_insert, Hat, Hm. unfold component_key. cbn.
    case_decide; [|done]. by simplify_eq.
  - rewrite isComponentInState_spec, bool_decide_eq_true_2 by (rewrite <- (pair_fmap_is_Some ns), Hn; by eexists). by split.
  - apply pair_fmap_is_Some in Hn.
    destruct (put_component s ns c false Hu) as [Hu' Hat]; [by right|]. split; [done|].
    intros ns' n. rewrite lookup_insert, Hat, Hm. unfold component_key. cbn.
    case_decide; [|done]. by simplify_eq.
  - destruct (delete_component s ns (resource_name c) Hu) as [Hu' Hat]. split; [done|].
    intros ns' n. rewrite lookup_delete, Hat, Hm. unfold component_key. cbn. by case_decide.
Qed.
