(* ===== verification/RootFacts.v ===== *)
(** The whole store: its reducer never fails, and it follows the server through
    any interleaving of change events, loads and actions of the interface. *)

From S2P Require Import Prelude JsString JsNumber ResourceTypes ActionTypes ReducerUtils ResourceReducers UiReducers RootReducer SliceFacts.

(** ** The reducer is total *)

Lemma tryMoveToNextStep_total s t step :
  tutorial s = Some t -> at_index (tut_steps t) (currentStepIndex s) = Some step ->
  exists s', tryMoveToNextStep s = Ok s'.
Proof.
  intros Ht Hs. unfold tryMoveToNextStep. rewrite Ht. cbn. rewrite Hs.
  repeat case_match; by eexists.
Qed.

Lemma tutorial_progress_total call s a : exists s', tutorial_progress call s a = Ok s'.
Proof.
  unfold tutorial_progress. destruct (tutorial s) as [t|] eqn:Ht; [|by eexists].
  destruct (at_index _ _) as [step|] eqn:Hs; [|by eexists].
  destruct a; try (eapply tryMoveToNextStep_total; eassumption).
  destruct a; try (eapply tryMoveToNextStep_total; eassumption). by eexists.
Qed.

Lemma tutorial_reducer_total call init s st a : exists s' st', tutorial_reducer call init s st a = Ok (s', st').
Proof.
  destruct (tutorial_progress_total call s a) as [s' Hs'].
  destruct a; try destruct a; cbn; rewrite ?Hs'; cbn; by do 2 eexists.
Qed.

(** ** One action on every slice of the server's resources *)

Section store.
Context {RouterState : Type}.
Variable connectRouter : RouterState -> Actions -> RouterState.
Variable call : FnRef -> Actions -> bool.
Implicit Types s : RootState RouterState.

Record reduced s (a : Actions) s' : Prop := {
  red_nodes : root_nodes s' = node_reducer (root_nodes s) a;
  red_applications : root_applications s' = application_reducer (root_applications s) a;
  red_components : root_components s' = component_reducer (root_components s) a;
  red_routes : root_routes s' = route_reducer (root_routes s) a;
  red_certificates : root_certificates s' = certificate_reducer (root_certificates s) a;
  red_registries : root_registries s' = registry_reducer (root_registries s) a;
  red_persistentVolumes : root_persistentVolumes s' = persistentVolume_reducer (root_persistentVolumes s) a;
  red_sso : root_sso s' = sso_reducer (root_sso s) a;
  red_deployAccessTokens : root_deployAccessTokens s' = deployAccessToken_reducer (root_deployAccessTokens s) a;
  red_services : root_services s' = service_reducer (root_services s) a;
  red_roles : root_roles s' = roleBinding_reducer (root_roles s) a;
  red_cluster : root_cluster s' = cluster_reducer (root_cluster s) a;
  red_notification : root_notification s' = notification_reducer (root_notification s) a;
  red_debounce : root_debounce s' = debounce_reducer (root_debounce s) a;
  red_domain : root_domain s' = domain_reducer (root_domain s) a
}.

Lemma root_reducer_reduced b s st a :
  exists s' st', root_reducer connectRouter call b (s, st) a = Ok (s', st') /\ reduced s a s'.
Proof.
  unfold root_reducer.
  destruct (namespaces_reducer _ _ _ _) as [ns st1]. destruct (auth_reducer _ _ _ _) as [auth st2].
  destruct (settings_reducer _ _ _) as [settings st3].
  destruct (tutorial_reducer_total call (boot_tutorial b) (root_tutorial s) st3 a) as (tut & st4 & ->).
  cbn [mbind result_bind]. do 2 eexists. split; [reflexivity|]. by split.
Qed.

(** The login state after an action; the storage it is computed with does not
    matter for the state. *)
Lemma root_reducer_auth b s st a s' st' :
  root_reducer connectRouter call b (s, st) a = Ok (s', st') ->
  exists st0, root_auth s' = (auth_reducer (boot_auth b) (root_auth s) st0 a).1.
Proof.
  unfold root_reducer. destruct (namespaces_reducer _ _ _ _) as [ns st1].
  destruct (auth_reducer _ _ _ _) as [auth st2] eqn:Ha. destruct (settings_reducer _ _ _) as [settings st3].
  destruct (tutorial_reducer_total call (boot_tutorial b) (root_tutorial s) st3 a) as (tut & st4 & ->).
  cbn [mbind result_bind]. intros [= <- _]. exists st1. by rewrite Ha.
Qed.

(** The current namespace after an action. *)
Lemma root_reducer_namespaces b s st a s' st' :
  root_reducer connectRouter call b (s, st) a = Ok (s', st') ->
  root_namespaces s' = (namespaces_reducer (boot_namespaces b) (root_namespaces s) st a).1.
Proof.
  unfold root_reducer. destruct (namespaces_reducer _ _ _ _) as [ns st1].
  destruct (auth_reducer _ _ _ _) as [auth st2]. destruct (settings_reducer _ _ _) as [settings st3].
  destruct (tutorial_reducer_total call (boot_tutorial b) (root_tutorial s) st3 a) as (tut & st4 & ->).
  cbn [mbind result_bind]. by intros [= <- _].
Qed.

(** ** The server's resources and what the store shows of them

    The routes, the claims behind disks, the services and the role bindings belong to
    namespaces, and the server watches those of all namespaces at once. *)

Record ServerState := mkServer {
  srv_nodes : gmap string Node;
  srv_applications : gmap string ApplicationDetails;
  srv_components : gmap (string * string) (string * ApplicationComponentDetails);
  srv_httpRoutes : gmap (string * string) HttpRoute;
  srv_certificates : gmap string Certificate;
  srv_registries : gmap string Registry;
  srv_volumes : gmap (string * string) Disk;
  srv_endpoints : gmap (string * string) ProtectedEndpoint;
  srv_tokens : gmap string DeployAccessToken;
  srv_services : gmap (string * string) Service;
  srv_roleBindings : gmap (string * string) RoleBinding
}.

(** The server changes one resource and sends the event. *)
Inductive server_change : ServerState -> ResourceActions -> ServerState -> Prop :=
| change_nodes v act d m : server_step node_name any_resource (srv_nodes v) (act, d) m ->
    server_change v (NodeResourceAction act d)
      (mkServer m (srv_applications v) (srv_components v) (srv_httpRoutes v) (srv_certificates v) (srv_registries v) (srv_volumes v) (srv_endpoints v) (srv_tokens v) (srv_services v) (srv_roleBindings v))
| change_applications v act d m : server_step app_name application_valid (srv_applications v) (act, d) m ->
    server_change v (ApplicationResourceAction act d)
      (mkServer (srv_nodes v) m (srv_components v) (srv_httpRoutes v) (srv_certificates v) (srv_registries v) (srv_volumes v) (srv_endpoints v) (srv_tokens v) (srv_services v) (srv_roleBindings v))
| change_components v act d m : server_step component_key any_resource (srv_components v) (act, d) m ->
    server_change v (ComponentResourceAction act d.1 d.2)
      (mkServer (srv_nodes v) (srv_applications v) m (srv_httpRoutes v) (srv_certificates v) (srv_registries v) (srv_volumes v) (srv_endpoints v) (srv_tokens v) (srv_services v) (srv_roleBindings v))
| change_httpRoutes v act d m : server_step (full_key route_namespace) any_resource (srv_httpRoutes v) (act, d) m ->
    server_change v (HttpRouteResourceAction act (route_namespace d) d)
      (mkServer (srv_nodes v) (srv_applications v) (srv_components v) m (srv_certificates v) (srv_registries v) (srv_volumes v) (srv_endpoints v) (srv_tokens v) (srv_services v) (srv_roleBindings v))
| change_certificates v act d m : server_step cert_name any_resource (srv_certificates v) (act, d) m ->
    server_change v (HttpsCertResourceAction act d)
      (mkServer (srv_nodes v) (srv_applications v) (srv_components v) (srv_httpRoutes v) m (srv_registries v) (srv_volumes v) (srv_endpoints v) (srv_tokens v) (srv_services v) (srv_roleBindings v))
| change_registries v act d m : server_step reg_name any_resource (srv_registries v) (act, d) m ->
    server_change v (RegistryResourceAction act d)
      (mkServer (srv_nodes v) (srv_applications v) (srv_components v) (srv_httpRoutes v) (srv_certificates v) m (srv_volumes v) (srv_endpoints v) (srv_tokens v) (srv_services v) (srv_roleBindings v))
| change_volumes v act d m : server_step (full_key disk_namespace) any_resource (srv_volumes v) (act, d) m ->
    server_change v (VolumeResourceAction act d)
      (mkServer (srv_nodes v) (srv_applications v) (srv_components v) (srv_httpRoutes v) (srv_certificates v) (srv_registries v) m (srv_endpoints v) (srv_tokens v) (srv_services v) (srv_roleBindings v))
| change_endpoints v act d m : server_step endpoint_key any_resource (srv_endpoints v) (act, d) m ->
    server_change v (ProtectedEndpointResourceAction act d)
      (mkServer (srv_nodes v) (srv_applications v) (srv_components v) (srv_httpRoutes v) (srv_certificates v) (srv_registries v) (srv_volumes v) m (srv_tokens v) (srv_services v) (srv_roleBindings v))
| change_tokens v act d m : server_step dat_name any_resource (srv_tokens v) (act, d) m ->
    server_change v (DeployAccessTokenResourceAction act d)
      (mkServer (srv_nodes v) (srv_applications v) (srv_components v) (srv_httpRoutes v) (srv_certificates v) (srv_registries v) (srv_volumes v) (srv_endpoints v) m (srv_services v) (srv_roleBindings v))
| change_services v act d m : server_step (full_key service_namespace) any_resource (srv_services v) (act, d) m ->
    server_change v (ServiceResourceAction act d)
      (mkServer (srv_nodes v) (srv_applications v) (srv_components v) (srv_httpRoutes v) (srv_certificates v) (srv_registries v) (srv_volumes v) (srv_endpoints v) (srv_tokens v) m (srv_roleBindings v))
| change_roleBindings v act d m : server_step (full_key rb_namespace) any_resource (srv_roleBindings v) (act, d) m ->
    server_change v (RoleBindingResourceAction act d)
      (mkServer (srv_nodes v) (srv_applications v) (srv_components v) (srv_httpRoutes v) (srv_certificates v) (srv_registries v) (srv_volumes v) (srv_endpoints v) (srv_tokens v) (srv_services v) m).

Record store_holds (v : ServerState) s : Prop := {
  holds_nodes : array_holds (nodes (root_nodes s)) (srv_nodes v);
  holds_applications : applications_hold (root_applications s) (srv_applications v);
  holds_components : components_hold (root_components s) (srv_components v);
  holds_httpRoutes : namespaced_holds route_namespace (httpRoutes (root_routes s)) (srv_httpRoutes v);
  holds_certificates : array_holds (certificates (root_certificates s)) (srv_certificates v);
  holds_registries : array_holds (registries (root_registries s)) (srv_registries v);
  holds_volumes : namespaced_holds disk_namespace (persistentVolumes (root_persistentVolumes s)) (srv_volumes v);
  holds_endpoints : endpoints_hold (root_sso s) (srv_endpoints v);
  holds_tokens : array_holds (deployAccessTokens (root_deployAccessTokens s)) (srv_tokens v);
  holds_services : namespaced_holds service_namespace (services (root_services s)) (srv_services v);
  holds_roleBindings : namespaced_holds rb_namespace (roleBindings (root_roles s)) (srv_roleBindings v)
}.

(** No two resources of a kind share a name in different namespaces. *)
Definition namesakes_apart (v : ServerState) : Prop :=
  names_apart (srv_httpRoutes v) /\ names_apart (srv_volumes v) /\ names_apart (srv_services v) /\ names_apart (srv_roleBindings v).

Lemma store_change v ev v' s s' :
  store_holds v s -> server_change v ev v' -> namesakes_apart v' -> reduced s ev s' -> store_holds v' s'.
Proof.
  intros Hs Hc (Ha1 & Ha2 & Ha3 & Ha4) Hr. destruct Hs, Hr. inversion Hc; subst;
    (split; cbn [srv_nodes srv_applications srv_components srv_httpRoutes srv_certificates srv_registries srv_volumes srv_endpoints srv_tokens srv_services srv_roleBindings];
     first
       [ rewrite red_nodes0 | rewrite red_applications0 | rewrite red_components0 | rewrite red_routes0
       | rewrite red_certificates0 | rewrite red_registries0 | rewrite red_persistentVolumes0
       | rewrite red_sso0 | rewrite red_deployAccessTokens0 | rewrite red_services0 | rewrite red_roles0 ];
     try done).
  - by apply (@watched_step _ _ _ _ _ _ _ _ _ _ node_watched _ _ (act, d) m holds_nodes0).
  - by apply (@watched_step _ _ _ _ _ _ _ _ _ _ application_watched _ _ (act, d) m holds_applications0).
  - by apply (@watched_step _ _ _ _ _ _ _ _ _ _ component_watched _ _ (act, d) m holds_components0).
  - by apply (@watched_step _ _ _ _ _ _ _ _ _ _ (route_watched (route_namespace d)) _ _ (act, d) m holds_httpRoutes0).
  - by apply (@watched_step _ _ _ _ _ _ _ _ _ _ certificate_watched _ _ (act, d) m holds_certificates0).
  - by apply (@watched_step _ _ _ _ _ _ _ _ _ _ registry_watched _ _ (act, d) m holds_registries0).
  - by apply (@watched_step _ _ _ _ _ _ _ _ _ _ volume_watched _ _ (act, d) m holds_volumes0).
  - by apply (@watched_step _ _ _ _ _ _ _ _ _ _ endpoint_watched _ _ (act, d) m holds_endpoints0).
  - by apply (@watched_step _ _ _ _ _ _ _ _ _ _ token_watched _ _ (act, d) m holds_tokens0).
  - by apply (@watched_step _ _ _ _ _ _ _ _ _ _ service_watched _ _ (act, d) m holds_services0).
  - by apply (@watched_step _ _ _ _ _ _ _ _ _ _ roleBinding_watched _ _ (act, d) m holds_roleBindings0).
Qed.

(** Actions that change none of the resources the server reports: those of the
    interface, of requests that start, fail or are being submitted, and of data
    that is not watched. *)
Definition quiet (a : Actions) : bool :=
  match a with
  | Common LOGOUT | Resources _ => false
  | Nodes (LOAD_NODES_FULFILlED _) => false
  | Applications a =>
      match a with
      | LOAD_APPLICATIONS_PENDING | LOAD_APPLICATIONS_FAILED | LOAD_APPLICATION_PENDING
      | LOAD_APPLICATION_FAILED | SET_IS_SUBMITTING_APPLICATION _
      | SET_IS_SUBMITTING_APPLICATION_COMPONENT _ | LOAD_COMPONENTS_PENDING | LOAD_COMPONENTS_FAILED => true
      | _ => false
      end
  | Registries a =>
      match a with
      | LOAD_REGISTRIES_PENDING | LOAD_REGISTRIES_FAILED | SET_IS_SUBMITTING_REGISTRY _ => true
      | _ => false
      end
  | Routes (LOAD_ROUTES_FULFILLED _ | CREATE_ROUTE_FULFILLED _ | UPDATE_ROUTE_FULFILLED _
           | DELETE_ROUTE_FULFILLED _) => false
  | Certificates (LOAD_CERTIFICATES_FULFILLED _ | DELETE_CERTIFICATE _ | CREATE_CERTIFICATE _) => false
  | Services (LOAD_SERVICES_FULFILLED _) => false
  | Volumes (LOAD_PERSISTENT_VOLUMES _ | DELETE_PERSISTENT_VOLUME _) => false
  | SSO (LOAD_PROTECTED_ENDPOINTS_FULFILLED _) => false
  | DeployAccessTokens (LOAD_DEPLOY_ACCESS_TOKENS_FULFILLED _) => false
  | RoleBindings (LOAD_ROLE_BINDINGS_FULFILLED _) => false
  | _ => true
  end.

Lemma store_quiet v a s s' : store_holds v s -> quiet a = true -> reduced s a s' -> store_holds v s'.
Proof.
  intros Hs Hq Hr. destruct Hs, Hr.
  destruct a as [p|a|a|a|a|a|a|a|a|a|a|a|a|a|a|a|a|a]; try discriminate; try (destruct a; try discriminate);
    (split;
     first
       [ rewrite red_nodes0 | rewrite red_applications0 | rewrite red_components0 | rewrite red_routes0
       | rewrite red_certificates0 | rewrite red_registries0 | rewrite red_persistentVolumes0
       | rewrite red_sso0 | rewrite red_deployAccessTokens0 | rewrite red_services0 | rewrite red_roles0 ];
     assumption).
Qed.

(** An answer of the server that lists all resources of a kind. *)
Definition lists_all (v : ServerState) (a : Actions) : Prop :=
  match a with
  | Nodes (LOAD_NODES_FULFILlED r) => array_holds (nodesList_nodes r) (srv_nodes v)
  | Applications (LOAD_APPLICATIONS_FULFILLED l) => array_holds l (filter is_active (srv_applications v))
  | Registries (LOAD_REGISTRIES_FULFILLED l) => array_holds l (srv_registries v)
  | Routes (LOAD_ROUTES_FULFILLED l) => namespaced_holds route_namespace l (srv_httpRoutes v)
  | Certificates (LOAD_CERTIFICATES_FULFILLED l) => array_holds (default [] l) (srv_certificates v)
  | Services (LOAD_SERVICES_FULFILLED l) => namespaced_holds service_namespace l (srv_services v)
  | Volumes (LOAD_PERSISTENT_VOLUMES l) => namespaced_holds disk_namespace l (srv_volumes v)
  | DeployAccessTokens (LOAD_DEPLOY_ACCESS_TOKENS_FULFILLED l) => array_holds l (srv_tokens v)
  | RoleBindings (LOAD_ROLE_BINDINGS_FULFILLED l) => namespaced_holds rb_namespace l (srv_roleBindings v)
  | SSO (LOAD_PROTECTED_ENDPOINTS_FULFILLED l) =>
      NoDup (keys endpoint_key l) /\ table endpoint_key l = srv_endpoints v
  | _ => False
  end.

Lemma store_load v a s s' : store_holds v s -> lists_all v a -> reduced s a s' -> store_holds v s'.
Proof.
  intros Hs Hl Hr. destruct Hs, Hr.
  destruct a as [p|a|a|a|a|a|a|a|a|a|a|a|a|a|a|a|a|a]; try contradiction; try (destruct a; try contradiction);
    (split;
     first
       [ rewrite red_nodes0 | rewrite red_applications0 | rewrite red_components0 | rewrite red_routes0
       | rewrite red_certificates0 | rewrite red_registries0 | rewrite red_persistentVolumes0
       | rewrite red_sso0 | rewrite red_deployAccessTokens0 | rewrite red_services0 | rewrite red_roles0 ];
     assumption).
Qed.

(** What happens to the store and the server. *)
Inductive world_step : ServerState -> Actions -> ServerState -> Prop :=
| world_change v ev v' : server_change v ev v' -> world_step v ev v'
| world_load v a : lists_all v a -> world_step v a v
| world_quiet v a : quiet a = true -> world_step v a v.

(** Through all of it the namesakes are apart. *)
Inductive world_run : ServerState -> list Actions -> ServerState -> Prop :=
| world_nil v : world_run v [] v
| world_cons v a v1 actions v2 : world_step v a v1 -> namesakes_apart v1 -> world_run v1 actions v2 -> world_run v (a :: actions) v2.

Lemma world_step_holds b v a v' s st : world_step v a v' -> namesakes_apart v' -> store_holds v s ->
  exists s' st', root_reducer connectRouter call b (s, st) a = Ok (s', st') /\ store_holds v' s'.
Proof.
  intros Hw Hap Hs. destruct (root_reducer_reduced b s st a) as (s' & st' & He & Hr).
  exists s', st'. split; [done|]. destruct Hw;
    [by eapply store_change | by eapply store_load | by eapply store_quiet].
Qed.

(** C2: The store follows the server.  The server keeps its resources by kind,
    namespace and name.  If the store shows them, then after any interleaving of the
    server's change events, of announcements of resources that are there already, as a
    new connection makes them, of complete lists the server answers, and of actions
    that touch no watched resource, the reducer has handled every action without an
    error and the store shows the server's resources again: nodes, applications that
    are active, components per application, routes, certificates, registries, volumes,
    protected endpoints, access tokens, services and role bindings.  This holds as long
    as no two routes, volumes, services or role bindings of different namespaces share
    a name, which the arrays of the store cannot tell apart. *)
Theorem store_follows_server b v actions v' s st :
  store_holds v s -> world_run v actions v' ->
  exists s' st', reduce_all connectRouter call b actions (s, st) = Ok (s', st') /\ store_holds v' s'.
Proof.
  intros Hs Hrun. revert s st Hs. induction Hrun as [v|v a v1 actions v2 Hstep Hap _ IH]; intros s st Hs.
  - by exists s, st.
  - destruct (world_step_holds b v a v1 s st Hstep Hap Hs) as (s1 & st1 & He & Hs1).
    destruct (IH s1 st1 Hs1) as (s' & st' & He' & Hs'). exists s', st'. split; [|done].
    unfold reduce_all in *. cbn [forEachM]. by rewrite He.
Qed.

(** C33: The reducer of the store handles every sequence of actions from every
    state: no slice throws, the tutorial included, whose helper reads the
    current step without a check. *)
Theorem root_reducer_total b actions s st :
  exists s' st', reduce_all connectRouter call b actions (s, st) = Ok (s', st').
Proof.
  revert s st. induction actions as [|a actions IH]; intros s st; [by exists s, st|].
  destruct (root_reducer_reduced b s st a) as (s1 & st1 & He & _).
  destruct (IH s1 st1) as (s' & st' & He'). exists s', st'. unfold reduce_all in *. cbn [forEachM]. by rewrite He.
Qed.
End store.

(** ** Witness: services come and go while a dialog opens *)

Definition server_empty : ServerState := mkServer ∅ ∅ ∅ ∅ ∅ ∅ ∅ ∅ ∅ ∅ ∅.
Definition boot_empty : Boot := boot None ∅.
Definition start : RootState unit := root_initialState boot_empty tt.

Lemma array_holds_nil {T} `{NameResource T} : array_holds [] (∅ : gmap string T).
Proof. split; [apply NoDup_nil_2 | done]. Qed.

Lemma namespaced_holds_nil {T} `{NameResource T} (ns : T -> string) : namespaced_holds ns [] (∅ : gmap (string * string) T).
Proof. split; [apply NoDup_nil_2|]. intros k d. rewrite lookup_empty. split; [done|]. by intros [H1 _]. Qed.

Lemma start_holds : store_holds server_empty start.
Proof.
  split; try apply array_holds_nil; try apply namespaced_holds_nil.
  - split; [by intros ns l; cbn; rewrite lookup_empty|].
    intros ns n. unfold component_at. cbn. by rewrite !lookup_empty.
  - split; [apply NoDup_nil_2 | done].
Qed.

Definition svc (port : Z) : Service := mkService "web" "shop" [mkServicePort "http" "TCP" (num port) None None].

Definition with_services (m : gmap (string * string) Service) : ServerState :=
  mkServer ∅ ∅ ∅ ∅ ∅ ∅ ∅ ∅ ∅ m ∅.

Lemma names_apart_empty {T} : names_apart (∅ : gmap (string * string) T).
Proof. intros k1 k2 H1. rewrite lookup_empty in H1. by destruct H1. Qed.
Lemma names_apart_one {T} k (d : T) : names_apart ({[k := d]} : gmap (string * string) T).
Proof.
  intros k1 k2 H1 H2 _. rewrite lookup_singleton in H1, H2. destruct (decide (k = k1)) as [<-|]; [|by destruct H1].
  destruct (decide (k = k2)) as [<-|]; [done|by destruct H2].
Qed.
Lemma apart_services m : names_apart m -> namesakes_apart (with_services m).
Proof. intros Hm. split_and!; try apply names_apart_empty. exact Hm. Qed.

(** A service is added, announced again and changed while a dialog opens. *)
Definition web_key : string * string := ("shop", "web").
Abbreviation service_step := (server_step (full_key service_namespace) any_resource) (only parsing).
Lemma svc_added p : service_step ∅ (RESOURCE_ACTION_ADD, svc p) {[web_key := svc p]}.
Proof.
  rewrite <- (insert_empty (M := gmap (string * string)) web_key (svc p)).
  exact (server_add (full_key service_namespace) any_resource ∅ (svc p) I eq_refl).
Qed.
Lemma svc_replayed p : service_step {[web_key := svc p]} (RESOURCE_ACTION_ADD, svc p) {[web_key := svc p]}.
Proof.
  exact (server_replay (full_key service_namespace) any_resource {[web_key := svc p]} (svc p) I (lookup_singleton_eq (M := gmap (string * string)) web_key (svc p))).
Qed.
Lemma svc_updated p q : service_step {[web_key := svc p]} (RESOURCE_ACTION_UPDATE, svc q) {[web_key := svc q]}.
Proof.
  rewrite <- (insert_singleton_eq (M := gmap (string * string)) web_key (svc q) (svc p)).
  exact (server_update (full_key service_namespace) any_resource {[web_key := svc p]} (svc q) I (mk_is_Some _ _ (lookup_singleton_eq (M := gmap (string * string)) web_key (svc p)))).
Qed.

Lemma store_follows_server_witness :
  exists s' st', reduce_all (fun r _ => r) (fun _ _ => false) boot_empty
      [ Resources (ServiceResourceAction RESOURCE_ACTION_ADD (svc 80));
        Common (OPEN_CONTROLLED_DIALOG "confirm" JNull);
        Resources (ServiceResourceAction RESOURCE_ACTION_ADD (svc 80));
        Resources (ServiceResourceAction RESOURCE_ACTION_UPDATE (svc 8080)) ] (start, ∅) = Ok (s', st') /\
    store_holds (with_services {[web_key := svc 8080]}) s'.
Proof.
  apply (store_follows_server _ _ boot_empty server_empty); [apply start_holds|].
  eapply world_cons; [apply world_change, (change_services server_empty _ _ {[web_key := svc 80]})| |].
  { apply svc_added. }
  { apply apart_services, names_apart_one. }
  eapply world_cons; [by apply world_quiet|apply apart_services, names_apart_one|].
  eapply world_cons; [apply world_change, (change_services _ _ _ {[web_key := svc 80]}), svc_replayed|apply apart_services, names_apart_one|].
  eapply world_cons; [apply world_change, (change_services _ _ _ {[web_key := svc 8080]}), svc_updated|apply apart_services, names_apart_one|apply world_nil].
Defined.

(** ** Keys of namespaced services

    The reducer of the services tells them apart by their name alone. *)

Definition svc_in (ns : string) : Service := mkService "web" ns [].

Theorem services_of_two_namespaces_collide s :
  exists s', foldl service_reducer s
      [Resources (ServiceResourceAction RESOURCE_ACTION_ADD (svc_in "shop"));
       Resources (ServiceResourceAction RESOURCE_ACTION_ADD (svc_in "blog"))] = s' /\
    (unique_names (services s) -> svc_in "shop" ∉ services s').
Proof.
  eexists. split; [done|]. intros Hnd. cbn.
  destruct (addOrUpdate_table (services s) (svc_in "shop") Hnd) as [Ht1 Hnd1].
  destruct (addOrUpdate_table _ (svc_in "blog") Hnd1) as [Ht2 Hnd2]. intros Hin.
  assert (Hl : names (addOrUpdateInArray (addOrUpdateInArray (services s) (svc_in "shop") true)
                        (svc_in "blog") true) !! "web" = Some (svc_in "shop")).
  { by apply table_Some. }
  rewrite Ht2, lookup_insert_eq in Hl. done.
Qed.

(** ** Loading flags *)

(** The list of registries never counts as loaded. *)
Lemma registry_never_first_loaded s a :
  reg_isFirstLoaded s = false -> reg_isFirstLoaded (registry_reducer s a) = false.
Proof. intros Hs. destruct a as [|[]| | | |[]| | | | | | |[| | | | |[] ?| | | | | |]| | | | |]; cbn; try done. by destruct (negb _). Qed.

(** Loading the certificates leaves [isLoading] as it was. *)
Lemma certificates_loaded_still_loading s l :
  cert_isLoading s = true ->
  cert_isLoading (certificate_reducer s (LOAD_CERTIFICATES_FULFILLED l)) = true.
Proof. done. Qed.
