(* ===== verification/UiFacts.v ===== *)
(** Facts about the slices of the interface: settings survive a reload, and the
    tutorial advances exactly when the hooks complete its step. *)

From S2P Require Import Prelude JsString JsNumber ResourceTypes ActionTypes ReducerUtils ResourceReducers UiReducers RootReducer SliceFacts RootFacts.

(** ** Settings and the local storage *)

(** The settings a reload restores; the two flags of running work are dropped,
    and an empty theme becomes the default one. *)
Definition reloaded (s : SettingObject) : SettingObject :=
  mkSettingObject (isDisplayingHelpers s) None (isOpenRootDrawer s) false (usingApplicationCard s)
    (if seqb (usingTheme s) "" then "light" else usingTheme s).

Lemma load_save_settings s st : settings_initialState (save_settings s st) = reloaded s.
Proof.
  unfold settings_initialState, save_settings, reloaded. simplify_map_eq.
  destruct s as [h sub d p c t]; cbn. f_equal.
  - by destruct h.
  - by destruct d.
  - by destruct c.
Qed.

Section store.
Context {RouterState : Type}.
Variable connectRouter : RouterState -> Actions -> RouterState.
Variable call : FnRef -> Actions -> bool.

Lemma tutorial_storage init s st a s' st' : tutorial_reducer call init s st a = Ok (s', st') ->
  st' = st \/ st' = <[DISABLE_TUTORIAL_AUTO_OPEN := "true"]> st.
Proof.
  destruct (tutorial_progress_total call s a) as [s1 Hs1].
  destruct a as [|a|a|a|a|a|a|a|a|a|a|a|a|a|a|a|a|a]; try destruct a; cbn; rewrite ?Hs1; cbn;
    intros [= <- <-]; auto.
Qed.

Lemma load_settings_tutorial st v :
  settings_initialState (<[DISABLE_TUTORIAL_AUTO_OPEN := v]> st) = settings_initialState st.
Proof. unfold settings_initialState. by rewrite !lookup_insert_ne by done. Qed.

Lemma reload_step b s st a s' st' : root_reducer connectRouter call b (s, st) a = Ok (s', st') ->
  settings_initialState st' = reloaded (root_settings s').
Proof.
  unfold root_reducer. destruct (namespaces_reducer _ _ _ _) as [ns st1].
  destruct (auth_reducer _ _ _ _) as [auth st2]. unfold settings_reducer.
  match goal with |- context [save_settings ?x st2] => set (settings := x) end.
  destruct (tutorial_reducer_total call (boot_tutorial b) (root_tutorial s) (save_settings settings st2) a)
    as (tut & st4 & Ht). rewrite Ht. cbn [mbind result_bind]. intros [= <- <-]. cbn.
  apply tutorial_storage in Ht as [->| ->]; rewrite ?load_settings_tutorial; apply load_save_settings.
Qed.

(** Settings survive a reload: after any sequence of actions, the settings a
    new page reads from the local storage are those of the store, except for the
    two flags of running work. *)
Theorem reload_restores_settings b actions a s st s' st' :
  reduce_all connectRouter call b (actions ++ [a]) (s, st) = Ok (s', st') ->
  settings_initialState st' = reloaded (root_settings s').
Proof.
  unfold reduce_all. rewrite forEachM_app. intros ([s1 st1] & _ & H)%bind_Ok. cbn [forEachM] in H.
  apply bind_Ok in H as ([s2 st2] & H & [= <- <-]). by apply reload_step in H.
Qed.
End store.

Lemma reload_restores_settings_witness :
  settings_initialState (save_settings (assign_settings (boot_settings boot_empty)
      (mkSettingsPatch None None None None None (Some "dark"))) ∅) =
  reloaded (assign_settings (boot_settings boot_empty)
      (mkSettingsPatch None None None None None (Some "dark"))).
Proof.
  apply (reload_restores_settings (fun (r : unit) _ => r) (fun _ _ => false) boot_empty []
    (SET_SETTINGS (mkSettingsPatch None None None None None (Some "dark"))) start ∅
    (mkRootState unit (root_namespaces start) (root_applications start) (root_components start)
       (root_auth start) tt (root_notification start) (root_dialogs start) (root_nodes start)
       (root_registries start) (root_persistentVolumes start)
       (assign_settings (boot_settings boot_empty) (mkSettingsPatch None None None None None (Some "dark")))
       (root_roles start) (root_routes start) (root_cluster start) (root_tutorial start)
       (root_services start) (root_certificates start) (root_debounce start) (root_sso start)
       (root_deployAccessTokens start) (root_domain start))).
  reflexivity.
Defined.

(** ** Progress of the tutorial *)

Lemma statusKey_inj step i j : statusKey step i = statusKey step j -> i = j.
Proof. unfold statusKey. intros H%sapp_inj_l%sapp_inj_l. by apply nat_to_string_inj. Qed.

Definition fires (call : FnRef -> Actions -> bool) (a : Actions) (sub : TutorialSubStep) : bool :=
  match sub_shouldCompleteByAction sub with Some f => call f a | None => false end.

(** After the hooks, a sub-step is complete if it was or if its hook fires. *)
Lemma run_hooks_from call a step subs k status j :
  completed (foldl (fun status e =>
      let '(subStepIndex, subStep) := e in
      if negb (completed status step subStepIndex) && fires call a subStep
      then <[statusKey step subStepIndex := true]> status else status)
    status (imap (fun i s => (k + i, s)) subs)) step j =
  completed status step j || (Nat.leb k j && match subs !! (j - k) with Some s => fires call a s | None => false end).
Proof.
  revert k status. induction subs as [|sub subs IH]; intros k status.
  { cbn. rewrite lookup_nil. by rewrite Bool.andb_false_r, Bool.orb_false_r. }
  cbn [imap foldl]. rewrite Nat.add_0_r.
  rewrite (imap_ext _ (fun i s => (S k + i, s))) by (intros; cbn; f_equal; lia). rewrite IH. clear IH.
  assert (Hset : forall st, completed (<[statusKey step k := true]> st) step j =
            if decide (k = j) then true else completed st step j).
  { intros st. unfold completed. case_decide as Hd; [subst; by rewrite lookup_insert_eq|].
    rewrite lookup_insert_ne; [done|]. by intros ?%statusKey_inj. }
  destruct (Nat.lt_trichotomy k j) as [Hlt|[->|Hgt]].
  - rewrite (proj2 (Nat.leb_le (S k) j)), (proj2 (Nat.leb_le k j)) by lia.
    replace (j - k) with (S (j - S k)) by lia. cbn [lookup list_lookup].
    destruct (negb _ && _); [|done]. by rewrite Hset, decide_False by lia.
  - rewrite (proj2 (Nat.leb_gt (S j) j)), Nat.leb_refl, Nat.sub_diag by lia. cbn [lookup list_lookup].
    rewrite Bool.orb_false_r. cbn [andb].
    destruct (completed status step j) eqn:E; cbn [negb andb]; [by rewrite E|].
    destruct (fires call a sub); [by rewrite Hset, decide_True | by rewrite E].
  - rewrite (proj2 (Nat.leb_gt (S k) j)), (proj2 (Nat.leb_gt k j)) by lia. cbn [andb].
    rewrite !Bool.orb_false_r. destruct (negb _ && _); [|done]. by rewrite Hset, decide_False by lia.
Qed.

(** All sub-steps of the current step are complete after the hooks of [a]. *)
Definition step_done (call : FnRef -> Actions -> bool) (a : Actions) (s : TutorialState)
    (step : TutorialStep) : bool :=
  forallb (fun j => completed (tutorialStepStatus s) (currentStepIndex s) j ||
                    match step_subSteps step !! j with Some sub => fires call a sub | None => false end)
    (seq 0 (length (step_subSteps step))).

Lemma run_hooks_completed call a step subs status j :
  completed (run_hooks call a step subs status) step j =
  completed status step j || match subs !! j with Some s => fires call a s | None => false end.
Proof.
  pose proof (run_hooks_from call a step subs 0 status j) as H. rewrite Nat.sub_0_r in H. exact H.
Qed.

Lemma filter_negb_nil {A} (f : A -> bool) (l : list A) :
  Nat.ltb 0 (length (List.filter (fun x => negb (f x)) l)) = negb (forallb f l).
Proof. induction l as [|x l IH]; [done|]. cbn. by destruct (f x). Qed.

Lemma tryMove_spec s t step : tutorial s = Some t ->
  at_index (tut_steps t) (currentStepIndex s) = Some step ->
  exists s', tryMoveToNextStep s = Ok s' /\
    currentStepIndex s' =
      (if Nat.eqb (length (step_subSteps step)) 0 then currentStepIndex s
       else if forallb (completed (tutorialStepStatus s) (currentStepIndex s))
                 (seq 0 (length (step_subSteps step)))
            then currentStepIndex s + 1 else currentStepIndex s)%Z /\
    tutorialStepStatus s' = tutorialStepStatus s.
Proof.
  intros Ht Hs. unfold tryMoveToNextStep. rewrite Ht. cbn [mbind option_bind]. rewrite Hs.
  destruct (Nat.eqb _ 0); [by eexists|]. rewrite filter_negb_nil. destruct (forallb _ _); by eexists.
Qed.

(** Actions the tutorial does not handle itself. *)
Definition foreign (a : Actions) : bool := match a with Tutorials _ => false | _ => true end.

Lemma foreign_reducer call init s st a : foreign a = true ->
  tutorial_reducer call init s st a = (s' ← tutorial_progress call s a; Ok (s', st)).
Proof. by destruct a. Qed.

(** Progress of the tutorial.  On an action of the rest of the program, with
    a step that has sub-steps, the tutorial moves to the next step exactly when
    every sub-step is complete or its hook recognizes the action; otherwise it
    stays, and a sub-step that is complete stays complete. *)
Theorem tutorial_advances call init s st a t step :
  foreign a = true -> tutorial s = Some t ->
  at_index (tut_steps t) (currentStepIndex s) = Some step -> step_subSteps step <> [] ->
  exists s', tutorial_reducer call init s st a = Ok (s', st) /\
    currentStepIndex s' = (if step_done call a s step then currentStepIndex s + 1 else currentStepIndex s)%Z /\
    forall j, completed (tutorialStepStatus s) (currentStepIndex s) j = true ->
      completed (tutorialStepStatus s') (currentStepIndex s) j = true.
Proof.
  intros Hf Ht Hs Hne. rewrite foreign_reducer by done.
  set (s1 := set_stepStatus s (run_hooks call a (currentStepIndex s) (step_subSteps step) (tutorialStepStatus s))).
  assert (tutorial_progress call s a = tryMoveToNextStep s1) as ->.
  { unfold tutorial_progress. rewrite Ht, Hs. by destruct a. }
  destruct (tryMove_spec s1 t step Ht Hs) as (s' & -> & Hidx & Hst). exists s'. split; [done|]. split.
  - rewrite Hidx. destruct (Nat.eqb_spec (length (step_subSteps step)) 0) as [H0|_];
      [by apply nil_length_inv in H0|]. unfold step_done.
    assert (Heq : forall l, forallb (completed (tutorialStepStatus s1) (currentStepIndex s1)) l =
      forallb (fun j => completed (tutorialStepStatus s) (currentStepIndex s) j ||
        match step_subSteps step !! j with Some sub => fires call a sub | None => false end) l).
    { intros l. induction l as [|j l IH]; [done|]. cbn [forallb]. rewrite IH. f_equal.
      apply run_hooks_completed. }
    by rewrite Heq.
  - intros j Hj. rewrite Hst. cbn. by rewrite run_hooks_completed, Hj.
Qed.

(** A tutorial whose only sub-step asks for a new application. *)
Definition app_hook (f : FnRef) (a : Actions) : bool :=
  match a with Applications (CREATE_APPLICATION _) => true | _ => false end.
Definition demo_step : TutorialStep :=
  mkStep "create" JNull None [mkSubStep JNull None None (Some 0) None] [].
Definition demo_tutorial : Tutorial := mkTutorial "first" [demo_step] None.
Definition demo_state : TutorialState := mkTutorialState true (Some demo_tutorial) ∅ None 0 None.
Definition demo_action : Actions :=
  CREATE_APPLICATION (mkApplication "shop" None "Active" (mkMetrics false [] []) []).

Lemma tutorial_advances_witness :
  exists s', tutorial_reducer app_hook demo_state demo_state ∅ demo_action = Ok (s', ∅) /\
    currentStepIndex s' = 1%Z /\
    forall j, completed (tutorialStepStatus demo_state) 0 j = true -> completed (tutorialStepStatus s') 0 j = true.
Proof. apply (tutorial_advances app_hook demo_state demo_state ∅ demo_action demo_tutorial demo_step); done. Defined.
