(* ===== verification/CasbinMiddleware.v ===== *)
(** [middlewares/casbin.ts]: the middleware that loads the policies of a login
    into the one enforcer of the program and installs the permission methods. *)

From S2P Require Import Prelude JsString JsMap RoleManager CoreEnforcer Rbac RbacFacts JsNumber ResourceTypes ActionTypes.

(** ** Subjects *)

Definition toSafeSubject (sub type : string) : result string :=
  if seqb type SubjectTypeUser then Ok ("user-" +:+ sub)
  else if seqb type SubjectTypeGroup then Ok ("group-" +:+ sub)
  else Throw ("unknown subject type: " +:+ type).

Fixpoint map_result {A B} (f : A -> result B) (l : list A) : result (list B) :=
  match l with
  | [] => Ok []
  | x :: l' => y ← f x; ys ← map_result f l'; Ok (y :: ys)
  end.

Definition login_subjects (clientInfo : LoginStatus) : result (list string) :=
  if negb (seqb (ls_impersonation clientInfo) "") then
    subject ← toSafeSubject (ls_impersonation clientInfo) (ls_impersonationType clientInfo);
    Ok [subject]
  else
    user ← toSafeSubject (ls_email clientInfo) SubjectTypeUser;
    groups ← map_result (fun group => toSafeSubject group SubjectTypeGroup) (ls_groups clientInfo);
    Ok ([user] ++ groups).

(** ** Permission methods *)

Fixpoint withSubjects (fn : string -> M RBACEnforcer bool) (subjects : list string) : M RBACEnforcer bool :=
  match subjects with
  | [] => mret false
  | subject :: rest =>
      b ← fn subject;
      if b : bool then mret true else withSubjects fn rest
  end.

(** The methods of [PermissionMethods] with their arguments. *)
Inductive PermissionCall :=
| call_can (action scope resource : string)
| call_canView (scope resource : string)
| call_canEdit (scope resource : string)
| call_canManage (scope resource : string)
| call_canViewNamespace (scope : string)
| call_canEditNamespace (scope : string)
| call_canManageNamespace (scope : string)
| call_canViewCluster
| call_canEditCluster
| call_canManageCluster.

Section compiled.
Variable compile : string -> result Matcher.

Definition call_method (methods : PermissionMethods) (c : PermissionCall) : M RBACEnforcer bool :=
  match methods with
  | emptyPermissionMethods => mret false
  | SubjectMethods subjects =>
      match c with
      | call_can action scope resource => withSubjects (fun s => can compile s action scope resource) subjects
      | call_canView scope resource => withSubjects (fun s => canView compile s scope resource) subjects
      | call_canEdit scope resource => withSubjects (fun s => canEdit compile s scope resource) subjects
      | call_canManage scope resource => withSubjects (fun s => canManage compile s scope resource) subjects
      | call_canViewNamespace scope => withSubjects (fun s => canViewNamespace compile s scope) subjects
      | call_canEditNamespace scope => withSubjects (fun s => canEditNamespace compile s scope) subjects
      | call_canManageNamespace scope => withSubjects (fun s => canManageNamespace compile s scope) subjects
      | call_canViewCluster => withSubjects (canViewCluster compile) subjects
      | call_canEditCluster => withSubjects (canEditCluster compile) subjects
      | call_canManageCluster => withSubjects (canManageCluster compile) subjects
      end
  end.
End compiled.

(** ** The middleware

    The enforcer after the action, and the actions that reach the reducer in
    their order, or the exception.  The policies stay loaded when a subject
    type is unknown. *)
Definition casbin_middleware (enforcer : RBACEnforcer) (action : Actions) : RBACEnforcer * result (list Actions) :=
  match action with
  | Common (LOAD_LOGIN_STATUS_FULFILLED loginStatus) =>
      match loadPolicies (ls_policies loginStatus) enforcer with
      | Throw e => (enforcer, Throw e)
      | Ok (_, enforcer') =>
          (enforcer',
           subjects ← login_subjects loginStatus;
           Ok [Common (SET_AUTH_METHODS (SubjectMethods subjects)); action])
      end
  | _ => (enforcer, Ok [action])
  end.

(** ** Facts *)

(** The request a method makes for each subject. *)
Definition call_request (c : PermissionCall) : string * string * string :=
  match c with
  | call_can action scope resource => (action, scope, resource)
  | call_canView scope resource => (ActionView, scope, resource)
  | call_canEdit scope resource => (ActionEdit, scope, resource)
  | call_canManage scope resource => (ActionManage, scope, resource)
  | call_canViewNamespace scope => (ActionView, scope, ResourceAll)
  | call_canEditNamespace scope => (ActionEdit, scope, ResourceAll)
  | call_canManageNamespace scope => (ActionManage, scope, ResourceAll)
  | call_canViewCluster => (ActionView, AllScope, ResourceAll)
  | call_canEditCluster => (ActionEdit, AllScope, ResourceAll)
  | call_canManageCluster => (ActionManage, AllScope, ResourceAll)
  end.

(** Some subject is allowed the request by the policy text. *)
Definition subjects_allowed (text : string) (subjects : list string) (c : PermissionCall) : Prop :=
  let '(act, scope, obj) := call_request c in
  Exists (fun sub => text_allows text sub act scope obj) subjects.

Section facts.
Context (compile : string -> result Matcher) `{!ExpressionEval compile}.

Lemma call_method_can subjects c :
  call_method compile (SubjectMethods subjects) c =
  let '(act, scope, obj) := call_request c in withSubjects (fun s => can compile s act scope obj) subjects.
Proof. by destruct c. Qed.

Lemma withSubjects_spec text act scope obj subjects r : rbac_reach compile text r ->
  exists b r', withSubjects (fun s => can compile s act scope obj) subjects r = Ok (b, r') /\
    rbac_reach compile text r' /\
    (b = true <-> Exists (fun sub => text_allows text sub act scope obj) subjects).
Proof.
  revert r. induction subjects as [|sub subjects IH]; intros r Hr.
  { exists false, r. split; [done|]. split; [done|]. by rewrite Exists_nil. }
  destruct (can_reach compile text r sub act scope obj Hr) as (b & r1 & Hc & Hspec).
  assert (Hr1 : rbac_reach compile text r1) by (eapply reach_can; eauto).
  cbn. unfold mbind, M_bind. rewrite Hc. destruct b.
  - exists true, r1. split; [done|]. split; [done|]. rewrite Exists_cons, <- Hspec. naive_solver.
  - destruct (IH r1 Hr1) as (b & r' & -> & Hr' & Hb). exists b, r'. split; [done|]. split; [done|].
    rewrite Exists_cons, <- Hspec, Hb. naive_solver.
Qed.

Lemma call_method_spec text subjects c r : rbac_reach compile text r ->
  exists b r', call_method compile (SubjectMethods subjects) c r = Ok (b, r') /\
    rbac_reach compile text r' /\ (b = true <-> subjects_allowed text subjects c).
Proof.
  intros Hr. rewrite call_method_can. unfold subjects_allowed.
  destruct (call_request c) as [[act scope] obj]. by apply withSubjects_spec.
Qed.

Lemma loadPolicies_reach old text r : rbac_reach compile old r ->
  exists r', loadPolicies text r = Ok (tt, r') /\ rbac_reach compile text r'.
Proof.
  intros Hr. destruct (loadPolicies_inv compile old text r (reach_inv compile old r Hr)) as (r' & He & _).
  exists r'. split; [done|]. by eapply reach_load.
Qed.
End facts.

Lemma map_groups l :
  map_result (fun group => toSafeSubject group SubjectTypeGroup) l = Ok ((fun g => "group-" +:+ g) <$> l).
Proof. induction l as [|g l IH]; [done|]. cbn [map_result]. by rewrite IH. Qed.

(** The subjects of a login without impersonation: the user and the groups. *)
Lemma login_subjects_user ls : ls_impersonation ls = "" ->
  login_subjects ls = Ok (("user-" +:+ ls_email ls) :: ((fun g => "group-" +:+ g) <$> ls_groups ls)).
Proof. intros Hi. unfold login_subjects. rewrite Hi, map_groups. done. Qed.

Lemma login_subjects_impersonating ls : ls_impersonation ls <> "" ->
  login_subjects ls =
    (subject ← toSafeSubject (ls_impersonation ls) (ls_impersonationType ls); Ok [subject]).
Proof. intros Hi%seqb_false. unfold login_subjects. by rewrite Hi. Qed.

(** Users and groups never share a subject: the prefixes make
    [toSafeSubject] injective on pairs of a name and a known type, so a group
    called like a user gets none of the user's permissions. *)
Theorem toSafeSubject_injective sub type sub' type' safe :
  toSafeSubject sub type = Ok safe -> toSafeSubject sub' type' = Ok safe -> sub = sub' /\ type = type'.
Proof.
  unfold toSafeSubject.
  destruct (seqb type SubjectTypeUser) eqn:E1; [apply seqb_true in E1|
    destruct (seqb type SubjectTypeGroup) eqn:E2; [apply seqb_true in E2|done]];
  (destruct (seqb type' SubjectTypeUser) eqn:E3; [apply seqb_true in E3|
    destruct (seqb type' SubjectTypeGroup) eqn:E4; [apply seqb_true in E4|done]]);
  intros [= <-] [= Hs]; subst; done.
Qed.

Lemma toSafeSubject_injective_witness :
  "admin" = "admin" /\ SubjectTypeGroup = SubjectTypeGroup.
Proof. apply (toSafeSubject_injective _ _ _ _ "group-admin"); reflexivity. Defined.
