(* ===== verification/Store.v ===== *)
(** [configureStore.ts]: the store with the access-control middleware, and the
    permissions of the user in every state it reaches. *)

From S2P Require Import Prelude JsString RoleManager CoreEnforcer Rbac RbacFacts JsNumber ResourceTypes ActionTypes ReducerUtils ResourceReducers UiReducers RootReducer RootFacts CasbinMiddleware.

(** ** State and dispatch *)

Record Dashboard {RouterState : Type} := mkDashboard {
  dash_enforcer : RBACEnforcer;
  dash_root : RootState RouterState;
  dash_storage : Storage
}.
Arguments Dashboard : clear implicits.

Section store.
Context {RouterState : Type}.
Variable connectRouter : RouterState -> Actions -> RouterState.
Variable call : FnRef -> Actions -> bool.
Variable compile : string -> result Matcher.
Variable b : Boot.
Abbreviation dashboard := (Dashboard RouterState).

(** The store when the program starts: the enforcer has no policies, and the
    reducer of the settings has written them to the storage. *)
Definition configureStore (router : RouterState) (st : Storage) : result dashboard :=
  enforcer ← newRBACEnforcer "";
  Ok (mkDashboard RouterState enforcer (root_initialState b router) (save_settings (boot_settings b) st)).

(** An action that is dispatched: the state after it, and the exception it
    threw, if any.  The middleware's own changes survive an exception. *)
Definition dispatch (d : dashboard) (action : Actions) : dashboard * result unit :=
  let '(enforcer, passed) := casbin_middleware (dash_enforcer d) action in
  match (actions ← passed; reduce_all connectRouter call b actions (dash_root d, dash_storage d)) with
  | Ok (root, st) => (mkDashboard RouterState enforcer root st, Ok tt)
  | Throw e => (mkDashboard RouterState enforcer (dash_root d) (dash_storage d), Throw e)
  end.

(** A component of the interface asks for a permission. *)
Definition ask (d : dashboard) (c : PermissionCall) : result (bool * dashboard) :=
  match call_method compile (permissionMethods (root_auth (dash_root d))) c (dash_enforcer d) with
  | Ok (answer, enforcer) => Ok (answer, mkDashboard RouterState enforcer (dash_root d) (dash_storage d))
  | Throw e => Throw e
  end.

(** The states the program goes through, with the policy text of the last login. *)
Inductive dash_reach : string -> dashboard -> Prop :=
| dash_start router st d : configureStore router st = Ok d -> dash_reach "" d
| dash_login text d ls : dash_reach text d ->
    dash_reach (ls_policies ls) (dispatch d (LOAD_LOGIN_STATUS_FULFILLED ls)).1
| dash_dispatch text d action : dash_reach text d ->
    (forall ls, action <> Common (LOAD_LOGIN_STATUS_FULFILLED ls)) ->
    dash_reach text (dispatch d action).1
| dash_ask text d c answer d' : dash_reach text d -> ask d c = Ok (answer, d') -> dash_reach text d'.

(** ** Facts *)

Context `{!ExpressionEval compile}.

Lemma reduce_all_ok actions s st :
  exists s' st', reduce_all connectRouter call b actions (s, st) = Ok (s', st').
Proof.
  revert s st. induction actions as [|a actions IH]; intros s st; [by exists s, st|].
  destruct (root_reducer_reduced connectRouter call b s st a) as (s1 & st1 & He & _).
  destruct (IH s1 st1) as (s' & st' & He'). exists s', st'. unfold reduce_all in *.
  cbn [forEachM]. by rewrite He.
Qed.

Lemma dispatch_plain d action :
  (forall ls, action <> Common (LOAD_LOGIN_STATUS_FULFILLED ls)) ->
  exists root st, dispatch d action = (mkDashboard RouterState (dash_enforcer d) root st, Ok tt) /\
    reduce_all connectRouter call b [action] (dash_root d, dash_storage d) = Ok (root, st).
Proof.
  intros Hno. unfold dispatch.
  assert (casbin_middleware (dash_enforcer d) action = (dash_enforcer d, Ok [action])) as ->.
  { destruct action as [|a| | | | | | | | | | | | | | | |]; try done. destruct a; try done.
    by destruct (Hno loginStatus). }
  destruct (reduce_all_ok [action] (dash_root d) (dash_storage d)) as (root & st & He).
  exists root, st. cbn [mbind result_bind]. by rewrite He.
Qed.

(** What a login leaves behind: the policies in the enforcer, and the
    permission methods in the state unless a subject type is unknown. *)
Lemma dispatch_login text d ls : rbac_reach compile text (dash_enforcer d) ->
  exists d' out, dispatch d (LOAD_LOGIN_STATUS_FULFILLED ls) = (d', out) /\
    rbac_reach compile (ls_policies ls) (dash_enforcer d') /\
    match login_subjects ls with
    | Ok subjects => out = Ok tt /\
        permissionMethods (root_auth (dash_root d')) = SubjectMethods subjects /\
        auth_firstLoaded (root_auth (dash_root d')) = true
    | Throw e => out = Throw e /\ dash_root d' = dash_root d /\ dash_storage d' = dash_storage d
    end.
Proof.
  intros Hr. unfold dispatch, casbin_middleware.
  destruct (loadPolicies_reach compile text (ls_policies ls) _ Hr) as (r' & -> & Hr').
  destruct (login_subjects ls) as [subjects|e]; cbn [mbind result_bind].
  - set (a1 := Common (SET_AUTH_METHODS (SubjectMethods subjects))).
    set (a2 := Common (LOAD_LOGIN_STATUS_FULFILLED ls)).
    destruct (root_reducer_reduced connectRouter call b (dash_root d) (dash_storage d) a1) as (s1 & st1 & H1 & _).
    destruct (root_reducer_reduced connectRouter call b s1 st1 a2) as (s2 & st2 & H2 & _).
    unfold reduce_all. cbn [forEachM]. rewrite H1. cbn [mbind result_bind]. rewrite H2. cbn [mbind result_bind].
    apply root_reducer_auth in H1 as [st3 H1], H2 as [st4 H2].
    do 2 eexists. split; [reflexivity|]. cbn [dash_enforcer dash_root]. split; [done|].
    split; [done|]. rewrite H2. cbn. by rewrite H1.
  - do 2 eexists. split; [reflexivity|]. by split.
Qed.

Lemma dash_reach_rbac text d : dash_reach text d -> rbac_reach compile text (dash_enforcer d).
Proof.
  induction 1 as [router st d Hd|text d ls _ IH|text d action _ IH Hno|text d c answer d' _ IH Ha].
  - unfold configureStore in Hd. apply bind_Ok in Hd as (r & Hr & [= <-]). by apply reach_new.
  - destruct (dispatch_login text d ls IH) as (d' & out & -> & Hr & _). done.
  - destruct (dispatch_plain d action Hno) as (root & st & -> & _). done.
  - unfold ask in Ha. destruct (permissionMethods _) as [|subjects].
    + injection Ha as <- <-. done.
    + destruct (call_method_spec compile text subjects c _ IH) as (b0 & r' & Hc & Hr' & _).
      rewrite Hc in Ha. by injection Ha as <- <-.
Qed.

Lemma ask_login text d ls subjects c :
  dash_reach text d -> login_subjects ls = Ok subjects ->
  exists answer d', ask (dispatch d (LOAD_LOGIN_STATUS_FULFILLED ls)).1 c = Ok (answer, d') /\
    (answer = true <-> subjects_allowed (ls_policies ls) subjects c).
Proof.
  intros Hd Hs. destruct (dispatch_login text d ls (dash_reach_rbac _ _ Hd)) as (d1 & out & -> & Hr & Hm).
  rewrite Hs in Hm. destruct Hm as (_ & Hm & _). unfold ask. cbn [fst]. rewrite Hm.
  destruct (call_method_spec compile _ subjects c _ Hr) as (answer & r' & -> & _ & Hspec).
  by do 2 eexists.
Qed.

Lemma auth_after_logout s st s' st' :
  reduce_all connectRouter call b [Common LOGOUT] (s, st) = Ok (s', st') -> root_auth s' = boot_auth b.
Proof.
  unfold reduce_all. cbn [forEachM]. intros ([s1 st1] & H1 & [= <- <-])%bind_Ok.
  by apply root_reducer_auth in H1 as [st0 ->].
Qed.

(** C9: After a login, a permission method of the interface answers without an
    exception, and answers whether the policies of the login allow the request
    to one of its subjects: the impersonated subject, or the user and the groups. *)
Theorem login_permissions text d ls subjects c :
  dash_reach text d -> login_subjects ls = Ok subjects ->
  exists answer d', ask (dispatch d (LOAD_LOGIN_STATUS_FULFILLED ls)).1 c = Ok (answer, d') /\
    (answer = true <-> subjects_allowed (ls_policies ls) subjects c).
Proof.
  apply ask_login.
Qed.

(** C10: While somebody is impersonated, the permissions are those of the
    impersonated subject: two logins that differ in the user, the groups or the
    picture give the same answers. *)
Theorem impersonation_hides_user text d ls ls' c subject :
  dash_reach text d -> ls_impersonation ls <> "" ->
  toSafeSubject (ls_impersonation ls) (ls_impersonationType ls) = Ok subject ->
  ls_impersonation ls' = ls_impersonation ls -> ls_impersonationType ls' = ls_impersonationType ls ->
  ls_policies ls' = ls_policies ls ->
  exists answer d1 d2,
    ask (dispatch d (LOAD_LOGIN_STATUS_FULFILLED ls)).1 c = Ok (answer, d1) /\
    ask (dispatch d (LOAD_LOGIN_STATUS_FULFILLED ls')).1 c = Ok (answer, d2).
Proof.
  intros Hd Hi Hs Hi' Ht' Hp'.
  assert (Hl : login_subjects ls = Ok [subject]) by (by rewrite login_subjects_impersonating, Hs).
  assert (Hl' : login_subjects ls' = Ok [subject]).
  { rewrite login_subjects_impersonating by congruence. by rewrite Hi', Ht', Hs. }
  destruct (ask_login text d ls [subject] c Hd Hl) as (a1 & d1 & -> & H1).
  destruct (ask_login text d ls' [subject] c Hd Hl') as (a2 & d2 & -> & H2).
  rewrite Hp', <- H1 in H2. exists a1, d1, d2. split; [done|]. do 2 f_equal.
  by apply Bool.eq_true_iff_eq.
Qed.

(** C11: A logout takes every permission away: whatever the state, each
    permission method answers no after it, until the next login. *)
Theorem logout_denies d c :
  permissionMethods (boot_auth b) = emptyPermissionMethods ->
  exists d', ask (dispatch d LOGOUT).1 c = Ok (false, d').
Proof.
  intros Hb. destruct (dispatch_plain d LOGOUT) as (root & st & -> & He); [done|].
  apply auth_after_logout in He. unfold ask. cbn [fst dash_root dash_enforcer].
  rewrite He, Hb. by eexists.
Qed.

(** A login whose impersonation type is unknown throws before the reducer
    sees it: the state and the storage are unchanged, but the enforcer has the
    new policies, so the subjects of the earlier login are judged by them. *)
Theorem failed_login text d ls subjects c :
  dash_reach text d -> ls_impersonation ls <> "" ->
  ls_impersonationType ls <> SubjectTypeUser -> ls_impersonationType ls <> SubjectTypeGroup ->
  permissionMethods (root_auth (dash_root d)) = SubjectMethods subjects ->
  exists d', dispatch d (LOAD_LOGIN_STATUS_FULFILLED ls) =
      (d', Throw ("unknown subject type: " +:+ ls_impersonationType ls)) /\
    dash_root d' = dash_root d /\ dash_storage d' = dash_storage d /\
    exists answer d2, ask d' c = Ok (answer, d2) /\
      (answer = true <-> subjects_allowed (ls_policies ls) subjects c).
Proof.
  intros Hd Hi Hu%seqb_false Hg%seqb_false Hm.
  destruct (dispatch_login text d ls (dash_reach_rbac _ _ Hd)) as (d1 & out & -> & Hr & Hmatch).
  rewrite login_subjects_impersonating in Hmatch by done. unfold toSafeSubject in Hmatch.
  rewrite Hu, Hg in Hmatch. destruct Hmatch as (-> & Hroot & Hst). exists d1.
  split; [done|]. split; [done|]. split; [done|]. unfold ask. rewrite Hroot, Hm.
  destruct (call_method_spec compile _ subjects c _ Hr) as (answer & r' & -> & _ & Hspec).
  by do 2 eexists.
Qed.
End store.

(** ** Witnesses: a login of a user in a group, and of an impersonator *)

Definition demo_policy : string := lines ["p, role_shopEditor, edit, shop, *"; "g, group-devs, role_shopEditor"].
Definition demo_login : LoginStatus := mkLoginStatus true "ann@kalm.dev" "" ["devs"] demo_policy "" "".
Definition demo_impersonation (email : string) : LoginStatus :=
  mkLoginStatus true email "" ["devs"] demo_policy "bob@kalm.dev" "user".
Definition demo_bad_login : LoginStatus := mkLoginStatus true "ann@kalm.dev" "" [] demo_policy "bob" "robot".

Definition demo : Dashboard unit :=
  mkDashboard unit (fresh "") (root_initialState boot_empty tt) (save_settings (boot_settings boot_empty) ∅).
Definition keep_router (r : unit) (a : Actions) : unit := r.
Definition no_hooks (f : FnRef) (a : Actions) : bool := false.

Lemma demo_reach : dash_reach keep_router no_hooks sample_compile boot_empty "" demo.
Proof. apply (dash_start _ _ _ _ tt ∅). unfold configureStore. by rewrite fresh_ok. Qed.

Lemma login_permissions_witness : exists answer d',
  ask sample_compile
    (dispatch keep_router no_hooks boot_empty demo (LOAD_LOGIN_STATUS_FULFILLED demo_login)).1
    (call_canEditNamespace "shop") = Ok (answer, d') /\
  (answer = true <->
   subjects_allowed demo_policy ["user-ann@kalm.dev"; "group-devs"] (call_canEditNamespace "shop")).
Proof. apply (login_permissions keep_router no_hooks sample_compile boot_empty ""); [apply demo_reach | reflexivity]. Defined.

Lemma impersonation_hides_user_witness : exists answer d1 d2,
  ask sample_compile (dispatch keep_router no_hooks boot_empty demo
    (LOAD_LOGIN_STATUS_FULFILLED (demo_impersonation "ann@kalm.dev"))).1 call_canViewCluster = Ok (answer, d1) /\
  ask sample_compile (dispatch keep_router no_hooks boot_empty demo
    (LOAD_LOGIN_STATUS_FULFILLED (demo_impersonation "eve@kalm.dev"))).1 call_canViewCluster = Ok (answer, d2).
Proof.
  apply (impersonation_hides_user keep_router no_hooks sample_compile boot_empty "" demo
           (demo_impersonation "ann@kalm.dev") (demo_impersonation "eve@kalm.dev") _ "user-bob@kalm.dev");
    [apply demo_reach | done | reflexivity..].
Defined.

Lemma logout_denies_witness : exists d',
  ask sample_compile (dispatch keep_router no_hooks boot_empty demo LOGOUT).1 call_canEditCluster = Ok (false, d').
Proof. apply (logout_denies keep_router no_hooks sample_compile boot_empty); reflexivity. Defined.

(** The store after the login of [ann]. *)
Definition demo_logged_in : Dashboard unit :=
  (dispatch keep_router no_hooks boot_empty demo (LOAD_LOGIN_STATUS_FULFILLED demo_login)).1.

Lemma failed_login_witness : exists d',
  dispatch keep_router no_hooks boot_empty demo_logged_in (LOAD_LOGIN_STATUS_FULFILLED demo_bad_login) =
    (d', Throw "unknown subject type: robot") /\
  dash_root d' = dash_root demo_logged_in /\ dash_storage d' = dash_storage demo_logged_in /\
  exists answer d2, ask sample_compile d' call_canViewCluster = Ok (answer, d2) /\
    (answer = true <->
     subjects_allowed demo_policy ["user-ann@kalm.dev"; "group-devs"] call_canViewCluster).
Proof.
  apply (failed_login keep_router no_hooks sample_compile boot_empty demo_policy demo_logged_in demo_bad_login);
    [apply (dash_login keep_router no_hooks sample_compile boot_empty "" demo demo_login), demo_reach | done | done | done |].
  vm_compute. reflexivity.
Defined.

(** ** The token after a logout *)

(** [LOGOUT] returns the initial state, whose token was read when the page
    was loaded: whatever token was set since, the state after a logout has the
    token the page started with, and later requests carry it. *)
Theorem logout_keeps_boot_token d token :
  auth_token (root_auth (dash_root
    (dispatch keep_router no_hooks (boot None {[AUTHORIZED_TOKEN_KEY := token]}) d LOGOUT).1)) =
  item_or {[AUTHORIZED_TOKEN_KEY := token]} AUTHORIZED_TOKEN_KEY "".
Proof.
  set (b := boot None _). destruct (dispatch_plain keep_router no_hooks b d LOGOUT) as (root & st & -> & He); [done|].
  apply auth_after_logout in He. cbn [fst dash_root]. by rewrite He.
Qed.
