(* ===== verification/Validators.v ===== *)
(** [forms/validator.ts] and [forms/normalizer.ts]: what the fields of the forms
    accept, and what they turn the typed text into.

    A validator returns [None] for [undefined]: the value is accepted.  The
    integers of [parseInt] are exact; rounding them to a double is monotone and
    keeps the constants they are compared with. *)

From Corelib Require Import Floats.SpecFloat.
From S2P Require Import Prelude JsString Regex JsNumber ResourceTypes.

(** ** Values of form fields *)

Inductive FormValue :=
| FUndefined
| FNull
| FBool (b : bool)
| FInt (z : Z)
| FString (s : string)
| FArray (l : list FormValue)
| FObject.

(** [!!value] *)
Definition truthy_value (v : FormValue) : bool :=
  match v with
  | FUndefined | FNull => false
  | FBool b => b
  | FInt z => negb (Z.eqb z 0)
  | FString s => negb (seqb s "")
  | FArray _ | FObject => true
  end.

(** [String(value)]; [join] prints nothing for a missing element. *)
Fixpoint value_to_string (v : FormValue) : string :=
  match v with
  | FUndefined => "undefined"
  | FNull => "null"
  | FBool b => if b then "true" else "false"
  | FInt z => int_to_string z
  | FString s => s
  | FArray l =>
      join "," ((fix go l := match l with
        | [] => []
        | FUndefined :: l' | FNull :: l' => "" :: go l'
        | v :: l' => value_to_string v :: go l'
        end) l)
  | FObject => "[object Object]"
  end.

(** ** [parseInt(text, 10)]: [None] is [NaN] *)

Definition digit_value (c : ascii) : Z := Z.of_N (code c) - 48.

Fixpoint parse_digits (acc : Z) (s : string) : Z :=
  match s with
  | "" => acc
  | String c s' => if is_digit c then parse_digits (acc * 10 + digit_value c) s' else acc
  end.

Definition parse_unsigned (s : string) : option Z :=
  match s with
  | String c _ => if is_digit c then Some (parse_digits 0 s) else None
  | "" => None
  end.

Definition parseInt (text : string) : option Z :=
  match trimStart text with
  | String "-" s => Z.opp <$> parse_unsigned s
  | String "+" s => parse_unsigned s
  | s => parse_unsigned s
  end.

(** ** Lists *)

Definition ValidatorListNotEmpty {A} (value : option (list A)) : option string :=
  match value with
  | None | Some [] => Some "Select at least one option"
  | Some _ => None
  end.

Definition ValidatorArrayNotEmpty {A} (value : option (list A)) : option string :=
  match value with
  | None | Some [] => Some "Select at least one option"
  | Some _ => None
  end.

Definition ValidatorHttpRouteDestinations (value : option (list HttpRouteDestination)) : option string :=
  match value with
  | None | Some [] => Some "Please define at least one target."
  | Some [_] => None
  | Some l =>
      if existsb (fun target => ngt (dest_weight target) (num 0)) l then None
      else Some "Please define at least one target with non-zero weight."
  end.

Definition ValidatorRequired (value : FormValue) : option string :=
  match value with
  | FArray l => if Nat.ltb 0 (length l) then None else Some "Required"
  | _ => if truthy_value value || match value with FInt 0 => true | _ => false end
         then None else Some "Required"
  end.

(** The test [schema.unique(property)] adds to the objects of an array: the
    error when an earlier object has the same non-empty property. *)
Definition unique_test (properties : list string) (currentIndex : nat) : bool :=
  match properties !! currentIndex with
  | None | Some "" => true
  | Some p => negb (existsb (fun q => seqb q p) (take currentIndex properties))
  end.

(** ** Ports and numbers *)

Definition ValidatorContainerPortRequired (value : FormValue) : option string :=
  if bool_decide (parseInt (value_to_string value) = Some 443%Z) then Some "Can't use 443 port"
  else if truthy_value value then None else Some "Required".

Definition ValidatorPort (value : FormValue) : option string :=
  if bool_decide (parseInt (value_to_string value) = Some 443%Z) then Some "Can't use 443 port" else None.

Definition port_error (port : number) : option string :=
  if isNaN port || neqb port (num 0) then Some "Invalid port"
  else if ngt port (num 65535) || nle port (num 0) then Some "Port should be in range of (0,65536)"
  else None.

(** [errors.filter((x) => !!x).length > 0 ? errors : undefined] *)
Definition some_errors (errors : list (option string)) : option (list (option string)) :=
  if Nat.ltb 0 (length (List.filter (fun x => match x with Some m => negb (seqb m "") | None => false end) errors))
  then Some errors else None.

Definition validatePorts (values : option (list number)) : option (list (option string)) :=
  match values with
  | None | Some [] => None
  | Some values => some_errors (port_error <$> values)
  end.

(** [isNaN(x)] and [x > 0] on a result of [parseInt]. *)
Definition int_isNaN (x : option Z) : bool := match x with None => true | Some _ => false end.
Definition int_positive (x : option Z) : bool := match x with None => false | Some z => (0 <? z)%Z end.
Definition int_toString (x : option Z) : string := match x with None => "NaN" | Some z => int_to_string z end.

Definition letters : regex := RStar (RChar (fun c => in_range "a" "z" c || in_range "A" "Z" c)).

(** Reading [value.match] of a missing value throws. *)
Definition ValidatorNumberOrAlphabet (value : FormValue) : result (option string) :=
  let portInteger := parseInt (value_to_string value) in
  if int_isNaN portInteger && int_positive portInteger then
    if negb (Nat.eqb (String.length (int_toString portInteger)) (String.length (value_to_string value)))
    then Ok (Some "Not a valid port value") else Ok None
  else match value with
       | FUndefined | FNull => Throw "TypeError: Cannot read property 'match'"
       | FString s => Ok (if matches letters s then None else Some "Not a valid port value")
       | _ => Ok (Some "Not a valid port value")
       end.

Definition ValidatorNaturalNumber (value : option string) : option string :=
  match value with
  | None | Some "" => None
  | Some v =>
      match parseInt v with
      | None => None
      | Some z => if (z <? 0)%Z then Some "Number can't be negative" else None
      end
  end.

(** [parseFloat(text)]: the longest decimal number at the start of the text; the value
    is rounded once.  [digits_of] splits the leading digits off. *)
Fixpoint digits_of (s : string) : string * string :=
  match s with
  | String c s' => if is_digit c then let '(d, r) := digits_of s' in (String c d, r) else ("", s)
  | "" => ("", "")
  end.

(** [10^e * m], for [e] below zero a quotient. *)
Definition decimal (m e : Z) : number :=
  if (0 <=? e)%Z then num (m * 10 ^ e) else
  match m with
  | Z.pos p => SFdiv 53 1024 (S754_finite false p 0) (S754_finite false (Z.to_pos (10 ^ (- e))) 0)
  | _ => num 0
  end.

(** The exponent behind the digits, 0 when there is none. *)
Definition exponent_of (s : string) : Z :=
  match s with
  | String c s' =>
      if has_char c "eE" then default 0%Z (match s' with
        | String "-" t => Z.opp <$> parse_unsigned t
        | String "+" t => parse_unsigned t
        | t => parse_unsigned t
        end) else 0%Z
  | "" => 0%Z
  end.

Definition parse_decimal (s : string) : number :=
  if startsWith "Infinity" s then S754_infinity false else
  let '(whole, rest) := digits_of s in
  let '(fraction, rest) := match rest with
                           | String "." t => if seqb whole "" && seqb (digits_of t).1 "" then ("", rest) else digits_of t
                           | _ => ("", rest)
                           end in
  if seqb (whole +:+ fraction) "" then NaN
  else decimal (parse_digits 0 (whole +:+ fraction)) (exponent_of rest - Z.of_nat (String.length fraction)).

Definition parseFloat (text : string) : number :=
  match trimStart text with
  | String "-" s => SFopp (parse_decimal s)
  | String "+" s => parse_decimal s
  | s => parse_decimal s
  end.

(** A number of cores, or the text a field stores. *)
Inductive CpuValue := CpuNumber (n : number) | CpuText (s : string).
Definition ValidatorCPU (value : option CpuValue) : option string :=
  match value with
  | None => None
  | Some v =>
      let '(falsy, n) := match v with
                         | CpuNumber n => (isNaN n || neqb n (num 0), n)
                         | CpuText s => (seqb s "", parseFloat s)
                         end in
      if falsy then None
      else if nlt n (ndiv (num 1) (num 1000)) then Some "The minimum support is 0.001 Core" else None
  end.

(** ** Texts *)

(** An option of [ValidatorOneof]: a text, or an expression with its source. *)
Inductive OneofOption := OneofText (s : string) | OneofRegex (r : regex) (source : string).

Definition ValidatorOneof (options : list OneofOption) (value : option string) : option string :=
  match value with
  | None | Some "" => None
  | Some v =>
      if existsb (fun o => match o with OneofText s => seqb v s | OneofRegex r _ => matches r v end) options
      then None
      else Some ("Must be one of " +:+
                 join ", " ((fun o => match o with OneofText s => s | OneofRegex _ src => src end) <$> options))
  end.

Definition digits1 : regex := RPlus (RChar is_digit).

(** A decimal number, letters of a unit, and an exponent. *)
Definition volume_size : regex :=
  RSeqs [digits1; ROpt (RSeq (RLit ".") digits1);
         RStar (RChar (fun c => has_char c "eEinumkKMGTP")); ROpt (RChar (fun c => has_char c "-+"));
         RStar (RChar is_digit)].

Definition ValidatorVolumeSize (value : option string) : option string :=
  match value with
  | None | Some "" => Some "Required"
  | Some v =>
      if seqb v "Gi" then Some "Required"
      else if negb (matches volume_size v) || seqb v "0Gi" then Some "Invalid Value" else None
  end.

(** [[a-z0-9]([-a-z0-9]*[a-z0-9])?] *)
Definition alnum (c : ascii) : bool := in_range "a" "z" c || in_range "0" "9" c.
Definition name_char (c : ascii) : bool := bool_decide (c = "-"%char) || alnum c.
Definition dns_label : regex :=
  RSeq (RChar alnum) (ROpt (RSeq (RStar (RChar name_char)) (RChar alnum))).

Definition NAME_RULE : string :=
  "Names can only use digits(0-9), lowercase letters(a-z), and dashes(-). Maximum length is 180 characters.".

Definition ValidatorName (value : option string) : option string :=
  match value with
  | None | Some "" => Some "Required"
  | Some v => if negb (matches dns_label v) || seqb v "0" then Some NAME_RULE else None
  end.

Definition ValidatorHttpHeaders (value : FormValue) : option string :=
  if negb (truthy_value value) then None
  else match value with FString _ => Some "Invalid JSON" | _ => None end.

Definition ValidatorMemory (value : option string) : option string :=
  match value with
  | None | Some "" => None
  | Some v => if seqb v "Gi" then Some "Required" else None
  end.

(** The five fields of a schedule. *)
Definition cron_field (r : regex) : regex := RAlt (RLit "*") (RSeq (ROpt (RLit "*/")) r).
Definition cron_0_59 : regex := RSeq (ROpt (RRange "1" "5")) (RRange "0" "9").
Definition cron_0_23 : regex :=
  RAlt (RSeq (ROpt (RLit "1")) (RRange "0" "9")) (RSeq (RLit "2") (RRange "0" "3")).
Definition cron_1_31 : regex :=
  RAlts [RRange "1" "9"; RSeq (RChar (fun c => has_char c "12")) (RRange "0" "9");
         RSeq (RLit "3") (RRange "0" "1")].
Definition cron_1_12 : regex := RAlt (RRange "1" "9") (RSeq (RLit "1") (RRange "0" "2")).
Definition schedule : regex :=
  RSeqs [cron_field cron_0_59; RLit " "; cron_field cron_0_59; RLit " "; cron_field cron_0_23; RLit " ";
         cron_field cron_1_31; RLit " "; cron_field cron_1_12].

Definition ValidatorSchedule (value : option string) : option string :=
  match value with
  | None | Some "" => Some "Invalid Schedule Rule"
  | Some v => if matches schedule v then None else Some "Invalid Schedule Rule"
  end.

(** ** Hosts *)

(** [25[0-5]|2[0-4][0-9]|[01]?[0-9][0-9]?] *)
Definition octet : regex :=
  RAlts [RSeq (RLit "25") (RRange "0" "5");
         RSeqs [RLit "2"; RRange "0" "4"; RRange "0" "9"];
         RSeqs [ROpt (RChar (fun c => has_char c "01")); RRange "0" "9"; ROpt (RRange "0" "9")]].
Definition regExpIp : regex :=
  RSeqs [octet; RLit "."; octet; RLit "."; octet; RLit "."; octet].

(** [\w] *)
Definition word_char (c : ascii) : bool :=
  in_range "a" "z" c || in_range "A" "Z" c || in_range "0" "9" c || bool_decide (c = "_"%char).
Definition letter (c : ascii) : bool := in_range "a" "z" c || in_range "A" "Z" c.

(** [^(\*\.)?([\w]+\.)+[a-zA-Z]+$] *)
Definition regExpWildcardDomain : regex :=
  RSeqs [ROpt (RLit "*."); RPlus (RSeq (RPlus (RChar word_char)) (RLit ".")); RPlus (RChar letter)].

Definition ValidateHost (value : option string) : option string :=
  match value with
  | None | Some "" => Some "Required"
  | Some v =>
      if Nat.eqb (String.length v) 0 || Nat.ltb 511 (String.length v)
      then Some "Host length must be between 1 and 511 characters."
      else if matches regExpWildcardDomain v then None else Some "Domain is invalid."
  end.

(** The result for a list: a message for the list, or one per element. *)
Inductive ListErrors := ListMessage (m : string) | ElementMessages (l : list (option string)).

Definition list_errors (f : string -> option string) (values : option (list string)) : option ListErrors :=
  match values with
  | None | Some [] => Some (ListMessage "Required")
  | Some values => ElementMessages <$> some_errors (f <$> values)
  end.

Definition ValidatorHosts (values : option (list string)) : option ListErrors :=
  list_errors (fun host => if seqb host "*" then None else ValidateHost (Some host)) values.

Definition validateHostWithWildcardPrefix (value : string) : option string :=
  if Nat.eqb (String.length value) 0 || Nat.ltb 511 (String.length value)
  then Some "Host length must be between 1 and 511 characters."
  else if negb (matches regExpIp value) && negb (matches regExpWildcardDomain value)
  then Some "Host must be a valid IP address or hostname." else None.

Definition ValidatorIpAndHosts (values : option (list string)) : option ListErrors :=
  list_errors (fun host => if seqb host "*" then None else validateHostWithWildcardPrefix host) values.

(** ** Paths and names *)

Definition KValidatorInjectedFilePath (value : option string) : option string :=
  match value with
  | None | Some "" => None
  | Some v =>
      if negb (startsWith "/" v) then Some ("Must be an absolute path, which starts with a " +:+ quoted "/")
      else if endsWith "/" v then Some ("File name mush not end with " +:+ quoted "/")
      else None
  end.

Definition KValidatorPaths (values : option (list string)) : option ListErrors :=
  list_errors (fun x => if startsWith "/" x then None else Some ("path should start with a " +:+ quoted "/")) values.

Definition env_first (c : ascii) : bool := has_char c "-._" || letter c.
Definition env_name_regex : regex :=
  RSeq (RChar env_first) (RStar (RChar (fun c => env_first c || in_range "0" "9" c))).

Definition ValidatorEnvName (value : option string) : option string :=
  match value with
  | None => None
  | Some v =>
      if matches env_name_regex v then None
      else Some "Env name is invalid. regex used for validation is '[-._a-zA-Z][-._a-zA-Z0-9]*'"
  end.

Definition ValidatorServiceName (value : option string) : option string :=
  match value with
  | None => None
  | Some v =>
      if matches dns_label v then None
      else Some "Port name must consist of lower case alphanumeric characters or '-', and must start and end with an alphanumeric character. (e.g. 'my-name',  or '123-abc', regex used for validation is '[a-z0-9]([-a-z0-9]*[a-z0-9])?')"
  end.

Definition RequirePrefix (prefix : string) (value : option string) : option string :=
  match value with
  | None => None
  | Some v => if startsWith prefix v then None else Some ("Require prefix " +:+ quoted prefix)
  end.

Definition RequireNoSuffix (suffix : string) (value : option string) : option string :=
  match value with
  | None => None
  | Some v => if endsWith suffix v then Some ("Require no suffix " +:+ quoted suffix) else None
  end.

(** ** [forms/normalizer.ts] *)

(** [None] is [null]. *)
Definition NormalizeNumber (value : string) : option Z := parseInt value.

Definition FormikNormalizeNumber (value : string) : option Z := parseInt value.

(** [None] is [undefined]. *)
Definition FormikNormalizePositiveNumber (value : string) : option Z :=
  match parseInt value with
  | None => None
  | Some z => if (z <? 0)%Z then Some 0%Z else Some z
  end.

(** [None] is the empty text. *)
Definition normalizePort (value : string) : option Z :=
  match parseInt value with
  | None => None
  | Some portInteger =>
      if (portInteger <? 0)%Z then Some 0%Z
      else if (65535 <? portInteger)%Z then Some 65535%Z
      else Some portInteger
  end.

Definition FormikNormalizePort (value : string) : option Z := normalizePort value.
Definition FormikNormalizePorts (values : list string) : list (option Z) := normalizePort <$> values.

Definition NormalizeCPU (value : option string) : option string :=
  match value with None | Some "" => None | Some v => Some v end.

(** The loop that drops leading zeros. *)
Fixpoint drop_zeros (value : string) : string :=
  match value with
  | String "0" value' => drop_zeros value'
  | _ => value
  end.

Definition NormalizeMemory (value : option string) : option string :=
  match value with
  | None | Some "" => None
  | Some v => match drop_zeros v with "" => None | v' => Some v' end
  end.

Definition NormalizeBoolean (value : FormValue) : bool := truthy_value value.

(** [values] is a list, or the text of an input that was not submitted. *)
Definition NormalizeHosts (values : list string + string) (previousValue : list string) : list string :=
  match values with inl l => l | inr _ => previousValue end.

Definition NormalizeNumberOrAlphabet (value : string) : string + Z :=
  let portInteger := parseInt value in
  if int_isNaN portInteger && int_positive portInteger then inr (default 0%Z portInteger)
  else if matches letters value then inl value else inl "".
