(* ===== verification/ValidatorFacts.v ===== *)
(** What the validators and normalizers of the forms accept, stated without
    regular expressions. *)

From S2P Require Import Prelude JsString Regex JsNumber ResourceTypes Validators.

(** ** Strings from their end *)

Lemma string_snoc s : s = "" \/ exists t c, s = t +:+ String c "".
Proof.
  induction s as [|a s IH]; [by left|]. right. destruct IH as [->|(t & c & ->)].
  - by exists "", a.
  - by exists (String a t), c.
Qed.

Lemma snoc_inj s t c d : s +:+ String c "" = t +:+ String d "" -> s = t /\ c = d.
Proof.
  revert t. induction s as [|a s IH]; intros [|b t]; cbn; intros H.
  - by injection H as ->.
  - injection H as _ H. by destruct t.
  - injection H as _ H. by destruct s.
  - injection H as -> [-> ->]%IH. done.
Qed.

Lemma endsWith_snoc s c d : endsWith (String d "") (s +:+ String c "") = bool_decide (c = d).
Proof.
  apply Bool.eq_true_iff_eq. rewrite endsWith_spec, bool_decide_eq_true. split.
  - intros [t H]. by apply snoc_inj in H as [_ ->].
  - intros ->. by exists s.
Qed.

Lemma startsWith_char s c d : startsWith (String d "") (String c s) = bool_decide (c = d).
Proof.
  apply Bool.eq_true_iff_eq. rewrite startsWith_spec, bool_decide_eq_true. split.
  - intros [t H]. by injection H as ->.
  - intros ->. by exists s.
Qed.

(** ** Names *)

Definition dns_name (v : string) : Prop :=
  v <> "" /\ str_forall name_char v = true /\ startsWith "-" v = false /\ endsWith "-" v = false.

Lemma alnum_not_dash c : name_char c = true -> alnum c = true <-> c <> "-"%char.
Proof.
  unfold name_char. intros [->%bool_decide_eq_true|Hc]%Bool.orb_true_iff.
  - by split.
  - split; [|done]. intros _ ->. done.
Qed.

Lemma alnum_name_char c : alnum c = true -> name_char c = true.
Proof. intros Hc. unfold name_char. by rewrite Hc, Bool.orb_true_r. Qed.

Lemma dns_label_spec v : in_lang dns_label v <-> dns_name v.
Proof.
  unfold dns_label, dns_name. rewrite lang_seq_iff. split.
  - intros (s1 & s2 & -> & (c & -> & Hc)%lang_char_iff & Hs2%lang_opt_iff). cbn [String.append].
    assert (Hsw : forall t, startsWith "-" (String c t) = false).
    { intros t. rewrite startsWith_char. apply bool_decide_eq_false_2, alnum_not_dash; [|done].
      by apply alnum_name_char. }
    destruct Hs2 as [(t & d & -> & Ht%lang_star_char & (e & -> & He)%lang_char_iff)%lang_seq_iff| ->].
    + split; [done|]. split; [|split; [done|]].
      * cbn [str_forall]. rewrite str_forall_app, Ht. cbn. by rewrite !alnum_name_char.
      * change (String c (t +:+ String e "")) with (String c t +:+ String e ""). rewrite endsWith_snoc.
        apply bool_decide_eq_false_2, alnum_not_dash; [|done]. by apply alnum_name_char.
    + split; [done|]. split; [cbn; by rewrite alnum_name_char|]. split; [done|].
      change (String c "") with ("" +:+ String c ""). rewrite endsWith_snoc.
      apply bool_decide_eq_false_2, alnum_not_dash; [|done]. by apply alnum_name_char.
  - intros (Hne & Hall & Hs & He). destruct v as [|c v]; [done|]. cbn in Hall.
    apply Bool.andb_true_iff in Hall as [Hc Hall].
    rewrite startsWith_char in Hs. apply bool_decide_eq_false_1 in Hs.
    exists (String c ""), v. split; [done|].
    split; [apply lang_char_iff; exists c; split; [done|]; by apply alnum_not_dash|].
    apply lang_opt_iff. destruct (string_snoc v) as [->|(t & d & ->)]; [by right|]. left.
    change (String c (t +:+ String d "")) with (String c t +:+ String d "") in He. rewrite endsWith_snoc in He.
    apply bool_decide_eq_false_1 in He. rewrite str_forall_app in Hall.
    apply Bool.andb_true_iff in Hall as [Ht Hd]. cbn in Hd. rewrite Bool.andb_true_r in Hd.
    apply lang_seq_iff. exists t, (String d ""). split; [done|]. split; [by apply lang_star_char|].
    apply lang_char_iff. exists d. split; [done|]. by apply alnum_not_dash.
Qed.

(** [ValidatorName] accepts exactly the names made of lower-case letters,
    digits and dashes that neither start nor end with a dash, except [0]; their
    length is not limited, although the message announces a maximum of 180. *)
Theorem ValidatorName_accepts v :
  ValidatorName (Some v) = None <-> dns_name v /\ v <> "0".
Proof.
  rewrite <- dns_label_spec, <- matches_spec. unfold ValidatorName. destruct v as [|c v].
  { split; [done|]. by intros [? _]. }
  destruct (matches dns_label (String c v)) eqn:Hm; cbn [negb orb]; [|by split; [|intros [? _]]].
  destruct (seqb (String c v) "0") eqn:E; [apply seqb_true in E|apply seqb_false in E]; naive_solver.
Qed.

(** The characters of the name of an environment variable. *)
Lemma env_name_spec v : in_lang env_name_regex v <->
  exists c t, v = String c t /\ env_first c = true /\ str_forall (fun c => env_first c || in_range "0" "9" c) t = true.
Proof.
  unfold env_name_regex. rewrite lang_seq_iff. split.
  - intros (s1 & s2 & -> & (c & -> & Hc)%lang_char_iff & Hs%lang_star_char). by exists c, s2.
  - intros (c & t & -> & Hc & Ht). exists (String c ""), t. split; [done|].
    split; [by apply lang_char_iff; exists c | by apply lang_star_char].
Qed.

(** ** Hosts *)

(** A domain: at least two labels, each of word characters, the last of
    letters, after an optional [*.]. *)
Definition label_ok (l : string) : Prop := l <> "" /\ str_forall word_char l = true.

Definition domain_name (v : string) : Prop :=
  exists wild labels top,
    v = (if wild : bool then "*." else "") +:+ join "." (labels ++ [top]) /\
    labels <> [] /\ Forall label_ok labels /\ top <> "" /\ str_forall letter top = true.

Fixpoint dotted (labels : list string) : string :=
  match labels with [] => "" | l :: rest => l +:+ "." +:+ dotted rest end.

Lemma dotted_join labels top : dotted labels +:+ top = join "." (labels ++ [top]).
Proof.
  induction labels as [|l labels IH]; [done|]. cbn [dotted app]. rewrite <- !sapp_assoc, IH.
  by destruct labels.
Qed.

Abbreviation label_dot := (RSeq (RPlus (RChar word_char)) (RLit ".")).

Lemma label_dot_spec s : in_lang label_dot s <-> exists l, s = l +:+ "." /\ label_ok l.
Proof.
  rewrite lang_seq_iff. split.
  - intros (l & d & -> & Hl%lang_plus_char & ->%lang_lit). by exists l.
  - intros (l & -> & Hl). exists l, ".". split; [done|].
    split; [by apply lang_plus_char | by apply lang_lit].
Qed.

Lemma labels_spec s : in_lang (RStar label_dot) s <-> exists labels, s = dotted labels /\ Forall label_ok labels.
Proof.
  split.
  - remember (RStar label_dot) as r eqn:Er. induction 1 as [| | | | | |r' s1 s2 H1 _ H2 IH]; try done.
    + by exists [].
    + injection Er as ->. apply label_dot_spec in H1 as (l & -> & Hl).
      destruct IH as (labels & -> & Hall); [done|]. exists (l :: labels).
      split; [cbn [dotted]; by rewrite sapp_assoc | by constructor].
  - intros (labels & -> & Hall). induction Hall as [|l labels Hl _ IH]; [constructor|].
    cbn [dotted]. rewrite sapp_assoc. apply lang_star_cons; [|done]. apply label_dot_spec. by exists l.
Qed.

Lemma wildcard_domain_spec v : in_lang regExpWildcardDomain v <-> domain_name v.
Proof.
  unfold regExpWildcardDomain, domain_name, RSeqs. rewrite lang_seq_iff. split.
  - intros (w & s2 & -> & Hw%lang_opt_iff & (ls & top & -> & Hls & Htop%lang_plus_char)%lang_seq_iff).
    unfold RPlus at 1 in Hls. apply lang_seq_iff in Hls as (l0 & s3 & -> & Hl0 & Hs3).
    apply label_dot_spec in Hl0 as (l & -> & Hl). apply labels_spec in Hs3 as (labels & -> & Hall).
    exists (if decide (w = "") then false else true), (l :: labels), top.
    split; [|split; [done|]; split; [by constructor|done]].
    rewrite <- dotted_join. cbn [dotted]. rewrite <- !sapp_assoc.
    destruct Hw as [->%lang_lit| ->]; done.
  - intros (wild & labels & top & -> & Hne & Hall & Htop). rewrite <- dotted_join.
    exists (if wild then "*." else ""), (dotted labels +:+ top). split; [done|].
    split; [apply lang_opt_iff; destruct wild; [left; by apply lang_lit | by right]|].
    apply lang_seq_iff. exists (dotted labels), top. split; [done|]. split; [|by apply lang_plus_char].
    destruct Hall as [|l labels Hl Hall]; [done|]. apply lang_seq_iff.
    exists (l +:+ "."), (dotted labels). split; [cbn [dotted]; by rewrite sapp_assoc|].
    split; [apply label_dot_spec; by exists l | apply labels_spec; by exists labels].
Qed.

(** [ValidateHost] accepts exactly the domains of at most 511 characters with
    two or more labels of letters, digits and underscores, the last of letters
    only, and an optional leading [*.]. *)
Theorem ValidateHost_accepts v :
  ValidateHost (Some v) = None <-> domain_name v /\ String.length v <= 511.
Proof.
  rewrite <- wildcard_domain_spec, <- matches_spec. unfold ValidateHost. destruct v as [|c v].
  { split; [done|]. intros [H _]. done. }
  cbn [String.length Nat.eqb orb]. set (n := S (String.length v)).
  destruct (Nat.ltb_spec 511 n) as [Hlt|Hge].
  - split; [done|]. intros [_ H]. lia.
  - destruct (matches _ _); split; try done. by intros [? _].
Qed.

Lemma has_char_dotted c labels top : has_char c (join "." (labels ++ [top])) = true ->
  c = "."%char \/ Exists (fun l => has_char c l = true) labels \/ has_char c top = true.
Proof.
  rewrite <- dotted_join, has_char_app, Bool.orb_true_iff. intros [H|H]; [|by auto].
  induction labels as [|l labels IH]; [done|]. cbn [dotted] in H.
  rewrite !has_char_app, !Bool.orb_true_iff in H. destruct H as [H|[H|H]].
  - right. left. by left.
  - left. cbn in H. rewrite Bool.orb_false_r in H. by apply bool_decide_eq_true in H.
  - destruct (IH H) as [?|[?|?]]; [by left | right; left; by right | by right; right].
Qed.

(** Hosts with a dash are refused, whatever the rest: a label is made of word
    characters, and the dash is none. *)
Theorem ValidateHost_refuses_dashes v :
  has_char "-" v = true -> ValidateHost (Some v) <> None.
Proof.
  intros Hd Hn.
  assert (Hdom : domain_name v).
  { apply wildcard_domain_spec, matches_spec. unfold ValidateHost in Hn. destruct v as [|c v]; [done|].
    destruct (_ || _); [done|]. by destruct (matches _ _). }
  destruct Hdom as (wild & labels & top & -> & _ & Hall & _ & Htop).
  rewrite has_char_app, Bool.orb_true_iff in Hd. destruct Hd as [Hd|Hd]; [by destruct wild|].
  apply has_char_dotted in Hd as [?|[Hd|Hd]]; [done| |].
  - apply Exists_exists in Hd as (l & Hin & Hl). rewrite Forall_forall in Hall.
    destruct (Hall l Hin) as [_ Hw]. by rewrite (str_forall_has_char _ "-" _ eq_refl Hw) in Hl.
  - by rewrite (str_forall_has_char _ "-" _ eq_refl Htop) in Hd.
Qed.

Lemma ValidateHost_refuses_dashes_witness : ValidateHost (Some "my-shop.example.com") <> None.
Proof. apply ValidateHost_refuses_dashes. reflexivity. Defined.

(** ** Addresses *)

(** One to three digits with a value of at most 255. *)
Definition octet_ok (s : string) : Prop :=
  str_forall is_digit s = true /\ 1 <= String.length s <= 3 /\ (parse_digits 0 s <= 255)%Z.

Definition digit_strings : regex :=
  RSeqs [RChar is_digit; ROpt (RChar is_digit); ROpt (RChar is_digit)].

Lemma digit_strings_spec s : str_forall is_digit s = true -> 1 <= String.length s <= 3 -> s ∈ enum digit_strings.
Proof.
  intros Hd Hlen. apply enum_spec; [done|]. apply matches_spec.
  destruct s as [|a [|b [|c [|d s]]]]; cbn in Hlen; try lia; cbn in Hd;
    repeat (apply Bool.andb_true_iff in Hd as [? Hd]); cbn; by repeat (case_match; cbn; try congruence).
Qed.

Lemma octet_value s : s ∈ enum digit_strings -> matches octet s = (parse_digits 0 s <=? 255)%Z.
Proof.
  assert (H : forallb (fun s => Bool.eqb (matches octet s) (parse_digits 0 s <=? 255)%Z) (enum digit_strings) = true)
    by (vm_compute; reflexivity).
  rewrite forallb_forall in H. intros Hs%list_elem_of_In%H. by apply Bool.eqb_prop.
Qed.

Lemma octet_digits s : matches octet s = true -> str_forall is_digit s = true /\ 1 <= String.length s <= 3.
Proof.
  assert (H : forallb (fun s => str_forall is_digit s && Nat.leb 1 (String.length s) &&
                                Nat.leb (String.length s) 3) (enum octet) = true)
    by (vm_compute; reflexivity).
  rewrite forallb_forall in H. intros Hm%matches_spec%enum_spec%list_elem_of_In%H; [|done].
  rewrite !Bool.andb_true_iff, !Nat.leb_le in Hm. tauto.
Qed.

Lemma octet_spec s : in_lang octet s <-> octet_ok s.
Proof.
  rewrite <- matches_spec. split.
  - intros Hm. destruct (octet_digits s Hm) as [Hd Hl]. split; [done|]. split; [done|].
    rewrite octet_value in Hm by (by apply digit_strings_spec). lia.
  - intros (Hd & Hl & Hv). rewrite octet_value by (by apply digit_strings_spec). lia.
Qed.

Lemma lang_dot_iff r s : in_lang (RSeq (RLit ".") r) s <-> exists t, s = String "." t /\ in_lang r t.
Proof.
  rewrite lang_seq_iff. split.
  - intros (d & t & -> & ->%lang_lit & Ht). by exists t.
  - intros (t & -> & Ht). exists ".", t. split; [done|]. split; [by apply lang_lit | done].
Qed.

Lemma octet_no_dot s : octet_ok s -> has_char "." s = false.
Proof. intros [Hd _]. by apply (str_forall_has_char is_digit). Qed.

(** The address pattern accepts exactly the texts with four parts between
    dots, each of one to three digits with a value from 0 to 255. *)
Theorem regExpIp_accepts v :
  matches regExpIp v = true <->
    exists a b c d, split_char "." v = [a; b; c; d] /\ octet_ok a /\ octet_ok b /\ octet_ok c /\ octet_ok d.
Proof.
  rewrite matches_spec. unfold regExpIp, RSeqs. rewrite lang_seq_iff. split.
  - intros (a & s1 & -> & Ha%octet_spec & (s2 & -> & Hs2)%lang_dot_iff).
    apply lang_seq_iff in Hs2 as (b & s3 & -> & Hb%octet_spec & (s4 & -> & Hs4)%lang_dot_iff).
    apply lang_seq_iff in Hs4 as (c & s5 & -> & Hc%octet_spec & (d & -> & Hd%octet_spec)%lang_dot_iff).
    exists a, b, c, d. split; [|done].
    rewrite !split_char_app by (by apply octet_no_dot). by rewrite split_char_none by (by apply octet_no_dot).
  - intros (a & b & c & d & Hv & Ha & Hb & Hc & Hd).
    rewrite <- (join_split_char "." v), Hv. cbn [join].
    exists a, (String "." (b +:+ String "." (c +:+ String "." d))). split; [done|].
    split; [by apply octet_spec|]. apply lang_dot_iff. eexists. split; [done|].
    apply lang_seq_iff. exists b, (String "." (c +:+ String "." d)). split; [done|].
    split; [by apply octet_spec|]. apply lang_dot_iff. eexists. split; [done|].
    apply lang_seq_iff. exists c, (String "." d). split; [done|].
    split; [by apply octet_spec|]. apply lang_dot_iff. exists d. split; [done|]. by apply octet_spec.
Qed.

(** ** Schedules *)

(** A field: [*], a number between two bounds, or [*/] and such a number. *)
Definition cron_ok (lo hi : nat) (f : string) : Prop :=
  f = "*" \/ exists n, lo <= n <= hi /\ (f = nat_to_string n \/ f = "*/" +:+ nat_to_string n).

Definition cron_texts (lo hi : nat) : list string :=
  "*" :: (nat_to_string <$> seq lo (S hi - lo)) ++ ((fun n => "*/" +:+ nat_to_string n) <$> seq lo (S hi - lo)).

Lemma cron_texts_spec lo hi f : lo <= hi -> f ∈ cron_texts lo hi <-> cron_ok lo hi f.
Proof.
  intros Hle. unfold cron_texts, cron_ok. rewrite elem_of_cons, elem_of_app, !list_elem_of_fmap.
  setoid_rewrite elem_of_seq. split.
  - intros [->|[(n & -> & Hn)|(n & -> & Hn)]]; [by left| |]; right; exists n; (split; [lia|]); auto.
  - intros [->|(n & Hn & [->| ->])]; [by left| |]; right; [left|right]; exists n; (split; [done|lia]).
Qed.

Lemma cron_0_59_spec f : in_lang (cron_field cron_0_59) f <-> cron_ok 0 59 f.
Proof.
  rewrite <- cron_texts_spec by lia. apply enum_agrees; [done|]. vm_compute. reflexivity.
Qed.

Lemma cron_0_23_spec f : in_lang (cron_field cron_0_23) f <-> cron_ok 0 23 f.
Proof.
  rewrite <- cron_texts_spec by lia. apply enum_agrees; [done|]. vm_compute. reflexivity.
Qed.

Lemma cron_1_31_spec f : in_lang (cron_field cron_1_31) f <-> cron_ok 1 31 f.
Proof.
  rewrite <- cron_texts_spec by lia. apply enum_agrees; [done|]. vm_compute. reflexivity.
Qed.

Lemma cron_1_12_spec f : in_lang (cron_field cron_1_12) f <-> cron_ok 1 12 f.
Proof.
  rewrite <- cron_texts_spec by lia. apply enum_agrees; [done|]. vm_compute. reflexivity.
Qed.

Lemma lang_space_iff r s : in_lang (RSeq (RLit " ") r) s <-> exists t, s = String " " t /\ in_lang r t.
Proof.
  rewrite lang_seq_iff. split.
  - intros (d & t & -> & ->%lang_lit & Ht). by exists t.
  - intros (t & -> & Ht). exists " ", t. split; [done|]. split; [by apply lang_lit | done].
Qed.

(** [ValidatorSchedule] accepts exactly five fields between spaces, each [*],
    a number or [*/] and a number, in the ranges 0-59, 0-59, 0-23, 1-31 and
    1-12: those of second, minute, hour, day and month.  The schedule of a job
    starts with the minute, so an hour of 59 is accepted and the day 31 is not. *)
Theorem ValidatorSchedule_accepts v :
  ValidatorSchedule (Some v) = None <->
    exists f1 f2 f3 f4 f5, v = join " " [f1; f2; f3; f4; f5] /\
      cron_ok 0 59 f1 /\ cron_ok 0 59 f2 /\ cron_ok 0 23 f3 /\ cron_ok 1 31 f4 /\ cron_ok 1 12 f5.
Proof.
  assert (Hm : ValidatorSchedule (Some v) = None <-> in_lang schedule v).
  { rewrite <- matches_spec. unfold ValidatorSchedule. destruct v as [|c v]; [done|]. by destruct (matches _ _). }
  rewrite Hm. unfold schedule, RSeqs. rewrite lang_seq_iff. split.
  - intros (f1 & s1 & -> & H1%cron_0_59_spec & (s2 & -> & Hs2)%lang_space_iff).
    apply lang_seq_iff in Hs2 as (f2 & s3 & -> & H2%cron_0_59_spec & (s4 & -> & Hs4)%lang_space_iff).
    apply lang_seq_iff in Hs4 as (f3 & s5 & -> & H3%cron_0_23_spec & (s6 & -> & Hs6)%lang_space_iff).
    apply lang_seq_iff in Hs6 as (f4 & s7 & -> & H4%cron_1_31_spec & (f5 & -> & H5%cron_1_12_spec)%lang_space_iff).
    by exists f1, f2, f3, f4, f5.
  - intros (f1 & f2 & f3 & f4 & f5 & -> & H1 & H2 & H3 & H4 & H5). cbn [join].
    exists f1, (String " " (f2 +:+ String " " (f3 +:+ String " " (f4 +:+ String " " f5)))). split; [done|].
    split; [by apply cron_0_59_spec|]. apply lang_space_iff. eexists. split; [done|].
    apply lang_seq_iff. eexists f2, _. split; [done|].
    split; [by apply cron_0_59_spec|]. apply lang_space_iff. eexists. split; [done|].
    apply lang_seq_iff. eexists f3, _. split; [done|].
    split; [by apply cron_0_23_spec|]. apply lang_space_iff. eexists. split; [done|].
    apply lang_seq_iff. eexists f4, _. split; [done|].
    split; [by apply cron_1_31_spec|]. apply lang_space_iff. eexists. split; [done|].
    by apply cron_1_12_spec.
Qed.

Example schedule_hour_59 : ValidatorSchedule (Some "0 59 1 1 1") = None.
Proof. vm_compute. reflexivity. Qed.

Example schedule_day_31 : ValidatorSchedule (Some "0 0 31 * *") = Some "Invalid Schedule Rule".
Proof. vm_compute. reflexivity. Qed.

(** ** Numbers *)

Lemma parse_digits_app acc a b : str_forall is_digit a = true ->
  parse_digits acc (a +:+ b) = parse_digits (parse_digits acc a) b.
Proof.
  revert acc. induction a as [|c a IH]; intros acc; [done|]. cbn [str_forall].
  intros [Hc Ha]%Bool.andb_true_iff. cbn [String.append parse_digits]. rewrite Hc. by apply IH.
Qed.

Lemma pretty_char_value d : (d < 10)%N ->
  is_digit (pretty.pretty_N_char d) = true /\ digit_value (pretty.pretty_N_char d) = Z.of_N d.
Proof.
  intros Hd. assert (H : forallb (fun n => is_digit (pretty.pretty_N_char (N.of_nat n)) &&
    Z.eqb (digit_value (pretty.pretty_N_char (N.of_nat n))) (Z.of_nat n)) (seq 0 10) = true)
    by (vm_compute; reflexivity).
  rewrite forallb_forall in H. specialize (H (N.to_nat d)). rewrite N2Nat.id in H.
  apply Bool.andb_true_iff in H as [H1 H2%Z.eqb_eq]; [|apply in_seq; lia].
  split; [done|]. rewrite H2. lia.
Qed.

Lemma parse_pretty_go n : forall s, str_forall is_digit s = true ->
  parse_digits 0 (pretty.pretty_N_go n s) = parse_digits (Z.of_N n) s.
Proof.
  induction (N.lt_wf_0 n) as [n _ IH]; intros s Hs.
  destruct (decide (n = 0%N)) as [->|Hn]; [by rewrite pretty.pretty_N_go_0|].
  rewrite pretty.pretty_N_go_step by lia.
  destruct (pretty_char_value (n `mod` 10)) as [Hd Hv]; [apply N.mod_lt; lia|].
  rewrite IH; [|apply N.div_lt; lia|cbn; by rewrite Hd].
  cbn [parse_digits]. rewrite Hd, Hv. f_equal. pose proof (N.div_mod n 10). lia.
Qed.

Lemma parse_nat n : parse_unsigned (nat_to_string n) = Some (Z.of_nat n).
Proof.
  pose proof (nat_to_string_digits n) as Hd. pose proof (nat_to_string_ne n) as Hne.
  destruct (nat_to_string n) as [|c s] eqn:E; [done|]. cbn [parse_unsigned].
  cbn [str_forall] in Hd. apply Bool.andb_true_iff in Hd as [Hc Hs]. rewrite Hc, <- E. f_equal.
  unfold nat_to_string, pretty.pretty, pretty.pretty_nat, pretty.pretty, pretty.pretty_N.
  case_decide as H0.
  - assert (n = 0) as -> by lia. done.
  - rewrite parse_pretty_go by done. cbn. lia.
Qed.

Lemma digit_not_ws c : is_digit c = true -> is_ws c = false /\ c <> "-"%char /\ c <> "+"%char.
Proof.
  unfold is_digit, is_ws. intros [H1%N.leb_le H2%N.leb_le]%Bool.andb_true_iff. split.
  - rewrite !Bool.orb_false_iff, Bool.andb_false_iff, N.leb_gt, N.leb_gt, !N.eqb_neq. lia.
  - split; intros ->; cbn in *; lia.
Qed.

Lemma parseInt_digits s : s <> "" -> str_forall is_digit s = true -> parseInt s = parse_unsigned s.
Proof.
  intros Hne Hd. destruct s as [|c s]; [done|]. cbn in Hd. apply Bool.andb_true_iff in Hd as [Hc _].
  destruct (digit_not_ws c Hc) as (Hw & H1 & H2). unfold parseInt. cbn [trimStart]. rewrite Hw.
  destruct c as [[] [] [] [] [] [] [] []]; done.
Qed.

(** Printing and parsing: the digits of an integer, as a template prints it,
    are read back as that integer, the negative ones included. *)
Theorem parseInt_int_to_string z : parseInt (int_to_string z) = Some z.
Proof.
  unfold int_to_string. destruct (Z.ltb_spec z 0) as [Hneg|Hpos].
  - unfold parseInt. cbn [String.append]. change (trimStart (String "-" ?s)) with (String "-" s).
    cbn. rewrite parse_nat. cbn. f_equal. lia.
  - rewrite parseInt_digits by (apply nat_to_string_ne || apply nat_to_string_digits).
    rewrite parse_nat. f_equal. lia.
Qed.

(** C40: A port is normalised to the nearest one of 0 to 65535.  The digits of a number
    become that number where it is in the range, and the end of the range it is beyond
    where it is not; a text becomes empty exactly if it starts with no number, and any
    other a port in the range that normalising again leaves as it is. *)
Theorem normalizePort_range value z :
  normalizePort (int_to_string z) = Some (Z.max 0 (Z.min 65535 z)) /\
  (normalizePort value = None <-> parseInt value = None) /\
  (forall p, normalizePort value = Some p -> (0 <= p <= 65535)%Z /\ normalizePort (int_to_string p) = Some p).
Proof.
  assert (Hc : forall s, normalizePort s = (fun p => Z.max 0 (Z.min 65535 p)) <$> parseInt s).
  { intros s. unfold normalizePort. destruct (parseInt s) as [p|]; [|done]. cbn.
    destruct (Z.ltb_spec p 0); [|destruct (Z.ltb_spec 65535 p)]; f_equal; lia. }
  rewrite !Hc, parseInt_int_to_string. split; [done|]. destruct (parseInt value) as [q|]; cbn; [|done].
  split; [done|]. intros p [= <-]. split; [lia|]. rewrite Hc, parseInt_int_to_string. cbn. f_equal. lia.
Qed.

Lemma normalizePort_range_witness :
  normalizePort (int_to_string 443) = Some 443%Z /\ (0 <= 65535 <= 65535)%Z /\ normalizePort (int_to_string 65535) = Some 65535%Z.
Proof.
  split; [exact (proj1 (normalizePort_range "" 443))|].
  apply (proj2 (proj2 (normalizePort_range " 70000x" 0))). vm_compute. reflexivity.
Defined.

(** Numbers are never accepted by [ValidatorNumberOrAlphabet] nor kept by
    [NormalizeNumberOrAlphabet]: the condition that should recognize them asks
    for a value that is both [NaN] and positive. *)
Theorem NumberOrAlphabet_refuses_numbers z :
  ValidatorNumberOrAlphabet (FString (int_to_string z)) = Ok (Some "Not a valid port value") /\
  NormalizeNumberOrAlphabet (int_to_string z) = inl "".
Proof.
  unfold ValidatorNumberOrAlphabet, NormalizeNumberOrAlphabet. cbn [value_to_string].
  rewrite parseInt_int_to_string. cbn [int_isNaN andb].
  assert (Hm : matches letters (int_to_string z) = false).
  { apply Bool.not_true_iff_false. intros Hl%matches_spec%lang_star_char.
    assert (Hno : forall n, str_forall (fun c => in_range "a" "z" c || in_range "A" "Z" c) (nat_to_string n) <> true).
    { intros n. pose proof (nat_to_string_digits n) as Hd. pose proof (nat_to_string_ne n) as Hne.
      destruct (nat_to_string n) as [|c s]; [done|]. cbn in *. apply Bool.andb_true_iff in Hd as [Hd _].
      destruct c as [[] [] [] [] [] [] [] []]; done. }
    unfold int_to_string in Hl. destruct (z <? 0)%Z; [done|]. by apply Hno in Hl. }
  by rewrite Hm.
Qed.

(** ** Unique properties *)

(** The test of [unique] accepts every element of an array exactly when the
    properties that are not empty are distinct. *)
Theorem unique_test_spec properties :
  (forall i, i < length properties -> unique_test properties i = true) <->
  NoDup (filter (fun p => p <> "") properties).
Proof.
  induction properties as [|p l IH] using rev_ind.
  { split; [intros _; apply NoDup_nil_2 | cbn; lia]. }
  assert (Hold : forall i, i < length l -> unique_test (l ++ [p]) i = unique_test l i).
  { intros i Hi. unfold unique_test. rewrite lookup_app_l by done.
    by rewrite take_app_le by lia. }
  assert (Hlast : unique_test (l ++ [p]) (length l) = true <-> p = "" \/ p ∉ l).
  { unfold unique_test. rewrite list_lookup_middle by done. rewrite take_app_length.
    destruct p as [|c p]; [by split; [left|]|]. rewrite Bool.negb_true_iff, <- Bool.not_true_iff_false.
    rewrite <- (listed_spec l). unfold listed. rewrite !existsb_exists.
    split; [intros Hn; right|intros [?|Hn]; [done|]]; intros (x & Hx & E%seqb_true); apply Hn;
      exists x; (split; [done|]); by apply seqb_true. }
  rewrite filter_app, NoDup_app, <- IH. split.
  - intros Hall. split; [|split].
    + intros i Hi. rewrite <- Hold by done. apply Hall. rewrite length_app. lia.
    + intros x [Hx Hin]%list_elem_of_filter Hp. apply list_elem_of_filter in Hp as [_ ->%list_elem_of_singleton].
      assert (Hl : unique_test (l ++ [p]) (length l) = true) by (apply Hall; rewrite length_app; cbn; lia).
      by apply Hlast in Hl as [?|?].
    + apply NoDup_filter, NoDup_singleton.
  - intros (Hall & Hdis & _) i Hi. rewrite length_app in Hi. cbn in Hi.
    destruct (decide (i < length l)) as [Hlt|Hge]; [rewrite Hold by done; by apply Hall|].
    assert (i = length l) as -> by lia. apply Hlast. destruct (decide (p = "")) as [->|Hp]; [by left|right].
    intros Hin. apply (Hdis p); apply list_elem_of_filter; (split; [done|]); [done|].
    by apply list_elem_of_singleton.
Qed.
