(* ===== verification/ComponentForms.v ===== *)
(** [utils/application.ts] and [selectors]: what the forms of a component start
    from and submit, and the dates at which components were created. *)

From Corelib Require Import Floats.SpecFloat.
From S2P Require Import Prelude JsString JsNumber ResourceTypes ActionTypes ReducerUtils ResourceReducers UiReducers RootReducer.

(** ** Selectors ([selectors/component.ts], [selectors/debounce.ts]) *)

Section forms.
Context {RouterState : Type}.
Implicit Types (state : RootState RouterState) (component : ComponentLike) (v : Volume).

Definition getComponentFormVolumeOptions state (componentName componentWorkloadType : string)
    : list VolumeOption :=
  if seqb componentWorkloadType workloadTypeStatefulSet then
    List.filter (fun o => bool_decide (option_componentName o = Some componentName))
      (statefulSetOptions (root_persistentVolumes state))
  else simpleOptions (root_persistentVolumes state).

Definition getIsDisplayDebounceError state (name : string) : bool :=
  match root_debounce state !! name with Some d => deb_debouncing d | None => false end.

(** ** Drafts of a component and of a volume *)

Definition set_workloadType component (t : option string) : ComponentLike :=
  mkComponentLike (comp_name component) (comp_image component) (comp_replicas component) (comp_command component)
    (comp_resourceRequirements component) (comp_cpuRequest component) (comp_memoryRequest component)
    (comp_cpuLimit component) (comp_memoryLimit component) t (comp_schedule component)
    (comp_restartStrategy component) (comp_terminationGracePeriodSeconds component) (comp_dnsPolicy component)
    (comp_env component) (comp_ports component) (comp_volumes component) (comp_preInjectedFiles component)
    (comp_livenessProbe component) (comp_readinessProbe component) (comp_nodeSelectorLabels component)
    (comp_preferNotCoLocated component) (comp_podAffinityType component) (comp_protectedEndpoint component).

Definition set_volumes component (volumes : option (list Volume)) : ComponentLike :=
  mkComponentLike (comp_name component) (comp_image component) (comp_replicas component) (comp_command component)
    (comp_resourceRequirements component) (comp_cpuRequest component) (comp_memoryRequest component)
    (comp_cpuLimit component) (comp_memoryLimit component) (comp_workloadType component) (comp_schedule component)
    (comp_restartStrategy component) (comp_terminationGracePeriodSeconds component) (comp_dnsPolicy component)
    (comp_env component) (comp_ports component) volumes (comp_preInjectedFiles component)
    (comp_livenessProbe component) (comp_readinessProbe component) (comp_nodeSelectorLabels component)
    (comp_preferNotCoLocated component) (comp_podAffinityType component) (comp_protectedEndpoint component).

Definition set_resourceRequirements component (r : option ResourceRequirements) : ComponentLike :=
  mkComponentLike (comp_name component) (comp_image component) (comp_replicas component) (comp_command component)
    r (comp_cpuRequest component) (comp_memoryRequest component)
    (comp_cpuLimit component) (comp_memoryLimit component) (comp_workloadType component) (comp_schedule component)
    (comp_restartStrategy component) (comp_terminationGracePeriodSeconds component) (comp_dnsPolicy component)
    (comp_env component) (comp_ports component) (comp_volumes component) (comp_preInjectedFiles component)
    (comp_livenessProbe component) (comp_readinessProbe component) (comp_nodeSelectorLabels component)
    (comp_preferNotCoLocated component) (comp_podAffinityType component) (comp_protectedEndpoint component).

(** A text that may be absent is falsy when absent or empty. *)
Definition truthy (s : option string) : bool :=
  match s with Some s' => negb (seqb s' "") | None => false end.

(** ** Conversions *)

(** The four fields only the details have are dropped with their record. *)
Definition componentDetailsToComponent (componentDetails : ApplicationComponentDetails) : ComponentLike :=
  let draft := cd_component componentDetails in
  if truthy (comp_workloadType draft) then draft else set_workloadType draft (Some workloadTypeServer).

(** [component.workloadType || workloadTypeServer] *)
Definition workload component : string :=
  match comp_workloadType component with
  | Some t => if seqb t "" then workloadTypeServer else t
  | None => workloadTypeServer
  end.

(** The [forEach] assigns at every match, so the last one remains. *)
Definition findPVC (volumeOptions : list VolumeOption) (claimName : string) : string * string * string * string :=
  foldl (fun found vo =>
      if seqb (option_name vo) claimName then
        (option_pvc vo, option_pvToMatch vo, option_storageClassName vo, option_capacity vo)
      else found)
    ("", "", "", "") volumeOptions.

Definition findClaimName (volumeOptions : list VolumeOption) (pvc : string) : string :=
  foldl (fun claimName vo => if seqb (option_pvc vo) pvc then option_name vo else claimName) "" volumeOptions.

(** [v.type] is one of the two types that refer to an existing claim. *)
Definition is_claim (type : string) : bool :=
  seqb type VolumeTypePersistentVolumeClaim || seqb type VolumeTypePersistentVolumeClaimTemplate.

Definition submit_type (type : string) : string :=
  if seqb type VolumeTypePersistentVolumeClaimNew then VolumeTypePersistentVolumeClaim
  else if seqb type VolumeTypePersistentVolumeClaimTemplateNew then VolumeTypePersistentVolumeClaimTemplate
  else type.

Definition submit_volume (volumeOptions : list VolumeOption) v : Volume :=
  if is_claim (vol_type v) then
    let '(pvc, pvToMatch, storageClassName, size) := findPVC volumeOptions (vol_claimName v) in
    mkVolume (submit_type (vol_type v)) (vol_path v) size storageClassName pvc pvToMatch (vol_claimName v) (vol_hostPath v)
  else
    mkVolume (submit_type (vol_type v)) (vol_path v) (vol_size v) (vol_storageClassName v) (vol_pvc v)
      (vol_pvToMatch v) (vol_claimName v) (vol_hostPath v).

Definition correctComponentFormValuesForSubmit state componentValues : ComponentLike :=
  let volumeOptions := getComponentFormVolumeOptions state (comp_name componentValues) (workload componentValues) in
  let draft := set_volumes componentValues (map (submit_volume volumeOptions) <$> comp_volumes componentValues) in
  if truthy (comp_cpuLimit componentValues) || truthy (comp_memoryLimit componentValues)
     || truthy (comp_cpuRequest componentValues) || truthy (comp_memoryRequest componentValues) then
    set_resourceRequirements draft (Some (mkResourceRequirements
      (Some (mkAmounts (comp_cpuLimit componentValues) (comp_memoryLimit componentValues)))
      (Some (mkAmounts (comp_cpuRequest componentValues) (comp_memoryRequest componentValues)))))
  else draft.

Definition init_volume (volumeOptions : list VolumeOption) v : Volume :=
  if is_claim (vol_type v) then
    mkVolume (vol_type v) (vol_path v) (vol_size v) (vol_storageClassName v) (vol_pvc v) (vol_pvToMatch v)
      (findClaimName volumeOptions (vol_pvc v)) (vol_hostPath v)
  else v.

Definition correctComponentFormValuesForInit state component : ComponentLike :=
  match comp_volumes component with
  | None => component
  | Some volumes =>
      let volumeOptions := getComponentFormVolumeOptions state (comp_name component) (workload component) in
      set_volumes component (Some (map (init_volume volumeOptions) volumes))
  end.
End forms.

(** ** Dates

    A [Date] is its time value, [None] for an invalid date; comparisons with
    an invalid date are false. *)

Abbreviation Date := (option Z) (only parsing).

(** [new Date(x)] for a number: the integer part, invalid beyond the range of
    dates. *)
Definition newDate (x : number) : Date :=
  let clip z := if (Z.abs z <=? 8640000000000000)%Z then Some z else None in
  match x with
  | S754_zero _ => Some 0%Z
  | S754_infinity _ | S754_nan => None
  | S754_finite s m e =>
      let magnitude :=
        match e with
        | Z0 => Z.pos m
        | Zpos p => (Z.pos m * 2 ^ Z.pos p)%Z
        | Zneg p => (Z.pos m / 2 ^ Z.pos p)%Z
        end in
      clip (if s then (- magnitude)%Z else magnitude)
  end.

Definition date_lt (a b : Date) : bool :=
  match a, b with Some x, Some y => (x <? y)%Z | _, _ => false end.
Definition date_le (a b : Date) : bool :=
  match a, b with Some x, Some y => (x <=? y)%Z | _, _ => false end.

(** The body of both loops: [createdAt] is replaced when it is not set yet, or
    when the new date is set and earlier. *)
Definition earlier (createdAt date : Date) : Date :=
  if date_le createdAt (Some 0%Z) || (date_lt (Some 0%Z) date && date_lt date createdAt) then date else createdAt.

Definition getComponentCreatedAtDate (component : ApplicationComponentDetails) : Date :=
  foldl (fun createdAt podStatus => earlier createdAt (newDate (pod_createTimestamp podStatus)))
    (Some 0%Z) (cd_pods component).

Definition getApplicationCreatedAtDate (components : list ApplicationComponentDetails) : Date :=
  foldl (fun createdAt component => earlier createdAt (getComponentCreatedAtDate component))
    (Some 0%Z) components.

Section strings.
(** [formatDate] of [date-fns] and the zone of the browser, and the distance to
    the present. *)
Variable formatDate : Date -> string.
Variable formatTimeDistance : Date -> string.

Definition getApplicationCreatedAtString (components : list ApplicationComponentDetails) : string :=
  let createdAt := getApplicationCreatedAtDate components in
  if date_le createdAt (Some 0%Z) then "-" else formatDate createdAt.

Definition getComponentCreatedAtString (component : ApplicationComponentDetails) : string :=
  let createdAt := getComponentCreatedAtDate component in
  if date_le createdAt (Some 0%Z) then "-" else formatDate createdAt.

Definition getComponentCreatedFromAndAtString (component : ApplicationComponentDetails) : string :=
  let createdAt := getComponentCreatedAtDate component in
  if date_le createdAt (Some 0%Z) then "-"
  else formatTimeDistance createdAt +:+ " ago(" +:+ formatDate createdAt +:+ ")".
End strings.
