(* ===== verification/ComponentFormFacts.v ===== *)
(** What the forms of a component submit, and when a component was created. *)

From S2P Require Import Prelude JsString JsNumber ResourceTypes ActionTypes ReducerUtils ResourceReducers UiReducers RootReducer RootFacts ComponentForms.

(** ** Search with [forEach]: the last match *)

Section last_match.
Context {A B : Type} (key : A -> string) (f : A -> B) (k : string).

Definition last_match (b : B) (l : list A) : B :=
  foldl (fun found x => if seqb (key x) k then f x else found) b l.

Lemma last_match_none b l : Forall (fun x => key x <> k) l -> last_match b l = b.
Proof. induction 1 as [|x l Hx%seqb_false _ IH]; cbn; [done|]. rewrite Hx. apply IH. Qed.

(** The result is that of a matching element, or the start. *)
Lemma last_match_cases b l :
  (exists x, x ∈ l /\ key x = k /\ last_match b l = f x) \/
  (Forall (fun x => key x <> k) l /\ last_match b l = b).
Proof.
  revert b. induction l as [|x l IH]; intros b; [by right|]. cbn.
  destruct (seqb_spec (key x) k) as [Hx|Hx].
  - left. destruct (IH (f x)) as [(y & Hy & Hk & He)|[_ He]].
    + exists y. split; [by right|]. by split.
    + exists x. split; [by left|]. by split.
  - destruct (IH b) as [(y & Hy & Hk & He)|[Hl He]].
    + left. exists y. split; [by right|]. by split.
    + right. split; [by constructor|done].
Qed.

Lemma last_match_unique b l x : NoDup (key <$> l) -> x ∈ l -> key x = k -> last_match b l = f x.
Proof.
  intros Hnd Hx Hk. destruct (last_match_cases b l) as [(y & Hy & Hky & ->)|[Hl _]].
  - apply list_elem_of_lookup in Hx as [i Hi], Hy as [j Hj].
    assert (i = j) as ->; [|congruence].
    eapply (NoDup_lookup _ i j k Hnd); rewrite list_lookup_fmap; [by rewrite Hi; cbn; f_equal|by rewrite Hj; cbn; f_equal].
  - rewrite Forall_forall in Hl. by destruct (Hl x Hx).
Qed.
End last_match.

(** ** Volumes *)

Section forms.
Context {RouterState : Type}.
Implicit Types (state : RootState RouterState) (component : ComponentLike) (v : Volume) (o : VolumeOption).

(** The disks a form of the component offers. *)
Definition offered state component : list VolumeOption :=
  getComponentFormVolumeOptions state (comp_name component) (workload component).

(** The volume mounts the claim the option stands for. *)
Definition claims o v : Prop :=
  vol_pvc v = option_pvc o /\ vol_pvToMatch v = option_pvToMatch o /\
  vol_storageClassName v = option_storageClassName o /\ vol_size v = option_capacity o.

(** The volume without the name of the form's selection. *)
Definition forget_claimName v : Volume :=
  mkVolume (vol_type v) (vol_path v) (vol_size v) (vol_storageClassName v) (vol_pvc v) (vol_pvToMatch v) "" (vol_hostPath v).

(** The volume mounts nothing: no claim, no match label, no class and no size. *)
Definition claims_nothing v : Prop :=
  vol_pvc v = "" /\ vol_pvToMatch v = "" /\ vol_storageClassName v = "" /\ vol_size v = "".

(** The types of volume the server does not know. *)
Definition derived_type (type : string) : Prop :=
  type = VolumeTypePersistentVolumeClaimNew \/ type = VolumeTypePersistentVolumeClaimTemplateNew.

(** The types of volumes that are stored, as [types/componentTemplate.ts] spells them;
    the controller spells the last one "hostpath". *)
Definition stored_types : list string :=
  [VolumeTypeTemporaryMemory; VolumeTypeTemporaryDisk; VolumeTypePersistentVolumeClaim; VolumeTypePersistentVolumeClaimTemplate;
   VolumeTypeHostPath].

Lemma submit_type_server type : ~ derived_type (submit_type type).
Proof.
  unfold submit_type, derived_type. destruct (seqb_spec type VolumeTypePersistentVolumeClaimNew); [by intros [?|?]|].
  destruct (seqb_spec type VolumeTypePersistentVolumeClaimTemplateNew); [by intros [?|?]|]. tauto.
Qed.

Lemma submit_type_stored type : ~ derived_type type -> submit_type type = type.
Proof.
  unfold submit_type, derived_type. intros H.
  destruct (seqb_spec type VolumeTypePersistentVolumeClaimNew); [tauto|].
  destruct (seqb_spec type VolumeTypePersistentVolumeClaimTemplateNew); tauto.
Qed.

Lemma claim_not_derived type : is_claim type = true -> ~ derived_type type.
Proof. unfold is_claim. intros H [->| ->]; discriminate H. Qed.

(** The last of the elements with a key is [x]. *)
Definition only {A : Type} (key : A -> string) (l : list A) (x : A) : Prop :=
  x ∈ l /\ forall y, y ∈ l -> key y = key x -> y = x.

Lemma findPVC_only options o : only option_name options o ->
  findPVC options (option_name o) = (option_pvc o, option_pvToMatch o, option_storageClassName o, option_capacity o).
Proof.
  intros [Ho Hu].
  destruct (last_match_cases option_name
    (fun vo => (option_pvc vo, option_pvToMatch vo, option_storageClassName vo, option_capacity vo))
    (option_name o) ("", "", "", "") options) as [(x & Hx & Hk & E)|[Hl _]].
  - apply Hu in Hk as ->; [exact E|done].
  - rewrite Forall_forall in Hl. by destruct (Hl o Ho).
Qed.

Lemma findPVC_none options claimName : Forall (fun o => option_name o <> claimName) options ->
  findPVC options claimName = ("", "", "", "").
Proof.
  apply (last_match_none option_name
    (fun vo => (option_pvc vo, option_pvToMatch vo, option_storageClassName vo, option_capacity vo))).
Qed.

Lemma findClaimName_only options o : only option_pvc options o -> findClaimName options (option_pvc o) = option_name o.
Proof.
  intros [Ho Hu].
  destruct (last_match_cases option_pvc option_name (option_pvc o) "" options) as [(x & Hx & Hk & E)|[Hl _]].
  - apply Hu in Hk as ->; [exact E|done].
  - rewrite Forall_forall in Hl. by destruct (Hl o Ho).
Qed.

Lemma findClaimName_none options pvc : Forall (fun o => option_pvc o <> pvc) options -> findClaimName options pvc = "".
Proof. apply (last_match_none option_pvc option_name). Qed.

Lemma findPVC_cases options claimName :
  (exists o, o ∈ options /\ option_name o = claimName /\
     findPVC options claimName = (option_pvc o, option_pvToMatch o, option_storageClassName o, option_capacity o)) \/
  Forall (fun o => option_name o <> claimName) options /\ findPVC options claimName = ("", "", "", "").
Proof.
  exact (last_match_cases option_name
    (fun vo => (option_pvc vo, option_pvToMatch vo, option_storageClassName vo, option_capacity vo))
    claimName ("", "", "", "") options).
Qed.

(** The volume with another claim. *)
Definition same_place v v' : Prop :=
  vol_type v' = vol_type v /\ vol_path v' = vol_path v /\ vol_hostPath v' = vol_hostPath v.

(** What becomes of a stored volume in a form that is not touched. *)
Definition resubmitted (options : list VolumeOption) v v' : Prop :=
  if is_claim (vol_type v) then
    same_place v v' /\
    (forall o, option_pvc o = vol_pvc v -> only option_pvc options o -> only option_name options o -> claims o v') /\
    (Forall (fun o => option_pvc o <> vol_pvc v /\ option_name o <> "") options -> claims_nothing v')
  else v' = v.

Lemma submit_init_volume options v : ~ derived_type (vol_type v) ->
  resubmitted options v (submit_volume options (init_volume options v)).
Proof.
  intros Ht%submit_type_stored. unfold resubmitted, submit_volume, init_volume.
  destruct (is_claim (vol_type v)) eqn:Hk; [|rewrite Hk, Ht; by destruct v].
  cbn [vol_type vol_claimName vol_path vol_hostPath]. rewrite Hk, Ht.
  destruct (findPVC options (findClaimName options (vol_pvc v))) as [[[pvc pvToMatch] class] size] eqn:E.
  split; [by split_and!|]. split.
  - intros o Hp Hop Hon. rewrite <- Hp, (findClaimName_only _ _ Hop), (findPVC_only _ _ Hon) in E. injection E as <- <- <- <-. by split_and!.
  - intros Hall. rewrite findClaimName_none, findPVC_none in E by (eapply Forall_impl; [exact Hall|]; by intros o []).
    injection E as <- <- <- <-. by split_and!.
Qed.

Lemma set_volumes_volumes component l : comp_volumes (set_volumes component l) = l.
Proof. done. Qed.

Lemma submit_volumes state component :
  comp_volumes (correctComponentFormValuesForSubmit state component) =
    map (submit_volume (offered state component)) <$> comp_volumes component.
Proof. unfold correctComponentFormValuesForSubmit. by destruct (_ || _). Qed.

(** C21: Editing a component without touching its volumes: each volume that is no claim
    is submitted as it was stored.  A claim of a disk is submitted for that disk, with
    the match label, the class and the capacity it is offered with, provided the form
    offers the disk, no other disk offered has the same claim, and none the same name;
    disks of other namespaces, all of which are offered without a claim, do not matter
    to it unless they share the name.  A claim of no disk that is offered, as while the
    options are not loaded, is submitted as no claim at all. *)
Theorem untouched_volumes_resubmitted state component volumes :
  comp_volumes component = Some volumes -> Forall (fun v => ~ derived_type (vol_type v)) volumes ->
  exists volumes',
    comp_volumes (correctComponentFormValuesForSubmit state (correctComponentFormValuesForInit state component)) = Some volumes' /\
    Forall2 (resubmitted (offered state component)) volumes volumes'.
Proof.
  intros Hv Hall. unfold correctComponentFormValuesForInit. rewrite submit_volumes, Hv, set_volumes_volumes.
  eexists. split; [reflexivity|]. rewrite map_map. apply Forall2_fmap_r, Forall_Forall2_diag.
  eapply Forall_impl; [exact Hall|]. intros v. apply submit_init_volume.
Qed.

(** The type a volume of the form has for the server. *)
Definition type_sent (type type' : string) : Prop :=
  type = VolumeTypePersistentVolumeClaimNew /\ type' = VolumeTypePersistentVolumeClaim \/
  type = VolumeTypePersistentVolumeClaimTemplateNew /\ type' = VolumeTypePersistentVolumeClaimTemplate \/
  ~ derived_type type /\ type' = type.

Lemma submit_type_sent type : type_sent type (submit_type type).
Proof.
  unfold submit_type, type_sent, derived_type. destruct (seqb_spec type VolumeTypePersistentVolumeClaimNew); [by left|].
  destruct (seqb_spec type VolumeTypePersistentVolumeClaimTemplateNew); [by right; left|]. right. right. tauto.
Qed.

(** How a volume of the form is submitted by a component with these [options]. *)
Definition submitted_as (options : list VolumeOption) v v' : Prop :=
  type_sent (vol_type v) (vol_type v') /\
  vol_path v' = vol_path v /\ vol_hostPath v' = vol_hostPath v /\ vol_claimName v' = vol_claimName v /\
  if is_claim (vol_type v) then
    (exists o, o ∈ options /\ option_name o = vol_claimName v /\ claims o v') \/
    Forall (fun o => option_name o <> vol_claimName v) options /\ claims_nothing v'
  else vol_pvc v' = vol_pvc v /\ vol_pvToMatch v' = vol_pvToMatch v /\
    vol_storageClassName v' = vol_storageClassName v /\ vol_size v' = vol_size v.

Lemma submit_volume_as options v : submitted_as options v (submit_volume options v).
Proof.
  unfold submitted_as, submit_volume. pose proof (submit_type_sent (vol_type v)) as Ht. destruct (is_claim (vol_type v)).
  - destruct (findPVC_cases options (vol_claimName v)) as [(o & Ho & Hn & ->)|[Hn ->]]; cbn;
      split_and!; try done; [left; by exists o|by right].
  - cbn. by split_and!.
Qed.

(** C22: What a form submits of its volumes, one for each and in their order.  A volume
    that is to be made becomes the claim or the template of it, with the class and the
    size of the form; a volume that selected an existing disk mounts a disk of the
    selected name among those offered to the component, with its claim, match label,
    class and capacity, or, if none has that name, nothing at all; any other volume is
    submitted as it is.  Where all types are those of the form, all that are submitted
    are those of stored volumes; and to a stateful set only disks made for it are offered. *)
Theorem submitted_volumes_offered state component volumes :
  comp_volumes component = Some volumes ->
  exists volumes', comp_volumes (correctComponentFormValuesForSubmit state component) = Some volumes' /\
    Forall2 (submitted_as (offered state component)) volumes volumes' /\
    (Forall (fun v => vol_type v ∈ stored_types \/ derived_type (vol_type v)) volumes ->
      Forall (fun v' => vol_type v' ∈ stored_types) volumes') /\
    (workload component = workloadTypeStatefulSet ->
      Forall (fun o => option_componentName o = Some (comp_name component)) (offered state component)).
Proof.
  intros Hv. rewrite submit_volumes, Hv. eexists. split; [reflexivity|]. split_and!.
  - apply Forall2_fmap_r, Forall_Forall2_diag, Forall_forall. intros v _. apply submit_volume_as.
  - intros Hall. apply Forall_fmap. eapply Forall_impl; [exact Hall|]. intros v Ht. cbn.
    destruct (submit_volume_as (offered state component) v) as [[[_ ->]|[[_ ->]|[Hd ->]]] _]; [set_solver..|]. by destruct Ht.
  - intros Hw. unfold offered, getComponentFormVolumeOptions. rewrite Hw. change (seqb _ _) with true. cbn match.
    apply Forall_forall. intros o Ho. apply list_elem_of_In, filter_In in Ho as [_ Ho]. by apply bool_decide_eq_true in Ho.
Qed.
End forms.

(** ** Limits *)

(** Limits that the user clears are not removed: when the four fields are
    empty the submitted requirements are those the form was loaded with, which
    the server keeps. *)
Theorem cleared_limits_kept {RouterState} (state : RootState RouterState) component :
  (forall field, field ∈ [comp_cpuLimit component; comp_memoryLimit component;
                          comp_cpuRequest component; comp_memoryRequest component] -> truthy field = false) ->
  comp_resourceRequirements (correctComponentFormValuesForSubmit state component) =
    comp_resourceRequirements component.
Proof.
  intros H. unfold correctComponentFormValuesForSubmit.
  rewrite !H by (rewrite !elem_of_cons; tauto). done.
Qed.

(** ** Dates of creation *)

(** The dates that are set: positive time values. *)
Definition set_date (d : option Z) (z : Z) : Prop := d = Some z /\ (0 < z)%Z.

(** [r] is the earliest date set among [ds], and is not set when none is. *)
Definition earliest (r : option Z) (ds : list (option Z)) : Prop :=
  exists z, r = Some z /\
    if decide (0 < z)%Z then Some z ∈ ds /\ (forall w, Some w ∈ ds -> (0 < w)%Z -> (z <= w)%Z)
    else forall w, Some w ∈ ds -> (w <= 0)%Z.

Lemma earliest_cons c d ds r : is_Some d ->
  earliest r (earlier c d :: ds) -> is_Some c -> earliest r (c :: d :: ds).
Proof.
  intros [y ->] (z & -> & Hz) [x ->]. exists z. split; [done|]. unfold earlier, date_le, date_lt in Hz.
  destruct (decide (0 < z)%Z).
  - destruct Hz as [Hin Hle]. split.
    + apply elem_of_cons in Hin as [Hin|Hin]; [|by do 2 right].
      destruct (_ || _); rewrite Hin; [right; left|left].
    + intros w Hw Hpos. apply elem_of_cons in Hw as [[= ->]|Hw]; [|apply elem_of_cons in Hw as [[= ->]|Hw]].
      * destruct (Z.leb_spec x 0); [lia|]. cbn in *. destruct (Z.ltb_spec 0 y), (Z.ltb_spec y x); cbn in *;
          try (apply Hle; [by left|lia]). pose proof (Hle y ltac:(by left) ltac:(lia)). lia.
      * destruct (Z.leb_spec x 0); cbn in *; [apply Hle; [by left|lia]|].
        destruct (Z.ltb_spec 0 y), (Z.ltb_spec y x); cbn in *; try lia; [apply Hle; [by left|lia]|].
        pose proof (Hle x ltac:(by left) ltac:(lia)). lia.
      * apply Hle; [by right|done].
  - intros w Hw. apply elem_of_cons in Hw as [[= ->]|Hw]; [|apply elem_of_cons in Hw as [[= ->]|Hw]].
    + destruct (Z.leb_spec x 0); [lia|]. cbn in *. destruct (Z.ltb_spec 0 y), (Z.ltb_spec y x); cbn in *;
        try (apply Hz; by left). pose proof (Hz y ltac:(by left)). lia.
    + destruct (Z.leb_spec x 0); cbn in *; [apply Hz; by left|].
      destruct (Z.ltb_spec 0 y), (Z.ltb_spec y x); cbn in *; try lia; [apply Hz; by left|].
      pose proof (Hz x ltac:(by left)). lia.
    + apply Hz. by right.
Qed.

Lemma earlier_some c d : is_Some c -> is_Some d -> is_Some (earlier c d).
Proof. intros Hc Hd. unfold earlier. by destruct (_ || _). Qed.

Lemma foldl_earliest c ds : is_Some c -> Forall is_Some ds -> earliest (foldl earlier c ds) (c :: ds).
Proof.
  intros Hc Hds. revert c Hc. induction Hds as [|d ds Hd _ IH]; intros c Hc; cbn.
  - destruct Hc as [z ->]. exists z. split; [done|]. destruct (decide _).
    + split; [by left|]. intros w [= ->]%list_elem_of_singleton. lia.
    + intros w [= ->]%list_elem_of_singleton. lia.
  - apply earliest_cons; [done| |done]. apply IH. by apply earlier_some.
Qed.

Lemma earliest_drop_zero r ds : earliest r (Some 0%Z :: ds) -> earliest r ds.
Proof.
  intros (z & -> & Hz). exists z. split; [done|]. destruct (decide _).
  - destruct Hz as [Hin Hle]. split.
    + apply elem_of_cons in Hin as [[= ->]|Hin]; [lia|done].
    + intros w Hw. apply Hle. by right.
  - intros w Hw. apply Hz. by right.
Qed.

(** The dates of the pods of a component. *)
Definition pod_dates (component : ApplicationComponentDetails) : list (option Z) :=
  (fun p => newDate (pod_createTimestamp p)) <$> cd_pods component.

Lemma component_earliest component : Forall is_Some (pod_dates component) ->
  earliest (getComponentCreatedAtDate component) (pod_dates component).
Proof.
  intros Hall. unfold getComponentCreatedAtDate.
  replace (foldl _ _ _) with (foldl earlier (Some 0%Z) (pod_dates component)).
  - by apply earliest_drop_zero, foldl_earliest.
  - unfold pod_dates. generalize (Some 0%Z : option Z).
    induction (cd_pods component) as [|p ps IH]; intros c; cbn; [done|]. apply IH.
Qed.

Lemma earliest_trans r (cs : list (list (option Z))) (ds : list (option Z)) :
  Forall2 earliest ds cs -> earliest r ds -> earliest r (concat cs).
Proof.
  intros Hall (z & -> & Hz). exists z. split; [done|].
  assert (Hget : forall w, Some w ∈ concat cs -> exists y c, Some y ∈ ds /\ earliest (Some y) c /\ Some w ∈ c).
  { intros w Hw. apply list_elem_of_In, in_concat in Hw as (c & Hc & Hw).
    apply list_elem_of_In, list_elem_of_lookup in Hc as [i Hi].
    destruct (Forall2_lookup_r _ _ _ _ _ Hall Hi) as (d & Hd & He).
    destruct He as (y & -> & He). exists y, c. split; [by eapply list_elem_of_lookup_2|].
    split; [by exists y|by apply list_elem_of_In]. }
  destruct (decide (0 < z)%Z) as [Hpos|Hneg].
  - destruct Hz as [Hin Hle]. split.
    + apply list_elem_of_lookup in Hin as [i Hi].
      destruct (Forall2_lookup_l _ _ _ _ _ Hall Hi) as (c & Hc & (y & [= <-] & Hy)).
      rewrite decide_True in Hy by done. destruct Hy as [Hy _].
      apply list_elem_of_In, in_concat. exists c.
      split; apply list_elem_of_In; [by eapply list_elem_of_lookup_2|done].
    + intros w Hw Hwpos. destruct (Hget w Hw) as (y & c & Hy & (y' & [= <-] & He) & Hc).
      destruct (decide (0 < y)%Z) as [Hyp|Hyn]; [|specialize (He w Hc); lia].
      destruct He as [_ He]. specialize (He w Hc Hwpos). specialize (Hle y Hy Hyp). lia.
  - intros w Hw. destruct (Hget w Hw) as (y & c & Hy & (y' & [= <-] & He) & Hc).
    rewrite decide_False in He by (specialize (Hz y Hy); lia). by apply He.
Qed.

(** An application was created with its first pod: when the time stamps are
    valid dates, the date shown is the earliest positive one over the pods of
    all components, and there is none only when no pod has one. *)
Theorem application_created_with_first_pod components :
  Forall (fun c => Forall is_Some (pod_dates c)) components ->
  earliest (getApplicationCreatedAtDate components) (concat (pod_dates <$> components)).
Proof.
  intros Hall. apply (earliest_trans _ _ (getComponentCreatedAtDate <$> components)).
  { apply Forall2_fmap, Forall_Forall2_diag. eapply Forall_impl; [exact Hall|]. intros c. apply component_earliest. }
  replace (getApplicationCreatedAtDate components)
    with (foldl earlier (Some 0%Z) (getComponentCreatedAtDate <$> components)).
  - apply earliest_drop_zero, foldl_earliest; [done|]. apply Forall_fmap. eapply Forall_impl; [exact Hall|].
    intros c Hc. destruct (component_earliest c Hc) as (z & Hz & _). by exists z.
  - unfold getApplicationCreatedAtDate. clear Hall. generalize (Some 0%Z : option Z).
    induction components as [|p ps IH]; intros c; cbn; [done|]. apply IH.
Qed.

(** ** Witnesses *)

Definition demo_disk (name pvc : string) (component : option string) : VolumeOption :=
  mkVolumeOption name true (Some "shop") component "2Gi" pvc (pvc +:+ "-pv") "standard".

Definition demo_volume (type pvc claimName : string) : Volume :=
  mkVolume type "/data" "2Gi" "standard" pvc (pvc +:+ "-pv") claimName None.

(** A state that offers two disks to simple components and one to a stateful set. *)
Definition demo_state : RootState unit :=
  let s := root_initialState boot_empty tt in
  mkRootState unit (root_namespaces s) (root_applications s) (root_components s) (root_auth s) tt
    (root_notification s) (root_dialogs s) (root_nodes s) (root_registries s)
    (mkPersistentVolumeState [] [] [demo_disk "logs" "pvc-1" None; demo_disk "cache" "pvc-2" None]
       [demo_disk "data" "pvc-3" (Some "")])
    (root_settings s) (root_roles s) (root_routes s) (root_cluster s) (root_tutorial s) (root_services s)
    (root_certificates s) (root_debounce s) (root_sso s) (root_deployAccessTokens s) (root_domain s).

Definition demo_component (type : option string) (volumes : list Volume) : ComponentLike :=
  set_volumes (set_workloadType newEmptyComponentLike type) (Some volumes).

(** A volume that is no claim, one of a disk that is offered, and one of a disk that
    is not: it loses its claim. *)
Lemma untouched_volumes_resubmitted_witness :
  let kept := demo_volume "pvc" "pvc-2" "" in
  let lost := demo_volume "pvc" "pvc-9" "" in
  let component := demo_component None [kept; demo_volume "emptyDir" "" ""; lost] in
  exists v1 v3, comp_volumes (correctComponentFormValuesForSubmit demo_state
      (correctComponentFormValuesForInit demo_state component)) = Some [v1; demo_volume "emptyDir" "" ""; v3] /\
    forget_claimName v1 = kept /\ claims_nothing v3.
Proof.
  intros kept lost component.
  destruct (untouched_volumes_resubmitted demo_state component [kept; demo_volume "emptyDir" "" ""; lost] eq_refl)
    as (volumes' & Hv & Hall).
  { repeat constructor; by intros [?|?]. }
  apply Forall2_cons_inv_l in Hall as (v1 & l1 & (Hp1 & H1 & _) & Hall & ->).
  apply Forall2_cons_inv_l in Hall as (v2 & l2 & H2 & Hall & ->).
  apply Forall2_cons_inv_l in Hall as (v3 & l3 & (_ & _ & H3) & Hall & ->). apply Forall2_nil_inv_l in Hall as ->.
  change (v2 = demo_volume "emptyDir" "" "") in H2. subst v2. exists v1, v3. split; [exact Hv|]. split.
  - destruct (H1 (demo_disk "cache" "pvc-2" None)) as (E1 & E2 & E3 & E4); [done| | |].
    + split; [right; left|]. intros y Hy. change (y ∈ [demo_disk "logs" "pvc-1" None; demo_disk "cache" "pvc-2" None]) in Hy. rewrite !elem_of_cons, elem_of_nil in Hy. by destruct Hy as [->|[->|[]]].
    + split; [right; left|]. intros y Hy. change (y ∈ [demo_disk "logs" "pvc-1" None; demo_disk "cache" "pvc-2" None]) in Hy. rewrite !elem_of_cons, elem_of_nil in Hy. by destruct Hy as [->|[->|[]]].
    + destruct Hp1 as (E5 & E6 & E7). destruct v1. cbn in *. by subst.
  - apply H3. repeat constructor; done.
Defined.

Definition demo_database : ComponentLike := demo_component (Some "statefulset") [demo_volume "pvcTemplate" "" "data"; demo_volume "pvc-new" "" ""].

Lemma submitted_volumes_offered_witness :
  exists v1 v2, comp_volumes (correctComponentFormValuesForSubmit demo_state demo_database) = Some [v1; v2] /\
    vol_pvc v1 = "pvc-3" /\ vol_pvToMatch v1 = "pvc-3-pv" /\ vol_type v2 = "pvc" /\ vol_size v2 = "2Gi".
Proof.
  destruct (submitted_volumes_offered demo_state demo_database _ eq_refl) as (volumes' & Hv & Hall & _).
  apply Forall2_cons_inv_l in Hall as (v1 & l1 & (_ & _ & _ & _ & H1) & Hall & ->).
  apply Forall2_cons_inv_l in Hall as (v2 & l2 & (Ht & _ & _ & _ & _ & _ & _ & H2) & Hall & ->).
  apply Forall2_nil_inv_l in Hall as ->. exists v1, v2. split; [exact Hv|].
  destruct H1 as [(o & Ho & _ & E1 & E2 & _)|[Hn _]].
  - change (o ∈ [demo_disk "data" "pvc-3" (Some "")]) in Ho. apply list_elem_of_singleton in Ho as ->. split; [exact E1|]. split; [exact E2|].
    split; [|exact H2]. destruct Ht as [[_ ->]|[[[=] _]|[[] _]]]; [done|by left].
  - exfalso. by apply Forall_cons in Hn as [[] _].
Defined.

Lemma cleared_limits_kept_witness :
  comp_resourceRequirements (correctComponentFormValuesForSubmit demo_state newEmptyComponentLike) =
    comp_resourceRequirements newEmptyComponentLike.
Proof. apply cleared_limits_kept. intros field H. set_unfold in H. naive_solver. Defined.

Definition demo_pod (createTimestamp : number) : PodStatus :=
  mkPodStatus "web-1" "node-1" "Running" "Running" "" [] "10.0.0.1" "Running" createTimestamp createTimestamp
    false (num 0) [] [] (mkMetrics false [] []).

Definition demo_details (pods : list PodStatus) : ApplicationComponentDetails :=
  mkComponentDetails newEmptyComponentLike (mkMetrics false [] []) pods []
    (mkIstio None None None None None None None None).

Lemma application_created_with_first_pod_witness :
  let components := [demo_details [demo_pod (num 1600000000000); demo_pod (num 0)];
                     demo_details [demo_pod (num 1500000000000)]; demo_details []] in
  getApplicationCreatedAtDate components = Some 1500000000000%Z /\
  earliest (getApplicationCreatedAtDate components) (concat (pod_dates <$> components)).
Proof.
  split; [vm_compute; reflexivity|]. apply application_created_with_first_pod.
  repeat constructor; apply (bool_decide_unpack _); vm_compute; reflexivity.
Defined.
