(* ===== verification/Utils.v ===== *)
(** The utilities of the front end: [utils/color.ts], [utils/string.ts],
    [utils/date.ts], [utils/index.ts], [utils/domain.ts], [utils/ip.ts],
    [utils/sizeConv.ts], [permission/utils.ts], [pages/Route/util.ts], and the
    choice of a certificate in [forms/Route/index.tsx]. *)

From Corelib Require Import Floats.SpecFloat.
From S2P Require Import Prelude JsString JsNumber ResourceTypes Validators.

(** ** [utils/color.ts] *)

(** [ToInt32(z)] *)
Definition to_int32 (z : Z) : Z :=
  let m := (z mod 2 ^ 32)%Z in if (m <? 2 ^ 31)%Z then m else (m - 2 ^ 32)%Z.

Definition char_code (c : ascii) : Z := Z.of_N (code c).

(** One step of the hash: the number itself is not reduced to 32 bits. *)
Definition hash_step (hash : Z) (c : ascii) : Z :=
  (char_code c + (to_int32 (Z.shiftl (to_int32 hash) 5) - hash))%Z.

Fixpoint string_hash (hash : Z) (s : string) : Z :=
  match s with
  | "" => hash
  | String c s' => string_hash (hash_step hash c) s'
  end.

Definition hex_digit (v : Z) : ascii :=
  ascii_of_N (Z.to_N (if (v <? 10)%Z then 48 + v else 87 + v)).

(** [v.toString(16)] for [0 <= v < 256] *)
Definition byte_to_hex (v : Z) : string :=
  if (v <? 16)%Z then String (hex_digit v) "" else String (hex_digit (v / 16)) (String (hex_digit (v mod 16)) "").

(** [s.substr(-n)] *)
Definition last_chars (n : nat) (s : string) : string := str_drop (String.length s - n) s.

Definition stringToColor (s : string) : string :=
  let hash := string_hash 0 s in
  let value i := Z.land (Z.shiftr (to_int32 hash) (i * 8)) 255 in
  let digits i := last_chars 2 ("00" +:+ byte_to_hex (value i)) in
  "#" +:+ digits 0%Z +:+ digits 1%Z +:+ digits 2%Z.

(** ** [utils/string.ts] *)

Definition to_upper_char (a : ascii) : ascii :=
  if is_lower a then ascii_of_N (code a - 32) else a.

(** The first letter in upper case, for the letters of ASCII. *)
Definition capitalize (str : string) : string :=
  map_chars to_upper_char (charAt0 str) +:+ str_drop 1 str.

Definition pluralize (str : string) (num : Z) : string :=
  if (1 <? num)%Z then int_to_string num +:+ " " +:+ str +:+ "s"
  else if (num =? 0)%Z then "No " +:+ str +:+ "s"
  else int_to_string num +:+ " " +:+ str.

(** ** [utils/date.ts]: times are in milliseconds *)

Definition getStartTimestamp (now : Z) (filter : string) : Z :=
  let intervals :=
    if seqb filter "1h" then (60 * 60 * 1000)%Z
    else if seqb filter "12h" then (60 * 60 * 12 * 1000)%Z
    else if seqb filter "24h" then (60 * 60 * 24 * 1000)%Z
    else if seqb filter "7days" then (60 * 60 * 24 * 7 * 1000)%Z
    else (60 * 60 * 24 * 365 * 1000)%Z in
  (now - intervals)%Z.

(** [minutes] is the whole number of minutes [differenceInMinutes] counts. *)
Definition formatTimeDistance (minutes : Z) : string :=
  if (minutes <=? 1)%Z then "1m"
  else
    let day := (minutes / 1440)%Z in
    let hour := ((minutes - day * 1440) / 60)%Z in
    let rest := (minutes - day * 1440 - hour * 60)%Z in
    (if (0 <? day)%Z then int_to_string day +:+ "d " else "") +:+
    (if (0 <? hour)%Z then int_to_string hour +:+ "h " else "") +:+
    (if (0 <? rest)%Z then int_to_string rest +:+ "m" else "").

(** ** [utils/index.ts] *)

Record ResError := mkResError { res_key : string; res_message : string }.

(** A value of the errors of a form: a message, or messages by field. *)
Inductive SubmitError := ErrorText (message : string) | ErrorFields (fields : gmap string string).

Definition submit_error (submitErrors : gmap string SubmitError) (error : ResError) : gmap string SubmitError :=
  match split_char "." (res_key error) with
  | _ :: k1 :: rest =>
      if seqb k1 "" then submitErrors
      else if seqb k1 "name" then <["name" := ErrorText (res_message error)]> submitErrors
      else match rest with
           | k2 :: _ =>
               if startsWith "components" k1 && negb (seqb k2 "") then
                 match submitErrors !! k1 with
                 | Some (ErrorFields fields) => <[k1 := ErrorFields (<[k2 := res_message error]> fields)]> submitErrors
                 | Some (ErrorText _) => submitErrors
                 | None => <[k1 := ErrorFields {[k2 := res_message error]}]> submitErrors
                 end
               else submitErrors
           | [] => submitErrors
           end
  | _ => submitErrors
  end.

Definition resErrorsToSubmitErrors (errors : list ResError) : gmap string SubmitError :=
  foldl submit_error ∅ errors.

(** The loop over both arrays, on strings. *)
Fixpoint same_items (arr1 arr2 : list string) : bool :=
  match arr1, arr2 with
  | x :: arr1', y :: arr2' => if negb (seqb x y) then false else same_items arr1' arr2'
  | _, _ => true
  end.

Definition arraysMatch (arr1 arr2 : list string) : bool :=
  if negb (length arr1 =? length arr2) then false else same_items arr1 arr2.

(** ** [utils/domain.ts] *)

Definition forceHttpsDomainSuffixes : list string :=
  [ "android"; "app"; "bank"; "chrome"; "dev"; "foo"; "gle"; "gmail"; "google"; "hangout"; "insurance"; "meet";
    "new"; "page"; "play"; "search"; "youtube"; "bmoattachments.org"; "now.sh"; "cnpy.gdn"; "gentapps.com" ].

Definition includesForceHttpsDomain (hosts : list string) : list string :=
  List.filter (fun suffix => existsb (fun host => endsWith suffix host) hosts) forceHttpsDomainSuffixes.

(** ** [utils/ip.ts] *)

(** [parseInt(x, 10) >= n] and [<= n]; [NaN] is neither. *)
Definition int_ge (x : option Z) (n : Z) : bool := match x with Some z => (n <=? z)%Z | None => false end.
Definition int_le (x : option Z) (n : Z) : bool := match x with Some z => (z <=? n)%Z | None => false end.

(** [parseInt(undefined, 10)] is [NaN]. *)
Definition parse_part (part : option string) : option Z := part ≫= parseInt.

Definition isPrivateIP (ip : string) : bool :=
  let parts := split_char "." ip in
  let part_is i s := match parts !! i with Some p => seqb p s | None => false end in
  part_is 0 "10" ||
  (part_is 0 "172" && int_ge (parse_part (parts !! 1)) 16 && int_le (parse_part (parts !! 1)) 31) ||
  (part_is 0 "192" && part_is 1 "168").

(** ** [utils/sizeConv.ts] *)

(** The units in the order of the object's properties. *)
Definition unitMap : list (string * number) :=
  [ ("Ki", num (2 ^ 10)); ("Mi", num (2 ^ 20)); ("Gi", num (2 ^ 30)); ("Ti", num (2 ^ 40)); ("Pi", num (2 ^ 50));
    ("Ei", num (2 ^ 60)); ("m", ndiv (num 1) (num 1000)); ("k", num (10 ^ 3)); ("M", num (10 ^ 6)); ("G", num (10 ^ 9));
    ("T", num (10 ^ 12)); ("P", num (10 ^ 15)); ("E", num (10 ^ 18)) ].

Definition unit_value (unit_ : string) : option number :=
  snd <$> List.find (fun e => seqb e.1 unit_) unitMap.

(** The digits at the front of a text and the rest. *)
Fixpoint span_digits (s : string) : string * string :=
  match s with
  | String c s' => if is_digit c then let '(ds, rest) := span_digits s' in (String c ds, rest) else ("", s)
  | "" => ("", "")
  end.

(** The match of [^(?<value>\d+(\.\d+)?)(?<unit>...)?$]: the digits before the
    point and the unit, which the expression determines. *)
Definition match_size (str : string) : option (string * string) :=
  let '(whole, rest) := span_digits str in
  if seqb whole "" then None
  else
    let unit_ :=
      match rest with
      | String "." rest' =>
          let '(decimals, rest'') := span_digits rest' in if seqb decimals "" then None else Some rest''
      | _ => Some rest
      end in
    match unit_ with
    | Some u => if seqb u "" || (if unit_value u is Some _ then true else false) then Some (whole, u) else None
    | None => None
    end.

(** [parseInt] of the value stops at the point. *)
Definition sizeStringToNumber (str : string) : number :=
  match match_size str with
  | None => num 0
  | Some (whole, unit_) =>
      let base := num (parse_digits 0 whole) in
      match unit_value unit_ with Some u => nmul base u | None => base end
  end.

(** ** [permission/utils.ts] *)

Fixpoint max_loop (args : list number) (max : number) : number :=
  match args with
  | [] => max
  | arg :: rest => max_loop rest (if ngt arg max then arg else max)
  end.

Definition maxIn (args : list number) : number :=
  match args with [] => num 0 | first :: _ => max_loop args first end.

(** ** [pages/Route/util.ts] *)

Definition displaySvcNameUnder (serviceName namespace : string) : string :=
  replace_first ("." +:+ namespace) "" (replace_first ".svc.cluster.local" "" serviceName).

(** ** [forms/Route/index.tsx] *)

Fixpoint canCertDomainsSuiteForHost (domains : list string) (host : string) : bool :=
  match domains with
  | [] => false
  | domain :: rest =>
      if seqb domain "*" then false
      else if seqb (toLowerCase domain) (toLowerCase host) then true
      else
        let domainParts := split_char "." (toLowerCase domain) in
        let hostParts := split_char "." (toLowerCase host) in
        if (length hostParts =? 0) || (length domainParts =? 0) ||
           negb (match domainParts with p :: _ => seqb p "*" | [] => false end)
        then canCertDomainsSuiteForHost rest host
        else if arraysMatch (tail hostParts) (tail domainParts) then true
        else canCertDomainsSuiteForHost rest host
  end.
