(* ===== verification/UtilFacts.v ===== *)
(** The utilities: colours are well formed, private addresses are those of the
    three reserved ranges, and a certificate is chosen for a host exactly when
    one of its domains covers the host. *)

From S2P Require Import Prelude JsString Regex JsNumber ResourceTypes Validators ValidatorFacts Utils.

(** ** Colours *)

(** The hash modulo 2^32: the polynomial of the characters at 31. *)
Fixpoint poly_hash (hash : Z) (s : string) : Z :=
  match s with
  | "" => hash
  | String c s' => poly_hash ((31 * hash + char_code c) mod 2 ^ 32) s'
  end.

Definition hex2 (v : Z) : string := String (hex_digit (v / 16)) (String (hex_digit (v mod 16)) "").
Definition is_hex (c : ascii) : bool := is_digit c || has_char c "abcdef".

Lemma to_int32_bounds z : (- 2 ^ 31 <= to_int32 z < 2 ^ 31)%Z.
Proof. unfold to_int32. pose proof (Z.mod_pos_bound z (2 ^ 32) eq_refl). destruct (Z.ltb_spec (z mod 2 ^ 32) (2 ^ 31)); lia. Qed.

Lemma to_int32_cases z : exists e, to_int32 z = (z mod 2 ^ 32 - 2 ^ 32 * e)%Z /\ (e = 0 \/ e = 1)%Z.
Proof.
  unfold to_int32. destruct (Z.ltb_spec (z mod 2 ^ 32) (2 ^ 31)); [exists 0%Z | exists 1%Z]; lia.
Qed.

Lemma to_int32_mod z : (to_int32 z mod 2 ^ 32 = z mod 2 ^ 32)%Z.
Proof.
  destruct (to_int32_cases z) as (e & -> & _). rewrite Zminus_mod, Zmult_mod, Z_mod_same_full.
  rewrite Z.mul_0_l, Zmod_0_l, Z.sub_0_r, !Zmod_mod. done.
Qed.

Lemma hash_step_mod hash c : (hash_step hash c mod 2 ^ 32 = (31 * hash + char_code c) mod 2 ^ 32)%Z.
Proof.
  unfold hash_step. rewrite Z.shiftl_mul_pow2 by done. change (2 ^ 5)%Z with 32%Z.
  rewrite Zplus_mod, Zminus_mod, to_int32_mod, Zmult_mod, to_int32_mod.
  rewrite <- Zmult_mod, <- Zminus_mod, <- Zplus_mod. f_equal. lia.
Qed.

Lemma char_code_bounds c : (0 <= char_code c < 256)%Z.
Proof. unfold char_code, code. pose proof (N_ascii_bounded c). lia. Qed.

Lemma hash_step_bound hash c : (Z.abs (hash_step hash c) <= Z.abs hash + (2 ^ 31 + 255))%Z.
Proof.
  unfold hash_step. pose proof (char_code_bounds c).
  pose proof (to_int32_bounds (Z.shiftl (to_int32 hash) 5)). lia.
Qed.

Lemma string_hash_bound s : forall hash,
  (Z.abs (string_hash hash s) <= Z.abs hash + Z.of_nat (String.length s) * (2 ^ 31 + 255))%Z.
Proof.
  induction s as [|c s IH]; intros hash; [cbn; lia|].
  cbn [string_hash String.length]. pose proof (IH (hash_step hash c)). pose proof (hash_step_bound hash c). lia.
Qed.

Lemma string_hash_poly s : forall hash, (string_hash hash s mod 2 ^ 32 = poly_hash (hash mod 2 ^ 32) s)%Z.
Proof.
  induction s as [|c s IH]; intros hash; cbn [string_hash poly_hash]; [done|].
  rewrite IH, hash_step_mod. f_equal.
  by rewrite <- (Zplus_mod_idemp_l (31 * (hash mod 2 ^ 32))), Zmult_mod_idemp_r, Zplus_mod_idemp_l.
Qed.

(** A byte of a 32-bit integer. *)
Lemma byte_of_int32 z i : (0 <= i <= 2)%Z ->
  Z.land (Z.shiftr (to_int32 z) (i * 8)) 255 = ((z mod 2 ^ 32) / 2 ^ (i * 8) mod 256)%Z.
Proof.
  intros Hi. change 255%Z with (Z.ones 8). rewrite Z.land_ones, Z.shiftr_div_pow2 by lia. change (2 ^ 8)%Z with 256%Z.
  destruct (to_int32_cases z) as (e & -> & _). generalize (z mod 2 ^ 32)%Z as m. intros m.
  replace (m - 2 ^ 32 * e)%Z with (m + (- (2 ^ (32 - i * 8 - 8) * e) * 256) * 2 ^ (i * 8))%Z.
  - rewrite Z.div_add by (apply Z.pow_nonzero; lia). by rewrite Z_mod_plus_full.
  - assert (i = 0 \/ i = 1 \/ i = 2)%Z as [-> | [-> | ->]] by lia; cbn; lia.
Qed.

Lemma last_two_hex v : (0 <= v < 256)%Z ->
  last_chars 2 ("00" +:+ byte_to_hex v) = hex2 v /\ str_forall is_hex (hex2 v) = true.
Proof.
  intros Hv. assert (H : forallb (fun n => let v := Z.of_nat n in
    seqb (last_chars 2 ("00" +:+ byte_to_hex v)) (hex2 v) && str_forall is_hex (hex2 v)) (seq 0 256) = true)
    by (vm_compute; reflexivity).
  rewrite forallb_forall in H. specialize (H (Z.to_nat v)). cbv zeta in H. rewrite Z2Nat.id in H by lia.
  apply Bool.andb_true_iff in H as [H1%seqb_true H2]; [done|]. apply in_seq. lia.
Qed.

(** The colour of a text is a colour: a number sign and six hexadecimal digits,
    the three low bytes of the polynomial hash of its characters.  The code keeps
    the hash as a number that is not cut to 32 bits; for texts of less than two
    million characters it stays below 2^53, where numbers are exact integers. *)
Theorem stringToColor_bytes s : (Z.of_nat (String.length s) < 2 ^ 21)%Z ->
  (forall n, (Z.abs (string_hash 0 (str_take n s)) < 2 ^ 53)%Z) /\
  exists r g b, stringToColor s = "#" +:+ r +:+ g +:+ b /\
    r = hex2 (poly_hash 0 s mod 256) /\ g = hex2 (poly_hash 0 s / 256 mod 256) /\
    b = hex2 (poly_hash 0 s / 65536 mod 256) /\ str_forall is_hex (r +:+ g +:+ b) = true.
Proof.
  intros Hlen. split.
  - intros n. pose proof (string_hash_bound (str_take n s) 0) as Hb. rewrite length_str_take in Hb. lia.
  - assert (Hp : (string_hash 0 s mod 2 ^ 32 = poly_hash 0 s)%Z) by apply (string_hash_poly s 0).
    assert (Hbyte : forall q, (0 <= q mod 256 < 256)%Z) by (intros q; by apply Z.mod_pos_bound).
    do 3 eexists. split; [|split; [reflexivity|split; [reflexivity|split; [reflexivity|]]]].
    + unfold stringToColor. rewrite !byte_of_int32 by lia. rewrite Hp.
      change (2 ^ (0 * 8))%Z with 1%Z. change (2 ^ (1 * 8))%Z with 256%Z. change (2 ^ (2 * 8))%Z with 65536%Z.
      rewrite Z.div_1_r. by rewrite !(fun q => proj1 (last_two_hex _ (Hbyte q))).
    + rewrite !str_forall_app, !(fun q => proj2 (last_two_hex _ (Hbyte q))). done.
Qed.

Lemma stringToColor_bytes_witness : stringToColor "kalm" = "#571d32" /\
  exists r g b, stringToColor "kalm" = "#" +:+ r +:+ g +:+ b /\ str_forall is_hex (r +:+ g +:+ b) = true.
Proof.
  split; [vm_compute; reflexivity|].
  destruct (stringToColor_bytes "kalm") as [_ (r & g & b & H & _ & _ & _ & Hh)]; [done|]. by exists r, g, b.
Defined.

(** ** Private addresses *)

Definition dotted (a b c d : nat) : string := join "." (nat_to_string <$> [a; b; c; d]).

Lemma split_dotted a b c d : split_char "." (dotted a b c d) = nat_to_string <$> [a; b; c; d].
Proof.
  apply split_char_join; [done|]. apply Forall_fmap, Forall_true. intros n. cbn.
  eapply (str_forall_has_char is_digit); [done|apply nat_to_string_digits].
Qed.

Lemma nat_to_string_seqb n m : seqb (nat_to_string n) (nat_to_string m) = bool_decide (n = m).
Proof.
  destruct (seqb_spec (nat_to_string n) (nat_to_string m)) as [E%nat_to_string_inj|E]; symmetry.
  - by apply bool_decide_eq_true_2.
  - apply bool_decide_eq_false_2. by intros ->.
Qed.

Lemma parseInt_nat n : parseInt (nat_to_string n) = Some (Z.of_nat n).
Proof.
  rewrite <- (parseInt_int_to_string (Z.of_nat n)). unfold int_to_string.
  destruct (Z.ltb_spec (Z.of_nat n) 0); [lia|]. by rewrite Nat2Z.id.
Qed.

(** A dotted address is private exactly in the ranges 10.0.0.0/8, 172.16.0.0/12
    and 192.168.0.0/16. *)
Theorem isPrivateIP_ranges a b c d :
  isPrivateIP (dotted a b c d) = true <-> a = 10 \/ (a = 172 /\ 16 <= b <= 31) \/ (a = 192 /\ b = 168).
Proof.
  unfold isPrivateIP. rewrite split_dotted. cbn [fmap list_fmap lookup list_lookup parse_part mbind option_bind].
  unfold parse_part. cbn [mbind option_bind]. rewrite !parseInt_nat. cbn [int_ge int_le].
  change "10" with (nat_to_string 10). change "172" with (nat_to_string 172). change "192" with (nat_to_string 192).
  change "168" with (nat_to_string 168). rewrite !nat_to_string_seqb, !Bool.orb_true_iff, !Bool.andb_true_iff, !bool_decide_eq_true.
  rewrite !Z.leb_le. lia.
Qed.

(** ** Certificates for a host *)

Lemma split_char_parts c s : Forall (fun x => has_char c x = false) (split_char c s).
Proof.
  induction s as [|a s IH]; cbn; [by repeat constructor|]. case_decide as Ha; [by constructor|].
  destruct (split_char c s) as [|h t]; [by repeat constructor; cbn; rewrite bool_decide_false|]. apply Forall_cons in IH as [Hh Ht].
  constructor; [|done]. cbn. by rewrite bool_decide_false, Hh.
Qed.

Lemma same_items_eq l1 : forall l2, length l1 = length l2 -> same_items l1 l2 = bool_decide (l1 = l2).
Proof.
  induction l1 as [|x l1 IH]; intros [|y l2] Hl; try done. cbn.
  destruct (seqb_spec x y) as [->|Hxy]; cbn.
  - rewrite IH by (cbn in Hl; lia). apply bool_decide_ext. split; [by intros ->|by intros [= ->]].
  - symmetry. apply bool_decide_eq_false_2. by intros [= ? _].
Qed.

Lemma arraysMatch_eq l1 l2 : arraysMatch l1 l2 = bool_decide (l1 = l2).
Proof.
  unfold arraysMatch. destruct (Nat.eqb_spec (length l1) (length l2)) as [E|E]; cbn; [by apply same_items_eq|].
  symmetry. apply bool_decide_eq_false_2. by intros ->.
Qed.

(** A name stands for itself, and a name that starts with [*.] stands for those
    with one other label in its place; letters are compared without case. *)
Definition covers (domain host : string) : Prop :=
  toLowerCase domain = toLowerCase host \/
  exists label suffix, toLowerCase domain = "*." +:+ suffix /\ toLowerCase host = label +:+ "." +:+ suffix /\
    has_char "." label = false.

Lemma split_head c x y t s : split_char c s = x :: y :: t ->
  s = x +:+ String c "" +:+ join (String c "") (y :: t) /\ has_char c x = false.
Proof.
  intros E. rewrite <- (join_split_char c s) at 1. pose proof (split_char_parts c s) as Hp. rewrite E in *.
  by inversion Hp.
Qed.

Lemma toLowerCase_star s : toLowerCase s = "*" -> s = "*".
Proof.
  destruct s as [|c [|c' s]]; try done. cbn. intros [= H]. f_equal.
  assert (Hall : forallb (fun c => bool_decide (to_lower_char c = "*"%char -> c = "*"%char)) all_chars = true)
    by (vm_compute; reflexivity).
  rewrite forallb_forall in Hall. specialize (Hall c (proj1 (list_elem_of_In _ _) (all_chars_elem c))).
  by apply bool_decide_eq_true in Hall; apply Hall.
Qed.

Lemma wildcard_covers domain host : domain <> "*" ->
  (match split_char "." (toLowerCase domain) with p :: _ => seqb p "*" | [] => false end = true /\
   tail (split_char "." (toLowerCase host)) = tail (split_char "." (toLowerCase domain))) <->
  exists label suffix, toLowerCase domain = "*." +:+ suffix /\ toLowerCase host = label +:+ "." +:+ suffix /\
    has_char "." label = false.
Proof.
  intros Hd. split.
  - destruct (split_char "." (toLowerCase domain)) as [|p [|q t]] eqn:Ed; [by intros []| |].
    + intros [->%seqb_true _]. destruct Hd. apply toLowerCase_star.
      by rewrite <- (join_split_char "." (toLowerCase domain)), Ed.
    + intros [->%seqb_true Ht]. cbn in Ht.
      destruct (split_char "." (toLowerCase host)) as [|x t'] eqn:Eh; [done|]. cbn in Ht. subst t'.
      apply split_head in Ed as [Ed _], Eh as [Eh Hx]. by exists x, (join "." (q :: t)).
  - intros (label & suffix & Ed & Eh & Hl). rewrite Ed, Eh.
    change ("*." +:+ suffix) with ("*" +:+ String "." suffix).
    change (label +:+ "." +:+ suffix) with (label +:+ String "." suffix).
    rewrite (split_char_app "." "*" suffix), (split_char_app "." label suffix) by done. by split.
Qed.

(** A certificate is offered for a host exactly when one of its domains covers
    the host and no domain before it is the bare star: the domain is the host, or
    it is a star and a dot followed by what follows the first label of the host,
    in any case. *)
Theorem certificate_for_host domains host :
  canCertDomainsSuiteForHost domains host = true <->
  exists i domain, domains !! i = Some domain /\ covers domain host /\
    forall j d, j <= i -> domains !! j = Some d -> d <> "*".
Proof.
  induction domains as [|d rest IH]; cbn [canCertDomainsSuiteForHost]; [split; [done|by intros (i & x & H & _)]|].
  destruct (seqb_spec d "*") as [->|Hd].
  { split; [done|]. intros (i & x & _ & _ & Hno). by destruct (Hno 0 "*" ltac:(lia)). }
  assert (Hrest : (exists i x, rest !! i = Some x /\ covers x host /\ forall j y, j <= i -> rest !! j = Some y -> y <> "*") ->
    exists i x, (d :: rest) !! i = Some x /\ covers x host /\ forall j y, j <= i -> (d :: rest) !! j = Some y -> y <> "*").
  { intros (i & x & Hi & Hc & Hno). exists (S i), x. split; [done|]. split; [done|].
    intros [|j] y Hj Hy; [by injection Hy as <-|]. apply (Hno j y); [lia|done]. }
  assert (Hfirst : covers d host ->
    exists i x, (d :: rest) !! i = Some x /\ covers x host /\ forall j y, j <= i -> (d :: rest) !! j = Some y -> y <> "*").
  { intros Hc. exists 0, d. split; [done|]. split; [done|]. intros j y Hj Hy. assert (j = 0) as -> by lia. by injection Hy as <-. }
  assert (Hinv : ~ covers d host -> (exists i x, (d :: rest) !! i = Some x /\ covers x host /\
      forall j y, j <= i -> (d :: rest) !! j = Some y -> y <> "*") ->
    exists i x, rest !! i = Some x /\ covers x host /\ forall j y, j <= i -> rest !! j = Some y -> y <> "*").
  { intros Hn ([|i] & x & Hi & Hc & Hno); [by injection Hi as ->|]. exists i, x. split; [done|]. split; [done|].
    intros j y Hj Hy. apply (Hno (S j) y); [lia|done]. }
  destruct (seqb_spec (toLowerCase d) (toLowerCase host)) as [E|E].
  { split; [|done]. intros _. apply Hfirst. by left. }
  pose proof (wildcard_covers d host Hd) as Hw. pose proof (split_char_ne "." (toLowerCase host)) as Hh.
  destruct (split_char "." (toLowerCase host)) as [|h hs]; [done|]. cbn [length Nat.eqb orb].
  pose proof (split_char_ne "." (toLowerCase d)) as Hdn.
  destruct (split_char "." (toLowerCase d)) as [|p ps]; [done|]. cbn [length Nat.eqb orb tail] in *.
  rewrite arraysMatch_eq. destruct (seqb p "*"); cbn [negb].
  - case_bool_decide as Ht.
    + split; [|done]. intros _. apply Hfirst. right. by apply Hw.
    + rewrite IH. split; [apply Hrest|apply Hinv]. intros [?|Hc]; [done|]. by apply Hw in Hc as [_ ?].
  - rewrite IH. split; [apply Hrest|apply Hinv]. intros [?|Hc]; [done|]. by apply Hw in Hc as [? _].
Qed.

Example certificate_examples :
  canCertDomainsSuiteForHost ["kalm.dev"; "*.Example.com"; "*"] "shop.example.com" = true /\
  canCertDomainsSuiteForHost ["*"; "shop.example.com"] "shop.example.com" = false.
Proof. split; vm_compute; reflexivity. Qed.
