(* ===== verification/FormChecks.v ===== *)
(** What the forms of routes and components do beyond their validators: the
    corrections a route gets while it is edited ([forms/Route/index.tsx]), the
    targets it offers ([forms/Route/destinations.tsx]), and the check of the ports
    of a component ([forms/ComponentLike/index.tsx]). *)

From Corelib Require Import Floats.SpecFloat.
From S2P Require Import Prelude JsString JsNumber ResourceTypes Validators Utils.

(** ** [RouteFormRaw] *)

Definition set_schemes (v : HttpRoute) (schemes : list string) : HttpRoute :=
  mkHttpRoute (route_name v) (route_namespace v) (route_hosts v) (route_paths v) (route_methods v) schemes
    (route_stripPath v) (route_conditions v) (route_destinations v) (route_httpRedirectToHttps v) (route_timeout v)
    (route_retries v) (route_mirror v) (route_fault v) (route_delay v) (route_cors v) (route_methodsMode v).
Definition set_httpRedirectToHttps (v : HttpRoute) (b : bool) : HttpRoute :=
  mkHttpRoute (route_name v) (route_namespace v) (route_hosts v) (route_paths v) (route_methods v) (route_schemes v)
    (route_stripPath v) (route_conditions v) (route_destinations v) (Some b) (route_timeout v)
    (route_retries v) (route_mirror v) (route_fault v) (route_delay v) (route_cors v) (route_methodsMode v).

Definition has_scheme (s : string) (schemes : list string) : bool := existsb (seqb s) schemes.

(** [componentDidUpdate]: the hosts whose DNS records are loaded, and the values
    after the calls of [setFieldValue]; [hostsChanged] says whether the array of
    hosts is another one than before. *)
Definition componentDidUpdate (hostsChanged : bool) (values : HttpRoute) : list string * HttpRoute :=
  let hosts := route_hosts values in
  let schemes := route_schemes values in
  let loaded := if hostsChanged then hosts else [] in
  let values1 :=
    if negb (has_scheme "https" schemes) && Nat.ltb 0 (length (includesForceHttpsDomain hosts))
    then if has_scheme "http" schemes then set_schemes values ["http"; "https"] else set_schemes values ["https"]
    else values in
  let values2 :=
    if negb (has_scheme "http" schemes && has_scheme "https" schemes) && default false (route_httpRedirectToHttps values)
    then set_httpRedirectToHttps values1 false else values1 in
  (loaded, values2).

(** The result of the search for certificates of the hosts. *)
Definition hostCertResults (certifications : list Certificate) (hosts : list string) : list (string * option Certificate) :=
  (fun host => (host, List.find (fun c => canCertDomainsSuiteForHost (cert_domains c) host) certifications)) <$> hosts.
Definition missingCertsHosts (certifications : list Certificate) (hosts : list string) : list string :=
  fst <$> List.filter (fun r => negb (bool_decide (is_Some r.2))) (hostCertResults certifications hosts).

(** The link with the address of the cluster adds it to the hosts; an empty host
    that is found does not hold. *)
Definition add_ingressIP (ingressIP : string) (hosts : list string) : list string :=
  if existsb (fun host => seqb host ingressIP) hosts && negb (seqb ingressIP "") then hosts else hosts ++ [ingressIP].

(** ** [RenderHttpRouteDestinationsRaw] *)

Record KAutoCompleteOption := mkOption { opt_value : string; opt_label : string; opt_group : string }.

(** An integer as text. *)
Definition number_to_Z (n : number) : Z :=
  match n with
  | S754_finite s m e =>
      let v := if (0 <=? e)%Z then Z.shiftl (Zpos m) e else Z.shiftr (Zpos m) (- e) in
      if s then (- v)%Z else v
  | _ => 0%Z
  end.
Definition int_text (n : number) : string := int_to_string (number_to_Z n).

Definition system_namespaces : list string :=
  ["default"; "kalm-operator"; "kalm-imgconv"; "kube-system"; "istio-system"; "cert-manager"; "istio-operator"].
Definition http_protocols : list string :=
  [PortProtocolHTTP; PortProtocolHTTP2; PortProtocolHTTPS; PortProtocolGRPC; PortProtocolGRPCWEB].

Definition port_option (activeNamespace : string) (svc : Service) (port : ServicePort) : KAutoCompleteOption :=
  mkOption
    (service_name svc +:+ "." +:+ service_namespace svc +:+ ".svc.cluster.local:" +:+ int_text (sp_port port))
    (service_name svc +:+ ":" +:+ int_text (sp_port port) +:+ "(" +:+ sp_appProtocol port +:+ ")")
    (if seqb (service_namespace svc) activeNamespace then service_namespace svc +:+ " (Current)" else service_namespace svc).

Definition destination_options (activeNamespace : string) (services : list Service) : list KAutoCompleteOption :=
  concat ((fun svc =>
      port_option activeNamespace svc <$> List.filter (fun p => existsb (seqb (sp_appProtocol p)) http_protocols) (service_ports svc))
    <$> List.filter (fun svc => negb (existsb (seqb (service_namespace svc)) system_namespaces)) services).

Definition new_destination : HttpRouteDestination := mkDestination "" (num 1).

(** ** [validate] of the form of components *)

Definition truthy_port (n : number) : bool := negb (isNaN n || neqb n (num 0)).

(** [port.servicePort || port.containerPort], [None] when it does not hold. *)
Definition listening_port (port : ComponentLikePort) : option number :=
  let servicePort := if truthy_port (servicePort port) then servicePort port else containerPort port in
  if truthy_port servicePort then Some servicePort else None.

(** One round of the loop: the keys seen and [errors.ports]. *)
Definition check_port (e : list string * option string) (port : ComponentLikePort) : list string * option string :=
  match listening_port port with
  | None => e
  | Some servicePort =>
      let protocol := port_protocol port in
      let protocolServicePort := protocol +:+ "-" +:+ int_text servicePort in
      if negb (existsb (seqb protocolServicePort) e.1) then (protocolServicePort :: e.1, e.2)
      else if negb (seqb protocolServicePort "")
      then (e.1, Some ("Listening port on a protocol should be unique.  " +:+ protocol +:+ " - " +:+ int_text servicePort))
      else e
  end.

Definition validate (ports : option (list ComponentLikePort)) : option string :=
  match ports with
  | Some ports => (foldl check_port ([], None) ports).2
  | None => None
  end.

(** The validation of the form is [validate(values) || ...]: the errors of the
    first operand are an object, which always holds, so the rules of a tutorial
    are not asked.  [tutorial_errors] is the second operand. *)
Definition component_form_errors (ports : option (list ComponentLikePort)) (tutorial_errors : gmap string string)
    : gmap string string :=
  let errors : gmap string string := match validate ports with Some e => {["ports" := e]} | None => ∅ end in
  errors.

(** The tab of the form that the hash of the address names. *)
Definition tabs : list string := ["Config"; "Networking"; "Disks"; "Health"; "Pod Scheduling"; "Deployment Strategy"; "Access"].
Fixpoint strip_spaces (s : string) : string :=
  match s with
  | "" => ""
  | String c s' => if is_ws c then strip_spaces s' else String c (strip_spaces s')
  end.
Fixpoint index_of (x : string) (l : list string) (i : nat) : option nat :=
  match l with
  | [] => None
  | y :: l' => if seqb y x then Some i else index_of x l' (S i)
  end.
(** [hash.replace("#", "")] removes the first [#]. *)
Fixpoint drop_hash (hash : string) : string :=
  match hash with
  | "" => ""
  | String c hash' => if decide (c = "#"%char) then hash' else String c (drop_hash hash')
  end.
Definition currentTabIndex (hash : string) : nat :=
  default 0 (index_of (drop_hash hash) (strip_spaces <$> tabs) 0).

Definition nameValidators (value : option string) : option string :=
  match ValidatorRequired (match value with Some v => FString v | None => FUndefined end) with
  | Some e => if seqb e "" then ValidatorName value else Some e
  | None => ValidatorName value
  end.

(** ** Facts *)

(** Two routes differ at most in their schemes and in the redirection. *)
Definition same_otherwise (v v' : HttpRoute) : Prop :=
  route_name v' = route_name v /\ route_namespace v' = route_namespace v /\ route_hosts v' = route_hosts v /\
  route_paths v' = route_paths v /\ route_methods v' = route_methods v /\ route_stripPath v' = route_stripPath v /\
  route_conditions v' = route_conditions v /\ route_destinations v' = route_destinations v /\
  route_timeout v' = route_timeout v /\ route_retries v' = route_retries v /\ route_mirror v' = route_mirror v /\
  route_fault v' = route_fault v /\ route_delay v' = route_delay v /\ route_cors v' = route_cors v /\
  route_methodsMode v' = route_methodsMode v.

(** C24: The corrections of a route settle.  After one update of the form nothing is
    left to correct: a second update sets nothing.  Then https is allowed exactly if it
    was or a host is under a domain that forces it, and http exactly if it was.  The
    schemes are as they were unless https had to be added.  A redirection from http to
    https is kept exactly if both were allowed, one that was off or missing is left as
    it was, and nothing else of the route changes.  The records of the hosts are asked
    for exactly if the hosts are others. *)
Theorem route_form_settles hostsChanged v : let v' := (componentDidUpdate hostsChanged v).2 in
  let forced := includesForceHttpsDomain (route_hosts v) <> [] in
  componentDidUpdate false v' = ([], v') /\
  (has_scheme "https" (route_schemes v') = true <-> has_scheme "https" (route_schemes v) = true \/ forced) /\
  has_scheme "http" (route_schemes v') = has_scheme "http" (route_schemes v) /\
  (has_scheme "https" (route_schemes v) = true \/ ~ forced -> route_schemes v' = route_schemes v) /\
  (route_httpRedirectToHttps v' = Some true <-> route_httpRedirectToHttps v = Some true /\
     has_scheme "http" (route_schemes v) = true /\ has_scheme "https" (route_schemes v) = true) /\
  (route_httpRedirectToHttps v <> Some true -> route_httpRedirectToHttps v' = route_httpRedirectToHttps v) /\
  same_otherwise v v' /\
  (componentDidUpdate hostsChanged v).1 = if hostsChanged then route_hosts v else [].
Proof.
  unfold componentDidUpdate, same_otherwise. cbn [fst snd].
  destruct (has_scheme "https" (route_schemes v)) eqn:Es, (has_scheme "http" (route_schemes v)) eqn:Eh,
    (includesForceHttpsDomain (route_hosts v)) as [|d l] eqn:Ef, (route_httpRedirectToHttps v) as [[|]|] eqn:Er;
    cbn -[includesForceHttpsDomain has_scheme]; rewrite ?Es, ?Eh, ?Ef, ?Er; cbn -[includesForceHttpsDomain has_scheme]; rewrite ?Es, ?Eh, ?Ef, ?Er, ?Bool.andb_false_r; split_and!; naive_solver.
Qed.

(** *** Ports *)

Definition small_port (z : Z) : bool := (0 <=? z)%Z && (z <=? 65535)%Z.

(** [f] holds of [n] numbers from [z] on. *)
Fixpoint all_from (f : Z -> bool) (n : nat) (z : Z) : bool :=
  match n with 0 => true | S n => f z && all_from f n (Z.succ z) end.

Lemma all_from_spec f n : forall z x, all_from f n z = true -> (z <= x < z + Z.of_nat n)%Z -> f x = true.
Proof.
  induction n as [|n IH]; intros z x; cbn [all_from]; [lia|]. intros [Hz Hn]%Bool.andb_true_iff Hx.
  destruct (decide (x = z)) as [->|]; [done|]. apply (IH (Z.succ z)); [done|lia].
Qed.

(** The numbers of ports are printed as their decimal digits. *)
Lemma number_to_Z_port z : small_port z = true -> number_to_Z (num z) = z.
Proof.
  intros [H1%Z.leb_le H2%Z.leb_le]%Bool.andb_true_iff. apply Z.eqb_eq.
  apply (all_from_spec (fun z => (number_to_Z (num z) =? z)%Z) (Z.to_nat 65536) 0); [vm_compute; reflexivity|lia].
Qed.

(** A port of the form: what is left to the digits of the normaliser. *)
Definition port_in_range (port : ComponentLikePort) : Prop :=
  forall n, listening_port port = Some n -> exists z, small_port z = true /\ n = num z.

(** A protocol with a port number. *)
Definition port_key (port : ComponentLikePort) : option (string * number) :=
  pair (port_protocol port) <$> listening_port port.
Definition port_text (key : string * number) : string := key.1 +:+ "-" +:+ int_text key.2.

Lemma last_dash a a' d d' : has_char "-" d = false -> has_char "-" d' = false ->
  a +:+ "-" +:+ d = a' +:+ "-" +:+ d' -> a = a' /\ d = d'.
Proof.
  intros Hd Hd'. revert a'. induction a as [|c a IH]; intros [|c' a'] H; cbn in H.
  - by injection H as ->.
  - injection H as <- ->. exfalso. clear -Hd. induction a'; cbn in Hd; [done|]. apply Bool.orb_false_iff in Hd as [_ Hd]. auto.
  - injection H as -> <-. exfalso. clear -Hd'. induction a; cbn in Hd'; [done|]. apply Bool.orb_false_iff in Hd' as [_ Hd']. auto.
  - injection H as -> H. destruct (IH a' H) as [-> ->]. done.
Qed.

Lemma port_text_inj p z p' z' : small_port z = true -> small_port z' = true ->
  port_text (p, num z) = port_text (p', num z') -> (p, num z) = (p', num z').
Proof.
  intros Hz Hz'. unfold port_text, int_text. cbn [fst snd]. rewrite !number_to_Z_port by done.
  assert (Hs : forall z, small_port z = true -> int_to_string z = nat_to_string (Z.to_nat z)).
  { intros x [H%Z.leb_le _]%Bool.andb_true_iff. unfold int_to_string. by rewrite (proj2 (Z.ltb_ge _ _)) by done. }
  rewrite !Hs by done. intros [-> H]%last_dash.
  - apply nat_to_string_inj in H. apply Bool.andb_true_iff in Hz as [Hz%Z.leb_le _], Hz' as [Hz'%Z.leb_le _].
    do 2 f_equal. lia.
  - by eapply (str_forall_has_char is_digit); [|apply nat_to_string_digits].
  - by eapply (str_forall_has_char is_digit); [|apply nat_to_string_digits].
Qed.

Lemma check_ports ports : forall keys error,
  (foldl check_port (keys, error) ports).2 = None <->
  error = None /\ NoDup (port_text <$> omap port_key ports) /\ forall x, x ∈ port_text <$> omap port_key ports -> x ∉ keys.
Proof.
  induction ports as [|port ports IH]; intros keys error; cbn [foldl omap list_omap].
  { cbn. split; [intros ->|by intros [? _]]. split_and!; [done|apply NoDup_nil_2|set_solver]. }
  unfold check_port at 2. destruct (listening_port port) as [n|] eqn:Hl.
  2:{ assert (port_key port = None) as -> by (unfold port_key; by rewrite Hl). apply IH. }
  assert (port_key port = Some (port_protocol port, n)) as -> by (unfold port_key; by rewrite Hl).
  cbn [fmap list_fmap fst snd]. change (port_protocol port +:+ "-" +:+ int_text n) with (port_text (port_protocol port, n)).
  set (x := port_text (port_protocol port, n)). rewrite existsb_seqb.
  destruct (bool_decide_reflect (x ∈ keys)) as [Hin|Hin]; cbn [negb].
  - assert (seqb x "" = false) as -> by (apply seqb_false; subst x; unfold port_text; by destruct (port_protocol port)).
    cbn [negb]. rewrite IH. split; [by intros [? _]|]. intros (_ & _ & H). destruct (H x); [left|done].
  - rewrite IH, NoDup_cons. split.
    + intros (-> & Hnd & H). split_and!; [done| |done|].
      * intros Hx. apply (H x Hx). left.
      * intros y [->|Hy]%elem_of_cons; [done|]. intros Hk. apply (H y Hy). by right.
    + intros (-> & [Hx Hnd] & H). split_and!; [done|done|]. intros y Hy [->|Hk]%elem_of_cons; [done|].
      apply (H y); [by right|done].
Qed.

(** The check of a component's ports.  For ports in the range of the
    normaliser, the form has an error exactly when two ports listen at the same
    number with the same protocol, where a port without a service port listens at
    its container port, and a port without either is not looked at. *)
Theorem validate_unique ports : Forall port_in_range ports ->
  validate (Some ports) = None <-> NoDup (omap port_key ports).
Proof.
  intros Hr. unfold validate. rewrite check_ports. split.
  - intros (_ & H & _). by eapply NoDup_fmap_1.
  - intros H. split_and!; [done| |set_solver]. apply NoDup_fmap_2_strong; [|done].
    assert (Hk : forall k, k ∈ omap port_key ports -> exists p z, small_port z = true /\ k = (p, num z)).
    { intros k (port & Hin & Hk)%list_elem_of_omap. rewrite Forall_forall in Hr. unfold port_key in Hk.
      destruct (listening_port port) as [n|] eqn:Hl; [|done]. injection Hk as <-.
      destruct (Hr _ Hin _ Hl) as (z & Hz & ->). by exists (port_protocol port), z. }
    intros k k' (p & z & Hz & ->)%Hk (p' & z' & Hz' & ->)%Hk. by apply port_text_inj.
Qed.

Lemma validate_unique_witness :
  validate (Some [mkPort "http" (num 80) NaN; mkPort "tcp" (num 80) NaN; mkPort "http" (num 81) (num 82)]) = None.
Proof.
  apply validate_unique.
  - repeat constructor; intros n; cbn; intros [= <-]; [exists 80%Z|exists 80%Z|exists 82%Z]; by split.
  - apply (bool_decide_eq_true_1 _). vm_compute. reflexivity.
Defined.
