(* ===== verification/Tutorials.v ===== *)
(** The tutorials: the functions their steps are made of ([tutorials/utils.ts]),
    the names they choose, the check marks and highlights of the drawer
    ([pages/Tutorial]), and the guard of the pages ([permission/Authorization.tsx]). *)

From S2P Require Import Prelude JsString Rbac JsNumber ResourceTypes ActionTypes ReducerUtils UiReducers RootReducer RootFacts Validators ValidatorFacts UiFacts.

(** ** [tutorials/utils.ts] *)

Definition APPLICATION_FORM_ID : string := "application".
Definition COMPONENT_FORM_ID : string := "component".
Definition CERTIFICATE_FORM_ID : string := "certificate".

(** Truth of a value; [None] is [undefined]. *)
Definition truthy_js (v : option JsValue) : bool :=
  match v with
  | None | Some JUndefined | Some JNull => false
  | Some (JBool b) => b
  | Some (JNumber n) => negb (isNaN n || neqb n (num 0))
  | Some (JString s) => negb (seqb s "")
  | Some (JArray _) | Some (JObject _) => true
  end.

(** [===] of a value of a form and a value of a tutorial: arrays and objects of
    the two are never the same object. *)
Definition strict_equal (v w : option JsValue) : bool :=
  match v, w with
  | (None | Some JUndefined), (None | Some JUndefined) => true
  | Some JNull, Some JNull => true
  | Some (JBool a), Some (JBool b) => Bool.eqb a b
  | Some (JNumber a), Some (JNumber b) => neqb a b
  | Some (JString a), Some (JString b) => seqb a b
  | _, _ => false
  end.

(** [v[0]] *)
Definition at_zero (v : JsValue) : option JsValue :=
  match v with
  | JArray l => head l
  | JString s => if seqb s "" then None else Some (JString (charAt0 s))
  | JObject fields => snd <$> List.find (fun e => seqb e.1 "0") fields
  | _ => None
  end.

Section tutorials.
Context {R : Type}.
(** [state.router.location.pathname] *)
Variable pathname_of : R -> string.
(** [getIn] of formik. *)
Variable getIn : JsValue -> string -> option JsValue.
(** The functions the references of a tutorial denote. *)
Variable call_state : FnRef -> RootState R -> bool.
(** They throw on values that are not those of a form. *)
Variable call_validate : FnRef -> option JsValue -> result (option string).
Implicit Types (state : RootState R).

Definition current_step (s : TutorialState) : option TutorialStep :=
  t ← tutorial s; at_index (tut_steps t) (currentStepIndex s).

(** The rules of a sub-step add the messages of their fields. *)
Definition rule_error (form : string) (values : JsValue) (errors : gmap string string) (rule : FormValidator)
    : result (gmap string string) :=
  if seqb (fv_form rule) form then
    error ← call_validate (fv_validate rule) (getIn values (fv_field rule));
    match error with
    | Some error => Ok (if seqb error "" then errors else <[fv_field rule := error]> errors)
    | None => Ok errors
    end
  else Ok errors.

Definition formikValidateOrNotBlockByTutorial (values : JsValue) (tutorialState : TutorialState) (form : string)
    : result (gmap string string) :=
  match current_step tutorialState with
  | None => Ok ∅
  | Some currentStep =>
      forEachM (fun errors subStep => forEachM (rule_error form values) (default [] (sub_formValidator subStep)) errors)
        (step_subSteps currentStep) ∅
  end.

(** The sub-step says itself that it is complete. *)
Definition complete_by_state state (currentStep : TutorialStep) (i : nat) : option bool :=
  subStep ← step_subSteps currentStep !! i; f ← sub_shouldCompleteByState subStep; Some (call_state f state).

Definition requireSubStepNotCompleted state (subStepIndexes : list nat) : bool :=
  let tutorialState := root_tutorial state in
  match current_step tutorialState with
  | None => false
  | Some currentStep =>
      forallb (fun i =>
          negb (completed (tutorialStepStatus tutorialState) (currentStepIndex tutorialState) i) &&
          negb (default false (complete_by_state state currentStep i)))
        subStepIndexes
  end.

Definition requireSubStepCompleted state (subStepIndexes : list nat) : bool :=
  let tutorialState := root_tutorial state in
  match current_step tutorialState with
  | None => false
  | Some currentStep =>
      forallb (fun i =>
          completed (tutorialStepStatus tutorialState) (currentStepIndex tutorialState) i &&
          default true (complete_by_state state currentStep i))
        subStepIndexes
  end.

Definition form_values state (form : string) : option JsValue :=
  match formValues (root_tutorial state) ≫= fun m => m !! form with
  | Some values => if truthy_js (Some values) then Some values else None
  | None => None
  end.

Definition getFormValue state (form field : string) : option JsValue :=
  values ← form_values state form; getIn values field.

Definition isFormFieldValueEqualTo state (form field : string) (value : JsValue) : bool :=
  match form_values state form with
  | None => false
  | Some values =>
      match getIn values field with
      | Some (JArray l) => strict_equal (head l) (at_zero value)
      | v => strict_equal v (Some value)
      end
  end.

Definition isFormFieldMeet state (form field : string) (cb : JsValue -> bool) : bool :=
  match getFormValue state form field with
  | Some value => truthy_js (Some value) && cb value
  | None => false
  end.

Definition isApplicationFormFieldValueEqualTo state (field value : string) : bool :=
  isFormFieldValueEqualTo state APPLICATION_FORM_ID field (JString value).
Definition isComponentFormFieldValueEqualTo state (field value : string) : bool :=
  isFormFieldValueEqualTo state COMPONENT_FORM_ID field (JString value).
Definition isCertificateFormFieldValueEqualTo state (field : string) (value : JsValue) : bool :=
  isFormFieldValueEqualTo state CERTIFICATE_FORM_ID field value.

Definition isUnderPath state (paths : list string) : bool :=
  existsb (seqb (pathname_of (root_router state))) paths.

(** ** [pages/Tutorial/TutorialSubStep.tsx] *)

(** What the check mark of a sub-step dispatches when the page updates. *)
Definition updateCompletionStatus state (subStep : TutorialSubStep) (stepIndex subStepIndex : nat)
    : option TutorialActions :=
  match sub_shouldCompleteByState subStep with
  | None => None
  | Some f =>
      let tutorialState := root_tutorial state in
      let completionByState :=
        if (currentStepIndex tutorialState =? Z.of_nat stepIndex)%Z then call_state f state else false in
      let isCompleted := completed (tutorialStepStatus tutorialState) (Z.of_nat stepIndex) subStepIndex in
      if isCompleted && default false (sub_irrevocable subStep) then None
      else if negb (Bool.eqb completionByState isCompleted)
      then Some (SET_TUTORIAL_STEP_COMPLETION_STATUS completionByState stepIndex subStepIndex)
      else None
  end.

(** ** [pages/Tutorial/Highlight.tsx] *)

(** [x < y] on the results of [parseInt]; comparisons with [NaN] are false. *)
Definition int_lt (x : option Z) (y : Z) : bool := match x with Some x => (x <? y)%Z | None => false end.
Definition int_eq (x : option Z) (y : Z) : bool := match x with Some x => (x =? y)%Z | None => false end.

Definition notTriggered (latestHighlight : option string) (stepIndex highlightIndex : nat) : bool :=
  match latestHighlight with
  | None => true
  | Some latest =>
      if seqb latest "" then true
      else
        let parts := parseInt <$> split_char "-" latest in
        let prevStepIndex := mjoin (parts !! 0) in
        let prevHighlightIndex := mjoin (parts !! 1) in
        int_lt prevStepIndex (Z.of_nat stepIndex) ||
        (int_eq prevStepIndex (Z.of_nat stepIndex) && int_lt prevHighlightIndex (Z.of_nat highlightIndex))
  end.

Definition shouldTrigger state (highlight : TutorialHighlight) (stepIndex highlightIndex : nat) : bool :=
  let tutorialState := root_tutorial state in
  if (currentStepIndex tutorialState =? Z.of_nat stepIndex)%Z &&
     notTriggered (latestHighlight tutorialState) stepIndex highlightIndex
  then match hl_triggeredByState highlight with Some f => call_state f state | None => false end
  else false.

Definition highlight_update state (highlight : TutorialHighlight) (stepIndex highlightIndex : nat)
    : option TutorialActions :=
  if shouldTrigger state highlight stepIndex highlightIndex
  then Some (SET_TUTORIAL_HIGHLIGHT_STATUS stepIndex highlightIndex) else None.
End tutorials.

(** ** [tutorials/formMidware.tsx] *)

(** [changed] says whether the values are another object than before; when the
    form appears there are none before. *)
Definition formMidware_update (tutorialDrawerOpen changed : bool) (form : string) (values : JsValue)
    : option TutorialActions :=
  if tutorialDrawerOpen && changed then Some (SET_TUTORIAL_FORM_VALUES form values) else None.

(** ** The names of the tutorials' applications and certificates *)

Definition tutorial_name (i : nat) : string :=
  if i =? 0 then "tutorial" else "tutorial-" +:+ nat_to_string i.

(** [while (names.find((name) => name === current)) { i += 1; ... }] *)
Fixpoint free_name (fuel : nat) (names : list string) (i : nat) (current : string) : option string :=
  if existsb (fun name => seqb name current) names then
    match fuel with
    | 0 => None
    | S fuel => free_name fuel names (S i) ("tutorial-" +:+ nat_to_string (S i))
    end
  else Some current.

Definition applicationName (fuel : nat) (apps : list ApplicationDetails) : option string :=
  free_name fuel (app_name <$> apps) 0 "tutorial".
Definition certificateName (fuel : nat) (certificates : list Certificate) : option string :=
  free_name fuel (cert_name <$> certificates) 0 "tutorial".

(** ** The address the second tutorial shows *)

(** [ip.replace(/\./g, "-")] *)
Definition dashes (ip : string) : string :=
  map_chars (fun c => if decide (c = "."%char) then "-"%char else c) ip.

Definition tutorial_domain (clusterIngressIP : string) : string :=
  dashes (if seqb clusterIngressIP "" then "10.0.0.1" else clusterIngressIP) +:+ ".nip.io".

(** [port] is the port as text, when it is not 80. *)
Definition finialLink (clusterIngressIP : string) (port : option string) : string :=
  "http://" +:+ tutorial_domain clusterIngressIP +:+ "/echoserver" +:+
  match port with Some p => ":" +:+ p | None => "" end.

(** ** [permission/Authorization.tsx] *)

Record GuardOptions := mkGuardOptions { mustAuthorized : bool; mustNotAuthorized : bool }.

(** The paths pushed, in order, when the guard updates. *)
Definition guard_redirects (o : GuardOptions) (auth : AuthState) : list string :=
  if auth_isLoading auth && negb (auth_firstLoaded auth) then []
  else
    (if negb (auth_authorized auth) && mustAuthorized o then ["/login"] else []) ++
    (if auth_authorized auth && mustNotAuthorized o then ["/"] else []) ++
    (if auth_authorized auth && seqb (auth_policies auth) "" then ["/profile"] else []).

Inductive Guarded := GuardLoading | GuardNothing | GuardPage.

Definition guard_render (o : GuardOptions) (auth : AuthState) : Guarded :=
  if negb (auth_firstLoaded auth) && auth_isLoading auth then GuardLoading
  else if (negb (auth_authorized auth) && mustAuthorized o) || (auth_authorized auth && mustNotAuthorized o)
  then GuardNothing
  else GuardPage.

Definition RequireAuthorizated : GuardOptions := mkGuardOptions true false.
Definition RequireNotAuthorizated : GuardOptions := mkGuardOptions false true.

(** ** Facts *)

Lemma tutorial_name_0 : tutorial_name 0 = "tutorial".
Proof. done. Qed.

#[export] Instance tutorial_name_inj : Inj (=) (=) tutorial_name.
Proof.
  intros i j. unfold tutorial_name. destruct (Nat.eqb_spec i 0) as [->|Hi], (Nat.eqb_spec j 0) as [->|Hj]; try done.
  intros H%sapp_inj_l%nat_to_string_inj. done.
Qed.

Lemma existsb_name names current : existsb (fun name => seqb name current) names = true <-> current ∈ names.
Proof.
  rewrite existsb_exists. split.
  - intros (x & Hx & ->%seqb_true). by apply list_elem_of_In.
  - intros Hin. exists current. split; [by apply list_elem_of_In|apply seqb_refl].
Qed.

Lemma free_name_spec fuel names : forall i,
  (forall j, j < i -> tutorial_name j ∈ names) -> length names < i + S fuel ->
  exists k, free_name fuel names i (tutorial_name i) = Some (tutorial_name k) /\
    tutorial_name k ∉ names /\ forall j, j < k -> tutorial_name j ∈ names.
Proof.
  induction fuel as [|fuel IH]; intros i Htaken Hfuel; cbn [free_name];
    pose proof (existsb_name names (tutorial_name i)) as He; destruct (existsb _ _).
  - exfalso. assert (Hsub : tutorial_name <$> seq 0 (S i) ⊆+ names).
    { apply NoDup_submseteq; [apply NoDup_fmap_2; [apply _|apply NoDup_seq]|].
      intros x (j & -> & Hj)%list_elem_of_fmap. apply elem_of_seq in Hj.
      destruct (decide (j = i)) as [->|]; [by apply He|apply Htaken; lia]. }
    apply submseteq_length in Hsub. rewrite length_fmap, length_seq in Hsub. lia.
  - exists i. split; [done|]. split; [|done]. by intros ?%He.
  - change ("tutorial-" +:+ nat_to_string (S i)) with (tutorial_name (S i)). apply IH; [|lia].
    intros j Hj. destruct (decide (j = i)) as [->|]; [by apply He|apply Htaken; lia].
  - exists i. split; [done|]. split; [|done]. by intros ?%He.
Qed.

(** The loop that names a tutorial's application ends: one round for each
    application is enough, and the name is the first of [tutorial],
    [tutorial-1], [tutorial-2] and so on that no application has. *)
Theorem applicationName_terminates apps :
  exists k, applicationName (length apps) apps = Some (tutorial_name k) /\
    tutorial_name k ∉ app_name <$> apps /\ forall j, j < k -> tutorial_name j ∈ app_name <$> apps.
Proof.
  apply (free_name_spec (length apps) (app_name <$> apps) 0); [lia|]. rewrite length_fmap. lia.
Qed.

(** The position of a highlight as the reducer stores it is read back. *)
Lemma notTriggered_spec s h s' h' :
  notTriggered (Some (nat_to_string s +:+ "-" +:+ nat_to_string h)) s' h' = true <->
  s < s' \/ (s = s' /\ h < h').
Proof.
  unfold notTriggered.
  assert (Hd : forall n, has_char "-" (nat_to_string n) = false).
  { intros n. by eapply (str_forall_has_char is_digit); [|apply nat_to_string_digits]. }
  destruct (seqb_spec (nat_to_string s +:+ "-" +:+ nat_to_string h) "") as [E|_].
  { pose proof (nat_to_string_ne s). by destruct (nat_to_string s). }
  change ("-" +:+ nat_to_string h) with (String "-" (nat_to_string h)).
  rewrite split_char_app, split_char_none by apply Hd.
  assert (Hp : forall n, parseInt (nat_to_string n) = Some (Z.of_nat n)).
  { intros n. rewrite parseInt_digits by (apply nat_to_string_ne || apply nat_to_string_digits). apply parse_nat. }
  cbn [fmap list_fmap lookup list_lookup]. rewrite !Hp. cbn [mjoin option_join int_lt int_eq].
  rewrite Bool.orb_true_iff, Bool.andb_true_iff, !Z.ltb_lt, Z.eqb_eq. lia.
Qed.

Section pages.
Context {R : Type}.
Variable call_state : FnRef -> RootState R -> bool.
Variable call : FnRef -> Actions -> bool.
Implicit Types (state : RootState R).

Lemma reduce_highlight init s st t step i h : tutorial s = Some t -> at_index (tut_steps t) (currentStepIndex s) = Some step ->
  tutorial_reducer call init s st (SET_TUTORIAL_HIGHLIGHT_STATUS i h) =
    Ok (mkTutorialState (drawerOpen s) (tutorial s) (tutorialStepStatus s)
          (Some (nat_to_string i +:+ "-" +:+ nat_to_string h)) (currentStepIndex s) (formValues s), st).
Proof. intros Ht Hs. cbn. unfold tutorial_progress. by rewrite Ht, Hs. Qed.

(** Highlights only move forward.  When the page shows a highlight, the action
    it dispatches is reduced without an error and leaves the tutorial where it
    is; afterwards exactly the highlights of later steps, or behind it in its own
    step, can still be shown, so none is shown a second time. *)
Theorem highlights_move_forward init state st highlight stepIndex highlightIndex action step :
  current_step (root_tutorial state) = Some step ->
  highlight_update call_state state highlight stepIndex highlightIndex = Some action ->
  exists s', tutorial_reducer call init (root_tutorial state) st action = Ok (s', st) /\
    currentStepIndex s' = Z.of_nat stepIndex /\ tutorialStepStatus s' = tutorialStepStatus (root_tutorial state) /\
    forall i h, notTriggered (latestHighlight s') i h = true <->
      stepIndex < i \/ (stepIndex = i /\ highlightIndex < h).
Proof.
  intros (t & Ht & Hs)%bind_Some. unfold highlight_update, shouldTrigger.
  destruct (Z.eqb_spec (currentStepIndex (root_tutorial state)) (Z.of_nat stepIndex)) as [Hi|]; [|done].
  destruct (_ && _); [|done]. destruct (match hl_triggeredByState _ with Some _ => _ | None => _ end); [|done].
  intros [= <-]. rewrite (reduce_highlight _ _ _ t step) by done. eexists. split; [reflexivity|]. cbn.
  split; [done|]. split; [done|]. intros i h. apply notTriggered_spec.
Qed.

(** The check mark of a sub-step: what it dispatches makes the status of the
    sub-step what the state says. *)
Lemma check_mark_settles init state st subStep stepIndex subStepIndex action step :
  current_step (root_tutorial state) = Some step ->
  updateCompletionStatus call_state state subStep stepIndex subStepIndex = Some action ->
  exists s' shown, action = SET_TUTORIAL_STEP_COMPLETION_STATUS shown stepIndex subStepIndex /\
    tutorial_reducer call init (root_tutorial state) st action = Ok (s', st) /\
    completed (tutorialStepStatus s') (Z.of_nat stepIndex) subStepIndex = shown.
Proof.
  intros (t & Ht & Hs)%bind_Some. unfold updateCompletionStatus. destruct (sub_shouldCompleteByState subStep) as [f|]; [|done].
  destruct (_ && _); [done|]. set (shown := if Z.eqb _ _ then _ else _). destruct (negb _); [|done]. intros [= <-].
  cbn. unfold tutorial_progress. rewrite Ht, Hs.
  match goal with |- context [tryMoveToNextStep ?s1] =>
    destruct (tryMove_spec s1 t step Ht Hs) as (s' & -> & _ & Hst) end.
  exists s', shown. split; [done|]. split; [done|]. rewrite Hst. unfold completed. cbn. by rewrite lookup_insert_eq.
Qed.
End pages.

(** ** Witness *)

Definition demo_highlight : TutorialHighlight := mkHighlight "Click Here" "" "" None None None None (Some 0).
Definition demo_highlight_root : RootState unit :=
  root_initialState (mkBoot (boot_namespaces boot_empty) (boot_auth boot_empty) (boot_settings boot_empty) demo_state) tt.

Lemma highlights_move_forward_witness :
  exists s', tutorial_reducer app_hook demo_state demo_state ∅ (SET_TUTORIAL_HIGHLIGHT_STATUS 0 0) = Ok (s', ∅) /\
    notTriggered (latestHighlight s') 0 1 = true /\ notTriggered (latestHighlight s') 0 0 = false.
Proof.
  destruct (highlights_move_forward (fun _ _ => true) app_hook demo_state demo_highlight_root ∅ demo_highlight 0 0
    (SET_TUTORIAL_HIGHLIGHT_STATUS 0 0) demo_step) as (s' & He & _ & _ & Hn); [reflexivity|reflexivity|].
  exists s'. split; [exact He|]. split; [apply Hn; lia|]. apply Bool.not_true_iff_false. rewrite Hn. lia.
Defined.
