(* ===== verification/TutorialSteps.v ===== *)
(** The three tutorials ([tutorials/*.tsx]): their steps, and the functions the
    references in the steps denote, one table for each kind of function with the
    references numbered in the order of the source.

    Elements of a title stand for their text.  The drawer shows the check marks
    of the current step; [marks] is their pass over the sub-steps, which React
    makes when the state they show has changed. *)

From S2P Require Import Prelude JsString JsNumber ResourceTypes ActionTypes ReducerUtils ResourceReducers UiReducers RootReducer RootFacts Validators UiFacts Tutorials.

(** ** Values of forms *)

Definition js_type_error (what : string) : string := "TypeError: Cannot read property of " +:+ what.

(** [v.length] *)
Definition js_length (v : option JsValue) : result (option nat) :=
  match v with
  | None | Some JUndefined => Throw (js_type_error "undefined")
  | Some JNull => Throw (js_type_error "null")
  | Some (JArray l) => Ok (Some (length l))
  | Some (JString s) => Ok (Some (String.length s))
  | Some _ => Ok None
  end.

(** [v.includes(x)] for a text [x]. *)
Definition js_includes (v : option JsValue) (x : string) : result bool :=
  match v with
  | Some (JArray l) => Ok (existsb (fun e => strict_equal (Some e) (Some (JString x))) l)
  | Some (JString s) => Ok (includes x s)
  | _ => Throw "TypeError: includes is not a function"
  end.

(** [v.key] of an object. *)
Definition js_get (v : JsValue) (key : string) : option JsValue :=
  match v with
  | JObject fields => snd <$> List.find (fun e => seqb e.1 key) fields
  | _ => None
  end.

Definition js_is (v : option JsValue) (x : string) : bool := strict_equal v (Some (JString x)).

(** [Number(v)]; the texts of numeric fields are decimal integers or empty. *)
Definition js_Number (v : option JsValue) : number :=
  match v with
  | Some (JNumber n) => n
  | Some (JString s) =>
      if seqb s "" then num 0
      else if str_forall is_digit s then match parseInt s with Some z => num z | None => NaN end else NaN
  | Some JNull => num 0
  | Some (JBool b) => num (if b then 1 else 0)
  | _ => NaN
  end.

(** [l.length === 1 && l[0] === x] *)
Definition only_value (v : option JsValue) (x : string) : result bool :=
  n ← js_length v;
  Ok (bool_decide (n = Some 1) && js_is (v ≫= at_zero) x).

(** What a rule returns: the message unless the value is as the tutorial asks. *)
Definition unless_ok (ok : bool) (message : string) : option string := if ok then None else Some message.

Definition ROUTE_FORM_ID : string := "route".
Definition popupTitle : string := "Click Here".

(** Steps, sub-steps and highlights as the factories write them. *)
Definition state_step (title : string) (f : FnRef) (rules : option (list FormValidator)) : TutorialSubStep :=
  mkSubStep (JString title) None rules None (Some f).
Definition path_step (title : string) (f : FnRef) : TutorialSubStep :=
  mkSubStep (JString title) (Some true) None None (Some f).
Definition action_step (title : string) (f : option FnRef) : TutorialSubStep :=
  mkSubStep (JString title) None None f None.
Definition popup (description anchor : string) (f : FnRef) : TutorialHighlight :=
  mkHighlight popupTitle description anchor None None None None (Some f).

Section tutorials.
Context {R : Type}.
Variable pathname_of : R -> string.
Variable getIn : JsValue -> string -> option JsValue.
Implicit Types (state : RootState R).

(** ** [tutorials/basicApplicationCreation.tsx] *)

Definition BasicApplicationCreationTutorial (title applicationName : string) : Tutorial :=
  mkTutorial title [
    mkStep "Create an application"
      (JString "Application is a virtual group of other resources or configurations. It help to organize different deployment environment. For example, production, staging, testing environments can be treated as three applications.")
      None
      [ path_step "Go to applications page" 0;
        path_step "Click the Add button" 1;
        state_step ("Type " +:+ applicationName +:+ " in name field") 2 (Some [mkFormValidator APPLICATION_FORM_ID "name" 0]);
        action_step "Submit form" (Some 0) ]
      [ popup "Go to applications page" "[tutorial-anchor-id=first-level-sidebar-item-apps]" 0;
        popup "Go to new application page" "[tutorial-anchor-id=add-application]" 1 ];
    mkStep "Add a component"
      (JString "Component describes how a program is running, includes start, scheduling, update and termination. Also, you can configure disks, health checker and resources limit for it.")
      None
      [ state_step "Use echoserver as name" 3 (Some [mkFormValidator COMPONENT_FORM_ID "name" 1]);
        state_step "Use kalmhq/echoserver image" 4 (Some [mkFormValidator COMPONENT_FORM_ID "image" 2]);
        state_step "Add an port in advanced networking tab" 5 None;
        state_step "Set the port protocol to http" 6 (Some [mkFormValidator COMPONENT_FORM_ID "ports.0.protocol" 3]);
        state_step "Set container port to 8001" 7 (Some [mkFormValidator COMPONENT_FORM_ID "ports.0.containerPort" 4]);
        state_step "Set service port to 8001 or leave it blank" 8
          (Some [mkFormValidator COMPONENT_FORM_ID "ports.0.servicePort" 5]);
        action_step "Deploy!" (Some 1) ]
      [ popup "Go to add component page" "[tutorial-anchor-id=add-component-button]" 2;
        popup "Go to networking tab" "[tutorial-anchor-id=Networking]" 3 ];
    mkStep "Vailidate Status"
      (JString "Take a look at the component status panel. It shows that your deployment is in progress.") None
      [ state_step "Wait the component to be running." 9 None ] []
  ] (Some ("Add external access for your application.", 0)).

Definition is_CREATE_APPLICATION (action : Actions) : bool :=
  match action with Applications (CREATE_APPLICATION _) => true | _ => false end.
Definition is_CREATE_COMPONENT (action : Actions) : bool :=
  match action with Applications (CREATE_COMPONENT _ _) => true | _ => false end.

Definition basic_action (f : FnRef) (action : Actions) : bool :=
  match f with
  | 0 => is_CREATE_APPLICATION action
  | 1 => is_CREATE_COMPONENT action
  | _ => false
  end.

(** [!!ports && ports.length > 0 && test(ports[0])] *)
Definition first_port state (test : JsValue -> bool) : bool :=
  match getFormValue getIn state COMPONENT_FORM_ID "ports" with
  | Some (JArray (port :: _)) => test port
  | _ => false
  end.

Definition component_running state (applicationName : string) : bool :=
  match components (root_components state) !! applicationName with
  | None => false
  | Some l =>
      match head l ≫= fun component => head (cd_pods component) with
      | None => false
      | Some pod => seqb (pod_phase pod) "Running" && seqb (pod_status pod) "Running"
      end
  end.

(** The hook of the port returns [undefined] while the form has no ports, which
    counts as [false]. *)
Definition basic_state (applicationName : string) (f : FnRef) state : bool :=
  match f with
  | 0 => isUnderPath pathname_of state ["/applications"; "/applications/new"]
  | 1 => isUnderPath pathname_of state ["/applications/new"]
  | 2 => isApplicationFormFieldValueEqualTo getIn state "name" applicationName
  | 3 => isComponentFormFieldValueEqualTo getIn state "name" "echoserver"
  | 4 => isComponentFormFieldValueEqualTo getIn state "image" "kalmhq/echoserver"
  | 5 => first_port state (fun _ => true)
  | 6 => first_port state (fun port => js_is (js_get port "protocol") "http")
  | 7 => first_port state (fun port => neqb (js_Number (js_get port "containerPort")) (num 8001))
  | 8 => first_port state (fun port =>
           strict_equal (js_get port "servicePort") (Some (JNumber (num 8001))) || negb (truthy_js (js_get port "servicePort")))
  | 9 => component_running state applicationName
  | _ => false
  end.

Definition basic_trigger (applicationName : string) (f : FnRef) state : bool :=
  let call_state := basic_state applicationName in
  match f with
  | 0 | 2 => requireSubStepNotCompleted call_state state [0]
  | 1 => requireSubStepNotCompleted call_state state [1] && requireSubStepCompleted call_state state [0]
  | 3 => requireSubStepNotCompleted call_state state [2] && requireSubStepCompleted call_state state [0; 1]
  | _ => false
  end.

Definition basic_validate (applicationName : string) (f : FnRef) (value : option JsValue) : result (option string) :=
  match f with
  | 0 => Ok (unless_ok (js_is value applicationName) ("Please follow the tutorial, use " +:+ applicationName +:+ "."))
  | 1 => Ok (unless_ok (js_is value "echoserver") ("Please use " +:+ quoted "echoserver"))
  | 2 => Ok (unless_ok (js_is value "kalmhq/echoserver") ("Please use " +:+ quoted "kalmhq/echoserver"))
  | 3 => Ok (unless_ok (js_is value "http") ("Please use " +:+ quoted "http"))
  | 4 => Ok (unless_ok (js_is value "8001") ("Please use " +:+ quoted "8001"))
  | 5 => Ok (unless_ok (strict_equal value (Some (JNumber (num 8001))) || negb (truthy_js value)) ("Please use " +:+ quoted "8001"))
  | _ => Ok None
  end.

Definition BasicApplicationCreationTutorialFactory (title : string) state : option Tutorial :=
  let apps := applications (root_applications state) in
  BasicApplicationCreationTutorial title <$> applicationName (length apps) apps.

(** ** [tutorials/accessYourApplication.tsx] *)

Definition echo_path : string := "/echoserver".
Definition echo_host : string := "echoserver.tutorial.svc.cluster.local:8001".

Definition NeedApplicationTutorial (title : string) : Tutorial :=
  mkTutorial title [
    mkStep "You need an application first."
      (JString "Please go back and follow the Deploy an application tutorial to create an application. It's required for this one.")
      (Some true) [] [] ] None.

Definition AccessYourApplicationTutorial (title applicationName domain finialLink : string) : Tutorial :=
  mkTutorial title [
    mkStep "Go to routes page"
      (JString "Route is a rule that describes how to introduce external traffic into the cluster. Let's find out how to navigate to routes page.")
      None
      [ path_step "Go to routes page" 0; path_step "Go to add route page" 1 ]
      [ popup "Go to routes page" ("[href=" +:+ quoted "/routes" +:+ "]") 0;
        popup "Go to add route page" "[tutorial-anchor-id=add-route]" 1 ];
    mkStep "Add a route"
      (JString ("Complete the form to add first route for " +:+ applicationName +:+ " application")) None
      [ state_step ("Use " +:+ domain +:+ " as hosts") 2 (Some [mkFormValidator "route" "hosts" 0]);
        state_step "Use /echoserver as path prefixes" 3 (Some [mkFormValidator "route" "paths" 1]);
        state_step "Allow GET method" 4 (Some [mkFormValidator "route" "methods" 2]);
        state_step "Allow http scheme" 5 (Some [mkFormValidator "route" "schemes" 3]);
        state_step "Add echoserver in tutorial application as the only target" 6
          (Some [mkFormValidator "route" "destinations" 4]);
        action_step "Submit form" (Some 0) ] [];
    mkStep "Try your route" (JString ("Try open " +:+ finialLink +:+ " in your browser.")) None [] []
  ] None.

Definition access_action (f : FnRef) (action : Actions) : bool :=
  match f with 0 => is_CREATE_COMPONENT action | _ => false end.

(** [destinations.length === 1 && destinations.find(...)], on an array. *)
Definition only_echo (destinations : option JsValue) : result bool :=
  n ← js_length destinations;
  Ok (bool_decide (n = Some 1) &&
      match destinations with
      | Some (JArray l) => existsb (fun destination => js_is (js_get destination "host") echo_host) l
      | _ => false
      end).

(** A callback of [isFormFieldMeet] gets an array; one that throws is no case of
    a form's value. *)
Definition holds (r : result bool) : bool := match r with Ok b => b | Throw _ => false end.

Definition access_state (domain : string) (f : FnRef) state : bool :=
  match f with
  | 0 => isUnderPath pathname_of state ["/routes"; "/routes/new"]
  | 1 => isUnderPath pathname_of state ["/routes/new"]
  | 2 => isFormFieldValueEqualTo getIn state ROUTE_FORM_ID "hosts" (JArray [JString domain])
  | 3 => isFormFieldValueEqualTo getIn state ROUTE_FORM_ID "paths" (JArray [JString echo_path])
  | 4 => isFormFieldMeet getIn state ROUTE_FORM_ID "methods" (fun v => holds (js_includes (Some v) "GET"))
  | 5 => isFormFieldMeet getIn state "route" "schemes" (fun v => holds (js_includes (Some v) "http"))
  | 6 => isFormFieldMeet getIn state "route" "destinations" (fun v => holds (only_echo (Some v)))
  | _ => false
  end.

Definition access_trigger (domain : string) (f : FnRef) state : bool :=
  let call_state := access_state domain in
  match f with
  | 0 => requireSubStepNotCompleted call_state state [0]
  | 1 => requireSubStepCompleted call_state state [0] && requireSubStepNotCompleted call_state state [1]
  | _ => false
  end.

Definition access_validate (domain : string) (f : FnRef) (value : option JsValue) : result (option string) :=
  match f with
  | 0 => ok ← only_value value domain; Ok (unless_ok ok ("Please use " +:+ domain))
  | 1 => ok ← only_value value echo_path; Ok (unless_ok ok ("Please keep only one path " +:+ quoted echo_path))
  | 2 => ok ← js_includes value "GET"; Ok (unless_ok ok "Please allow GET method")
  | 3 => ok ← js_includes value "http"; Ok (unless_ok ok "Please allow http scheme")
  | 4 => ok ← only_echo value; Ok (unless_ok ok "Please use echoserver as the only target")
  | _ => Ok None
  end.

(** [port] is the port of the cluster as text, when it is not 80. *)
Definition AccessYourApplicationTutorialFactory (title : string) (port : option string) state : Tutorial :=
  match List.find (fun x => seqb (app_name x) "tutorial") (applications (root_applications state)) with
  | None => NeedApplicationTutorial title
  | Some application =>
      let clusterIngressIP := match cluster_info (root_cluster state) with Some info => ingressIP info | None => "" end in
      AccessYourApplicationTutorial title (app_name application) (tutorial_domain clusterIngressIP)
        (finialLink clusterIngressIP port)
  end.

(** ** [tutorials/configureHttpsCerts.tsx] *)

Definition cert_domain : string := "tutorial.io".

Definition ConfigureHttpsCertsTutorial (title certificateName : string) : Tutorial :=
  mkTutorial title [
    mkStep "Create an Certificate" (JString "") None
      [ path_step "Go to certificates page" 0;
        path_step "Click the NEW CERTIFICATE button" 1;
        state_step ("Type " +:+ certificateName +:+ " in name field") 2 (Some [mkFormValidator CERTIFICATE_FORM_ID "name" 0]);
        state_step ("Type " +:+ cert_domain +:+ " in domains field") 3 (Some [mkFormValidator CERTIFICATE_FORM_ID "domains" 1]);
        action_step "Submit form" None ]
      [ popup "Go to certificates page" "[tutorial-anchor-id=first-level-sidebar-item-certificates]" 0;
        popup "Open the new certificate dialog" "[tutorial-anchor-id=add-certificate]" 1 ];
    mkStep "Vailidate Status"
      (JString "Take a look at the certificate status panel. It shows that your certificate is valid.") None
      [ state_step "Wait the certificate validate." 4 None ] []
  ] None.

Definition certificate_ready state (certificateName : string) : bool :=
  match List.find (fun c => seqb (cert_name c) certificateName) (certificates (root_certificates state)) with
  | None => false
  | Some certificate => bool_decide (cert_ready certificate = Some "True")
  end.

Definition cert_state (certificateName : string) (f : FnRef) state : bool :=
  match f with
  | 0 => isUnderPath pathname_of state ["/certificates"]
  | 1 => isUnderPath pathname_of state ["/certificates/new"]
  | 2 => isCertificateFormFieldValueEqualTo getIn state "name" (JString certificateName)
  | 3 => isCertificateFormFieldValueEqualTo getIn state "domains" (JArray [JString cert_domain])
  | 4 => certificate_ready state certificateName
  | _ => false
  end.

Definition cert_trigger (certificateName : string) (f : FnRef) state : bool :=
  let call_state := cert_state certificateName in
  match f with
  | 0 => requireSubStepNotCompleted call_state state [0]
  | 1 => requireSubStepNotCompleted call_state state [1] && requireSubStepCompleted call_state state [0]
  | _ => false
  end.

Definition cert_validate (certificateName : string) (f : FnRef) (value : option JsValue) : result (option string) :=
  match f with
  | 0 => Ok (unless_ok (js_is value certificateName) ("Please follow the tutorial, use " +:+ certificateName +:+ "."))
  | 1 => ok ← only_value value cert_domain; Ok (unless_ok ok ("Please follow the tutorial, use " +:+ cert_domain +:+ "."))
  | _ => Ok None
  end.

Definition ConfigureHttpsCertsTutorialFactory (title : string) state : option Tutorial :=
  let certificates := certificates (root_certificates state) in
  ConfigureHttpsCertsTutorial title <$> certificateName (length certificates) certificates.
End tutorials.

(** ** The check marks of a step ([pages/Tutorial/CommonTutorial.tsx]) *)

Section marks.
Context {R : Type}.
Variable call : FnRef -> Actions -> bool.
Variable call_state : FnRef -> RootState R -> bool.
Implicit Types (state : RootState R).

Definition with_tutorial state (t : TutorialState) : RootState R :=
  mkRootState R (root_namespaces state) (root_applications state) (root_components state) (root_auth state)
    (root_router state) (root_notification state) (root_dialogs state) (root_nodes state) (root_registries state)
    (root_persistentVolumes state) (root_settings state) (root_roles state) (root_routes state) (root_cluster state) t
    (root_services state) (root_certificates state) (root_debounce state) (root_sso state)
    (root_deployAccessTokens state) (root_domain state).

(** The tutorial's slice after an action. *)
Definition reduce_tutorial (t : TutorialState) (a : Actions) : TutorialState :=
  match tutorial_reducer call (tutorial_initialState ∅) t ∅ a with
  | Ok (t', _) => t'
  | Throw _ => t
  end.

(** A check mark dispatches, and the next one sees the new state. *)
Definition mark (stepIndex : nat) state (e : nat * TutorialSubStep) : RootState R :=
  match updateCompletionStatus call_state state e.2 stepIndex e.1 with
  | Some a => with_tutorial state (reduce_tutorial (root_tutorial state) a)
  | None => state
  end.

Definition marks (stepIndex : nat) (step : TutorialStep) state : RootState R :=
  foldl (mark stepIndex) state (imap pair (step_subSteps step)).

(** What happens to the tutorial: the marks of a step run while the page shows
    some state, or an action is reduced. *)
Inductive TutorialEvent :=
| Marks (stepIndex : nat) (page : RootState R)
| Reduced (a : Actions).

Definition tutorial_event (t : TutorialState) (e : TutorialEvent) : TutorialState :=
  match e with
  | Marks stepIndex page =>
      match tutorial t ≫= fun tut => tut_steps tut !! stepIndex with
      | Some step => root_tutorial (marks stepIndex step (with_tutorial page t))
      | None => t
      end
  | Reduced a => reduce_tutorial t a
  end.
Definition tutorial_events (events : list TutorialEvent) (t : TutorialState) : TutorialState := foldl tutorial_event t events.
End marks.
Arguments TutorialEvent : clear implicits.
