(* ===== verification/TutorialFacts.v ===== *)
(** Facts about the tutorials: a step is left exactly when its check marks hold,
    a sub-step that waits for an action keeps its step, and the forms the rules
    of a tutorial accept complete their sub-steps. *)

From S2P Require Import Prelude JsString JsNumber ResourceTypes ActionTypes ReducerUtils ResourceReducers UiReducers RootReducer RootFacts Validators ValidatorFacts UiFacts Tutorials TutorialSteps.

(** ** Keys of the status *)

Lemma statusKey_inj2 i j i' j' : statusKey (Z.of_nat i) j = statusKey (Z.of_nat i') j' -> i = i' /\ j = j'.
Proof.
  unfold statusKey. intros H.
  assert (Hz : forall n, int_to_string (Z.of_nat n) = nat_to_string n) by (intros n; unfold int_to_string; by rewrite (proj2 (Z.ltb_ge _ _)), Nat2Z.id by lia).
  rewrite !Hz in H.
  assert (Hd : forall n, has_char "-" (nat_to_string n) = false).
  { intros n. by eapply (str_forall_has_char is_digit); [|apply nat_to_string_digits]. }
  assert (Hs : forall a b, split_char "-" (nat_to_string a +:+ "-" +:+ nat_to_string b) = [nat_to_string a; nat_to_string b]).
  { intros a b. change ("-" +:+ nat_to_string b) with (String "-" (nat_to_string b)).
    by rewrite split_char_app, split_char_none by apply Hd. }
  apply (f_equal (split_char "-")) in H. rewrite !Hs in H. by injection H as ->%nat_to_string_inj ->%nat_to_string_inj.
Qed.

Lemma completed_insert status i j i' j' (b : bool) :
  completed (<[statusKey (Z.of_nat i) j := b]> status) (Z.of_nat i') j' =
  if bool_decide (i = i' /\ j = j') then b else completed status (Z.of_nat i') j'.
Proof.
  unfold completed. destruct (bool_decide_reflect (i = i' /\ j = j')) as [[-> ->]|Hne].
  - by rewrite lookup_insert_eq.
  - rewrite lookup_insert_ne; [done|]. intros H%statusKey_inj2. by apply Hne.
Qed.

Section marks.
Context {R : Type}.
Variable call : FnRef -> Actions -> bool.
Implicit Types (state : RootState R) (t : TutorialState).

(** The tutorial [tut] is at its step [i], which has sub-steps. *)
Record at_step (i : nat) (step : TutorialStep) t : Prop := {
  at_index_is : currentStepIndex t = Z.of_nat i;
  at_current : exists tut, tutorial t = Some tut /\ tut_steps tut !! i = Some step;
  at_nonempty : step_subSteps step <> []
}.

(** All sub-steps are complete. *)
Definition all_complete (i : nat) (step : TutorialStep) (status : gmap string bool) : bool :=
  forallb (completed status (Z.of_nat i)) (seq 0 (length (step_subSteps step))).

Lemma at_step_index (i : nat) step t : at_step i step t ->
  exists tut, tutorial t = Some tut /\ at_index (tut_steps tut) (currentStepIndex t) = Some step.
Proof.
  intros [Hi (tut & Ht & Hs) _]. exists tut. split; [done|]. unfold at_index. rewrite Hi.
  rewrite (proj2 (Z.ltb_ge _ _)) by lia. by rewrite Nat2Z.id.
Qed.

(** The completion of a sub-step moves the tutorial on when it was the last. *)
Lemma reduce_completion i step t b i' j' : at_step i step t ->
  let t' := reduce_tutorial call t (SET_TUTORIAL_STEP_COMPLETION_STATUS b i' j') in
  tutorialStepStatus t' = <[statusKey (Z.of_nat i') j' := b]> (tutorialStepStatus t) /\
  currentStepIndex t' =
    (if all_complete i step (tutorialStepStatus t') then Z.of_nat i + 1 else Z.of_nat i)%Z.
Proof.
  intros Hat. destruct (at_step_index i step t Hat) as (tut & Ht & Hs). destruct Hat as [Hi _ Hne].
  unfold reduce_tutorial, tutorial_reducer, tutorial_progress. rewrite Ht, Hs.
  match goal with |- context [tryMoveToNextStep ?s1] =>
    destruct (tryMove_spec s1 tut step Ht Hs) as (s' & -> & Hidx & Hst) end.
  cbn [mbind result_bind]. rewrite Hst. split; [done|]. rewrite Hidx. cbn [set_stepStatus currentStepIndex tutorialStepStatus].
  unfold all_complete. rewrite Hi. destruct (step_subSteps step); done.
Qed.

(** What no completion of a sub-step changes, and the order of the steps. *)
Lemma reduce_completion_frame t b i j :
  let t' := reduce_tutorial call t (SET_TUTORIAL_STEP_COMPLETION_STATUS b i j) in
  tutorial t' = tutorial t /\ formValues t' = formValues t /\ (currentStepIndex t <= currentStepIndex t')%Z.
Proof.
  unfold reduce_tutorial, tutorial_reducer, tutorial_progress.
  destruct (tutorial t) as [tut|] eqn:Ht; [|cbn; rewrite Ht; auto with lia].
  destruct (at_index (tut_steps tut) (currentStepIndex t)) as [step|] eqn:Hs; [|cbn; rewrite Ht; auto with lia].
  unfold tryMoveToNextStep. cbn [set_stepStatus tutorial currentStepIndex]. rewrite Ht. cbn [mbind option_bind]. rewrite Hs.
  destruct (Nat.eqb (length (step_subSteps step)) 0); [cbn; auto with lia|].
  match goal with |- context [Nat.ltb 0 ?n] => destruct (Nat.ltb 0 n) end; cbn; auto with lia.
Qed.

(** ** A round of check marks *)

Variable call_state : FnRef -> RootState R -> bool.

(** The hooks read the pages and the values of the forms, and nothing else of the
    tutorial. *)
Definition reads_pages : Prop := forall f state t,
  formValues t = formValues (root_tutorial state) -> call_state f (with_tutorial state t) = call_state f state.

(** What the mark of a sub-step of the step [i] shows. *)
Definition shown state (i : nat) (e : nat * TutorialSubStep) : bool :=
  let isCompleted := completed (tutorialStepStatus (root_tutorial state)) (Z.of_nat i) e.1 in
  match sub_shouldCompleteByState e.2 with
  | None => isCompleted
  | Some f => if isCompleted && default false (sub_irrevocable e.2) then true else call_state f state
  end.

Lemma with_tutorial_id state : with_tutorial state (root_tutorial state) = state.
Proof. by destruct state. Qed.
Lemma with_tutorial_twice state t1 t2 : with_tutorial (with_tutorial state t1) t2 = with_tutorial state t2.
Proof. done. Qed.

(** A mark changes the tutorial only, and neither its values nor its steps. *)
Lemma mark_frame i state e : exists t,
  mark call call_state i state e = with_tutorial state t /\ tutorial t = tutorial (root_tutorial state) /\
  formValues t = formValues (root_tutorial state) /\ (currentStepIndex (root_tutorial state) <= currentStepIndex t)%Z.
Proof.
  unfold mark, updateCompletionStatus. destruct (sub_shouldCompleteByState e.2) as [f|].
  2:{ exists (root_tutorial state). rewrite with_tutorial_id. auto with lia. }
  destruct (_ && _); [exists (root_tutorial state); rewrite with_tutorial_id; auto with lia|].
  destruct (negb _); [|exists (root_tutorial state); rewrite with_tutorial_id; auto with lia].
  eexists. split; [done|]. apply reduce_completion_frame.
Qed.

(** The mark of a sub-step of the current step. *)
Lemma mark_current i step state j sub : at_step i step (root_tutorial state) ->
  all_complete i step (tutorialStepStatus (root_tutorial state)) = false ->
  let t := root_tutorial (mark call call_state i state (j, sub)) in
  let status := tutorialStepStatus t in
  (forall j', completed status (Z.of_nat i) j' =
     if bool_decide (j = j') then shown state i (j, sub)
     else completed (tutorialStepStatus (root_tutorial state)) (Z.of_nat i) j') /\
  currentStepIndex t = (if all_complete i step status then Z.of_nat i + 1 else Z.of_nat i)%Z.
Proof.
  intros Hat Hopen. assert (Hsame : forall j', completed (tutorialStepStatus (root_tutorial state)) (Z.of_nat i) j' =
    if bool_decide (j = j') then completed (tutorialStepStatus (root_tutorial state)) (Z.of_nat i) j
    else completed (tutorialStepStatus (root_tutorial state)) (Z.of_nat i) j').
  { intros j'. by case_bool_decide; subst. }
  pose proof (at_index_is _ _ _ Hat) as Hi.
  unfold mark, updateCompletionStatus, shown. cbn [fst snd]. destruct (sub_shouldCompleteByState sub) as [f|].
  2:{ split; [done|]. by rewrite Hopen. }
  rewrite Hi, Z.eqb_refl.
  destruct (completed (tutorialStepStatus (root_tutorial state)) (Z.of_nat i) j) eqn:Ec; cbn [andb].
  - destruct (default false (sub_irrevocable sub)); [by rewrite Hopen|].
    destruct (call_state f state) eqn:Ef; cbn [Bool.eqb negb]; [by rewrite Hopen|].
    cbn [root_tutorial with_tutorial]. destruct (reduce_completion i step _ false i j Hat) as [Hst Hidx].
    split; [|exact Hidx]. intros j'. rewrite Hst, completed_insert. by repeat case_bool_decide; naive_solver.
  - destruct (call_state f state) eqn:Ef; cbn [Bool.eqb negb]; [|by rewrite Hopen].
    cbn [root_tutorial with_tutorial]. destruct (reduce_completion i step _ true i j Hat) as [Hst Hidx].
    split; [|exact Hidx]. intros j'. rewrite Hst, completed_insert. by repeat case_bool_decide; naive_solver.
Qed.

(** What shows at a sub-step depends on its status and on the page. *)
Lemma shown_with state t i e : reads_pages -> formValues t = formValues (root_tutorial state) ->
  completed (tutorialStepStatus t) (Z.of_nat i) e.1 =
    completed (tutorialStepStatus (root_tutorial state)) (Z.of_nat i) e.1 ->
  shown (with_tutorial state t) i e = shown state i e.
Proof.
  intros Hr Hf Hc. unfold shown. cbn [root_tutorial with_tutorial]. rewrite Hc.
  destruct (sub_shouldCompleteByState e.2) as [f|]; [|done]. by rewrite Hr.
Qed.

Lemma marks_forward i l state :
  (currentStepIndex (root_tutorial state) <= currentStepIndex (root_tutorial (foldl (mark call call_state i) state l)))%Z.
Proof.
  revert state. induction l as [|e l IH]; intros state; cbn [foldl]; [lia|].
  destruct (mark_frame i state e) as (t & Hm & _ & _ & Hle). etrans; [|apply IH]. by rewrite Hm.
Qed.

(** The marks [l] of different sub-steps of the open step [i]. *)
Lemma marks_fold i step l : reads_pages -> forall state, at_step i step (root_tutorial state) ->
  all_complete i step (tutorialStepStatus (root_tutorial state)) = false -> NoDup l.*1 ->
  let t := root_tutorial (foldl (mark call call_state i) state l) in
  let status := tutorialStepStatus t in
  (currentStepIndex t = Z.of_nat i /\ all_complete i step status = false /\
   (forall e, e ∈ l -> completed status (Z.of_nat i) e.1 = shown state i e) /\
   (forall j, j ∉ l.*1 -> completed status (Z.of_nat i) j = completed (tutorialStepStatus (root_tutorial state)) (Z.of_nat i) j)) \/
  ((Z.of_nat i < currentStepIndex t)%Z /\
   forall j, j < length (step_subSteps step) ->
     completed (tutorialStepStatus (root_tutorial state)) (Z.of_nat i) j = true \/
     exists sub, (j, sub) ∈ l /\ shown state i (j, sub) = true).
Proof.
  intros Hr. induction l as [|[j sub] l IH]; intros state Hat Hopen Hnd.
  { left. cbn. split_and!; [apply Hat|done|set_solver|done]. }
  cbn [foldl]. change ((j, sub) :: l).*1 with (j :: l.*1) in *. apply NoDup_cons in Hnd as [Hj Hnd].
  destruct (mark_current i step state j sub Hat Hopen) as [Hst Hidx].
  destruct (mark_frame i state (j, sub)) as (t1 & Hm & Htut & Hform & _). rewrite Hm in *. cbn [root_tutorial with_tutorial] in *.
  destruct (all_complete i step (tutorialStepStatus t1)) eqn:Hall.
  - right. split.
    { eapply Z.lt_le_trans; [|apply marks_forward]. cbn. lia. }
    intros j' Hlt. unfold all_complete in Hall. rewrite forallb_forall in Hall.
    specialize (Hall j' (proj2 (in_seq _ _ _) (conj (Nat.le_0_l _) Hlt))). rewrite Hst in Hall.
    case_bool_decide as Hd; [|by left]. subst j'. right. exists sub. split; [left|done].
  - assert (Hat1 : at_step i step (root_tutorial (with_tutorial state t1))).
    { destruct Hat as [_ Hcur Hne]. split; cbn; [done|by rewrite Htut|done]. }
    assert (Hsh : forall e, e ∈ l -> shown (with_tutorial state t1) i e = shown state i e).
    { intros e He. apply shown_with; [done|done|]. rewrite Hst. case_bool_decide as Hd; [|done].
      destruct Hj. rewrite Hd. by apply list_elem_of_fmap_2. }
    destruct (IH (with_tutorial state t1) Hat1 Hall Hnd) as [(Hi & Ho & Hl & Hrest)|[Hi Hl]]; [left|right].
    + split; [done|]. split; [done|]. cbn [root_tutorial with_tutorial] in Hrest. split.
      * intros e [->|He]%elem_of_cons; cbn [fst]; [|by rewrite Hl, Hsh].
        rewrite Hrest, Hst by done. by rewrite bool_decide_true.
      * intros j' Hj'. apply not_elem_of_cons in Hj' as [Hne Hj']. rewrite Hrest, Hst by done.
        by rewrite bool_decide_false.
    + split; [done|]. intros j' Hlt. destruct (Hl j' Hlt) as [Hc|(sub' & Hin & Hs)].
      * cbn [root_tutorial with_tutorial] in Hc. rewrite Hst in Hc. case_bool_decide as Hd; [|by left].
        subst j'. right. exists sub. split; [left|done].
      * right. exists sub'. split; [by right|]. by rewrite <-Hsh.
Qed.

Lemma imap_pair_from {A : Type} (l : list A) k : (imap (fun n x => (k + n, x)) l).*1 = seq k (length l).
Proof.
  revert k. induction l as [|x l IH]; intros k; [done|]. cbn. f_equal; [lia|].
  rewrite <-IH. f_equal. apply imap_ext. intros; cbn; f_equal; lia.
Qed.

Lemma imap_pair_keys {A : Type} (l : list A) : (imap pair l).*1 = seq 0 (length l).
Proof. apply (imap_pair_from l 0). Qed.

Lemma elem_of_imap_pair {A : Type} (l : list A) j x : (j, x) ∈ imap pair l <-> l !! j = Some x.
Proof.
  rewrite elem_of_lookup_imap. split; [intros (? & ? & [= -> ->] & ?); done|]. intros H. by exists j, x.
Qed.

(** C34: The check marks decide when a step is left.  When the page shows the
    current step of a tutorial, one pass of its marks leaves the step if every
    sub-step is shown as complete: the page is as its hook asks, or it was
    completed by an action or for good.  The pass leaves the step only if every
    sub-step was complete or is shown so; and if it stays, afterwards each
    sub-step is complete exactly if it is shown so. *)
Theorem marks_decide_step i step state : reads_pages -> at_step i step (root_tutorial state) ->
  all_complete i step (tutorialStepStatus (root_tutorial state)) = false ->
  let t := root_tutorial (marks call call_state i step state) in
  (forallb (shown state i) (imap pair (step_subSteps step)) = true -> (Z.of_nat i < currentStepIndex t)%Z) /\
  (currentStepIndex t <> Z.of_nat i -> forall j sub, step_subSteps step !! j = Some sub ->
     completed (tutorialStepStatus (root_tutorial state)) (Z.of_nat i) j = true \/ shown state i (j, sub) = true) /\
  (currentStepIndex t = Z.of_nat i -> forall j sub, step_subSteps step !! j = Some sub ->
     completed (tutorialStepStatus t) (Z.of_nat i) j = shown state i (j, sub)).
Proof.
  intros Hr Hat Hopen. unfold marks.
  assert (Hnd : NoDup (imap pair (step_subSteps step)).*1) by (rewrite imap_pair_keys; apply NoDup_seq).
  destruct (marks_fold i step _ Hr state Hat Hopen Hnd) as [(Hi & Ho & Hl & _)|[Hi Hl]]; cbn zeta; split_and!.
  - intros Hall. exfalso. rewrite forallb_forall in Hall. apply Bool.not_true_iff_false in Ho. apply Ho.
    apply forallb_forall. intros j Hj%in_seq.
    destruct (lookup_lt_is_Some_2 (step_subSteps step) j) as [sub Hsub]; [lia|].
    apply elem_of_imap_pair in Hsub. etrans; [exact (Hl _ Hsub)|]. by apply Hall, list_elem_of_In.
  - done.
  - intros _ j sub Hsub. by apply (Hl (j, sub)), elem_of_imap_pair.
  - done.
  - intros _ j sub Hsub. destruct (Hl j) as [Hc|(sub' & Hin & Hs)]; [by eapply lookup_lt_Some|by left|].
    apply elem_of_imap_pair in Hin. right. rewrite Hsub in Hin. by injection Hin as ->.
  - lia.
Qed.

(** ** Sub-steps that wait for an action *)

(** The tutorial [tut] is at the step [i], whose sub-step [j] is not complete. *)
Record waiting (tut : Tutorial) (i j : nat) t : Prop := {
  waits_in : tutorial t = Some tut;
  waits_at : currentStepIndex t = Z.of_nat i;
  waits_open : completed (tutorialStepStatus t) (Z.of_nat i) j = false
}.

(** The events that are no concern of the sub-step: its hook does not recognize
    them, and they neither choose a tutorial nor complete sub-steps themselves. *)
Definition unconcerned (sub : TutorialSubStep) (e : TutorialEvent R) : Prop :=
  match e with
  | Marks _ _ => True
  | Reduced (Tutorials (SET_TUTORIAL_ACTION _ | RESET_TUTORIAL_ACTION | SET_TUTORIAL_STEP_COMPLETION_STATUS _ _ _)) => False
  | Reduced a => fires call a sub = false
  end.

Section wait.
Variables (tut : Tutorial) (i j : nat) (step : TutorialStep) (sub : TutorialSubStep).
Hypothesis Hstep : tut_steps tut !! i = Some step.
Hypothesis Hsub : step_subSteps step !! j = Some sub.
Hypothesis Hhook : sub_shouldCompleteByState sub = None.

Lemma waiting_at_step t : waiting tut i j t -> at_step i step t.
Proof. intros [Ht Hi _]. split; [done|by exists tut|]. intros E. by rewrite E in Hsub. Qed.

Lemma incomplete status : completed status (Z.of_nat i) j = false -> all_complete i step status = false.
Proof.
  intros Hc. apply Bool.not_true_iff_false. intros Hall. unfold all_complete in Hall. rewrite forallb_forall in Hall.
  rewrite Hall in Hc; [done|]. apply in_seq. apply lookup_lt_Some in Hsub. lia.
Qed.

Lemma waiting_mark i' state e : (exists step', tut_steps tut !! i' = Some step' /\ step_subSteps step' !! e.1 = Some e.2) ->
  waiting tut i j (root_tutorial state) -> waiting tut i j (root_tutorial (mark call call_state i' state e)).
Proof.
  intros (step' & Hs' & He) Hw. unfold mark, updateCompletionStatus.
  destruct (sub_shouldCompleteByState e.2) as [f|] eqn:Ef; [|done]. destruct (_ && _); [done|]. destruct (negb _); [|done].
  assert (Hne : ~ (i' = i /\ e.1 = j)).
  { intros [-> Ej]. rewrite Hstep in Hs'. injection Hs' as <-. rewrite Ej, Hsub in He. injection He as He. by rewrite <-He, Hhook in Ef. }
  pose proof (waiting_at_step _ Hw) as Hat. cbn [root_tutorial with_tutorial].
  match goal with |- context [SET_TUTORIAL_STEP_COMPLETION_STATUS ?b i' e.1] =>
    destruct (reduce_completion i step _ b i' e.1 Hat) as [Hst Hidx];
    destruct (reduce_completion_frame (root_tutorial state) b i' e.1) as (Ht & _ & _) end.
  assert (Hc : completed (tutorialStepStatus (reduce_tutorial call (root_tutorial state)
    (SET_TUTORIAL_STEP_COMPLETION_STATUS (if (currentStepIndex (root_tutorial state) =? Z.of_nat i')%Z then call_state f state else false) i' e.1)))
    (Z.of_nat i) j = false).
  { rewrite Hst, completed_insert, bool_decide_false by done. apply Hw. }
  split; [rewrite Ht; apply Hw| |done]. by rewrite Hidx, (incomplete _ Hc).
Qed.

Lemma waiting_marks i' page t : waiting tut i j t -> waiting tut i j (tutorial_event call call_state t (Marks i' page)).
Proof.
  intros Hw. cbn [tutorial_event]. rewrite (waits_in _ _ _ _ Hw). cbn [mbind option_bind].
  destruct (tut_steps tut !! i') as [step'|] eqn:Hs'; [|done]. unfold marks.
  assert (Hall : forall e, e ∈ imap pair (step_subSteps step') -> step_subSteps step' !! e.1 = Some e.2).
  { intros [j' sub'] He. by apply elem_of_imap_pair. }
  change t with (root_tutorial (with_tutorial page t)) in Hw. revert Hw. generalize (with_tutorial page t). clear t page.
  induction (imap pair (step_subSteps step')) as [|e l IH]; intros state Hw; [done|]. cbn [foldl]. apply IH.
  - intros e' He'. apply Hall. by right.
  - apply waiting_mark; [|done]. exists step'. split; [done|]. apply Hall. left.
Qed.

Lemma tryMove_tutorial s s' : tryMoveToNextStep s = Ok s' -> tutorial s' = tutorial s.
Proof.
  unfold tryMoveToNextStep. destruct (tutorial s ≫= _) as [step0|]; [|done].
  destruct (Nat.eqb (length (step_subSteps step0)) 0); [by intros [= <-]|].
  match goal with |- context [Nat.ltb 0 ?n] => destruct (Nat.ltb 0 n) end; by intros [= <-].
Qed.

Lemma waiting_foreign a t : foreign a = true -> fires call a sub = false -> waiting tut i j t ->
  waiting tut i j (reduce_tutorial call t a).
Proof.
  intros Hf Hq Hw. destruct (at_step_index i step t (waiting_at_step t Hw)) as (tut' & Ht & Hs).
  pose proof (waits_at _ _ _ _ Hw) as Hi. pose proof (waits_open _ _ _ _ Hw) as Hc.
  set (s1 := set_stepStatus t (run_hooks call a (currentStepIndex t) (step_subSteps step) (tutorialStepStatus t))).
  assert (reduce_tutorial call t a = match tryMoveToNextStep s1 with Ok s' => s' | Throw _ => t end) as ->.
  { unfold reduce_tutorial. rewrite foreign_reducer by done. unfold tutorial_progress. rewrite Ht, Hs.
    destruct a; try done; cbn [mbind result_bind]; by destruct (tryMoveToNextStep _). }
  assert (Hc1 : completed (tutorialStepStatus s1) (Z.of_nat i) j = false).
  { subst s1. cbn [set_stepStatus tutorialStepStatus]. rewrite Hi, run_hooks_completed, Hc, Hsub. exact Hq. }
  destruct (tryMove_spec s1 tut' step Ht Hs) as (s' & He & Hidx & Hst). rewrite He.
  split; [rewrite (tryMove_tutorial _ _ He); apply Hw| |by rewrite Hst].
  pose proof (incomplete _ Hc1) as Hall. unfold all_complete in Hall.
  cbn [s1 set_stepStatus currentStepIndex] in *. rewrite Hidx, Hi, Hall. by destruct (Nat.eqb _ 0).
Qed.

Lemma waiting_event e t : unconcerned sub e -> waiting tut i j t -> waiting tut i j (tutorial_event call call_state t e).
Proof.
  destruct e as [i' page|a]; intros Hq Hw; [by apply waiting_marks|]. cbn [tutorial_event].
  destruct (foreign a) eqn:Hf; [by apply waiting_foreign; [|destruct a as [| | | | | | | | | | |a| | | | | |]|]|].
  destruct a as [| | | | | | | | | | |a| | | | | |]; try done. destruct a as [| |s h| | | |form values]; try done;
    unfold reduce_tutorial, tutorial_reducer; try (destruct Hw; by split).
  destruct (at_step_index i step t (waiting_at_step t Hw)) as (tut' & Ht & Hs).
  unfold tutorial_progress. rewrite Ht, Hs. cbn [mbind result_bind]. destruct Hw as [Hw1 Hw2 Hw3]. split; [|exact Hw2|exact Hw3]. exact (eq_trans (eq_sym Ht) Hw1).
Qed.
End wait.

(** A sub-step that only an action completes keeps its step.  While such a
    sub-step of the current step is not complete, no passes of check marks
    over any states of the page, and no actions other than those its hook
    recognizes, the choice of a tutorial and explicit completions, leave the
    step or complete the sub-step.  So the tutorial about routes is left at its
    second step by the creation of a component only, and the one about
    certificates, whose sub-step has no hook, never. *)
Theorem awaited_action_keeps_step tut i j step sub events t :
  tut_steps tut !! i = Some step -> step_subSteps step !! j = Some sub -> sub_shouldCompleteByState sub = None ->
  waiting tut i j t -> Forall (unconcerned sub) events ->
  waiting tut i j (tutorial_events call call_state events t).
Proof.
  intros Hstep Hsub Hhook Hw Hev. revert t Hw. induction Hev as [|e events He _ IH]; intros t Hw; [done|].
  apply IH. by eapply waiting_event.
Qed.
End marks.

(** ** The hooks of the three tutorials read the pages *)

Section hooks.
Context {R : Type}.
Variable pathname_of : R -> string.
Variable getIn : JsValue -> string -> option JsValue.
Implicit Types (state : RootState R).

Lemma form_values_with state t form : formValues t = formValues (root_tutorial state) ->
  form_values (with_tutorial state t) form = form_values state form.
Proof. intros H. unfold form_values. cbn [root_tutorial with_tutorial]. by rewrite H. Qed.

Lemma first_port_with state t test : formValues t = formValues (root_tutorial state) ->
  first_port getIn (with_tutorial state t) test = first_port getIn state test.
Proof. intros H. unfold first_port, getFormValue. by rewrite form_values_with. Qed.

Lemma equal_with state t form field v : formValues t = formValues (root_tutorial state) ->
  isFormFieldValueEqualTo getIn (with_tutorial state t) form field v = isFormFieldValueEqualTo getIn state form field v.
Proof. intros H. unfold isFormFieldValueEqualTo. by rewrite form_values_with. Qed.

Lemma meet_with state t form field cb : formValues t = formValues (root_tutorial state) ->
  isFormFieldMeet getIn (with_tutorial state t) form field cb = isFormFieldMeet getIn state form field cb.
Proof. intros H. unfold isFormFieldMeet, getFormValue. by rewrite form_values_with. Qed.

Lemma basic_reads_pages name : reads_pages (basic_state pathname_of getIn name).
Proof.
  intros f state t H. unfold basic_state.
  do 10 (destruct f as [|f]; [first [done|by apply equal_with|by apply first_port_with]|]). done.
Qed.

Lemma access_reads_pages domain : reads_pages (access_state pathname_of getIn domain).
Proof.
  intros f state t H. unfold access_state.
  do 7 (destruct f as [|f]; [first [done|by apply equal_with|by apply meet_with]|]). done.
Qed.

Lemma cert_reads_pages name : reads_pages (cert_state pathname_of getIn name).
Proof.
  intros f state t H. unfold cert_state.
  do 5 (destruct f as [|f]; [first [done|by apply equal_with]|]). done.
Qed.

(** ** Forms that the rules accept *)

Section rules.
Variable call_validate : FnRef -> option JsValue -> result (option string).

(** The rule has no message for the values. *)
Definition accepts (values : JsValue) (rule : FormValidator) : Prop :=
  call_validate (fv_validate rule) (getIn values (fv_field rule)) = Ok None \/
  call_validate (fv_validate rule) (getIn values (fv_field rule)) = Ok (Some "").

Lemma rule_errors form values rules errors errors' : Forall (fun rule => fv_form rule = form) rules ->
  forEachM (rule_error getIn call_validate form values) rules errors = Ok errors' ->
  errors' = ∅ -> errors = ∅ /\ Forall (accepts values) rules.
Proof.
  intros Hf. revert errors. induction Hf as [|rule rules Hform _ IH]; intros errors; cbn [forEachM].
  { intros [= ->]. done. }
  intros (errors1 & H1 & H2)%bind_Ok He. destruct (IH _ H2 He) as [-> Hrest].
  unfold rule_error in H1. rewrite Hform, seqb_refl in H1. apply bind_Ok in H1 as (r & Hr & H1).
  destruct r as [error|].
  - destruct (seqb_spec error "") as [->|Hne].
    + injection H1 as ->. split; [done|]. constructor; [|done]. by right.
    + injection H1 as H1. by apply insert_non_empty in H1.
  - injection H1 as ->. split; [done|]. constructor; [|done]. by left.
Qed.

Definition sub_rules (sub : TutorialSubStep) : list FormValidator := default [] (sub_formValidator sub).

(** A form without messages satisfies every rule of the current step. *)
Lemma accepted_rules values t form step : current_step t = Some step ->
  Forall (fun sub => Forall (fun rule => fv_form rule = form) (sub_rules sub)) (step_subSteps step) ->
  formikValidateOrNotBlockByTutorial getIn call_validate values t form = Ok ∅ ->
  Forall (fun sub => Forall (accepts values) (sub_rules sub)) (step_subSteps step).
Proof.
  intros Hs Hf. unfold formikValidateOrNotBlockByTutorial. rewrite Hs. intros H. clear Hs.
  assert (Hgen : forall subs errors errors', Forall (fun sub => Forall (fun rule => fv_form rule = form) (sub_rules sub)) subs ->
    forEachM (fun errors sub => forEachM (rule_error getIn call_validate form values) (sub_rules sub) errors) subs errors = Ok errors' ->
    errors' = ∅ -> errors = ∅ /\ Forall (fun sub => Forall (accepts values) (sub_rules sub)) subs).
  { clear. intros subs errors errors' Hf. revert errors. induction Hf as [|sub subs Hsub _ IH]; intros errors; cbn [forEachM].
    - intros [= ->]. done.
    - intros (errors1 & H1 & H2)%bind_Ok He. destruct (IH _ H2 He) as [-> Hrest].
      destruct (rule_errors _ _ _ _ _ Hsub H1 eq_refl) as [-> Hr]. split; [done|]. by constructor. }
  by destruct (Hgen _ _ _ Hf H eq_refl) as [_ ?].
Qed.
End rules.

Lemma unless_ok_none (r : result bool) message : message <> "" ->
  (ok ← r; Ok (unless_ok ok message)) = Ok None \/ (ok ← r; Ok (unless_ok ok message)) = Ok (Some "") -> r = Ok true.
Proof. intros Hm. destruct r as [[|]|]; cbn; intros [[=]|[=]]; done. Qed.

Lemma only_value_array l x : only_value (Some (JArray l)) x = Ok true ->
  strict_equal (head l) (at_zero (JArray [JString x])) = true.
Proof.
  unfold only_value. cbn [js_length mbind result_bind option_bind at_zero]. intros [= H].
  apply Bool.andb_true_iff in H as [_ H]. exact H.
Qed.

Lemma equal_first state form field values l x : form_values state form = Some values ->
  getIn values field = Some (JArray l) -> only_value (Some (JArray l)) x = Ok true ->
  isFormFieldValueEqualTo getIn state form field (JArray [JString x]) = true.
Proof. intros Hv Hf Ho. unfold isFormFieldValueEqualTo. rewrite Hv, Hf. by apply only_value_array. Qed.

Lemma meets state form field values (test : option JsValue -> result bool) : form_values state form = Some values ->
  (forall v, test v = Ok true -> truthy_js v = true) -> test (getIn values field) = Ok true ->
  isFormFieldMeet getIn state form field (fun v => holds (test (Some v))) = true.
Proof.
  intros Hv Ht Htest. unfold isFormFieldMeet, getFormValue. rewrite Hv. cbn [mbind option_bind].
  pose proof (Ht _ Htest) as Htr. destruct (getIn values field) as [v|]; [|done]. by rewrite Htr, Htest.
Qed.

Lemma includes_truthy x v : x <> "" -> js_includes v x = Ok true -> truthy_js v = true.
Proof.
  intros Hx. destruct v as [[| | | |s|l|]|]; try done. cbn. intros [= H]. destruct (seqb_spec s "") as [->|]; [|done].
  exfalso. unfold includes in H. destruct x; [done|]. by cbn in H.
Qed.

Lemma only_echo_truthy v : only_echo v = Ok true -> truthy_js v = true.
Proof.
  unfold only_echo. destruct v as [[| | | |s|l|]|]; try done; cbn; rewrite ?Bool.andb_false_r; done.
Qed.

(** A route the tutorial accepts completes the tutorial's sub-steps.  While
    the tutorial about routes is at its step for the form, and the drawer has the
    values of the form, whose hosts and paths are lists: if the rules of the
    tutorial add no error to the form, every check mark of the step about the
    form holds, whatever page is shown, so that only the submission is left. *)
Theorem accepted_route_completes title name domain link t values hosts paths (page : RootState R) :
  tutorial t = Some (AccessYourApplicationTutorial title name domain link) -> currentStepIndex t = 1%Z ->
  formValues t ≫= lookup ROUTE_FORM_ID = Some values -> truthy_js (Some values) = true ->
  getIn values "hosts" = Some (JArray hosts) -> getIn values "paths" = Some (JArray paths) ->
  formikValidateOrNotBlockByTutorial getIn (access_validate domain) values t ROUTE_FORM_ID = Ok ∅ ->
  forall f, 2 <= f <= 6 -> access_state pathname_of getIn domain f (with_tutorial page t) = true.
Proof.
  intros Ht Hi Hform Htr Hh Hp Hok f Hf.
  assert (Hv : form_values (with_tutorial page t) ROUTE_FORM_ID = Some values).
  { unfold form_values. cbn [root_tutorial with_tutorial]. destruct (formValues t) as [m|]; [|done]. cbn [mbind option_bind] in *.
    rewrite Hform. by rewrite Htr. }
  eapply accepted_rules in Hok; [| |].
  2:{ unfold current_step. rewrite Ht, Hi. reflexivity. }
  2:{ cbn. repeat constructor. }
  cbn [step_subSteps] in Hok. apply Forall_cons in Hok as [H0 Hok]. apply Forall_cons in Hok as [H1 Hok].
  apply Forall_cons in Hok as [H2 Hok]. apply Forall_cons in Hok as [H3 Hok]. apply Forall_cons in Hok as [H4 _].
  cbn [sub_rules state_step sub_formValidator default from_option id] in *.
  rewrite Forall_singleton in H0, H1, H2, H3, H4. unfold accepts in *. cbn [fv_validate fv_field access_validate] in *.
  apply unless_ok_none in H0; [|done]. apply unless_ok_none in H1; [|done]. apply unless_ok_none in H2; [|done].
  apply unless_ok_none in H3; [|done]. apply unless_ok_none in H4; [|done].
  assert (f = 2 \/ f = 3 \/ f = 4 \/ f = 5 \/ f = 6) as [->|[->|[->|[->| ->]]]] by lia; cbn [access_state].
  - rewrite Hh in H0. by eapply equal_first.
  - rewrite Hp in H1. by eapply equal_first.
  - eapply (meets _ _ _ _ (fun v => js_includes v "GET")); [done| |done]. intros v. by apply includes_truthy.
  - eapply (meets _ _ _ _ (fun v => js_includes v "http")); [done| |done]. intros v. by apply includes_truthy.
  - eapply (meets _ _ _ _ only_echo); [done| |done]. apply only_echo_truthy.
Qed.
End hooks.

(** ** Examples *)

(** A page at a path, with the tutorial's slice. *)
Definition page_at (path : string) : RootState string := root_initialState boot_empty path.
Definition begun (tut : Tutorial) (i : Z) : TutorialState := mkTutorialState true (Some tut) ∅ None i None.

Definition route_domain : string := "10-0-0-1.nip.io".
Definition route_tutorial : Tutorial :=
  AccessYourApplicationTutorial "Access your application" "tutorial" route_domain ("http://" +:+ route_domain +:+ echo_path).

Lemma marks_decide_step_witness :
  (0 < currentStepIndex (root_tutorial
    (marks access_action (access_state id js_get route_domain) 0
      (mkStep "Go to routes page" JNull None [path_step "Go to routes page" 0; path_step "Go to add route page" 1] [])
      (with_tutorial (page_at "/routes/new")
        (begun (mkTutorial "" [mkStep "Go to routes page" JNull None
          [path_step "Go to routes page" 0; path_step "Go to add route page" 1] []] None) 0)))))%Z.
Proof.
  refine (proj1 (marks_decide_step access_action (access_state id js_get route_domain) 0 _ _ _ _ _) _).
  - apply access_reads_pages.
  - split; [done|by eexists|done].
  - reflexivity.
  - reflexivity.
Defined.

(** The form of a route is submitted and the server announces the route: the
    tutorial stays at the step for the form. *)
Lemma awaited_action_keeps_step_witness :
  currentStepIndex (tutorial_events access_action (access_state id js_get route_domain)
    [Reduced CREATE_ROUTE_PENDING; Reduced (CREATE_ROUTE_FULFILLED (newEmptyRouteForm "1")); Marks 1 (page_at "/routes")]
    (begun route_tutorial 1)) = 1%Z.
Proof.
  refine (waits_at route_tutorial 1 5 _ (awaited_action_keeps_step access_action (access_state id js_get route_domain)
    route_tutorial 1 5 _ (action_step "Submit form" (Some 0)) _ _ _ _ _ _ _)); try reflexivity.
  - by split.
  - repeat constructor.
Defined.

Definition route_form : JsValue := JObject
  [("hosts", JArray [JString route_domain]); ("paths", JArray [JString echo_path]); ("methods", JArray [JString "GET"]);
   ("schemes", JArray [JString "http"; JString "https"]);
   ("destinations", JArray [JObject [("host", JString echo_host); ("weight", JNumber (num 1))]])].

Lemma accepted_route_completes_witness :
  access_state id js_get route_domain 6
    (with_tutorial (page_at "/routes/new")
      (mkTutorialState true (Some route_tutorial) ∅ None 1 (Some {[ROUTE_FORM_ID := route_form]}))) = true.
Proof.
  apply (accepted_route_completes id js_get "Access your application" "tutorial" route_domain
    ("http://" +:+ route_domain +:+ echo_path) _ route_form [JString route_domain] [JString echo_path]);
    try reflexivity. lia.
Defined.

(** The tutorial about certificates never leaves its first step, whatever happens
    until another tutorial is chosen: nothing completes the submission. *)
Lemma certificate_step_stays title name events t :
  tutorial t = Some (ConfigureHttpsCertsTutorial title name) -> currentStepIndex t = 0%Z ->
  completed (tutorialStepStatus t) 0 4 = false ->
  Forall (unconcerned (R := string) (fun _ _ => false) (action_step "Submit form" None)) events ->
  currentStepIndex (tutorial_events (fun _ _ => false) (cert_state id js_get name) events t) = 0%Z.
Proof.
  intros Ht Hi Hc Hev. apply (waits_at (ConfigureHttpsCertsTutorial title name) 0 4).
  assert (Hw : waiting (ConfigureHttpsCertsTutorial title name) 0 4 t) by by split.
  clear Ht Hi Hc. revert t Hw. induction Hev as [|e events He _ IH]; intros t Hw; [done|]. cbn [tutorial_events foldl]. apply IH.
  by eapply waiting_event.
Qed.

(** The tutorial about applications asks for the text 8001 as container port,
    while the field of the form gives a number. *)
Lemma port_rule_refuses_numbers name n :
  basic_validate name 4 (Some (JNumber n)) = Ok (Some ("Please use " +:+ quoted "8001")).
Proof. done. Qed.

Definition component_form : JsValue := JObject
  [("name", JString "echoserver"); ("image", JString "kalmhq/echoserver");
   ("ports", JArray [JObject [("protocol", JString "http"); ("containerPort", JNumber (num 8001))]])].

(** The tutorial about applications from its start to its last step. *)
Lemma basic_walk :
  let tut := BasicApplicationCreationTutorial "Deploy an application" "tutorial" in
  let app := mkApplication "tutorial" None "Active" (mkMetrics false [] []) [] in
  let comp := mkComponentDetails newEmptyComponentLike (mkMetrics false [] []) [] []
    (mkIstio None None None None None None None None) in
  currentStepIndex (tutorial_events basic_action (basic_state id js_get "tutorial")
    [Marks 0 (page_at "/applications"); Marks 0 (page_at "/applications/new");
     Reduced (SET_TUTORIAL_FORM_VALUES APPLICATION_FORM_ID (JObject [("name", JString "tutorial")]));
     Marks 0 (page_at "/applications/new"); Reduced (CREATE_APPLICATION app);
     Reduced (SET_TUTORIAL_FORM_VALUES COMPONENT_FORM_ID component_form); Marks 1 (page_at "/");
     Reduced (CREATE_COMPONENT "tutorial" comp)]
    (begun tut 0)) = 2%Z.
Proof. vm_compute. reflexivity. Qed.
