(* ===== verification/Async.v ===== *)
(** Asynchronous programs of the front end: thunks that dispatch actions, read
    the state and the local storage, and wait for the answers of the API.

    A program is a tree of the operations it performs, each with the rest of the
    program as a function of the outcome.  [run] performs it with a server that
    answers every request; [exec] lets other actions happen while it waits. *)

From S2P Require Import Prelude JsString JsNumber ResourceTypes ActionTypes UiReducers RootReducer CasbinMiddleware Store.

(** ** Values that cross the network *)

(** An error an asynchronous function rejects with: its message, and the
    [status] and [message] of the body when it carries a response. *)
Record JsError := mkError {
  error_message : string;
  error_response : option (string * string)
}.

Inductive settled (A : Type) : Type :=
| Fulfilled (x : A)
| Rejected (e : JsError).
Arguments Fulfilled {A} x.
Arguments Rejected {A} e.

(** What an exception of the store is to the program that dispatched. *)
Definition settle {A} (r : result A) : settled A :=
  match r with Ok a => Fulfilled a | Throw m => Rejected (mkError m None) end.

(** The answer of a DNS resolver. *)
Record DnsAnswer := mkDnsAnswer {
  Answer : option (list GoogleDNSARecordResponse);
  Authority : option (list GoogleDNSCNAMEResponse)
}.

(** The types of the bodies of answers. *)
Inductive Wire :=
| WNothing | WClusterInfo | WLoginStatus | WNodes | WNode | WVolumes | WStorageClasses | WVolumeOptions
| WRegistries | WRegistry | WApplications | WApplication | WComponents | WComponent | WRoutes | WRoute
| WRoleBindings | WCertificates | WCertificate | WIssuers | WIssuer | WAcmeServer | WServices | WSSOConfig
| WEndpoints | WEndpoint | WAccessTokens | WAccessToken | WInitialized | WDns.

Definition wire (w : Wire) : Type :=
  match w with
  | WNothing => JsValue
  | WClusterInfo => ClusterInfo
  | WLoginStatus => LoginStatus
  | WNodes => NodesListResponse
  | WNode => Node
  | WVolumes => list Disk
  | WStorageClasses => list StorageClass
  | WVolumeOptions => list VolumeOption
  | WRegistries => list Registry
  | WRegistry => Registry
  | WApplications => list ApplicationDetails
  | WApplication => ApplicationDetails
  | WComponents => list ApplicationComponentDetails
  | WComponent => ApplicationComponentDetails
  | WRoutes => list HttpRoute
  | WRoute => HttpRoute
  | WRoleBindings => list RoleBinding
  | WCertificates => list Certificate
  | WCertificate => Certificate
  | WIssuers => list CertificateIssuer
  | WIssuer => CertificateIssuer
  | WAcmeServer => AcmeServerInfo
  | WServices => list Service
  | WSSOConfig => SSOConfig
  | WEndpoints => list ProtectedEndpoint
  | WEndpoint => ProtectedEndpoint
  | WAccessTokens => list AccessToken
  | WAccessToken => AccessToken
  | WInitialized => InitializeClusterResponse
  | WDns => DnsAnswer
  end.

(** The bodies of requests. *)
Inductive Payload :=
| NoData
| PDomain (domain : string)
| PRegistry (r : RegistryFormType)
| PApplication (a : Application)
| PComponent (c : ComponentLike)
| PRoute (r : HttpRoute)
| PRoleBinding (r : RoleBinding)
| PCertificate (c : CertificateFormType)
| PIssuer (i : CertificateIssuerFormType)
| PIssuerObject (certificateIssuer : CertificateIssuerFormType)
| PAcmeServer (a : AcmeServerFormType)
| PSSOConfig (c : SSOConfig)
| PEndpoint (e : ProtectedEndpoint)
| PAccessToken (t : AccessToken).

Record HttpRequest := mkRequest {
  req_method : string;
  req_url : string;
  req_headers : list (string * string);
  req_data : Payload;
  req_timeout : Z;
  req_withCredentials : bool
}.

Record HttpResponse (D : Type) := mkResponse { response_status : Z; response_data : D }.
Arguments mkResponse {D} _ _.
Arguments response_status {D} _.
Arguments response_data {D} _.

(** ** Programs *)

Section async.
Context {RouterState : Type}.

Inductive Async (A : Type) : Type :=
| Settled (x : settled A)
| Dispatch (action : Actions) (k : settled unit -> Async A)
| GetState (k : RootState RouterState -> Async A)
| GetItem (key : string) (k : option string -> Async A)
| RemoveItem (key : string) (k : Async A)
| Pathname (k : string -> Async A)
| Push (path : string) (k : Async A)
| Tick (k : Async A)
| Request (w : Wire) (req : HttpRequest) (k : settled (HttpResponse (wire w)) -> Async A)
| RequestAll (w : Wire) (reqs : list HttpRequest) (k : settled (list (HttpResponse (wire w))) -> Async A)
| Spawn (p : Async unit) (k : Async A).
End async.
Arguments Async : clear implicits.
Arguments Settled {RouterState A} x.
Arguments Dispatch {RouterState A} action k.
Arguments GetState {RouterState A} k.
Arguments GetItem {RouterState A} key k.
Arguments RemoveItem {RouterState A} key k.
Arguments Pathname {RouterState A} k.
Arguments Push {RouterState A} path k.
Arguments Tick {RouterState A} k.
Arguments Request {RouterState A} w req k.
Arguments RequestAll {RouterState A} w reqs k.
Arguments Spawn {RouterState A} p k.

(** [await] of a program, with the outcome it settles with. *)
Fixpoint settle_with {R} {A B : Type} (f : settled A -> Async R B) (p : Async R A) : Async R B :=
  match p with
  | Settled x => f x
  | Dispatch a k => Dispatch a (fun x => settle_with f (k x))
  | GetState k => GetState (fun s => settle_with f (k s))
  | GetItem key k => GetItem key (fun v => settle_with f (k v))
  | RemoveItem key k => RemoveItem key (settle_with f k)
  | Pathname k => Pathname (fun v => settle_with f (k v))
  | Push path k => Push path (settle_with f k)
  | Tick k => Tick (settle_with f k)
  | Request w req k => Request w req (fun x => settle_with f (k x))
  | RequestAll w reqs k => RequestAll w reqs (fun x => settle_with f (k x))
  | Spawn q k => Spawn q (settle_with f k)
  end.

#[export] Instance Async_ret {R} : MRet (Async R) := fun A a => Settled (Fulfilled a).
#[export] Instance Async_bind {R} : MBind (Async R) := fun A B f =>
  settle_with (fun x => match x with Fulfilled a => f a | Rejected e => Settled (Rejected e) end).

Definition throw {R A} (e : JsError) : Async R A := Settled (Rejected e).

(** [try { p } catch (e) { h(e) }] *)
Definition try_catch {R A} (p : Async R A) (h : JsError -> Async R A) : Async R A :=
  settle_with (fun x => match x with Fulfilled a => mret a | Rejected e => h e end) p.

(** The primitive operations as programs. *)
Definition dispatch_ {R} (action : Actions) : Async R unit := Dispatch action Settled.
Definition getState {R} : Async R (RootState R) := GetState mret.
Definition getItem {R} (key : string) : Async R (option string) := GetItem key mret.
Definition request {R} (w : Wire) (req : HttpRequest) : Async R (HttpResponse (wire w)) := Request w req Settled.
(** [await] of a value that is there already: others run before the rest. *)
Definition tick {R} : Async R unit := Tick (mret tt).
(** A thunk that is dispatched and not awaited. *)
Definition spawn {R A} (p : Async R A) : Async R unit :=
  Spawn (settle_with (fun _ => mret tt) p) (mret tt).

(** ** Running *)

Section run.
Context {R : Type}.
Variable connectRouter : R -> Actions -> R.
Variable call : FnRef -> Actions -> bool.
Variable b : Boot.
(** [window.location.pathname] *)
Variable pathname : string.
Abbreviation dashboard := (Dashboard R).

Definition set_storage (d : dashboard) (st : Storage) : dashboard := mkDashboard R (dash_enforcer d) (dash_root d) st.

(** Every request is answered at once by [server]. *)
Fixpoint run {A : Type} (server : forall w, HttpRequest -> settled (HttpResponse (wire w))) (p : Async R A) (d : dashboard)
    : dashboard * settled A :=
  match p with
  | Settled x => (d, x)
  | Dispatch a k => let '(d', r) := dispatch connectRouter call b d a in run server (k (settle r)) d'
  | GetState k => run server (k (dash_root d)) d
  | GetItem key k => run server (k (dash_storage d !! key)) d
  | RemoveItem key k => run server k (set_storage d (base.delete key (dash_storage d)))
  | Pathname k => run server (k pathname) d
  | Push _ k => run server k d
  | Tick k => run server k d
  | Request w req k => run server (k (server w req)) d
  | RequestAll w reqs k =>
      run server (k (foldr (fun req rest =>
        match server w req, rest with
        | Fulfilled x, Fulfilled xs => Fulfilled (x :: xs)
        | Rejected e, _ => Rejected e
        | _, Rejected e => Rejected e
        end) (Fulfilled []) reqs)) d
  | Spawn q k => run server k (run server q d).1
  end.

(** What a program does, as others see it. *)
Inductive Event :=
| Dispatched (action : Actions)
| Received (w : Wire) (req : HttpRequest) (answer : settled (HttpResponse (wire w)))
| ReceivedAll (w : Wire) (reqs : list HttpRequest) (answer : settled (list (HttpResponse (wire w))))
| Removed (key : string)
| Pushed (path : string).

(** Actions of the rest of the program: of other thunks, of the watch socket and
    of the pages. *)
Definition others : relation dashboard :=
  rtc (fun d d' => exists a, d' = (dispatch connectRouter call b d a).1).

(** [exec p d tr d' x]: an execution of [p] that starts in [d], does [tr], ends
    in [d'] and settles with [x].  Answers are any; actions of others happen
    while the program waits.  A spawned program runs to its end before the rest:
    no program here does anything observable after it spawned one that waits. *)
Fixpoint exec {A : Type} (p : Async R A) (d : dashboard) (tr : list Event) (d' : dashboard) (x : settled A) : Prop :=
  match p with
  | Settled y => tr = [] /\ d' = d /\ x = y
  | Dispatch a k => exists tr', tr = Dispatched a :: tr' /\
      exec (k (settle (dispatch connectRouter call b d a).2)) (dispatch connectRouter call b d a).1 tr' d' x
  | GetState k => exec (k (dash_root d)) d tr d' x
  | GetItem key k => exec (k (dash_storage d !! key)) d tr d' x
  | RemoveItem key k => exists tr', tr = Removed key :: tr' /\
      exec k (set_storage d (base.delete key (dash_storage d))) tr' d' x
  | Pathname k => exec (k pathname) d tr d' x
  | Push path k => exists tr', tr = Pushed path :: tr' /\ exec k d tr' d' x
  | Tick k => exists d1, others d d1 /\ exec k d1 tr d' x
  | Request w req k => exists answer d1 tr', tr = Received w req answer :: tr' /\
      others d d1 /\ exec (k answer) d1 tr' d' x
  | RequestAll w reqs k => exists answer d1 tr', tr = ReceivedAll w reqs answer :: tr' /\
      others d d1 /\ (forall xs, answer = Fulfilled xs -> length xs = length reqs) /\
      exec (k answer) d1 tr' d' x
  | Spawn q k => exists tr1 d1 y tr2, tr = tr1 ++ tr2 /\ exec q d tr1 d1 y /\ exec k d1 tr2 d' x
  end.

(** ** Executions of composed programs *)

Lemma exec_settle_with {A B : Type} (f : settled A -> Async R B) (p : Async R A) d tr d' x :
  exec (settle_with f p) d tr d' x <->
  exists tr1 d1 y tr2, tr = tr1 ++ tr2 /\ exec p d tr1 d1 y /\ exec (f y) d1 tr2 d' x.
Proof.
  revert f d tr. induction p as [A y|A a k IH|A k IH|A key k IH|A key k IH|A k IH|A path k IH|A k IH|A w req k IH|A w reqs k IH
    |A q IHq k IH]; intros f d tr; cbn [settle_with exec].
  - split; [intros H; by exists [], d, y, tr|]. by intros (tr1 & d1 & y' & tr2 & -> & (-> & -> & ->) & H).
  - setoid_rewrite IH. split.
    + intros (tr' & -> & tr1 & d1 & y & tr2 & -> & H1 & H2). exists (Dispatched a :: tr1), d1, y, tr2. naive_solver.
    + intros (tr1 & d1 & y & tr2 & -> & (tr' & -> & H1) & H2). exists (tr' ++ tr2). split; [done|]. by exists tr', d1, y, tr2.
  - apply IH.
  - apply IH.
  - setoid_rewrite IH. split.
    + intros (tr' & -> & tr1 & d1 & y & tr2 & -> & H1 & H2). exists (Removed key :: tr1), d1, y, tr2. naive_solver.
    + intros (tr1 & d1 & y & tr2 & -> & (tr' & -> & H1) & H2). exists (tr' ++ tr2). split; [done|]. by exists tr', d1, y, tr2.
  - apply IH.
  - setoid_rewrite IH. split.
    + intros (tr' & -> & tr1 & d1 & y & tr2 & -> & H1 & H2). exists (Pushed path :: tr1), d1, y, tr2. naive_solver.
    + intros (tr1 & d1 & y & tr2 & -> & (tr' & -> & H1) & H2). exists (tr' ++ tr2). split; [done|]. by exists tr', d1, y, tr2.
  - setoid_rewrite IH. split.
    + intros (d0 & Ho & tr1 & d1 & y & tr2 & -> & H1 & H2). exists tr1, d1, y, tr2. naive_solver.
    + intros (tr1 & d1 & y & tr2 & -> & (d0 & Ho & H1) & H2). exists d0. split; [done|]. by exists tr1, d1, y, tr2.
  - setoid_rewrite IH. split.
    + intros (ans & d0 & tr' & -> & Ho & tr1 & d1 & y & tr2 & -> & H1 & H2).
      exists (Received w req ans :: tr1), d1, y, tr2. naive_solver.
    + intros (tr1 & d1 & y & tr2 & -> & (ans & d0 & tr' & -> & Ho & H1) & H2). exists ans, d0, (tr' ++ tr2).
      split; [done|]. split; [done|]. by exists tr', d1, y, tr2.
  - setoid_rewrite IH. split.
    + intros (ans & d0 & tr' & -> & Ho & Hl & tr1 & d1 & y & tr2 & -> & H1 & H2).
      exists (ReceivedAll w reqs ans :: tr1), d1, y, tr2. split; [done|]. split; [|done]. by exists ans, d0, tr1.
    + intros (tr1 & d1 & y & tr2 & -> & (ans & d0 & tr' & -> & Ho & Hl & H1) & H2). exists ans, d0, (tr' ++ tr2).
      split; [done|]. split; [done|]. split; [done|]. by exists tr', d1, y, tr2.
  - setoid_rewrite IH. split.
    + intros (trq & dq & yq & tr' & -> & Hq & tr1 & d1 & y & tr2 & -> & H1 & H2).
      exists (trq ++ tr1), d1, y, tr2. split; [by rewrite (assoc_L (++))|]. split; [|done]. by exists trq, dq, yq, tr1.
    + intros (tr1 & d1 & y & tr2 & -> & (trq & dq & yq & tr' & -> & Hq & H1) & H2).
      exists trq, dq, yq, (tr' ++ tr2). split; [by rewrite (assoc_L (++))|]. split; [done|]. by exists tr', d1, y, tr2.
Qed.

Lemma exec_bind {A B : Type} (f : A -> Async R B) (p : Async R A) d tr d' x :
  exec (p ≫= f) d tr d' x <->
  exists tr1 d1 y tr2, tr = tr1 ++ tr2 /\ exec p d tr1 d1 y /\
    match y with
    | Fulfilled a => exec (f a) d1 tr2 d' x
    | Rejected e => tr2 = [] /\ d' = d1 /\ x = Rejected e
    end.
Proof.
  unfold mbind, Async_bind. rewrite exec_settle_with.
  split; intros (tr1 & d1 & y & tr2 & -> & H1 & H2); exists tr1, d1, y, tr2; by destruct y.
Qed.

Lemma exec_try_catch {A : Type} (p : Async R A) (h : JsError -> Async R A) d tr d' x :
  exec (try_catch p h) d tr d' x <->
  exists tr1 d1 y tr2, tr = tr1 ++ tr2 /\ exec p d tr1 d1 y /\
    match y with
    | Fulfilled a => tr2 = [] /\ d' = d1 /\ x = Fulfilled a
    | Rejected e => exec (h e) d1 tr2 d' x
    end.
Proof.
  unfold try_catch. rewrite exec_settle_with.
  split; intros (tr1 & d1 & y & tr2 & -> & H1 & H2); exists tr1, d1, y, tr2; by destruct y.
Qed.

(** [run] is one of the executions, so every program settles. *)
Lemma run_exec {A : Type} server (p : Async R A) d :
  exists tr, exec p d tr (run server p d).1 (run server p d).2.
Proof.
  revert d. induction p as [A y|A a k IH|A k IH|A key k IH|A key k IH|A k IH|A path k IH|A k IH|A w req k IH|A w reqs k IH
    |A q IHq k IH]; intros d; cbn [run exec].
  - by exists [].
  - destruct (dispatch _ _ _ d a) as [d1 r] eqn:Hd. destruct (IH (settle r) d1) as [tr H]. exists (Dispatched a :: tr), tr.
    by split.
  - apply IH.
  - apply IH.
  - destruct (IH (set_storage d (base.delete key (dash_storage d)))) as [tr H]. by exists (Removed key :: tr), tr.
  - apply IH.
  - destruct (IH d) as [tr H]. by exists (Pushed path :: tr), tr.
  - destruct (IH d) as [tr H]. exists tr, d. split; [apply rtc_refl|done].
  - destruct (IH (server w req) d) as [tr H]. exists (Received w req (server w req) :: tr), (server w req), d, tr.
    split; [done|]. split; [apply rtc_refl|done].
  - set (answer := foldr _ _ _). destruct (IH answer d) as [tr H].
    exists (ReceivedAll w reqs answer :: tr), answer, d, tr. split; [done|]. split; [apply rtc_refl|]. split; [|done].
    clear H IH. subst answer. induction reqs as [|req reqs IH]; cbn; [by intros ? [= <-]|].
    destruct (server w req) as [y|e]; [|done]. destruct (foldr _ _ _) as [ys|e]; [|done].
    intros xs [= <-]. cbn. f_equal. by apply IH.
  - destruct (IHq d) as [tr1 H1]. destruct (IH (run server q d).1) as [tr2 H2].
    exists (tr1 ++ tr2), tr1, (run server q d).1, (run server q d).2, tr2. by split.
Qed.
End run.

(** The name a program was defined with. *)
Ltac head_of p := lazymatch p with ?q _ => head_of q | _ => p end.
