(* ===== verification/ApiInterface.v ===== *)
(** [api/base.ts]: the interface of the API, for the server and for anything that stands
    in for it. *)

From S2P Require Import Prelude JsString JsNumber ResourceTypes ActionTypes UiReducers RootReducer Async.

(** What a call returns is a computation of [M]. *)
Class ApiOperations (M : Type -> Type) := {
  api_getClusterInfo : M ClusterInfo;
  api_getLoginStatus : M LoginStatus;
  api_validateToken : string -> M bool;
  api_getNodes : M NodesListResponse;
  api_cordonNode : string -> M Node;
  api_uncordonNode : string -> M Node;
  api_getPersistentVolumes : M (list Disk);
  api_deletePersistentVolume : string -> string -> M unit;
  api_getStorageClasses : M (list StorageClass);
  api_getSimpleOptions : string -> M (list VolumeOption);
  api_getStatefulSetOptions : string -> M (list VolumeOption);
  api_getRegistries : M (list Registry);
  api_getRegistry : string -> M Registry;
  api_createRegistry : RegistryFormType -> M Registry;
  api_updateRegistry : RegistryFormType -> M Registry;
  api_deleteRegistry : string -> M unit;
  api_getApplicationList : M (list ApplicationDetails);
  api_getApplication : string -> M ApplicationDetails;
  api_createApplication : Application -> M ApplicationDetails;
  api_updateApplication : Application -> M ApplicationDetails;
  api_deleteApplication : string -> M unit;
  api_getApplicationComponentList : string -> M (list ApplicationComponentDetails);
  api_getApplicationComponent : string -> string -> M ApplicationComponentDetails;
  api_createApplicationComponent : string -> ComponentLike -> M ApplicationComponentDetails;
  api_updateApplicationComponent : string -> ComponentLike -> M ApplicationComponentDetails;
  api_deleteApplicationComponent : string -> string -> M unit;
  api_getHttpRoutes : M (list HttpRoute);
  api_updateHttpRoute : HttpRoute -> M HttpRoute;
  api_createHttpRoute : HttpRoute -> M HttpRoute;
  api_deleteHttpRoute : HttpRoute -> M bool;
  api_deletePod : string -> string -> M (HttpResponse JsValue);
  api_loadRoleBindings : M (list RoleBinding);
  api_createRoleBinding : RoleBinding -> M unit;
  api_updateRoleBinding : RoleBinding -> M unit;
  api_deleteRoleBinding : string -> string -> M unit;
  api_getServiceAccountSecret : string -> M JsValue;
  api_getCertificateList : M (list Certificate);
  api_getCertificateIssuerList : M (list CertificateIssuer);
  api_createCertificate : CertificateFormType -> bool -> M Certificate;
  api_createCertificateIssuer : CertificateIssuerFormType -> bool -> M CertificateIssuer;
  api_deleteCertificate : string -> M unit;
  api_createAcmeServer : AcmeServerFormType -> M AcmeServerInfo;
  api_deleteAcmeServer : AcmeServerFormType -> M unit;
  api_editAcmeServer : AcmeServerFormType -> M unit;
  api_getAcmeServer : M AcmeServerInfo;
  api_loadServices : string -> M (list Service);
  api_getSSOConfig : M SSOConfig;
  api_createSSOConfig : SSOConfig -> M SSOConfig;
  api_updateSSOConfig : SSOConfig -> M SSOConfig;
  api_deleteSSOConfig : M unit;
  api_listProtectedEndpoints : M (list ProtectedEndpoint);
  api_createProtectedEndpoint : ProtectedEndpoint -> M ProtectedEndpoint;
  api_updateProtectedEndpoint : ProtectedEndpoint -> M ProtectedEndpoint;
  api_deleteProtectedEndpoint : ProtectedEndpoint -> M unit;
  api_listDeployAccessTokens : M (list DeployAccessToken);
  api_createDeployAccessToken : DeployAccessToken -> M DeployAccessToken;
  api_deleteDeployAccessToken : DeployAccessToken -> M unit;
  api_resolveDomain : string -> string -> Z -> M (list string);
  api_initializeCluster : string -> M InitializeClusterResponse;
  api_resetCluster : M unit
}.
