(* ===== verification/Api.v ===== *)
(** [api/base.ts] and [api/realApi/index.ts]: the operations of the API, and the
    requests the client makes for them. *)

From S2P Require Import Prelude JsString JsNumber ResourceTypes ActionTypes AccessTokens UiReducers RootReducer Async ApiInterface.

(** ** The client *)

Definition IMPERSONATION_KEY : string := "KALM_IMPERSONATION".

Definition generateKalmImpersonnation (subject subjectType : string) : string :=
  "subject=" +:+ subject +:+ "; type=" +:+ subjectType.

Definition impersonate (subject subjectType : string) (localStorage : Storage) : Storage :=
  <[IMPERSONATION_KEY := generateKalmImpersonnation subject subjectType]> localStorage.

(** What a method asks the client for. *)
Record RequestConfig := mkConfig {
  config_method : string;
  config_url : string;
  config_headers : list (string * string);
  config_data : Payload
}.
Definition config (method url : string) (data : Payload) : RequestConfig := mkConfig method url [] data.

Section api.
Context {R : Type}.
(** The environment the front end was built in. *)
Variables K8sApiPrefix K8sApiVersion : string.

Definition stopImpersonating : Async R unit := RemoveItem IMPERSONATION_KEY (mret tt).

Definition bearer (token : string) : string * string := ("Authorization", "Bearer " +:+ token).

(** The headers of the client: read when the request is made. *)
Definition getAxiosClient (withHeaderToken : bool) : Async R (list (string * string)) :=
  state ← getState;
  impersonation ← getItem IMPERSONATION_KEY;
  let token := auth_token (root_auth state) in
  mret ((if withHeaderToken && negb (seqb token "") then [bearer token] else []) ++
        match impersonation with
        | Some i => if seqb i "" then [] else [("Kalm-Impersonation", i)]
        | None => []
        end).

Definition axiosRequest (w : Wire) (c : RequestConfig) (withHeaderToken : bool) : Async R (HttpResponse (wire w)) :=
  headers ← getAxiosClient withHeaderToken;
  request w (mkRequest (config_method c) (K8sApiPrefix +:+ config_url c) (headers ++ config_headers c)
    (config_data c) 10000 true).

(** [`/${K8sApiVersion}` followed by a path] *)
Definition versioned (path : string) : string := "/" +:+ K8sApiVersion +:+ path.

(** ** The methods of [RealApi] *)

Definition RealApi_getClusterInfo : Async R ClusterInfo :=
  res ← axiosRequest WClusterInfo (config "get" (versioned ("/cluster")) NoData) true;
  mret (response_data res).

Definition RealApi_getLoginStatus : Async R LoginStatus :=
  res ← axiosRequest WLoginStatus (config "get" "/login/status" NoData) true;
  mret (response_data res).

Definition RealApi_getNodes : Async R NodesListResponse :=
  res ← axiosRequest WNodes (config "get" (versioned ("/nodes")) NoData) true;
  mret (response_data res).

Definition RealApi_cordonNode (name : string) : Async R Node :=
  res ← axiosRequest WNode (config "post" (versioned ("/nodes/" +:+ name +:+ "/cordon")) NoData) true;
  mret (response_data res).

Definition RealApi_uncordonNode (name : string) : Async R Node :=
  res ← axiosRequest WNode (config "post" (versioned ("/nodes/" +:+ name +:+ "/uncordon")) NoData) true;
  mret (response_data res).

Definition RealApi_getPersistentVolumes : Async R (list Disk) :=
  res ← axiosRequest WVolumes (config "get" (versioned ("/volumes")) NoData) true;
  mret (response_data res).

Definition RealApi_deletePersistentVolume (namespace : string) (name : string) : Async R unit :=
  axiosRequest WNothing (config "delete" (versioned ("/volumes/" +:+ namespace +:+ "/" +:+ name)) NoData) true ;; mret tt.

Definition RealApi_getStorageClasses : Async R (list StorageClass) :=
  res ← axiosRequest WStorageClasses (config "get" (versioned ("/storageclasses")) NoData) true;
  mret (response_data res).

Definition RealApi_getSimpleOptions (namespace : string) : Async R (list VolumeOption) :=
  res ← axiosRequest WVolumeOptions (config "get" (versioned ("/volumes/available/simple-workload?currentNamespace=" +:+ namespace)) NoData) true;
  mret (response_data res).

Definition RealApi_getStatefulSetOptions (namespace : string) : Async R (list VolumeOption) :=
  res ← axiosRequest WVolumeOptions (config "get" (versioned ("/volumes/available/sts/" +:+ namespace)) NoData) true;
  mret (response_data res).

Definition RealApi_getRegistries : Async R (list Registry) :=
  res ← axiosRequest WRegistries (config "get" (versioned ("/registries")) NoData) true;
  mret (response_data res).

Definition RealApi_getRegistry (name : string) : Async R Registry :=
  res ← axiosRequest WRegistry (config "get" (versioned ("/registries/" +:+ name)) NoData) true;
  mret (response_data res).

Definition RealApi_createRegistry (registry : RegistryFormType) : Async R Registry :=
  res ← axiosRequest WRegistry (config "post" (versioned ("/registries")) (PRegistry registry)) true;
  mret (response_data res).

Definition RealApi_updateRegistry (registry : RegistryFormType) : Async R Registry :=
  res ← axiosRequest WRegistry (config "put" (versioned ("/registries/" +:+ regForm_name registry)) (PRegistry registry)) true;
  mret (response_data res).

Definition RealApi_deleteRegistry (name : string) : Async R unit :=
  axiosRequest WNothing (config "delete" (versioned ("/registries/" +:+ name)) NoData) true ;; mret tt.

Definition RealApi_getApplicationList : Async R (list ApplicationDetails) :=
  res ← axiosRequest WApplications (config "get" (versioned ("/applications")) NoData) true;
  mret (response_data res).

Definition RealApi_getApplication (name : string) : Async R ApplicationDetails :=
  res ← axiosRequest WApplication (config "get" (versioned ("/applications/" +:+ name)) NoData) true;
  mret (response_data res).

Definition RealApi_createApplication (application : Application) : Async R ApplicationDetails :=
  res ← axiosRequest WApplication (config "post" (versioned ("/applications")) (PApplication application)) true;
  mret (response_data res).

Definition RealApi_updateApplication (application : Application) : Async R ApplicationDetails :=
  res ← axiosRequest WApplication (config "put" (versioned ("/applications/" +:+ application_name application)) (PApplication application)) true;
  mret (response_data res).

Definition RealApi_deleteApplication (name : string) : Async R unit :=
  axiosRequest WNothing (config "delete" (versioned ("/applications/" +:+ name)) NoData) true ;; mret tt.

Definition RealApi_getApplicationComponentList (applicationName : string) : Async R (list ApplicationComponentDetails) :=
  res ← axiosRequest WComponents (config "get" (versioned ("/applications/" +:+ applicationName +:+ "/components")) NoData) true;
  mret (response_data res).

Definition RealApi_getApplicationComponent (applicationName : string) (name : string) : Async R ApplicationComponentDetails :=
  res ← axiosRequest WComponent (config "get" (versioned ("/applications/" +:+ applicationName +:+ "/components/" +:+ name)) NoData) true;
  mret (response_data res).

Definition RealApi_createApplicationComponent (applicationName : string) (component : ComponentLike) : Async R ApplicationComponentDetails :=
  res ← axiosRequest WComponent (config "post" (versioned ("/applications/" +:+ applicationName +:+ "/components")) (PComponent component)) true;
  mret (response_data res).

Definition RealApi_updateApplicationComponent (applicationName : string) (component : ComponentLike) : Async R ApplicationComponentDetails :=
  res ← axiosRequest WComponent (config "put" (versioned ("/applications/" +:+ applicationName +:+ "/components/" +:+ comp_name component)) (PComponent component)) true;
  mret (response_data res).

Definition RealApi_deleteApplicationComponent (applicationName : string) (name : string) : Async R unit :=
  axiosRequest WNothing (config "delete" (versioned ("/applications/" +:+ applicationName +:+ "/components/" +:+ name)) NoData) true ;; mret tt.

Definition RealApi_getHttpRoutes : Async R (list HttpRoute) :=
  res ← axiosRequest WRoutes (config "get" (versioned ("/httproutes")) NoData) true;
  mret (response_data res).

Definition RealApi_updateHttpRoute (httpRoute : HttpRoute) : Async R HttpRoute :=
  res ← axiosRequest WRoute (config "put" (versioned ("/httproutes/" +:+ route_namespace httpRoute +:+ "/" +:+ route_name httpRoute)) (PRoute httpRoute)) true;
  mret (response_data res).

Definition RealApi_createHttpRoute (httpRoute : HttpRoute) : Async R HttpRoute :=
  res ← axiosRequest WRoute (config "post" (versioned ("/httproutes/" +:+ route_namespace httpRoute)) (PRoute httpRoute)) true;
  mret (response_data res).

Definition RealApi_deleteHttpRoute (httpRoute : HttpRoute) : Async R bool :=
  res ← axiosRequest WNothing (config "delete" (versioned ("/httproutes/" +:+ route_namespace httpRoute +:+ "/" +:+ route_name httpRoute)) NoData) true;
  mret (Z.eqb (response_status res) 200).

Definition RealApi_deletePod (namespace : string) (name : string) : Async R (HttpResponse JsValue) :=
  axiosRequest WNothing (config "delete" (versioned ("/pods/" +:+ namespace +:+ "/" +:+ name)) NoData) true.

Definition RealApi_loadRoleBindings : Async R (list RoleBinding) :=
  res ← axiosRequest WRoleBindings (config "get" (versioned ("/rolebindings")) NoData) true;
  mret (response_data res).

Definition RealApi_createRoleBinding (roleBinding : RoleBinding) : Async R unit :=
  axiosRequest WNothing (config "post" (versioned ("/rolebindings")) (PRoleBinding roleBinding)) true ;; mret tt.

Definition RealApi_updateRoleBinding (roleBinding : RoleBinding) : Async R unit :=
  axiosRequest WNothing (config "put" (versioned ("/rolebindings")) (PRoleBinding roleBinding)) true ;; mret tt.

Definition RealApi_deleteRoleBinding (namespace : string) (bindingName : string) : Async R unit :=
  axiosRequest WNothing (config "delete" (versioned ("/rolebindings/" +:+ namespace +:+ "/" +:+ bindingName)) NoData) true ;; mret tt.

Definition RealApi_getServiceAccountSecret (name : string) : Async R JsValue :=
  res ← axiosRequest WNothing (config "get" (versioned ("/serviceaccounts/" +:+ name)) NoData) true;
  mret (response_data res).

Definition RealApi_getCertificateList : Async R (list Certificate) :=
  res ← axiosRequest WCertificates (config "get" (versioned ("/httpscerts")) NoData) true;
  mret (response_data res).

Definition RealApi_getCertificateIssuerList : Async R (list CertificateIssuer) :=
  res ← axiosRequest WIssuers (config "get" (versioned ("/httpscertissuers")) NoData) true;
  mret (response_data res).

Definition RealApi_deleteCertificate (name : string) : Async R unit :=
  axiosRequest WNothing (config "delete" (versioned ("/httpscerts/" +:+ name)) NoData) true ;; mret tt.

Definition RealApi_createAcmeServer (acmeServer : AcmeServerFormType) : Async R AcmeServerInfo :=
  res ← axiosRequest WAcmeServer (config "post" (versioned ("/acmeserver")) (PAcmeServer acmeServer)) true;
  mret (response_data res).

Definition RealApi_editAcmeServer (acmeServer : AcmeServerFormType) : Async R unit :=
  axiosRequest WNothing (config "put" (versioned ("/acmeserver")) (PAcmeServer acmeServer)) true ;; mret tt.

Definition RealApi_deleteAcmeServer (acmeServer : AcmeServerFormType) : Async R unit :=
  axiosRequest WNothing (config "delete" (versioned ("/acmeserver")) (PAcmeServer acmeServer)) true ;; mret tt.

Definition RealApi_getAcmeServer : Async R AcmeServerInfo :=
  res ← axiosRequest WAcmeServer (config "get" (versioned ("/acmeserver")) NoData) true;
  mret (response_data res).

Definition RealApi_loadServices (name : string) : Async R (list Service) :=
  res ← axiosRequest WServices (config "get" (versioned ("/services")) NoData) true;
  mret (response_data res).

Definition RealApi_getSSOConfig : Async R SSOConfig :=
  res ← axiosRequest WSSOConfig (config "get" (versioned ("/sso")) NoData) true;
  mret (response_data res).

Definition RealApi_createSSOConfig (ssoConfig : SSOConfig) : Async R SSOConfig :=
  res ← axiosRequest WSSOConfig (config "post" (versioned ("/sso")) (PSSOConfig ssoConfig)) true;
  mret (response_data res).

Definition RealApi_updateSSOConfig (ssoConfig : SSOConfig) : Async R SSOConfig :=
  res ← axiosRequest WSSOConfig (config "put" (versioned ("/sso")) (PSSOConfig ssoConfig)) true;
  mret (response_data res).

Definition RealApi_deleteSSOConfig : Async R unit :=
  axiosRequest WNothing (config "delete" (versioned ("/sso")) NoData) true ;; mret tt.

Definition RealApi_listProtectedEndpoints : Async R (list ProtectedEndpoint) :=
  res ← axiosRequest WEndpoints (config "get" (versioned ("/protectedendpoints")) NoData) true;
  mret (response_data res).

Definition RealApi_createProtectedEndpoint (protectedEndpoint : ProtectedEndpoint) : Async R ProtectedEndpoint :=
  res ← axiosRequest WEndpoint (config "post" (versioned ("/protectedendpoints")) (PEndpoint protectedEndpoint)) true;
  mret (response_data res).

Definition RealApi_updateProtectedEndpoint (protectedEndpoint : ProtectedEndpoint) : Async R ProtectedEndpoint :=
  res ← axiosRequest WEndpoint (config "put" (versioned ("/protectedendpoints")) (PEndpoint protectedEndpoint)) true;
  mret (response_data res).

Definition RealApi_deleteProtectedEndpoint (protectedEndpoint : ProtectedEndpoint) : Async R unit :=
  axiosRequest WNothing (config "delete" (versioned ("/protectedendpoints")) (PEndpoint protectedEndpoint)) true ;; mret tt.

Definition RealApi_initializeCluster (domain : string) : Async R InitializeClusterResponse :=
  res ← axiosRequest WInitialized (config "post" (versioned ("/initialize")) (PDomain domain)) true;
  mret (response_data res).

Definition RealApi_resetCluster : Async R unit :=
  axiosRequest WNothing (config "post" (versioned ("/reset")) NoData) true ;; mret tt.

Definition RealApi_validateToken (token : string) : Async R bool :=
  res ← axiosRequest WNothing (mkConfig "post" "/login/token" [bearer token] NoData) false;
  mret (Z.eqb (response_status res) 200).

Definition RealApi_createCertificate (certificate : CertificateFormType) (isEdit : bool)
    : Async R Certificate :=
  let data := PCertificate certificate in
  res ← (if isEdit then
           axiosRequest WCertificate
             (config "put" (versioned ("/httpscerts/" +:+ cert_name (form_certificate certificate))) data) true
         else if bool_decide (cert_isSelfManaged (form_certificate certificate) = Some true) then
           axiosRequest WCertificate (config "post" (versioned "/httpscerts/upload") data) true
         else axiosRequest WCertificate (config "post" (versioned "/httpscerts") data) true);
  mret (response_data res).

Definition RealApi_createCertificateIssuer (certificateIssuer : CertificateIssuerFormType) (isEdit : bool)
    : Async R CertificateIssuer :=
  res ← (if isEdit then
           axiosRequest WIssuer
             (config "put" (versioned ("/httpscertissuers/" +:+ issuer_name (issuerForm_issuer certificateIssuer)))
                (PIssuer certificateIssuer)) true
         else axiosRequest WIssuer (config "post" (versioned "/httpscertissuers") (PIssuerObject certificateIssuer)) true);
  mret (response_data res).

Definition RealApi_listDeployAccessTokens : Async R (list DeployAccessToken) :=
  res ← axiosRequest WAccessTokens (config "get" (versioned "/deploy_access_tokens") NoData) true;
  mret (map AccessTokenToDeployAccessToken (response_data res)).

Definition RealApi_createDeployAccessToken (deployAccessToken : DeployAccessToken) : Async R DeployAccessToken :=
  res ← axiosRequest WAccessToken (config "post" (versioned "/deploy_access_tokens")
          (PAccessToken (DeployAccessTokenToAccessToken deployAccessToken))) true;
  mret (AccessTokenToDeployAccessToken (response_data res)).

Definition RealApi_deleteDeployAccessToken (deployAccessToken : DeployAccessToken) : Async R unit :=
  axiosRequest WNothing (config "delete" (versioned "/deploy_access_tokens")
    (PAccessToken (DeployAccessTokenToAccessToken deployAccessToken))) true ;; mret tt.

(** The public resolver is asked without the client's headers. *)
Definition RealApi_resolveDomain (domain type : string) (timeout : Z) : Async R (list string) :=
  res ← request WDns (mkRequest "get" ("https://dns.google.com/resolve?name=" +:+ domain +:+ "&type=" +:+ type)
          [] NoData timeout false);
  match Answer (response_data res), Authority (response_data res) with
  | Some records, _ => mret (dnsA_data <$> records)
  | None, Some (record :: _) => mret [dnsC_data record]
  | None, Some [] => throw (mkError "Cannot read property 'data' of undefined" None)
  | None, None => mret []
  end.

(** The client implements the whole interface. *)
#[export] Instance RealApi : ApiOperations (Async R) := {|
  api_getClusterInfo := RealApi_getClusterInfo;
  api_getLoginStatus := RealApi_getLoginStatus;
  api_validateToken := RealApi_validateToken;
  api_getNodes := RealApi_getNodes;
  api_cordonNode := RealApi_cordonNode;
  api_uncordonNode := RealApi_uncordonNode;
  api_getPersistentVolumes := RealApi_getPersistentVolumes;
  api_deletePersistentVolume := RealApi_deletePersistentVolume;
  api_getStorageClasses := RealApi_getStorageClasses;
  api_getSimpleOptions := RealApi_getSimpleOptions;
  api_getStatefulSetOptions := RealApi_getStatefulSetOptions;
  api_getRegistries := RealApi_getRegistries;
  api_getRegistry := RealApi_getRegistry;
  api_createRegistry := RealApi_createRegistry;
  api_updateRegistry := RealApi_updateRegistry;
  api_deleteRegistry := RealApi_deleteRegistry;
  api_getApplicationList := RealApi_getApplicationList;
  api_getApplication := RealApi_getApplication;
  api_createApplication := RealApi_createApplication;
  api_updateApplication := RealApi_updateApplication;
  api_deleteApplication := RealApi_deleteApplication;
  api_getApplicationComponentList := RealApi_getApplicationComponentList;
  api_getApplicationComponent := RealApi_getApplicationComponent;
  api_createApplicationComponent := RealApi_createApplicationComponent;
  api_updateApplicationComponent := RealApi_updateApplicationComponent;
  api_deleteApplicationComponent := RealApi_deleteApplicationComponent;
  api_getHttpRoutes := RealApi_getHttpRoutes;
  api_updateHttpRoute := RealApi_updateHttpRoute;
  api_createHttpRoute := RealApi_createHttpRoute;
  api_deleteHttpRoute := RealApi_deleteHttpRoute;
  api_deletePod := RealApi_deletePod;
  api_loadRoleBindings := RealApi_loadRoleBindings;
  api_createRoleBinding := RealApi_createRoleBinding;
  api_updateRoleBinding := RealApi_updateRoleBinding;
  api_deleteRoleBinding := RealApi_deleteRoleBinding;
  api_getServiceAccountSecret := RealApi_getServiceAccountSecret;
  api_getCertificateList := RealApi_getCertificateList;
  api_getCertificateIssuerList := RealApi_getCertificateIssuerList;
  api_createCertificate := RealApi_createCertificate;
  api_createCertificateIssuer := RealApi_createCertificateIssuer;
  api_deleteCertificate := RealApi_deleteCertificate;
  api_createAcmeServer := RealApi_createAcmeServer;
  api_deleteAcmeServer := RealApi_deleteAcmeServer;
  api_editAcmeServer := RealApi_editAcmeServer;
  api_getAcmeServer := RealApi_getAcmeServer;
  api_loadServices := RealApi_loadServices;
  api_getSSOConfig := RealApi_getSSOConfig;
  api_createSSOConfig := RealApi_createSSOConfig;
  api_updateSSOConfig := RealApi_updateSSOConfig;
  api_deleteSSOConfig := RealApi_deleteSSOConfig;
  api_listProtectedEndpoints := RealApi_listProtectedEndpoints;
  api_createProtectedEndpoint := RealApi_createProtectedEndpoint;
  api_updateProtectedEndpoint := RealApi_updateProtectedEndpoint;
  api_deleteProtectedEndpoint := RealApi_deleteProtectedEndpoint;
  api_listDeployAccessTokens := RealApi_listDeployAccessTokens;
  api_createDeployAccessToken := RealApi_createDeployAccessToken;
  api_deleteDeployAccessToken := RealApi_deleteDeployAccessToken;
  api_resolveDomain := RealApi_resolveDomain;
  api_initializeCluster := RealApi_initializeCluster;
  api_resetCluster := RealApi_resetCluster
|}.
End api.
