(* ===== verification/Actions.v ===== *)
(** [actions/*.ts] and [errorHandler.ts]: the action creators, the thunks that
    call the API and dispatch what came of it, and what happens to a thunk that
    rejects. *)

From S2P Require Import Prelude JsString JsNumber ResourceTypes ActionTypes UiReducers RootReducer ComponentForms Async Api.

Section actions.
Context {R : Type}.
Variables K8sApiPrefix K8sApiVersion : string.
Abbreviation thunk := (Async R).
Abbreviation api m := (m K8sApiPrefix K8sApiVersion) (only parsing).

(** ** [actions/notification.ts] *)

Definition SomethingWrong : string := "Something wrong".

Definition setNotificationMessageAction (message variant : string) : thunk unit :=
  dispatch_ (SET_NOTIFICATION_MESSAGE message variant).

Definition setSuccessNotificationAction (message : string) := setNotificationMessageAction message "success".
Definition setErrorNotificationAction (message : option string) :=
  setNotificationMessageAction (default SomethingWrong message) "error".
Definition setInfoNotificationAction (message : string) := setNotificationMessageAction message "info".
Definition setWarnNotificationAction (message : string) := setNotificationMessageAction message "warning".

(** ** [errorHandler.ts] *)

Definition StatusFailure : string := "Failure".

Definition ErrorHandler {A} (e : JsError) : thunk A :=
  match error_response e with
  | Some (status, message) =>
      if seqb status StatusFailure then spawn (setErrorNotificationAction (Some message)) ;; throw e
      else throw e
  | None => throw e
  end.

(** A thunk that is dispatched passes the error handler. *)
Definition dispatch_thunk {A} (p : thunk A) : thunk A := try_catch p ErrorHandler.

(** Dispatched and not awaited. *)
Definition fire {A} (p : thunk A) : thunk unit := spawn (dispatch_thunk p).

(** ** [actions/namespaces.ts] *)

Definition nonempty_at (l : list string) (i : nat) : bool :=
  match l !! i with Some s => negb (seqb s "") | None => false end.

Definition setCurrentNamespaceAction (namespace : string) (redirect : bool) : thunk unit :=
  (if redirect then
     Pathname (fun pathname =>
       let pathnameSplits := split_char "/" pathname in
       if nonempty_at pathnameSplits 1 && nonempty_at pathnameSplits 2
          && bool_decide (pathnameSplits !! 1 = Some "applications") then
         Push (join "/" (take 4 (<[2 := namespace]> pathnameSplits))) (mret tt)
       else mret tt)
   else mret tt) ;;
  dispatch_ (SET_CURRENT_NAMESPACE namespace).

(** ** [actions/application.ts] *)

Definition setIsSubmittingApplicationAction (b : bool) : Actions := SET_IS_SUBMITTING_APPLICATION b.
Definition setIsSubmittingApplicationComponentAction (b : bool) : Actions := SET_IS_SUBMITTING_APPLICATION_COMPONENT b.

Definition createApplicationAction (applicationValues : Application) : thunk ApplicationDetails :=
  dispatch_ (setIsSubmittingApplicationAction true) ;;
  application ← try_catch (api RealApi_createApplication applicationValues)
    (fun e => dispatch_ (setIsSubmittingApplicationAction false) ;; throw e);
  dispatch_ (setIsSubmittingApplicationAction false) ;;
  dispatch_ (CREATE_APPLICATION application) ;; tick ;;
  fire (setSuccessNotificationAction "Create application successfully") ;;
  mret application.

Definition updateApplicationAction (applicationRaw : Application) : thunk unit :=
  dispatch_ (setIsSubmittingApplicationAction true) ;;
  application ← try_catch (api RealApi_updateApplication applicationRaw)
    (fun e => dispatch_ (setIsSubmittingApplicationAction false) ;; throw e);
  dispatch_ (setIsSubmittingApplicationAction false) ;;
  dispatch_ (UPDATE_APPLICATION application) ;;
  fire (setSuccessNotificationAction "Edit application successfully") ;;
  Push "/applications" (mret tt).

Definition deleteApplicationAction (name : string) : thunk unit :=
  api RealApi_deleteApplication name ;;
  dispatch_ (DELETE_APPLICATION name).

Definition loadApplicationAction (name : string) : thunk unit :=
  dispatch_ LOAD_APPLICATION_PENDING ;;
  application ← try_catch (api RealApi_getApplication name)
    (fun e => dispatch_ LOAD_APPLICATION_FAILED ;; throw e);
  dispatch_ (LOAD_APPLICATION_FULFILLED application).

(** [Promise.all] over the applications: the requests are sent one after the
    other without waiting, and the component lists assigned by name. *)
Definition getAllComponents (apps : list ApplicationDetails) : thunk (gmap string (list ApplicationComponentDetails)) :=
  headers ← getAxiosClient true;
  responses ← RequestAll WComponents
    (map (fun app => mkRequest "get"
       (K8sApiPrefix +:+ versioned K8sApiVersion ("/applications/" +:+ app_name app +:+ "/components"))
       headers NoData 10000 true) apps) Settled;
  mret (list_to_map (zip (app_name <$> apps) (response_data <$> responses))).

Definition loadApplicationsAction : thunk (list ApplicationDetails) :=
  dispatch_ LOAD_APPLICATIONS_PENDING ;;
  loaded ← try_catch
    (applicationList ← api RealApi_getApplicationList;
     allNamespacesComponents ←
       getAllComponents (List.filter (fun app => seqb (app_status app) "Active") applicationList);
     mret (applicationList, allNamespacesComponents))
    (fun e => dispatch_ LOAD_APPLICATIONS_FAILED ;; throw e);
  let '(applicationList, allNamespacesComponents) := loaded in
  state ← getState;
  (match active (root_namespaces state), applicationList with
   | "", firstNamespace :: _ => fire (setCurrentNamespaceAction (app_name firstNamespace) false)
   | _, _ => mret tt
   end) ;;
  dispatch_ (LOAD_ALL_NAMESAPCES_COMPONETS allNamespacesComponents) ;;
  dispatch_ (LOAD_APPLICATIONS_FULFILLED applicationList) ;;
  mret applicationList.

(** ** [actions/component.ts] *)

Definition loadComponentsAction (namespace : string) : thunk unit :=
  dispatch_ LOAD_COMPONENTS_PENDING ;;
  components ← try_catch (api RealApi_getApplicationComponentList namespace)
    (fun e => dispatch_ LOAD_COMPONENTS_FAILED ;; throw e);
  dispatch_ (LOAD_COMPONENTS_FULFILLED namespace components).

(** [if (!applicationName) applicationName = getState().namespaces.active] *)
Definition or_active (applicationName : option string) : thunk string :=
  match applicationName with
  | Some n => if seqb n "" then state ← getState; mret (active (root_namespaces state)) else mret n
  | None => state ← getState; mret (active (root_namespaces state))
  end.

Definition createComponentAction (componentValues : ComponentLike) (applicationName : option string) : thunk unit :=
  applicationName ← or_active applicationName;
  dispatch_ (setIsSubmittingApplicationComponentAction true) ;;
  component ← try_catch
    (state ← getState;
     api RealApi_createApplicationComponent applicationName (correctComponentFormValuesForSubmit state componentValues))
    (fun e => dispatch_ (setIsSubmittingApplicationComponentAction false) ;; throw e);
  dispatch_ (setIsSubmittingApplicationComponentAction false) ;;
  dispatch_ (CREATE_COMPONENT applicationName component) ;; tick ;;
  fire (setSuccessNotificationAction "Create component successfully").

Definition updateComponentAction (componentValues : ComponentLike) (applicationName : option string) : thunk unit :=
  applicationName ← or_active applicationName;
  dispatch_ (setIsSubmittingApplicationComponentAction true) ;;
  component ← try_catch
    (state ← getState;
     api RealApi_updateApplicationComponent applicationName (correctComponentFormValuesForSubmit state componentValues))
    (fun e => dispatch_ (setIsSubmittingApplicationComponentAction false) ;; throw e);
  dispatch_ (setIsSubmittingApplicationComponentAction false) ;;
  dispatch_ (UPDATE_COMPONENT applicationName component) ;; tick ;;
  fire (setSuccessNotificationAction "Update component successfully").

Definition deleteComponentAction (componentName : string) (applicationName : option string) : thunk unit :=
  applicationName ← or_active applicationName;
  api RealApi_deleteApplicationComponent applicationName componentName ;;
  dispatch_ (DELETE_COMPONENT applicationName componentName) ;;
  fire (setSuccessNotificationAction "Delete component successfully").

(** ** [actions/auth.ts] *)

Definition loadLoginStatusAction : thunk unit :=
  dispatch_ LOAD_LOGIN_STATUS_PENDING ;;
  try_catch
    (loginStatus ← RealApi_getLoginStatus K8sApiPrefix;
     dispatch_ (LOAD_LOGIN_STATUS_FULFILLED loginStatus))
    (fun e => fire (setErrorNotificationAction (Some (error_message e))) ;; dispatch_ LOAD_LOGIN_STATUS_FAILED).

Definition validateTokenAction (token : string) : thunk string :=
  try_catch
    (RealApi_validateToken K8sApiPrefix token ;;
     dispatch_ (SET_AUTH_TOKEN token) ;;
     fire loadLoginStatusAction ;;
     mret "")
    (fun e => fire (setErrorNotificationAction (Some (error_message e))) ;; mret (error_message e)).

(** The action creator has an effect of its own; its action is dispatched after it. *)
Definition logoutAction : thunk Actions := stopImpersonating ;; mret (Common LOGOUT).

(** ** [actions/certificate.ts] *)

Definition setIsSubmittingCertificateAction (b : bool) : Actions := SET_IS_SUBMITTING_CERTIFICATE b.
Definition setIsSubmittingAcmeServer (b : bool) : Actions := SET_IS_SUBMITTING_ACME_SERVER b.

Definition deleteCertificateAction (name : string) : thunk unit :=
  api RealApi_deleteCertificate name ;;
  dispatch_ (DELETE_CERTIFICATE name).

Definition loadCertificatesAction : thunk unit :=
  dispatch_ LOAD_CERTIFICATES_PENDING ;;
  try_catch
    (certificates ← api RealApi_getCertificateList;
     dispatch_ (LOAD_CERTIFICATES_FULFILLED (Some certificates)))
    (fun e => dispatch_ LOAD_CERTIFICATES_FAILED ;; throw e).

Definition loadCertificateIssuersAction : thunk unit :=
  dispatch_ LOAD_CERTIFICATE_ISSUERS_PENDING ;;
  try_catch
    (certificateIssuers ← api RealApi_getCertificateIssuerList;
     dispatch_ (LOAD_CERTIFICATE_ISSUERS_FULFILLED (Some certificateIssuers)))
    (fun e => dispatch_ LOAD_CERTIFICATES_FAILED ;; throw e).

Definition loadCertificateAcmeServerAction : thunk unit :=
  dispatch_ LOAD_ACME_SERVER_PENDING ;;
  try_catch
    (acmeServer ← api RealApi_getAcmeServer;
     dispatch_ (LOAD_ACME_SERVER_FULFILLED (Some acmeServer)))
    (fun e => dispatch_ LOAD_ACME_SERVER_FAILED ;; throw e).

(** The form with the fields the thunk assigns; wildcard domains need the issuer
    that proves them by DNS. *)
Definition certificate_to_submit (certificateForm : CertificateFormType) : CertificateFormType :=
  let c := form_certificate certificateForm in
  let hasWildcardDomains := existsb (startsWith "*.") (cert_domains c) in
  mkCertificateForm
    (mkCertificate (cert_name c) (Some (seqb (form_managedType certificateForm) selfManaged))
       (cert_isSignedByTrustedCA c) (cert_expireTimestamp c) (cert_selfManagedCertContent c)
       (cert_selfManagedCertPrivateKey c)
       (if hasWildcardDomains then Some dns01Mananged else cert_httpsCertIssuer c)
       (cert_domains c) (cert_ready c) (cert_reason c) (cert_wildcardCertDNSChallengeDomainMap c))
    (form_managedType certificateForm).

Definition createCertificateAction (certificateForm : CertificateFormType) (isEdit : bool) : thunk Certificate :=
  dispatch_ (setIsSubmittingCertificateAction true) ;;
  certificate ← try_catch (api RealApi_createCertificate (certificate_to_submit certificateForm) isEdit)
    (fun e => dispatch_ (setIsSubmittingCertificateAction false) ;; throw e);
  dispatch_ (setIsSubmittingCertificateAction false) ;;
  dispatch_ (CREATE_CERTIFICATE certificate) ;;
  mret certificate.

Definition createCertificateIssuerAction (certificateIssuerForm : CertificateIssuerFormType) (isEdit : bool) : thunk unit :=
  dispatch_ (setIsSubmittingCertificateAction true) ;;
  certificateIssuer ← try_catch (api RealApi_createCertificateIssuer certificateIssuerForm isEdit)
    (fun e => dispatch_ (setIsSubmittingCertificateAction false) ;; throw e);
  dispatch_ (setIsSubmittingCertificateAction false) ;;
  dispatch_ (CREATE_CERTIFICATE_ISSUER certificateIssuer).

Definition createAcmeServerAction (acmeServerContent : AcmeServerFormType) : thunk unit :=
  dispatch_ (setIsSubmittingAcmeServer true) ;;
  acmeServer ← try_catch (api RealApi_createAcmeServer acmeServerContent)
    (fun e => dispatch_ (setIsSubmittingAcmeServer false) ;; throw e);
  dispatch_ (setIsSubmittingAcmeServer false) ;;
  dispatch_ (CREATE_ACME_SERVER acmeServer).

Definition deleteAcmeServerAction (acmeServerContent : AcmeServerFormType) : thunk unit :=
  dispatch_ (setIsSubmittingAcmeServer true) ;;
  try_catch (api RealApi_deleteAcmeServer acmeServerContent)
    (fun e => dispatch_ (setIsSubmittingAcmeServer false) ;; throw e) ;;
  dispatch_ (setIsSubmittingAcmeServer false) ;;
  dispatch_ DELETE_ACME_SERVER.

Definition editAcmeServerAction (acmeServerContent : AcmeServerFormType) : thunk unit :=
  dispatch_ (setIsSubmittingAcmeServer true) ;;
  try_catch (api RealApi_editAcmeServer acmeServerContent)
    (fun e => dispatch_ (setIsSubmittingAcmeServer false) ;; throw e) ;;
  dispatch_ (setIsSubmittingAcmeServer false) ;;
  fire loadCertificateAcmeServerAction.

(** ** [actions/routes.ts] *)

Definition loadRoutesAction : thunk unit :=
  dispatch_ LOAD_ROUTES_PENDING ;;
  try_catch
    (routes ← api RealApi_getHttpRoutes;
     dispatch_ (LOAD_ROUTES_FULFILLED routes))
    (fun e => dispatch_ LOAD_ROUTES_FAILED ;; throw e).

Definition createRouteAction (route : HttpRoute) : thunk unit :=
  try_catch
    (dispatch_ CREATE_ROUTE_PENDING ;;
     routeRes ← api RealApi_createHttpRoute route;
     dispatch_ (CREATE_ROUTE_FULFILLED routeRes))
    (fun e => dispatch_ CREATE_ROUTE_FAILED ;; throw e).

Definition updateRouteAction (route : HttpRoute) : thunk HttpRoute :=
  try_catch
    (dispatch_ UPDATE_ROUTE_PENDING ;;
     routeRes ← api RealApi_updateHttpRoute route;
     dispatch_ (UPDATE_ROUTE_FULFILLED routeRes) ;;
     mret route)
    (fun e => dispatch_ UPDATE_ROUTE_FAILED ;; throw e).

Definition deleteRouteAction (route : HttpRoute) : thunk unit :=
  try_catch
    (dispatch_ DELETE_ROUTE_PENDING ;;
     success ← api RealApi_deleteHttpRoute route;
     if negb success then fire (setErrorNotificationAction (Some "Delete http route failed."))
     else dispatch_ (DELETE_ROUTE_FULFILLED route))
    (fun e => dispatch_ DELETE_ROUTE_FAILED ;; throw e).

(** ** [actions/registries.ts] *)

Definition setIsSubmittingRegistry (b : bool) : Actions := SET_IS_SUBMITTING_REGISTRY b.

Definition loadRegistriesAction : thunk unit :=
  dispatch_ LOAD_REGISTRIES_PENDING ;;
  try_catch
    (registries ← api RealApi_getRegistries;
     dispatch_ (LOAD_REGISTRIES_FULFILLED registries))
    (fun e => dispatch_ LOAD_REGISTRIES_FAILED ;; throw e).

Definition createRegistryAction (registryValues : RegistryFormType) : thunk unit :=
  dispatch_ (setIsSubmittingRegistry true) ;;
  registry ← try_catch (api RealApi_createRegistry registryValues)
    (fun e => dispatch_ (setIsSubmittingRegistry false) ;; throw e);
  dispatch_ (setIsSubmittingRegistry false) ;;
  dispatch_ (CREATE_REGISTRY registry).

Definition updateRegistryAction (registryValues : RegistryFormType) : thunk unit :=
  dispatch_ (setIsSubmittingRegistry true) ;;
  registry ← try_catch (api RealApi_updateRegistry registryValues)
    (fun e => dispatch_ (setIsSubmittingRegistry false) ;; throw e);
  dispatch_ (setIsSubmittingRegistry false) ;;
  dispatch_ (UPDATE_REGISTRY registry).

Definition deleteRegistryAction (name : string) : thunk unit :=
  api RealApi_deleteRegistry name ;;
  dispatch_ (DELETE_REGISTRY name).

(** ** [actions/sso.ts] *)

Definition loadSSOConfigAction : thunk unit :=
  dispatch_ LOAD_SSO_CONFIG_PENDING ;;
  try_catch
    (ssoConfig ← api RealApi_getSSOConfig;
     dispatch_ (LOAD_SSO_CONFIG_FULFILLED ssoConfig))
    (fun e => dispatch_ LOAD_SSO_CONFIG_FAILED ;; throw e).

Definition createSSOConfigAction (ssoConfig : SSOConfig) : thunk unit :=
  try_catch
    (dispatch_ CREATE_SSO_CONFIG_PENDING ;;
     ssoConfigRes ← api RealApi_createSSOConfig ssoConfig;
     dispatch_ (CREATE_SSO_CONFIG_FULFILLED ssoConfigRes))
    (fun e => dispatch_ CREATE_SSO_CONFIG_FAILED ;; throw e).

Definition updateSSOConfigAction (ssoConfig : SSOConfig) : thunk SSOConfig :=
  try_catch
    (dispatch_ UPDATE_SSO_CONFIG_PENDING ;;
     ssoConfigRes ← api RealApi_updateSSOConfig ssoConfig;
     dispatch_ (UPDATE_SSO_CONFIG_FULFILLED ssoConfigRes) ;;
     mret ssoConfig)
    (fun e => dispatch_ UPDATE_SSO_CONFIG_FAILED ;; throw e).

Definition deleteSSOConfigAction : thunk unit :=
  try_catch
    (dispatch_ DELETE_SSO_CONFIG_PENDING ;;
     api RealApi_deleteSSOConfig ;;
     dispatch_ DELETE_SSO_CONFIG_FULFILLED)
    (fun e => dispatch_ DELETE_SSO_CONFIG_FAILED ;;
       fire (setErrorNotificationAction (Some "Delete SSO Config failed.")) ;; throw e).

Definition loadProtectedEndpointAction : thunk unit :=
  dispatch_ LOAD_PROTECTED_ENDPOINTS_PENDING ;;
  try_catch
    (endpoints ← api RealApi_listProtectedEndpoints;
     dispatch_ (LOAD_PROTECTED_ENDPOINTS_FULFILLED endpoints))
    (fun e => dispatch_ LOAD_PROTECTED_ENDPOINTS_FAILED ;; throw e).

Definition createProtectedEndpointAction (protectedEndpoint : ProtectedEndpoint) : thunk unit :=
  try_catch
    (dispatch_ CREATE_PROTECTED_ENDPOINT_PENDING ;;
     protectedEndpointRes ← api RealApi_createProtectedEndpoint protectedEndpoint;
     dispatch_ (CREATE_PROTECTED_ENDPOINT_FULFILLED protectedEndpointRes))
    (fun e => dispatch_ CREATE_PROTECTED_ENDPOINT_FAILED ;; throw e).

Definition updateProtectedEndpointAction (protectedEndpoint : ProtectedEndpoint) : thunk unit :=
  try_catch
    (dispatch_ UPDATE_PROTECTED_ENDPOINT_PENDING ;;
     protectedEndpointRes ← api RealApi_updateProtectedEndpoint protectedEndpoint;
     dispatch_ (UPDATE_PROTECTED_ENDPOINT_FULFILLED protectedEndpointRes))
    (fun e => dispatch_ UPDATE_PROTECTED_ENDPOINT_FAILED ;; throw e).

Definition deleteProtectedEndpointAction (protectedEndpoint : ProtectedEndpoint) : thunk unit :=
  try_catch
    (dispatch_ DELETE_PROTECTED_ENDPOINT_PENDING ;;
     api RealApi_deleteProtectedEndpoint protectedEndpoint ;;
     dispatch_ DELETE_PROTECTED_ENDPOINT_FULFILLED)
    (fun e => dispatch_ DELETE_PROTECTED_ENDPOINT_FAILED ;;
       fire (setErrorNotificationAction (Some "Delete Protected Endpoint failed.")) ;; throw e).

(** ** [actions/deployAccessToken.ts] *)

Definition loadDeployAccessTokensAction : thunk unit :=
  dispatch_ LOAD_DEPLOY_ACCESS_TOKENS_PENDING ;;
  try_catch
    (keys ← api RealApi_listDeployAccessTokens;
     dispatch_ (LOAD_DEPLOY_ACCESS_TOKENS_FULFILLED keys))
    (fun e => dispatch_ LOAD_DEPLOY_ACCESS_TOKENS_FAILED ;; throw e).

Definition createDeployAccessTokenAction (key : DeployAccessToken) : thunk DeployAccessToken :=
  try_catch
    (dispatch_ CREATE_DEPLOY_ACCESS_TOKEN_PENDING ;;
     keyRes ← api RealApi_createDeployAccessToken key;
     dispatch_ (CREATE_DEPLOY_ACCESS_TOKEN_FULFILLED keyRes) ;; tick ;;
     mret keyRes)
    (fun e => dispatch_ CREATE_DEPLOY_ACCESS_TOKEN_FAILED ;; throw e).

Definition deleteDeployAccessTokenAction (key : DeployAccessToken) : thunk unit :=
  try_catch
    (dispatch_ DELETE_DEPLOY_ACCESS_TOKEN_PENDING ;;
     api RealApi_deleteDeployAccessToken key ;;
     dispatch_ DELETE_DEPLOY_ACCESS_TOKEN_FULFILLED)
    (fun e => dispatch_ DELETE_DEPLOY_ACCESS_TOKEN_FAILED ;; throw e).

(** ** [actions/cluster.ts] *)

Definition loadClusterInfoAction : thunk unit :=
  dispatch_ LOAD_CLUSTER_INFO_PENDING ;;
  try_catch
    (info ← api RealApi_getClusterInfo;
     dispatch_ (LOAD_CLUSTER_INFO_FULFILlED info))
    (fun e => dispatch_ LOAD_CLUSTER_INFO_FAILED ;; throw e).

(** ** [actions/node.ts] *)

Definition loadNodesAction : thunk unit :=
  dispatch_ LOAD_NODES_PENDING ;;
  try_catch
    (res ← api RealApi_getNodes;
     dispatch_ (LOAD_NODES_FULFILlED res))
    (fun e => dispatch_ LOAD_NODES_FAILED ;; throw e).

(** ** [actions/service.ts] *)

Definition loadServicesAction (namespace : string) : thunk unit :=
  dispatch_ LOAD_SERVICES_PENDING ;;
  try_catch
    (services ← api RealApi_loadServices namespace;
     dispatch_ (LOAD_SERVICES_FULFILLED services))
    (fun e => dispatch_ LOAD_SERVICES_FAILED ;; throw e).

(** ** [actions/user.ts] *)

Definition loadRoleBindingsAction : thunk unit :=
  dispatch_ LOAD_ROLE_BINDINGS_PENDING ;;
  try_catch
    (roleBindings ← api RealApi_loadRoleBindings;
     dispatch_ (LOAD_ROLE_BINDINGS_FULFILLED roleBindings))
    (fun e => dispatch_ LOAD_ROLE_BINDINGS_FAILED ;; throw e).

Definition createRoleBindingsAction (roleBindingsBody : RoleBinding) : thunk unit :=
  dispatch_ CREATE_ROLE_BINDINGS_PENDING ;;
  try_catch
    (api RealApi_createRoleBinding roleBindingsBody ;;
     dispatch_ CREATE_ROLE_BINDINGS_FULFILLED)
    (fun e => dispatch_ CREATE_ROLE_BINDINGS_FAILED ;; throw e).

Definition updateRoleBindingsAction (roleBindingsBody : RoleBinding) : thunk unit :=
  try_catch (api RealApi_updateRoleBinding roleBindingsBody) throw.

Definition deleteRoleBindingsAction (namespace bindingName : string) : thunk unit :=
  dispatch_ CREATE_ROLE_BINDINGS_PENDING ;;
  try_catch
    (api RealApi_deleteRoleBinding namespace bindingName ;;
     dispatch_ CREATE_ROLE_BINDINGS_FULFILLED)
    (fun e => dispatch_ CREATE_ROLE_BINDINGS_FAILED ;; throw e).

(** ** [actions/persistentVolume.ts] *)

Definition loadPersistentVolumesAction : thunk unit :=
  persistentVolumes ← api RealApi_getPersistentVolumes;
  dispatch_ (LOAD_PERSISTENT_VOLUMES persistentVolumes).

Definition deletePersistentVolumeAction (namespace name : string) : thunk unit :=
  api RealApi_deletePersistentVolume namespace name ;;
  dispatch_ (DELETE_PERSISTENT_VOLUME name).

Definition loadStorageClassesAction : thunk unit :=
  storageClasses ← api RealApi_getStorageClasses;
  dispatch_ (LOAD_STORAGE_CLASSES storageClasses).

Definition loadSimpleOptionsAction (namespace : option string) : thunk unit :=
  namespace ← or_active namespace;
  simpleOptions ← api RealApi_getSimpleOptions namespace;
  dispatch_ (LOAD_SIMPLE_OPTIONS simpleOptions).

Definition loadStatefulSetOptionsAction (namespace : option string) : thunk unit :=
  namespace ← or_active namespace;
  statefulSetOptions ← api RealApi_getStatefulSetOptions namespace;
  dispatch_ (LOAD_STATEFULSET_OPTIONS statefulSetOptions).

(** ** [actions/domain.ts] *)

Definition acmePrefix : string := "_acme-challenge.".

Definition dns_request (domain type : string) : HttpRequest :=
  mkRequest "get" ("https://dns.google.com/resolve?name=" +:+ domain +:+ "&type=" +:+ type) [] NoData 0 false.

(** An answer without the records asked for throws, and the exception is swallowed. *)
Definition loadDomainDNSInfoWithType (domain type : string) : thunk unit :=
  res ← request WDns (dns_request domain type);
  let data := response_data res in
  (if seqb type "A" then
     (match Answer data with
      | Some l => try_catch (dispatch_ (SET_DOMAIN_A_RECORDS domain (dnsA_data <$> l))) (fun _ => mret tt)
      | None => mret tt
      end) ;;
     dispatch_ (LOADED_DOMAIN_STATUS domain)
   else mret tt) ;;
  (if seqb type "CNAME" then
     (match Authority data with
      | Some (record :: _) => try_catch (dispatch_ (SET_DOMAIN_CNAME domain (dnsC_data record))) (fun _ => mret tt)
      | _ => mret tt
      end) ;;
     dispatch_ (LOADED_DOMAIN_STATUS domain)
   else mret tt) ;;
  (if seqb type "NS" then
     (match Answer data with
      | Some l => try_catch (dispatch_ (SET_DOMAIN_NS domain (dnsA_data <$> l))) (fun _ => mret tt)
      | None => mret tt
      end) ;;
     dispatch_ (LOADED_DOMAIN_STATUS domain)
   else mret tt).

Definition loadDomainDNSInfo (domain : string) : thunk unit :=
  state ← getState;
  match root_domain state !! domain with
  | Some _ => mret tt
  | None =>
      dispatch_ (INIT_DOMAIN_STATUS domain) ;;
      dispatch_thunk (loadDomainDNSInfoWithType domain "A") ;; tick ;;
      dispatch_thunk (loadDomainDNSInfoWithType domain "CNAME") ;; tick ;;
      dispatch_thunk (loadDomainDNSInfoWithType (acmePrefix +:+ domain) "CNAME") ;; tick ;;
      dispatch_thunk (loadDomainDNSInfoWithType domain "NS") ;; tick
  end.

(** ** [actions/settings.ts] *)

Definition setSettingsAction (settings : SettingsPatch) : Actions := SET_SETTINGS settings.

(** ** [actions/tutorial.ts] *)

Definition setTutorialFormValues (form : string) (values : JsValue) : Actions := SET_TUTORIAL_FORM_VALUES form values.
Definition setTutorialAction (tutorial : Tutorial) : Actions := SET_TUTORIAL_ACTION tutorial.
Definition resetTutorialAction : Actions := RESET_TUTORIAL_ACTION.
Definition openTutorialDrawerAction : Actions := OPEN_TUTORIAL_DRAWER.
Definition closeTutorialDrawerAction : Actions := CLOSE_TUTORIAL_DRAWER.
Definition setTutorialHighlightStatusAction (stepIndex highlightIndex : nat) : Actions :=
  SET_TUTORIAL_HIGHLIGHT_STATUS stepIndex highlightIndex.
Definition setTutorialStepCompletionStatusAction (stepIndex subStepIndex : nat) (isCompleted : bool) : Actions :=
  SET_TUTORIAL_STEP_COMPLETION_STATUS isCompleted stepIndex subStepIndex.

(** ** [actions/dialog.ts] *)

Definition destroyDialogAction (dialogID : string) : Actions := DESTROY_CONTROLLED_DIALOG dialogID.
Definition initDialogAction (dialogID : string) : Actions := INIT_CONTROLLED_DIALOG dialogID.
Definition openDialogAction (dialogID : string) (data : JsValue) : Actions := OPEN_CONTROLLED_DIALOG dialogID data.
Definition closeDialogAction (dialogID : string) : Actions := CLOSE_CONTROLLED_DIALOG dialogID.
Definition clearDialogAction (dialogID : string) : Actions := CLEAR_CONTROLLED_DIALOG_DATA dialogID.
End actions.
