(* ===== verification/ActionFacts.v ===== *)
(** What the thunks do to the store, whatever the API answers and whatever
    happens while they wait. *)

From S2P Require Import Prelude JsString JsNumber ResourceTypes ActionTypes AccessTokens ReducerUtils ResourceReducers UiReducers RootReducer SliceFacts RootFacts CasbinMiddleware Store ComponentForms Async Api Actions.

(** ** Executions of the primitive programs *)

(** Every action but a login passes the middleware as it is. *)
Definition plain (a : Actions) : bool :=
  match a with Common (LOAD_LOGIN_STATUS_FULFILLED _) => false | _ => true end.

Section facts.
Context {R : Type}.
Variable connectRouter : R -> Actions -> R.
Variable call : FnRef -> Actions -> bool.
Variable b : Boot.
Variable pathname : string.
Variables K8sApiPrefix K8sApiVersion : string.
Abbreviation dashboard := (Dashboard R).
Abbreviation exec := (exec connectRouter call b pathname).
Abbreviation others := (others connectRouter call b).
Abbreviation api m := (m K8sApiPrefix K8sApiVersion) (only parsing).
Implicit Types (d : dashboard) (tr : list Event) (a : Actions).

(** The dashboard after an action. *)
Definition after d a : dashboard := (dispatch connectRouter call b d a).1.

Lemma plain_spec a : plain a = true -> forall ls, a <> Common (LOAD_LOGIN_STATUS_FULFILLED ls).
Proof. by intros H ls ->. Qed.

Lemma dispatch_plain_ok d a : plain a = true ->
  dispatch connectRouter call b d a = (after d a, Ok tt) /\ reduced (dash_root d) a (dash_root (after d a)).
Proof.
  intros Hp. unfold after.
  destruct (dispatch_plain connectRouter call b d a (plain_spec a Hp)) as (root & st & -> & He). split; [done|].
  unfold reduce_all in He. cbn [forEachM] in He. apply bind_Ok in He as ([s1 st1] & He & [= <- <-]).
  destruct (root_reducer_reduced connectRouter call b (dash_root d) (dash_storage d) a) as (s2 & st2 & He' & Hr).
  rewrite He in He'. injection He' as <- <-. exact Hr.
Qed.

Lemma after_reduced d a : plain a = true -> reduced (dash_root d) a (dash_root (after d a)).
Proof. intros Hp. by apply dispatch_plain_ok. Qed.

Lemma exec_dispatch_ d a tr d' x : plain a = true ->
  exec (dispatch_ a) d tr d' x <-> tr = [Dispatched a] /\ d' = after d a /\ x = Fulfilled tt.
Proof.
  intros Hp. destruct (dispatch_plain_ok d a Hp) as [He _]. cbn. rewrite He. cbn. split.
  - intros (tr' & -> & -> & -> & ->). done.
  - intros (-> & -> & ->). by exists [].
Qed.

Lemma exec_mret {A : Type} (y : A) d tr d' x :
  exec (mret y) d tr d' x <-> tr = [] /\ d' = d /\ x = Fulfilled y.
Proof. done. Qed.

Lemma exec_throw {A : Type} (e : JsError) d tr d' (x : settled A) :
  exec (throw e) d tr d' x <-> tr = [] /\ d' = d /\ x = Rejected e.
Proof. done. Qed.

(** ** The two shapes of a thunk that asks the API *)

(** An action before, one after success and one after failure. *)
Lemma exec_load {A : Type} P (p : Async R A) F Fl d tr d' (x : settled unit) :
  plain P = true -> (forall y, plain (F y) = true) -> plain Fl = true ->
  exec (dispatch_ P ;; try_catch (y ← p; dispatch_ (F y)) (fun e => dispatch_ Fl ;; throw e)) d tr d' x ->
  exists tr1 d1 y, exec p (after d P) tr1 d1 y /\
    match y with
    | Fulfilled y => tr = Dispatched P :: tr1 ++ [Dispatched (F y)] /\ d' = after d1 (F y) /\ x = Fulfilled tt
    | Rejected e => tr = Dispatched P :: tr1 ++ [Dispatched Fl] /\ d' = after d1 Fl /\ x = Rejected e
    end.
Proof.
  intros HP HF HFl H. apply exec_bind in H as (t0 & d0 & y0 & t1 & -> & H0 & H).
  apply exec_dispatch_ in H0 as (-> & -> & ->); [|done].
  apply exec_try_catch in H as (t2 & d2 & y2 & t3 & -> & H2 & H3).
  apply exec_bind in H2 as (t4 & d4 & y4 & t5 & -> & H4 & H5).
  exists t4, d4, y4. split; [done|]. destruct y4 as [y|e].
  - apply exec_dispatch_ in H5 as (-> & -> & ->); [|done]. destruct H3 as (-> & -> & ->).
    by rewrite app_nil_r.
  - destruct H5 as (-> & -> & ->). apply exec_bind in H3 as (t6 & d6 & y6 & t7 & -> & H6 & H7).
    apply exec_dispatch_ in H6 as (-> & -> & ->); [|done]. destruct H7 as (-> & -> & ->).
    by rewrite !app_nil_r.
Qed.

(** A request of the client: one event, and others run meanwhile. *)
Lemma exec_axiosRequest w c withToken d tr d' x :
  exec (axiosRequest K8sApiPrefix w c withToken) d tr d' x <->
  exists headers, tr = [Received w (mkRequest (config_method c) (K8sApiPrefix +:+ config_url c)
      (headers ++ config_headers c) (config_data c) 10000 true) x] /\
    headers = (if withToken && negb (seqb (auth_token (root_auth (dash_root d))) "")
               then [bearer (auth_token (root_auth (dash_root d)))] else []) ++
              match dash_storage d !! IMPERSONATION_KEY with
              | Some i => if seqb i "" then [] else [("Kalm-Impersonation", i)]
              | None => []
              end /\
    others d d'.
Proof.
  cbn. split.
  - intros (answer & d1 & tr' & -> & Ho & -> & -> & ->). eexists. split; [|split; [reflexivity|done]]. done.
  - intros (headers & -> & -> & Ho). exists x, d', []. done.
Qed.

(** The answer to a request, seen by the program that made it. *)
Definition answered {A B : Type} (f : A -> B) (answer : settled (HttpResponse A)) : settled B :=
  match answer with Fulfilled r => Fulfilled (f (response_data r)) | Rejected e => Rejected e end.

(** A program that makes one request and answers with [f] of the body. *)
Definition asks {B : Type} (w : Wire) (f : wire w -> B) (p : Async R B) : Prop :=
  forall d tr d' x, exec p d tr d' x ->
    exists req answer, tr = [Received w req answer] /\ others d d' /\ x = answered f answer.

Lemma asks_data {B : Type} w c (f : wire w -> B) :
  asks w f (res ← axiosRequest K8sApiPrefix w c true; mret (f (response_data res))).
Proof.
  intros d tr d' x H. apply exec_bind in H as (t1 & d1 & y & t2 & -> & H1 & H2).
  apply exec_axiosRequest in H1 as (headers & -> & _ & Ho). eexists _, y.
  destruct y as [r|e]; destruct H2 as (-> & -> & ->); by rewrite app_nil_r.
Qed.

(** ** Loads *)

Lemma others_after d a d1 : others (after d a) d1 -> others d d1.
Proof. intros H. eapply rtc_l; [by exists a|done]. Qed.

(** The action changes nothing that the view shows. *)
Definition untouched {A : Type} (view : RootState R -> A) (a : Actions) : Prop :=
  forall d, view (dash_root (after d a)) = view (dash_root d).

(** Every execution of the thunk dispatches an action, asks the API once while others
    act, and dispatches another action.  The first leaves the view alone; after the
    second it shows the answer, or, when the request failed, what it showed before. *)
Definition loads {A : Type} (w : Wire) (p : Async R unit) (view : RootState R -> A) (of_ : wire w -> A) : Prop :=
  forall d tr d' x, exec p d tr d' x ->
    exists pending req answer last d1, tr = [Dispatched pending; Received w req answer; Dispatched last] /\
      others (after d pending) d1 /\ d' = after d1 last /\ untouched view pending /\
      match answer with
      | Fulfilled r => x = Fulfilled tt /\ view (dash_root d') = of_ (response_data r)
      | Rejected e => x = Rejected e /\ untouched view last
      end.

(** The thunk settles whatever the server answers, and every execution of it,
    with whatever others do meanwhile, ends with the flag down. *)
Definition finishes (p : Async R unit) (loading : RootState R -> bool) : Prop :=
  (forall d tr d' x, exec p d tr d' x -> loading (dash_root d') = false) /\
  (forall server d, exists d' x, run connectRouter call b pathname server p d = (d', x) /\ loading (dash_root d') = false).

Lemma finishes_intro p loading :
  (forall d tr d' x, exec p d tr d' x -> loading (dash_root d') = false) -> finishes p loading.
Proof.
  intros H. split; [done|]. intros server d.
  destruct (run_exec connectRouter call b pathname server p d) as [tr He].
  destruct (run _ _ _ _ _ _ _) as [d' x]. exists d', x. split; [done|]. by eapply H.
Qed.

Section load.
Context {A B : Type} (w : Wire) (P Fl : Actions) (F : B -> Actions) (f : wire w -> B) (p : Async R B).
Context (HP : plain P = true) (HF : forall y, plain (F y) = true) (HFl : plain Fl = true) (Hp : asks w f p).
Abbreviation load := (dispatch_ P ;; try_catch (y ← p; dispatch_ (F y)) (fun e => dispatch_ Fl ;; throw e)).

Lemma load_loads (view : RootState R -> A) of_ :
  (forall s s' y, reduced s (F (f y)) s' -> view s' = of_ y) ->
  (forall s s', reduced s P s' -> view s' = view s) ->
  (forall s s', reduced s Fl s' -> view s' = view s) ->
  loads w load view of_.
Proof.
  intros Hok Hpending Hfail d tr d' x H. apply exec_load in H as (t1 & d1 & y & H1 & H2); [|done..].
  apply Hp in H1 as (req & answer & -> & Ho & ->).
  exists P, req, answer, (match answer with Fulfilled r => F (f (response_data r)) | Rejected _ => Fl end), d1.
  assert (HuP : untouched view P) by by intros d2; eapply Hpending, after_reduced.
  destruct answer as [r|e]; destruct H2 as (-> & -> & ->); split_and!; try done.
  - eapply Hok, after_reduced, HF.
  - intros d2. eapply Hfail, after_reduced, HFl.
Qed.

Lemma load_finishes loading :
  (forall s s' y, reduced s (F y) s' -> loading s' = false) ->
  (forall s s', reduced s Fl s' -> loading s' = false) ->
  finishes load loading.
Proof.
  intros Hok Hfail. apply finishes_intro. intros d tr d' x H.
  apply exec_load in H as (t1 & d1 & y & H1 & H2); [|done..].
  destruct y as [y|e]; destruct H2 as (-> & -> & ->).
  - eapply Hok, after_reduced, HF.
  - eapply Hfail, after_reduced, HFl.
Qed.
End load.

Ltac by_reduced :=
  intros; match goal with H : reduced _ _ _ |- _ =>
    destruct H as [E1 E2 E3 E4 E5 E6 E7 E8 E9 E10 E11 E12 E13 E14 E15];
    rewrite ?E1, ?E2, ?E3, ?E4, ?E5, ?E6, ?E7, ?E8, ?E9, ?E10, ?E11, ?E12, ?E13, ?E14, ?E15; done
  end.
Ltac unfold_thunk := match goal with |- loads _ ?p _ _ => let h := head_of p in unfold h | |- finishes ?p _ => let h := head_of p in unfold h end.
Ltac prove_load :=
  unfold_thunk;
  match goal with |- loads ?w _ _ _ =>
    let B := eval cbn in (wire w) in
    first [apply (load_loads (B:=B) w _ _ _ (fun x => x))
          |apply (load_loads w _ _ _ (map AccessTokenToDeployAccessToken))]
  end; [done|done|done|apply asks_data|by_reduced|by_reduced|by_reduced].
Ltac prove_finish := unfold_thunk; eapply load_finishes; [done|done|done|by_reduced|by_reduced].

(** C6: A load shows what the server answered.  Each of these thunks dispatches an
    action, makes one request and dispatches another action, whatever else happens
    while the request is under way.  When the request is answered the thunk fulfills
    and the state holds the answer; when it fails the thunk rejects with the error of
    the request, and neither of the two actions changes what is shown in any state. *)
Theorem loads_show_answer :
  loads WRoutes (api loadRoutesAction) (fun s => httpRoutes (root_routes s)) id /\
  loads WRegistries (api loadRegistriesAction) (fun s => registries (root_registries s)) id /\
  loads WCertificates (api loadCertificatesAction) (fun s => certificates (root_certificates s)) id /\
  loads WIssuers (api loadCertificateIssuersAction) (fun s => certificateIssuers (root_certificates s)) id /\
  loads WNodes (api loadNodesAction) (fun s => nodes (root_nodes s)) nodesList_nodes /\
  (forall ns, loads WServices (api loadServicesAction ns) (fun s => services (root_services s)) id) /\
  loads WRoleBindings (api loadRoleBindingsAction) (fun s => roleBindings (root_roles s)) id /\
  loads WSSOConfig (api loadSSOConfigAction) (fun s => sso_config (root_sso s)) Some /\
  loads WEndpoints (api loadProtectedEndpointAction) (fun s => protectedEndpoints (root_sso s)) id /\
  loads WAccessTokens (api loadDeployAccessTokensAction)
    (fun s => deployAccessTokens (root_deployAccessTokens s)) (map AccessTokenToDeployAccessToken) /\
  loads WClusterInfo (api loadClusterInfoAction) (fun s => cluster_info (root_cluster s)) Some.
Proof. repeat match goal with |- _ /\ _ => split end; try (match goal with |- forall _ : string, _ => intros ns end);
  prove_load. Qed.

(** C7: A load always ends: each of these thunks settles whatever the server
    answers, and after it, successful or not, the loading flag of its slice is
    down. *)
Theorem loads_finish :
  finishes (api loadRoutesAction) (fun s => route_isLoading (root_routes s)) /\
  finishes (api loadRegistriesAction) (fun s => reg_isLoading (root_registries s)) /\
  finishes (api loadNodesAction) (fun s => node_isLoading (root_nodes s)) /\
  (forall ns, finishes (api loadServicesAction ns) (fun s => service_isLoading (root_services s))) /\
  finishes (api loadRoleBindingsAction) (fun s => rb_isLoading (root_roles s)) /\
  finishes (api loadSSOConfigAction) (fun s => sso_isLoading (root_sso s)) /\
  finishes (api loadProtectedEndpointAction) (fun s => isProtectedEndpointsLoading (root_sso s)) /\
  finishes (api loadDeployAccessTokensAction) (fun s => dat_isLoading (root_deployAccessTokens s)) /\
  finishes (api loadClusterInfoAction) (fun s => cluster_isLoading (root_cluster s)).
Proof. repeat match goal with |- _ /\ _ => split end; try (match goal with |- forall _ : string, _ => intros ns end); prove_finish. Qed.

(** ** Submissions *)

(** The values a flag takes in a trace, in order. *)
Definition flags (f : Actions -> option bool) tr : list bool :=
  omap (fun ev => match ev with Dispatched a => f a | _ => None end) tr.

Lemma flags_app f tr1 tr2 : flags f (tr1 ++ tr2) = flags f tr1 ++ flags f tr2.
Proof. apply omap_app. Qed.

(** The program never touches the flag. *)
Definition silent {A : Type} f (p : Async R A) : Prop := forall d tr d' x, exec p d tr d' x -> flags f tr = [].

Lemma silent_mret {A : Type} f (y : A) : silent f (mret y).
Proof. by intros d tr d' x (-> & _). Qed.

Lemma silent_throw {A : Type} f e : silent f (throw e : Async R A).
Proof. by intros d tr d' x (-> & _). Qed.

Lemma silent_dispatch_ f a : f a = None -> silent f (dispatch_ a).
Proof. intros Ha d tr d' x (tr' & -> & -> & _). cbn. by rewrite Ha. Qed.

Lemma silent_axiosRequest f w c t : silent f (axiosRequest K8sApiPrefix w c t).
Proof. intros d tr d' x (headers & -> & _)%exec_axiosRequest. done. Qed.

Lemma silent_tick f : silent f tick.
Proof. intros d tr d' x (d1 & _ & -> & _). done. Qed.

Lemma silent_push f path : silent f (Push path (mret tt)).
Proof. intros d tr d' x (tr' & -> & -> & _). done. Qed.

Lemma silent_getState f : silent f getState.
Proof. intros d tr d' x (-> & _). done. Qed.

Lemma silent_bind {A B : Type} f (p : Async R A) (k : A -> Async R B) :
  silent f p -> (forall y, silent f (k y)) -> silent f (p ≫= k).
Proof.
  intros Hp Hk d tr d' x (t1 & d1 & y & t2 & -> & H1 & H2)%exec_bind.
  rewrite flags_app, (Hp _ _ _ _ H1). destruct y as [y|e]; [by apply Hk in H2 | by destruct H2 as (-> & _)].
Qed.

Lemma silent_try_catch {A : Type} f (p : Async R A) h :
  silent f p -> (forall e, silent f (h e)) -> silent f (try_catch p h).
Proof.
  intros Hp Hh d tr d' x (t1 & d1 & y & t2 & -> & H1 & H2)%exec_try_catch.
  rewrite flags_app, (Hp _ _ _ _ H1). destruct y as [y|e]; [by destruct H2 as (-> & _) | by apply Hh in H2].
Qed.

Lemma silent_spawn {A : Type} f (p : Async R A) : silent f p -> silent f (spawn p).
Proof.
  intros Hp d tr d' x (t1 & d1 & y & t2 & -> & H1 & -> & _).
  apply exec_settle_with in H1 as (t3 & d3 & y3 & t4 & -> & H3 & -> & _).
  by rewrite !app_nil_r, (Hp _ _ _ _ H3).
Qed.

Lemma silent_fire {A : Type} (f : Actions -> option bool) (p : Async R A) :
  (forall m, f (SET_NOTIFICATION_MESSAGE m "error") = None) -> silent f p -> silent f (fire p).
Proof.
  intros Hf Hp. apply silent_spawn, silent_try_catch; [done|]. intros e. unfold ErrorHandler.
  destruct (error_response e) as [[status message]|]; [|apply silent_throw].
  destruct (seqb _ _); [|apply silent_throw].
  apply silent_bind; [apply silent_spawn, silent_dispatch_, Hf|]. intros []. apply silent_throw.
Qed.

(** The flag goes up once and then down once, in that order. *)
Definition submits {A : Type} f (p : Async R A) : Prop := forall d tr d' x, exec p d tr d' x -> flags f tr = [true; false].

Lemma submits_after {A B : Type} f (p : Async R A) (k : A -> Async R B) :
  (forall d tr d' x, exec p d tr d' x -> exists y, x = Fulfilled y) ->
  silent f p -> (forall y, submits f (k y)) -> submits f (p ≫= k).
Proof.
  intros Hok Hp Hk d tr d' x (t1 & d1 & y & t2 & -> & H1 & H2)%exec_bind.
  rewrite flags_app, (Hp _ _ _ _ H1). destruct (Hok _ _ _ _ H1) as [y' ->]. by apply Hk in H2.
Qed.

Lemma submits_intro {A B : Type} f up down (p : Async R A) (k : A -> Async R B) :
  plain up = true -> plain down = true -> f up = Some true -> f down = Some false ->
  silent f p -> (forall y, silent f (k y)) ->
  submits f (dispatch_ up ;; y ← try_catch p (fun e => dispatch_ down ;; throw e); dispatch_ down ;; k y).
Proof.
  intros Hup Hdown Hfu Hfd Hp Hk d tr d' x H.
  apply exec_bind in H as (t0 & d0 & y0 & t1 & -> & H0 & H).
  apply exec_dispatch_ in H0 as (-> & -> & ->); [|done].
  apply exec_bind in H as (t2 & d2 & y2 & t3 & -> & H2 & H3).
  apply exec_try_catch in H2 as (t4 & d4 & y4 & t5 & -> & H4 & H5).
  cbn [app]. cbn [flags omap list_omap]. rewrite Hfu. f_equal.
  change (flags f ((t4 ++ t5) ++ t3) = [false]). rewrite !flags_app, (Hp _ _ _ _ H4). destruct y4 as [y|e].
  - destruct H5 as (-> & -> & ->). apply exec_bind in H3 as (t6 & d6 & y6 & t7 & -> & H6 & H7).
    apply exec_dispatch_ in H6 as (-> & -> & ->); [|done]. apply Hk in H7. rewrite flags_app, H7. cbn. by rewrite Hfd.
  - apply exec_bind in H5 as (t6 & d6 & y6 & t7 & -> & H6 & H7).
    apply exec_dispatch_ in H6 as (-> & -> & ->); [|done]. destruct H7 as (-> & -> & ->).
    destruct H3 as (-> & -> & ->). cbn. by rewrite Hfd.
Qed.
End facts.

Create HintDb silent.
#[export] Hint Resolve silent_mret silent_throw silent_dispatch_ silent_axiosRequest silent_tick silent_push
  silent_getState silent_bind silent_try_catch silent_spawn silent_fire : silent.
