(* ===== verification/ThunkFacts.v ===== *)
(** Submissions, logins and the requests of the client. *)

From S2P Require Import Prelude JsString RoleManager CoreEnforcer Rbac JsNumber ResourceTypes ActionTypes AccessTokens ReducerUtils ResourceReducers UiReducers RootReducer SliceFacts RootFacts CasbinMiddleware Store ComponentForms Async Api Actions ActionFacts.

(** ** The flags of the forms that are being submitted *)

Definition application_flag (a : Actions) : option bool :=
  match a with Applications (SET_IS_SUBMITTING_APPLICATION v) => Some v | _ => None end.
Definition component_flag (a : Actions) : option bool :=
  match a with Applications (SET_IS_SUBMITTING_APPLICATION_COMPONENT v) => Some v | _ => None end.
Definition certificate_flag (a : Actions) : option bool :=
  match a with Certificates (SET_IS_SUBMITTING_CERTIFICATE v) => Some v | _ => None end.
Definition acme_flag (a : Actions) : option bool :=
  match a with Certificates (SET_IS_SUBMITTING_ACME_SERVER v) => Some v | _ => None end.
Definition registry_flag (a : Actions) : option bool :=
  match a with Registries (SET_IS_SUBMITTING_REGISTRY v) => Some v | _ => None end.

(** [silence] closes the goal that a program never touches a flag. *)
Ltac silence :=
  repeat first
    [ progress intros
    | apply silent_mret | apply silent_throw | apply silent_axiosRequest | apply silent_tick | apply silent_push
    | apply silent_getState | (apply silent_dispatch_; reflexivity) | apply silent_try_catch | apply silent_bind
    | (apply silent_fire; [reflexivity|]) | apply silent_spawn
    | match goal with |- silent _ _ _ _ _ (if ?c then _ else _) => destruct c end
    | match goal with |- silent _ _ _ _ _ (match ?c with Some _ => _ | None => _ end) => destruct c end
    | match goal with |- silent _ _ _ _ _ ?p => let h := head_of p in unfold h end ].

Section thunks.
Context {R : Type}.
Variable connectRouter : R -> Actions -> R.
Variable call : FnRef -> Actions -> bool.
Variable b : Boot.
Variable pathname : string.
Variables K8sApiPrefix K8sApiVersion : string.
Abbreviation dashboard := (Dashboard R).
Abbreviation exec := (exec connectRouter call b pathname).
Abbreviation others := (others connectRouter call b).
Abbreviation submits := (submits connectRouter call b pathname).
Abbreviation api m := (m K8sApiPrefix K8sApiVersion) (only parsing).
Implicit Types (d : dashboard) (tr : list Event) (a : Actions).

Lemma or_active_ok n d tr d' x : exec (or_active n) d tr d' x -> exists y, x = Fulfilled y.
Proof.
  unfold or_active. destruct n as [n|]; [destruct (seqb n "")|]; cbn; intros (_ & _ & ->); by eexists.
Qed.

(** The forms are locked while they are submitted and unlocked afterwards:
    every execution of these thunks, successful or not, raises the flag once and
    then lowers it once. *)
Theorem submissions_raise_then_lower :
  (forall v, submits application_flag (api createApplicationAction v)) /\
  (forall v, submits application_flag (api updateApplicationAction v)) /\
  (forall v n, submits component_flag (api createComponentAction v n)) /\
  (forall v n, submits component_flag (api updateComponentAction v n)) /\
  (forall v e, submits certificate_flag (api createCertificateAction v e)) /\
  (forall v e, submits certificate_flag (api createCertificateIssuerAction v e)) /\
  (forall v, submits acme_flag (api createAcmeServerAction v)) /\
  (forall v, submits acme_flag (api deleteAcmeServerAction v)) /\
  (forall v, submits acme_flag (api editAcmeServerAction v)) /\
  (forall v, submits registry_flag (api createRegistryAction v)) /\
  (forall v, submits registry_flag (api updateRegistryAction v)).
Proof.
  repeat match goal with |- _ /\ _ => split end;
    repeat match goal with |- forall _, _ => intro end;
    match goal with |- submits _ ?p => let h := head_of p in unfold h end;
    try (apply submits_after; [intros ? ? ? ?; apply or_active_ok | unfold or_active; silence | intros y]);
    (apply submits_intro; [reflexivity..| |]; silence).
Qed.

(** ** Login *)

Lemma dispatch_login_cases d ls :
  (exists d', dispatch connectRouter call b d (LOAD_LOGIN_STATUS_FULFILLED ls) = (d', Ok tt) /\
     auth_authorized (root_auth (dash_root d')) = ls_authorized ls /\
     auth_firstLoaded (root_auth (dash_root d')) = true /\
     auth_isLoading (root_auth (dash_root d')) = false) \/
  (exists d' m, dispatch connectRouter call b d (LOAD_LOGIN_STATUS_FULFILLED ls) = (d', Throw m) /\
     dash_root d' = dash_root d).
Proof.
  unfold dispatch. destruct (casbin_middleware _ _) as [enforcer passed] eqn:Hm.
  destruct passed as [actions|m]; [|right; by do 2 eexists].
  unfold casbin_middleware in Hm. destruct (loadPolicies _ _) as [[u r]|e]; [|done].
  injection Hm as <- Hp. apply bind_Ok in Hp as (subjects & Hs & [= <-]). cbn [mbind result_bind].
  destruct (reduce_all_ok connectRouter call b [Common (SET_AUTH_METHODS (SubjectMethods subjects));
    Common (LOAD_LOGIN_STATUS_FULFILLED ls)] (dash_root d) (dash_storage d)) as (s' & st' & He).
  rewrite He. left. eexists. split; [reflexivity|]. cbn [dash_root]. unfold reduce_all in He. cbn [forEachM] in He.
  apply bind_Ok in He as ([s1 st1] & _ & He). apply bind_Ok in He as ([s2 st2] & He & [= <- <-]).
  apply root_reducer_auth in He as [st0 ->]. done.
Qed.

Lemma exec_error_notification d m tr d' x :
  exec (fire (setErrorNotificationAction (Some m))) d tr d' x ->
  tr = [Dispatched (SET_NOTIFICATION_MESSAGE m "error")] /\
  d' = after connectRouter call b d (SET_NOTIFICATION_MESSAGE m "error") /\ x = Fulfilled tt.
Proof.
  intros (t1 & d1 & y1 & t2 & -> & H1 & -> & -> & ->).
  apply exec_settle_with in H1 as (t3 & d3 & y3 & t4 & -> & H3 & -> & -> & ->).
  apply exec_try_catch in H3 as (t5 & d5 & y5 & t6 & -> & H5 & H6).
  apply exec_dispatch_ in H5 as (-> & -> & ->); [|done]. by destruct H6 as (-> & -> & ->).
Qed.

(** The state after an error of the login was shown. *)
Lemma login_failed_state d m :
  let d1 := after connectRouter call b d (SET_NOTIFICATION_MESSAGE m "error") in
  let d2 := after connectRouter call b d1 LOAD_LOGIN_STATUS_FAILED in
  auth_isLoading (root_auth (dash_root d2)) = false /\
  root_notification (dash_root d2) = Some (mkNotification m "error").
Proof.
  intros d1 d2. split.
  - destruct (dispatch_plain connectRouter call b d1 LOAD_LOGIN_STATUS_FAILED (fun _ => ltac:(done)))
      as (root & st & He & Hr). unfold d2, after. rewrite He. cbn [fst dash_root].
    unfold reduce_all in Hr. cbn [forEachM] in Hr. apply bind_Ok in Hr as ([s1 st1] & Hr & [= <- <-]).
    by apply root_reducer_auth in Hr as [st0 ->].
  - unfold d2. rewrite (red_notification _ _ _ (after_reduced connectRouter call b d1 LOAD_LOGIN_STATUS_FAILED eq_refl)).
    unfold d1. by rewrite (red_notification _ _ _ (after_reduced connectRouter call b d (SET_NOTIFICATION_MESSAGE m "error") eq_refl)).
Qed.

(** C13: The login status always settles: whatever the API answers, the thunk
    fulfills and the page no longer loads; it ends with the status the API gave,
    or, when the request failed or the store refused its subjects, with the
    error shown to the user. *)
Theorem login_status_settles d tr d' x :
  exec (loadLoginStatusAction K8sApiPrefix) d tr d' x ->
  x = Fulfilled tt /\ auth_isLoading (root_auth (dash_root d')) = false /\
  exists req answer, Received WLoginStatus req answer ∈ tr /\
    match answer with
    | Rejected e => root_notification (dash_root d') = Some (mkNotification (error_message e) "error")
    | Fulfilled r =>
        (auth_authorized (root_auth (dash_root d')) = ls_authorized (response_data r) /\
         auth_firstLoaded (root_auth (dash_root d')) = true) \/
        exists m d1, (dispatch connectRouter call b d1 (LOAD_LOGIN_STATUS_FULFILLED (response_data r))).2 = Throw m /\
          root_notification (dash_root d') = Some (mkNotification m "error")
    end.
Proof.
  intros (t0 & d0 & y0 & t1 & -> & H0 & H)%exec_bind. apply exec_dispatch_ in H0 as (-> & -> & ->); [|done].
  apply exec_try_catch in H as (t2 & d2 & y2 & t3 & -> & H2 & H3).
  apply exec_bind in H2 as (t4 & d4 & y4 & t5 & -> & H4 & H5).
  apply (asks_data connectRouter call b pathname K8sApiPrefix WLoginStatus (config "get" "/login/status" NoData)
    (fun ls => ls)) in H4 as (req & answer & -> & Ho & ->).
  assert (Hfail : forall e, exec (fire (setErrorNotificationAction (Some (error_message e))) ;;
      dispatch_ LOAD_LOGIN_STATUS_FAILED) d2 t3 d' x ->
    x = Fulfilled tt /\ auth_isLoading (root_auth (dash_root d')) = false /\
    root_notification (dash_root d') = Some (mkNotification (error_message e) "error")).
  { intros e (t6 & d6 & y6 & t7 & -> & H6 & H7)%exec_bind.
    apply exec_error_notification in H6 as (-> & -> & ->). apply exec_dispatch_ in H7 as (-> & -> & ->); [|done].
    split; [done|]. apply login_failed_state. }
  assert (Hin : Received WLoginStatus req answer ∈
      [Dispatched LOAD_LOGIN_STATUS_PENDING] ++ ([Received WLoginStatus req answer] ++ t5) ++ t3) by (right; left).
  destruct answer as [r|e]; cbn [answered] in H5.
  - destruct H5 as (t6 & -> & -> & -> & ->).
    destruct (dispatch_login_cases d4 (response_data r)) as [(dl & He & Ha & Hf & Hl)|(dl & m & He & Hroot)];
      rewrite He in *; cbn [settle fst snd] in H3.
    + destruct H3 as (-> & -> & ->). split; [done|]. split; [done|]. exists req, (Fulfilled r). split; [done|]. by left.
    + apply Hfail in H3 as (-> & Hl & Hn). split; [done|]. split; [done|]. exists req, (Fulfilled r). split; [done|].
      right. exists m, d4. by rewrite He.
  - destruct H5 as (-> & -> & ->). apply Hfail in H3 as (-> & Hl & Hn). split; [done|]. split; [done|].
    exists req, (Rejected e). by split.
Qed.

(** ** The token a request carries *)

(** The request the client makes from a dashboard. *)
Definition client_request d (c : RequestConfig) (withToken : bool) : HttpRequest :=
  mkRequest (config_method c) (K8sApiPrefix +:+ config_url c)
    (((if withToken && negb (seqb (auth_token (root_auth (dash_root d))) "")
       then [bearer (auth_token (root_auth (dash_root d)))] else []) ++
      match dash_storage d !! IMPERSONATION_KEY with
      | Some i => if seqb i "" then [] else [("Kalm-Impersonation", i)]
      | None => []
      end) ++ config_headers c) (config_data c) 10000 true.

Lemma exec_client w c t d tr d' x :
  exec (axiosRequest K8sApiPrefix w c t) d tr d' x ->
  tr = [Received w (client_request d c t) x] /\ others d d'.
Proof. intros (headers & -> & -> & Ho)%exec_axiosRequest. by split. Qed.

(** The values of a header. *)
Definition header_values (name : string) (req : HttpRequest) : list string :=
  snd <$> filter (fun h => h.1 = name) (req_headers req).

Lemma authorization_values d c t : config_headers c = [] ->
  header_values "Authorization" (client_request d c t) =
    if t && negb (seqb (auth_token (root_auth (dash_root d))) "")
    then ["Bearer " +:+ auth_token (root_auth (dash_root d))] else [].
Proof.
  intros Hc. unfold header_values, client_request. cbn [req_headers]. rewrite Hc, app_nil_r, filter_app.
  destruct (t && _); cbn [app]; destruct (_ !! IMPERSONATION_KEY) as [i|]; try destruct (seqb i ""); done.
Qed.

Lemma validation_values d token data :
  header_values "Authorization" (client_request d (mkConfig "post" "/login/token" [bearer token] data) false)
  = ["Bearer " +:+ token].
Proof.
  unfold header_values, client_request. cbn [req_headers config_headers andb app].
  destruct (_ !! IMPERSONATION_KEY) as [i|]; [destruct (seqb i "")|]; done.
Qed.

Lemma after_token d token :
  auth_token (root_auth (dash_root (after connectRouter call b d (SET_AUTH_TOKEN token)))) = token.
Proof.
  destruct (dispatch_plain connectRouter call b d (SET_AUTH_TOKEN token) (fun _ => ltac:(done))) as (root & st & He & Hr).
  unfold after. rewrite He. cbn [fst dash_root]. unfold reduce_all in Hr. cbn [forEachM] in Hr.
  apply bind_Ok in Hr as ([s1 st1] & Hr & [= <- <-]). by apply root_reducer_auth in Hr as [st0 ->].
Qed.

Lemma after_pending_token d :
  auth_token (root_auth (dash_root (after connectRouter call b d LOAD_LOGIN_STATUS_PENDING))) =
  auth_token (root_auth (dash_root d)).
Proof.
  destruct (dispatch_plain connectRouter call b d LOAD_LOGIN_STATUS_PENDING (fun _ => ltac:(done)))
    as (root & st & He & Hr).
  unfold after. rewrite He. cbn [fst dash_root]. unfold reduce_all in Hr. cbn [forEachM] in Hr.
  apply bind_Ok in Hr as ([s1 st1] & Hr & [= <- <-]). by apply root_reducer_auth in Hr as [st0 ->].
Qed.

(** How the load of the login status starts: before anything else happens, the
    request goes out with the token of the state. *)
Lemma login_status_starts d tr d' x : exec (loadLoginStatusAction K8sApiPrefix) d tr d' x ->
  exists answer rest, tr = Dispatched LOAD_LOGIN_STATUS_PENDING :: Received WLoginStatus
    (client_request (after connectRouter call b d LOAD_LOGIN_STATUS_PENDING) (config "get" "/login/status" NoData) true)
    answer :: rest.
Proof.
  intros (t0 & d0 & y0 & t1 & -> & H0 & H)%exec_bind. apply exec_dispatch_ in H0 as (-> & -> & ->); [|done].
  apply exec_try_catch in H as (t2 & d2 & y2 & t3 & -> & H2 & H3).
  apply exec_bind in H2 as (t4 & d4 & y4 & t5 & -> & H4 & H5).
  apply exec_bind in H4 as (t6 & d6 & y6 & t7 & -> & H6 & H7).
  apply exec_client in H6 as [-> _]. by do 2 eexists.
Qed.

Lemma exec_fire {A : Type} (p : Async R A) d tr d' x : exec (fire p) d tr d' x ->
  x = Fulfilled tt /\ exists t1 d1 y1 t2, tr = t1 ++ t2 /\ exec p d t1 d1 y1.
Proof.
  intros (t1 & d1 & y1 & t2 & -> & H1 & -> & -> & ->). split; [done|].
  apply exec_settle_with in H1 as (t3 & d3 & y3 & t4 & -> & H3 & -> & -> & ->).
  apply exec_try_catch in H3 as (t5 & d5 & y5 & t6 & -> & H5 & H6).
  exists t5, d5, y5, t6. by rewrite !app_nil_r.
Qed.

(** C12: A token is used only after the API accepted it: the validation sends the
    candidate and never the stored token; when it fails the error is shown,
    returned, and no token is stored; when it succeeds the candidate is stored
    and the next request, the login status, carries it. *)
Theorem token_validation token d tr d' x :
  exec (validateTokenAction K8sApiPrefix token) d tr d' x ->
  exists req answer rest, tr = Received WNothing req answer :: rest /\
    header_values "Authorization" req = ["Bearer " +:+ token] /\
    match answer with
    | Rejected e => x = Fulfilled (error_message e) /\
        rest = [Dispatched (SET_NOTIFICATION_MESSAGE (error_message e) "error")]
    | Fulfilled _ => x = Fulfilled "" /\
        exists req2 answer2 rest2,
          rest = Dispatched (SET_AUTH_TOKEN token) :: Dispatched LOAD_LOGIN_STATUS_PENDING ::
                 Received WLoginStatus req2 answer2 :: rest2 /\
          header_values "Authorization" req2 = if seqb token "" then [] else ["Bearer " +:+ token]
    end.
Proof.
  intros (t0 & d0 & y0 & t1 & -> & H0 & H)%exec_try_catch.
  apply exec_bind in H0 as (t2 & d2 & y2 & t3 & -> & H2 & H3).
  apply exec_bind in H2 as (t4 & d4 & y4 & t5 & -> & H4 & H5). apply exec_client in H4 as [-> Ho].
  do 2 eexists. destruct y4 as [r|e].
  - destruct H5 as (-> & -> & ->). apply exec_bind in H3 as (t6 & d6 & y6 & t7 & -> & H6 & H7).
    apply exec_dispatch_ in H6 as (-> & -> & ->); [|done].
    apply exec_bind in H7 as (t8 & d8 & y8 & t9 & -> & H8 & H9). apply exec_fire in H8 as (-> & H8).
    destruct H9 as (-> & -> & ->). destruct H as (-> & -> & ->).
    destruct H8 as (ta & da & ya & tb & -> & Ha). apply login_status_starts in Ha as (answer2 & rest2 & ->).
    eexists. split; [reflexivity|]. split; [apply validation_values|]. split; [done|].
    do 3 eexists. cbn [app]. split; [reflexivity|]. rewrite authorization_values by done.
    rewrite after_pending_token, after_token. cbn [andb]. by destruct (seqb token "").
  - destruct H5 as (-> & -> & ->). destruct H3 as (-> & -> & ->).
    apply exec_bind in H as (t6 & d6 & y6 & t7 & -> & H6 & H7).
    apply exec_error_notification in H6 as (-> & -> & ->). destruct H7 as (-> & -> & ->).
    eexists. split; [reflexivity|]. split; [apply validation_values|]. by split.
Qed.

(** ** Logout *)

Lemma after_logout d :
  auth_token (root_auth (dash_root (after connectRouter call b d LOGOUT))) = auth_token (boot_auth b) /\
  (dash_storage d !! IMPERSONATION_KEY = None ->
   dash_storage (after connectRouter call b d LOGOUT) !! IMPERSONATION_KEY = None).
Proof.
  destruct (dispatch_plain connectRouter call b d LOGOUT (fun _ => ltac:(done))) as (root & st & He & Hr).
  unfold after. rewrite He. cbn [fst dash_root dash_storage]. unfold reduce_all in Hr. cbn [forEachM] in Hr.
  apply bind_Ok in Hr as ([s1 st1] & Hr & [= <- <-]). split; [by apply root_reducer_auth in Hr as [st0 ->]|].
  intros Hnone. unfold root_reducer in Hr.
  cbn [namespaces_reducer auth_reducer] in Hr.
  destruct (settings_reducer _ _ _) as [settings st2] eqn:Hs. unfold settings_reducer in Hs. injection Hs as <- <-.
  cbn [tutorial_reducer] in Hr. apply bind_Ok in Hr as ([tut st3] & Ht & [= _ <-]).
  apply bind_Ok in Ht as (t & _ & [= _ <-]). unfold save_settings.
  rewrite !lookup_insert_ne by done. by rewrite lookup_delete_ne.
Qed.

(** A logout ends the impersonation: the requests that follow, until the page
    impersonates again, name no impersonated subject; but they carry the token
    the page was loaded with, which the logout only removed from the storage. *)
Theorem logout_ends_impersonation d w c tr d' x :
  config_headers c = [] ->
  exec (action ← logoutAction; dispatch_ action ;; axiosRequest K8sApiPrefix w c true) d tr d' x ->
  exists req, tr = [Removed IMPERSONATION_KEY; Dispatched LOGOUT; Received w req x] /\
    header_values "Kalm-Impersonation" req = [] /\
    header_values "Authorization" req =
      if seqb (auth_token (boot_auth b)) "" then [] else ["Bearer " +:+ auth_token (boot_auth b)].
Proof.
  intros Hc H. cbn [mbind Async_bind settle_with logoutAction stopImpersonating mret Async_ret] in H.
  destruct H as (t0 & -> & H).
  apply exec_bind in H as (t1 & d1 & y1 & t2 & -> & H1 & H2). apply exec_dispatch_ in H1 as (-> & -> & ->); [|done].
  apply exec_client in H2 as [-> _]. eexists. split; [reflexivity|].
  destruct (after_logout (set_storage d (base.delete IMPERSONATION_KEY (dash_storage d)))) as [Htoken Hnone].
  rewrite authorization_values by done. rewrite Htoken. split; [|by destruct (seqb _ "")].
  unfold header_values, client_request. cbn [req_headers]. rewrite Hc, Hnone by apply lookup_delete_eq.
  rewrite !app_nil_r. by destruct (_ && _).
Qed.

(** ** The applications and their components *)

(** The names of the active applications, whose components are asked for. *)
Definition active_apps (l : list ApplicationDetails) : list ApplicationDetails :=
  List.filter (fun app => seqb (app_status app) "Active") l.

Lemma after_namespace d ns :
  active (root_namespaces (dash_root (after connectRouter call b d (SET_CURRENT_NAMESPACE ns)))) = ns.
Proof.
  destruct (dispatch_plain connectRouter call b d (SET_CURRENT_NAMESPACE ns) (fun _ => ltac:(done)))
    as (root & st & He & Hr).
  unfold after. rewrite He. cbn [fst dash_root]. unfold reduce_all in Hr. cbn [forEachM] in Hr.
  apply bind_Ok in Hr as ([s1 st1] & Hr & [= <- <-]). by rewrite (root_reducer_namespaces _ _ _ _ _ _ _ _ Hr).
Qed.

Lemma after_applications d a : (forall ns, a <> Namespaces (SET_CURRENT_NAMESPACE ns)) -> a <> Common LOGOUT -> plain a = true ->
  root_namespaces (dash_root (after connectRouter call b d a)) = root_namespaces (dash_root d).
Proof.
  intros Hns Hl Hp.
  destruct (dispatch_plain connectRouter call b d a (plain_spec a Hp)) as (root & st & He & Hr).
  unfold after. rewrite He. cbn [fst dash_root]. unfold reduce_all in Hr. cbn [forEachM] in Hr.
  apply bind_Ok in Hr as ([s1 st1] & Hr & [= <- <-]). rewrite (root_reducer_namespaces _ _ _ _ _ _ _ _ Hr).
  destruct a as [| |n| | | | | | | | | | | | | | |]; try done; [destruct a; done | destruct n; naive_solver].
Qed.

(** The choice of a current namespace: the first application when none is current. *)
Lemma select_namespace d l tr d1 y :
  exec (match active (root_namespaces (dash_root d)), l with
        | "", firstNamespace :: _ => fire (setCurrentNamespaceAction (app_name firstNamespace) false)
        | _, _ => mret tt
        end) d tr d1 y ->
  y = Fulfilled tt /\ (active (root_namespaces (dash_root d1)) = "" -> forall app, head l = Some app -> app_name app = "").
Proof.
  destruct (active (root_namespaces (dash_root d))) as [|c n] eqn:Ha; [destruct l as [|app0 l]|].
  - intros (-> & -> & ->). by split.
  - intros (t1 & d2 & y1 & t2 & -> & H1 & -> & -> & ->). split; [done|]. intros Hns first [= <-].
    apply exec_settle_with in H1 as (t3 & d3 & y3 & t4 & -> & H3 & -> & -> & ->).
    apply exec_try_catch in H3 as (t5 & d5 & y5 & t6 & -> & H5 & H6).
    apply exec_bind in H5 as (t7 & d7 & y7 & t8 & -> & (-> & -> & ->) & H8).
    apply exec_dispatch_ in H8 as (-> & -> & ->); [|done]. destruct H6 as (-> & -> & ->).
    by rewrite after_namespace in Hns.
  - intros (-> & -> & ->). split; [done|]. by rewrite Ha.
Qed.

(** What follows the two requests: no other action comes between these. *)
Lemma applications_stored d l m tr d' x :
  exec (state ← getState;
        (match active (root_namespaces state), l with
         | "", firstNamespace :: _ => fire (setCurrentNamespaceAction (app_name firstNamespace) false)
         | _, _ => mret tt
         end) ;;
        dispatch_ (LOAD_ALL_NAMESAPCES_COMPONETS m) ;;
        dispatch_ (LOAD_APPLICATIONS_FULFILLED l) ;; mret l) d tr d' x ->
  x = Fulfilled l /\ applications (root_applications (dash_root d')) = l /\
  app_isListLoading (root_applications (dash_root d')) = false /\
  components (root_components (dash_root d')) = m /\
  (active (root_namespaces (dash_root d')) = "" -> forall app, head l = Some app -> app_name app = "").
Proof.
  intros (t1 & d1 & y1 & t2 & -> & (-> & -> & ->) & H)%exec_bind.
  apply exec_bind in H as (t3 & d3 & y3 & t4 & -> & H3 & H). apply select_namespace in H3 as [-> Hns].
  apply exec_bind in H as (t5 & d5 & y5 & t6 & -> & H5 & H). apply exec_dispatch_ in H5 as (-> & -> & ->); [|done].
  apply exec_bind in H as (t7 & d7 & y7 & t8 & -> & H7 & H). apply exec_dispatch_ in H7 as (-> & -> & ->); [|done].
  destruct H as (-> & -> & ->).
  set (a1 := Applications (LOAD_ALL_NAMESAPCES_COMPONETS m)). set (a2 := Applications (LOAD_APPLICATIONS_FULFILLED l)).
  pose proof (after_reduced connectRouter call b (after connectRouter call b d3 a1) a2 eq_refl) as H2.
  pose proof (after_reduced connectRouter call b d3 a1 eq_refl) as H1.
  split; [done|]. rewrite (red_applications _ _ _ H2), (red_components _ _ _ H2), (red_components _ _ _ H1).
  split; [done|]. split; [done|]. split; [done|]. by rewrite !after_applications.
Qed.

Lemma getAllComponents_spec apps d tr d' x :
  exec (getAllComponents K8sApiPrefix K8sApiVersion apps) d tr d' x ->
  exists reqs answer, tr = [ReceivedAll WComponents reqs answer] /\
    req_url <$> reqs =
      (fun app => K8sApiPrefix +:+ versioned K8sApiVersion ("/applications/" +:+ app_name app +:+ "/components")) <$> apps /\
    match answer with
    | Fulfilled responses => length responses = length apps /\
        x = Fulfilled (list_to_map (zip (app_name <$> apps) (response_data <$> responses)))
    | Rejected e => x = Rejected e
    end.
Proof.
  intros (t1 & d1 & y1 & t2 & -> & (-> & -> & ->) & H)%exec_bind.
  destruct H as (answer & d2 & t3 & -> & _ & Hlen & H). do 2 eexists. split.
  { destruct answer; destruct H as (-> & _); reflexivity. } split.
  { clear. induction apps as [|app apps IH]; cbn; [done|]. f_equal. exact IH. }
  destruct answer as [responses|e]; destruct H as (_ & _ & ->); [|done]. split; [|done].
  rewrite (Hlen _ eq_refl). apply length_map.
Qed.

(** Neither the list of applications nor the components change by the action. *)
Definition keeps_applications a : Prop :=
  ActionFacts.untouched connectRouter call b (fun s => applications (root_applications s)) a /\
  ActionFacts.untouched connectRouter call b (fun s => components (root_components s)) a.

Lemma load_flags_keep a : a = LOAD_APPLICATIONS_PENDING \/ a = LOAD_APPLICATIONS_FAILED -> keeps_applications a.
Proof.
  intros Ha. split; intros d; (destruct Ha as [->| ->];
    [pose proof (after_reduced connectRouter call b d LOAD_APPLICATIONS_PENDING eq_refl) as H
    |pose proof (after_reduced connectRouter call b d LOAD_APPLICATIONS_FAILED eq_refl) as H];
    by rewrite ?(red_applications _ _ _ H), ?(red_components _ _ _ H)).
Qed.

(** How a load of the applications ends that failed. *)
Definition load_failed (e : JsError) (rest : list Event) (x : settled (list ApplicationDetails)) : Prop :=
  x = Rejected e /\ rest = [Dispatched LOAD_APPLICATIONS_FAILED].

Lemma exec_load_failed (e : JsError) d tr d' (x : settled (list ApplicationDetails * gmap string (list ApplicationComponentDetails))) :
  exec (dispatch_ LOAD_APPLICATIONS_FAILED ;; throw e) d tr d' x ->
  tr = [Dispatched LOAD_APPLICATIONS_FAILED] /\ x = Rejected e /\
  app_isListLoading (root_applications (dash_root d')) = false.
Proof.
  intros (t6 & d6 & y6 & t7 & -> & H6 & H7)%exec_bind. apply exec_dispatch_ in H6 as (-> & -> & ->); [|done].
  destruct H7 as (-> & -> & ->). split; [done|]. split; [done|].
  by rewrite (red_applications _ _ _ (after_reduced connectRouter call b d LOAD_APPLICATIONS_FAILED eq_refl)).
Qed.

Definition applications_url : string := K8sApiPrefix +:+ versioned K8sApiVersion "/applications".
Definition components_url (app : ApplicationDetails) : string :=
  K8sApiPrefix +:+ versioned K8sApiVersion ("/applications/" +:+ app_name app +:+ "/components").

(** C8: Loading the applications: the thunk asks the API for the list and then for
    the components of each active application of that list and of no other.  When
    both are answered it fulfills with the list of the API, the state shows that
    list and, for each active application and no other, the components the API
    answered for that application, and some namespace is current if there is an
    application to choose.  When one fails it rejects with the error, and the
    actions it dispatched change neither the list nor the components.  In each case
    nothing loads any more. *)
Theorem applications_loaded d tr d' x :
  exec (api loadApplicationsAction) d tr d' x ->
  app_isListLoading (root_applications (dash_root d')) = false /\
  keeps_applications LOAD_APPLICATIONS_PENDING /\ keeps_applications LOAD_APPLICATIONS_FAILED /\
  exists req answer rest, tr = Dispatched LOAD_APPLICATIONS_PENDING :: Received WApplications req answer :: rest /\
    req_url req = applications_url /\
    match answer with
    | Rejected e => load_failed e rest x
    | Fulfilled response => let apps := response_data response in
        exists reqs answers rest', rest = ReceivedAll WComponents reqs answers :: rest' /\
          req_url <$> reqs = components_url <$> active_apps apps /\
          match answers with
          | Rejected e => load_failed e rest' x
          | Fulfilled responses =>
              x = Fulfilled apps /\ applications (root_applications (dash_root d')) = apps /\
              (active (root_namespaces (dash_root d')) = "" -> forall app, head apps = Some app -> app_name app = "") /\
              (NoDup (app_name <$> active_apps apps) -> forall name l,
                 components (root_components (dash_root d')) !! name = Some l <->
                 exists i app r, active_apps apps !! i = Some app /\ responses !! i = Some r /\
                   app_name app = name /\ response_data r = l)
          end
    end.
Proof.
  intros (t0 & d0 & y0 & t1 & -> & H0 & H)%exec_bind. apply exec_dispatch_ in H0 as (-> & -> & ->); [|done].
  apply exec_bind in H as (t2 & d2 & y2 & t3 & -> & H2 & H).
  apply exec_try_catch in H2 as (t4 & d4 & y4 & t5 & -> & H4 & H5).
  apply exec_bind in H4 as (t6 & d6 & y6 & t7 & -> & H6 & H7).
  apply exec_bind in H6 as (t8 & d8 & y8 & t9 & -> & H8 & H9). apply exec_client in H8 as [-> _].
  assert (Hkeep := fun a => load_flags_keep a).
  destruct y8 as [r|e].
  - destruct H9 as (-> & -> & ->). cbn [app] in *.
    apply exec_bind in H7 as (t10 & d10 & y10 & t11 & -> & H10 & H11).
    apply getAllComponents_spec in H10 as (reqs & answer & -> & Hurl & Hm). destruct answer as [responses|e].
    + destruct Hm as [Hlen ->]. destruct H11 as (-> & -> & ->). destruct H5 as (-> & -> & ->).
      apply applications_stored in H as (-> & Happs & Hload & Hcomp & Hns).
      split; [done|]. split; [auto|]. split; [auto|]. do 3 eexists. split; [reflexivity|]. split; [done|]. cbn.
      do 3 eexists. split; [reflexivity|]. split; [done|]. split; [done|]. split; [done|]. split; [done|].
      intros Hnd name l0. rewrite Hcomp. unfold active_apps in *.
      rewrite <- elem_of_list_to_map by (rewrite fst_zip; [done|rewrite !length_fmap; apply Nat.eq_le_incl; symmetry; exact Hlen]).
      rewrite list_elem_of_lookup. setoid_rewrite lookup_zip_with_Some. setoid_rewrite list_lookup_fmap_Some.
      split.
      * intros (i & y & z & [= -> ->] & (app & -> & Hi) & (r' & -> & Hr)). by exists i, app, r'.
      * intros (i & app & r' & Hi & Hr & <- & <-). exists i, (app_name app), (response_data r').
        split; [done|]. split; [by exists app|by exists r'].
    + subst y10. destruct H11 as (-> & -> & ->). apply exec_load_failed in H5 as (-> & -> & Hload).
      destruct H as (-> & -> & ->). split; [done|]. split; [auto|]. split; [auto|].
      do 3 eexists. split; [reflexivity|]. split; [done|]. cbn. do 3 eexists. split; [reflexivity|]. by split.
  - destruct H9 as (-> & -> & ->). destruct H7 as (-> & -> & ->). apply exec_load_failed in H5 as (-> & -> & Hload).
    destruct H as (-> & -> & ->). split; [done|]. split; [auto|]. split; [auto|].
    do 3 eexists. split; [reflexivity|]. split; [done|]. by split.
Qed.
End thunks.

(** ** Witnesses: a server that knows one login and two applications *)

Definition offline {A} : settled A := Rejected (mkError "Network Error" None).

Definition demo_app (name status : string) : ApplicationDetails :=
  mkApplication name None status (mkMetrics false [] []) [].

Definition demo_server (w : Wire) (req : HttpRequest) : settled (HttpResponse (wire w)) :=
  match w with
  | WNothing => Fulfilled (mkResponse 200 JNull)
  | WLoginStatus => Fulfilled (mkResponse 200 demo_login)
  | WApplications => Fulfilled (mkResponse 200 [demo_app "shop" "Active"; demo_app "old" "Terminating"])
  | WComponents => Fulfilled (mkResponse 200 [])
  | _ => offline
  end.

(** The execution of a program in the demonstration store, and what it ends with. *)
Definition demo_run {A : Type} (p : Async unit A) : Dashboard unit * settled A :=
  run keep_router no_hooks boot_empty "/" demo_server p demo.
Definition demo_exec {A : Type} (p : Async unit A) (tr : list Event) : Prop :=
  exec keep_router no_hooks boot_empty "/" p demo tr (demo_run p).1 (demo_run p).2.

Lemma demo_execution {A : Type} (p : Async unit A) : exists tr, demo_exec p tr.
Proof. apply run_exec. Qed.

Lemma login_status_settles_witness :
  (demo_run (loadLoginStatusAction "")).2 = Fulfilled tt /\
  auth_isLoading (root_auth (dash_root (demo_run (loadLoginStatusAction "")).1)) = false.
Proof.
  destruct (demo_execution (loadLoginStatusAction "")) as [tr H].
  destruct (login_status_settles keep_router no_hooks boot_empty "/" "" demo _ _ _ H) as (Hx & Hl & _). by split.
Defined.

Lemma token_validation_witness :
  (demo_run (validateTokenAction "" "secret")).2 = Fulfilled "" /\
  exists tr req answer rest, demo_exec (validateTokenAction "" "secret") tr /\
    tr = Received WNothing req answer :: rest /\ header_values "Authorization" req = ["Bearer secret"].
Proof.
  destruct (demo_execution (validateTokenAction "" "secret")) as [tr H]. split; [reflexivity|]. exists tr.
  destruct (token_validation keep_router no_hooks boot_empty "/" "" "secret" demo _ _ _ H) as (req & answer & rest & -> & Hh & _).
  by exists req, answer, rest.
Defined.

Lemma logout_ends_impersonation_witness :
  exists tr req, tr = [Removed IMPERSONATION_KEY; Dispatched LOGOUT; Received WRoutes req offline] /\
    header_values "Kalm-Impersonation" req = [].
Proof.
  destruct (demo_execution (action ← logoutAction; dispatch_ action ;;
    axiosRequest "" WRoutes (config "get" "/httproutes" NoData) true)) as [tr H].
  destruct (logout_ends_impersonation keep_router no_hooks boot_empty "/" "" demo WRoutes (config "get" "/httproutes" NoData) _ _ _ eq_refl H)
    as (req & -> & Hk & _).
  by do 2 eexists.
Defined.

Lemma applications_loaded_witness :
  exists d' apps, demo_run (loadApplicationsAction "" "v1") = (d', Fulfilled apps) /\
    applications (root_applications (dash_root d')) = apps /\ (app_name <$> apps) = ["shop"; "old"] /\
    app_isListLoading (root_applications (dash_root d')) = false.
Proof.
  eexists (demo_run (loadApplicationsAction "" "v1")).1, _. split; [reflexivity|].
  destruct (demo_execution (loadApplicationsAction "" "v1")) as [tr H].
  destruct (applications_loaded keep_router no_hooks boot_empty "/" "" "v1" demo _ _ _ H)
    as (Hl & _ & _ & req & answer & rest & _ & _ & Ha).
  destruct answer as [response|e]; [|by destruct Ha].
  destruct Ha as (reqs & answers & rest' & _ & _ & Ha). destruct answers as [responses|e]; [|by destruct Ha].
  destruct Ha as (Hx & Happs & _). cbn in Happs. split; [reflexivity|]. split; [reflexivity|exact Hl].
Defined.
