(* ===== verification/Debounce.v ===== *)
(** The two actions that set a timer ([actions/debounce.ts] and
    [blinkTopProgressAction] of [actions/settings.ts]), in a window whose timers
    fire when they are due or later. *)

From S2P Require Import Prelude JsString Rbac JsNumber ResourceTypes ActionTypes UiReducers RootReducer RootFacts CasbinMiddleware Store ComponentForms Async Actions ActionFacts ThunkFacts.

(** ** The window *)

(** A timer calls back to dispatch one action; times are in milliseconds. *)
Record Timer := mkTimer { timer_id : number; timer_due : Z; timer_action : Actions }.

(** Numbers other than zero and [NaN] are true. *)
Definition truthy_number (n : number) : bool := negb (isNaN n || neqb n (num 0)).

Section debounce.
Context {R : Type}.
Variable connectRouter : R -> Actions -> R.
Variable call : FnRef -> Actions -> bool.
Variable b : Boot.
Abbreviation dashboard := (Dashboard R).
Abbreviation after := (after connectRouter call b).

(** [page_ids] are the identifiers handed out; none is handed out twice. *)
Record Page := mkPage {
  page_dash : dashboard;
  page_clock : Z;
  page_timers : list Timer;
  page_ids : list number
}.

Definition page_dispatch (a : Actions) (p : Page) : Page :=
  mkPage (after (page_dash p) a) (page_clock p) (page_timers p) (page_ids p).

(** [window.clearTimeout(id)] *)
Definition clearTimeout (id : number) (p : Page) : Page :=
  mkPage (page_dash p) (page_clock p) (filter (fun t => timer_id t <> id) (page_timers p)) (page_ids p).

(** [window.setTimeout(() => dispatch(a), delay)], when the window hands out [id]. *)
Definition setTimeout (id : number) (a : Actions) (delay : Z) (p : Page) : Page :=
  mkPage (page_dash p) (page_clock p) (mkTimer id (page_clock p + delay) a :: page_timers p) (id :: page_ids p).

Definition fresh_id (p : Page) (id : number) : Prop := truthy_number id = true /\ id ∉ page_ids p.

(** ** The actions *)

Definition setDebouncing (id : number) (name : string) (p : Page) : Page :=
  let debounceState := root_debounce (dash_root (page_dash p)) in
  let p1 := page_dispatch (SET_DEBOUNCING name false) p in
  let currentTimer := deb_timer <$> debounceState !! name in
  let p2 := match currentTimer with
            | Some currentTimer => if truthy_number currentTimer then clearTimeout currentTimer p1 else p1
            | None => p1
            end in
  let p3 := setTimeout id (SET_DEBOUNCING name true) 3000 p2 in
  page_dispatch (SET_TIMER name id) p3.

Definition show_progress (shown : bool) : Actions :=
  setSettingsAction (mkSettingsPatch None None None (Some shown) None None).

(** [setTimeout] with an undefined delay waits zero milliseconds. *)
Definition blinkTopProgressAction (id : number) (milliseconds : option Z) (p : Page) : Page :=
  setTimeout id (show_progress false)
    (default 0 (match milliseconds with None => milliseconds | Some _ => Some 2000 end))%Z
    (page_dispatch (show_progress true) p).

(** ** What happens to the page

    The user types in the field [name], follows a link that blinks, any other
    action is dispatched, time passes, or a timer that is due fires.  The map has
    the time of the last key of each field. *)

Definition debounces (a : Actions) : bool := match a with Debounces _ => true | _ => false end.

Definition fire_timer (t : Timer) (p : Page) : Page :=
  page_dispatch (timer_action t)
    (mkPage (page_dash p) (page_clock p) (filter (fun t' => timer_id t' <> timer_id t) (page_timers p)) (page_ids p)).

Inductive typed : Page -> gmap string Z -> Prop :=
| typed_start d now : root_debounce (dash_root d) = ∅ -> typed (mkPage d now [] []) ∅
| typed_key p keys_ id name : typed p keys_ -> fresh_id p id ->
    typed (setDebouncing id name p) (<[name := page_clock p]> keys_)
| typed_blink p keys_ id milliseconds : typed p keys_ -> fresh_id p id ->
    typed (blinkTopProgressAction id milliseconds p) keys_
| typed_other p keys_ a : typed p keys_ -> debounces a = false -> typed (page_dispatch a p) keys_
| typed_wait p keys_ delay : typed p keys_ -> (0 <= delay)%Z ->
    typed (mkPage (page_dash p) (page_clock p + delay) (page_timers p) (page_ids p)) keys_
| typed_fire p keys_ t : typed p keys_ -> t ∈ page_timers p -> (timer_due t <= page_clock p)%Z ->
    typed (fire_timer t p) keys_.

(** ** The debounce slice *)

Abbreviation debounce_of p := (root_debounce (dash_root (page_dash p))).

Lemma reduce_quiet_debounce actions : Forall (fun a => debounces a = false) actions -> forall s st s' st',
  reduce_all connectRouter call b actions (s, st) = Ok (s', st') -> root_debounce s' = root_debounce s.
Proof.
  induction 1 as [|a actions Ha _ IH]; intros s st s' st' H.
  - by injection H as <- <-.
  - unfold reduce_all in H. cbn [forEachM] in H. apply bind_Ok in H as ([s1 st1] & H1 & H2).
    destruct (root_reducer_reduced connectRouter call b s st a) as (s2 & st2 & He & Hr).
    rewrite H1 in He. injection He as <- <-. rewrite (IH _ _ _ _ H2), (red_debounce _ _ _ Hr). by destruct a.
Qed.

Lemma after_quiet_debounce d a : debounces a = false -> root_debounce (dash_root (after d a)) = root_debounce (dash_root d).
Proof.
  intros Ha. unfold ActionFacts.after, dispatch.
  assert (Hp : forall e l, casbin_middleware (dash_enforcer d) a = (e, Ok l) -> Forall (fun a => debounces a = false) l).
  { intros e l. unfold casbin_middleware. destruct a as [|a| | | | | | | | | | | | | | | |];
      try destruct a; try (intros [= <- <-]; by repeat constructor).
    destruct (loadPolicies _ _) as [[? ?]|?]; [|done]. destruct (login_subjects _); [|done].
    intros [= <- <-]. by repeat constructor. }
  destruct (casbin_middleware _ _) as [e [l|m]]; [|done]. cbn [mbind result_bind].
  destruct (reduce_all _ _ _ _ _) as [[s st]|m] eqn:He; [|done]. cbn.
  by eapply reduce_quiet_debounce; [eapply Hp|].
Qed.

Lemma after_debounce d (a : DebounceActions) :
  root_debounce (dash_root (after d a)) = debounce_reducer (root_debounce (dash_root d)) a.
Proof. by rewrite (red_debounce _ _ _ (after_reduced connectRouter call b d a eq_refl)). Qed.

(** The slice after a key. *)
Lemma setDebouncing_debounce id name p :
  debounce_of (setDebouncing id name p) = <[name := mkDebounce id false]> (debounce_of p).
Proof.
  unfold setDebouncing. cbn [page_dispatch page_dash]. rewrite after_debounce.
  set (p2 := match _ with Some _ => _ | None => _ end).
  assert (debounce_of p2 = debounce_reducer (debounce_of p) (SET_DEBOUNCING name false)) as E.
  { subst p2. destruct (_ <$> _) as [c|]; [destruct (truthy_number c)|]; apply after_debounce. }
  cbn [setTimeout page_dash]. rewrite E. cbn.
  destruct (debounce_of p !! name) as [d|]; rewrite lookup_insert_eq; cbn; by rewrite insert_insert_eq.
Qed.

(** ** The timers and the slice agree *)

Definition for_field (name : string) (t : Timer) : Prop := timer_action t = SET_DEBOUNCING name true.

(** The timers of a field that was typed in at [last] and whose entry is [d]. *)
Record field_ok (p : Page) (name : string) (last : Z) (d : Debounce) : Prop := {
  field_truthy : truthy_number (deb_timer d) = true;
  field_id : deb_timer d ∈ page_ids p;
  field_timers t : t ∈ page_timers p -> for_field name t <-> timer_id t = deb_timer d;
  field_shown : if deb_debouncing d
    then (last + 3000 <= page_clock p)%Z /\ (forall t, t ∈ page_timers p -> timer_id t <> deb_timer d)
    else mkTimer (deb_timer d) (last + 3000) (SET_DEBOUNCING name true) ∈ page_timers p
}.

Definition fields_ok (p : Page) (keys_ : gmap string Z) : Prop := forall name,
  match keys_ !! name with
  | None => debounce_of p !! name = None /\ forall t, t ∈ page_timers p -> ~ for_field name t
  | Some last => exists d, debounce_of p !! name = Some d /\ field_ok p name last d
  end.

Record page_ok (p : Page) (keys_ : gmap string Z) : Prop := {
  ok_ids t : t ∈ page_timers p -> timer_id t ∈ page_ids p;
  ok_unique t t' : t ∈ page_timers p -> t' ∈ page_timers p -> timer_id t = timer_id t' -> t = t';
  ok_actions t : t ∈ page_timers p -> (exists name, for_field name t) \/ timer_action t = show_progress false;
  ok_fields : fields_ok p keys_
}.

Lemma for_field_inj name name' t : for_field name t -> for_field name' t -> name = name'.
Proof. unfold for_field. congruence. Qed.

(** A field keeps its entry when the clock moves on, timers of others go, and
    timers of others with new identifiers come. *)
Lemma field_ok_step p p' name last d :
  field_ok p name last d -> (page_clock p <= page_clock p')%Z -> (forall id, id ∈ page_ids p -> id ∈ page_ids p') ->
  (forall t, t ∈ page_timers p' -> t ∈ page_timers p \/ ~ for_field name t /\ timer_id t ∉ page_ids p) ->
  (forall t, t ∈ page_timers p -> for_field name t -> t ∈ page_timers p') ->
  field_ok p' name last d.
Proof.
  intros [Ht Hi Htimers Hs] Hclock Hids Hsub Hkeep. split; [done|auto| |].
  - intros t Hin. destruct (Hsub t Hin) as [Hold|[Hn Hnew]]; [by apply Htimers|].
    split; [done|]. intros E. by rewrite E in Hnew.
  - destruct (deb_debouncing d); [|by apply Hkeep]. destruct Hs as [Hlast Hno]. split; [lia|].
    intros t Hin E. destruct (Hsub t Hin) as [Hold|[Hn Hnew]]; [by apply (Hno t)|]. by rewrite E in Hnew.
Qed.

(** The same for every field. *)
Lemma fields_ok_step p p' keys_ :
  fields_ok p keys_ -> debounce_of p' = debounce_of p ->
  (page_clock p <= page_clock p')%Z -> (forall id, id ∈ page_ids p -> id ∈ page_ids p') ->
  (forall t, t ∈ page_timers p' -> t ∈ page_timers p \/ (forall name, ~ for_field name t) /\ timer_id t ∉ page_ids p) ->
  (forall t name, t ∈ page_timers p -> for_field name t -> t ∈ page_timers p') ->
  fields_ok p' keys_.
Proof.
  intros Hf Hd Hclock Hids Hsub Hkeep name. specialize (Hf name). rewrite Hd.
  destruct (keys_ !! name) as [last|].
  - destruct Hf as (d & Hn & Hok). exists d. split; [done|]. eapply field_ok_step; [done..| |eauto].
    intros t Hin. destruct (Hsub t Hin) as [?|[? ?]]; eauto.
  - destruct Hf as [Hn Hno]. split; [done|]. intros t Hin Hfor. destruct (Hsub t Hin) as [?|[Hnone _]]; [by eapply Hno|].
    by eapply Hnone.
Qed.

(** The timers left after the timer of a field is cleared. *)
Definition others_timers (p : Page) (name : string) (timers : list Timer) : Prop :=
  forall t, t ∈ timers <-> t ∈ page_timers p /\ ~ for_field name t.

Lemma cleared_timers p keys_ name : page_ok p keys_ ->
  exists timers, others_timers p name timers /\ forall id,
    setDebouncing id name p =
      page_dispatch (SET_TIMER name id)
        (mkPage (after (page_dash p) (SET_DEBOUNCING name false)) (page_clock p)
          (mkTimer id (page_clock p + 3000) (SET_DEBOUNCING name true) :: timers) (id :: page_ids p)).
Proof.
  intros [_ _ _ Hf]. specialize (Hf name). unfold setDebouncing, others_timers.
  destruct (keys_ !! name) as [last|].
  - destruct Hf as (d & -> & [Ht Hi Htimers _]). cbn. rewrite Ht.
    exists (filter (fun t => timer_id t <> deb_timer d) (page_timers p)). split; [|done].
    intros t. rewrite list_elem_of_filter. pose proof (Htimers t). naive_solver.
  - destruct Hf as [-> Hno]. exists (page_timers p). split; [|done]. intros t. naive_solver.
Qed.

Lemma key_ok p keys_ name id : page_ok p keys_ -> fresh_id p id ->
  page_ok (setDebouncing id name p) (<[name := page_clock p]> keys_).
Proof.
  intros Hok [Htrue Hfresh]. destruct (cleared_timers p keys_ name Hok) as (timers & Ho & He).
  pose proof (setDebouncing_debounce id name p) as Hd. specialize (He id). destruct Hok as [Hids Hu Hact Hf].
  assert (Hids' : forall t, t ∈ timers -> timer_id t ∈ page_ids p) by (intros t [? _]%Ho; auto).
  rewrite He in *. cbn [page_dispatch page_dash page_timers page_ids page_clock] in *. split; cbn [page_timers page_ids].
  - intros t [->|Hin]%elem_of_cons; [by left|]. right. auto.
  - intros t t' [->|Hin]%elem_of_cons [->|Hin']%elem_of_cons E; [done| | |apply Ho in Hin as [? _], Hin' as [? _]; by apply Hu].
    + destruct Hfresh. cbn in E. rewrite E. auto.
    + destruct Hfresh. cbn in E. rewrite <- E. auto.
  - intros t [->|[Hin _]%Ho]%elem_of_cons; [left; by exists name|auto].
  - intros name'. cbn [page_dispatch page_dash page_timers].
    rewrite Hd, lookup_insert. destruct (decide (name = name')) as [<-|Hne].
    + exists (mkDebounce id false). rewrite lookup_insert_eq. split; [done|]. split; cbn; [done|by left| |by left].
      intros t [->|Hin]%elem_of_cons; [done|]. split; [by intros ?; apply Ho in Hin as [_ []]|]. intros E. destruct Hfresh. rewrite <- E. auto.
    + specialize (Hf name'). rewrite lookup_insert_ne by done. destruct (keys_ !! name') as [last|].
      * destruct Hf as (d & Hn & Hok). exists d. split; [done|]. eapply field_ok_step; [done|cbn; lia| | |]; cbn.
        -- intros. by right.
        -- intros t [->|[Hin _]%Ho]%elem_of_cons; [|by left]. right. split; [|done]. by intros ?%(for_field_inj name).
        -- intros t Hin Hfor. right. apply Ho. split; [done|]. intros Hfor'. by apply Hne, (for_field_inj _ _ t).
      * destruct Hf as [Hn Hno]. split; [done|]. intros t [->|[Hin _]%Ho]%elem_of_cons; [|by apply Hno].
        by intros ?%(for_field_inj name).
Qed.

Lemma blink_ok p keys_ id milliseconds : page_ok p keys_ -> fresh_id p id ->
  page_ok (blinkTopProgressAction id milliseconds p) keys_.
Proof.
  intros [Hids Hu Hact Hf] [Htrue Hfresh]. split; cbn.
  - intros t [->|Hin]%elem_of_cons; [by left|]. right. auto.
  - intros t t' [->|Hin]%elem_of_cons [->|Hin']%elem_of_cons E; [done| | |auto];
      destruct Hfresh; cbn in E; [rewrite E|rewrite <- E]; auto.
  - intros t [->|Hin]%elem_of_cons; [by right|auto].
  - eapply fields_ok_step; [done|by apply after_quiet_debounce|done|by right| |by right].
    intros t [->|Hin]%elem_of_cons; [right|by left]. by split; [intros name|].
Qed.

Lemma fire_ok p keys_ t : page_ok p keys_ -> t ∈ page_timers p -> (timer_due t <= page_clock p)%Z ->
  page_ok (fire_timer t p) keys_.
Proof.
  intros [Hids Hu Hact Hf] Ht Hdue.
  assert (Hin : forall t', t' ∈ filter (fun t' => timer_id t' <> timer_id t) (page_timers p) <->
      t' ∈ page_timers p /\ t' <> t).
  { intros t'. rewrite list_elem_of_filter. split; [naive_solver|]. intros [Hin Hne]. split; [|done].
    intros E. by apply Hne, Hu. }
  split; cbn.
  - intros t' [H _]%Hin. auto.
  - intros t1 t2 [H1 _]%Hin [H2 _]%Hin. auto.
  - intros t' [H _]%Hin. auto.
  - destruct (Hact t Ht) as [[name Hname]|Hprog].
    + intros name'. cbn. rewrite Hname, after_debounce. cbn [debounce_reducer].
      specialize (Hf name') as Hf'. specialize (Hf name). destruct (keys_ !! name) as [last|] eqn:Hlast; [|by edestruct (proj2 Hf)].
      destruct Hf as (d & Hd & [Htruthy Hid Htimers Hs]). rewrite Hd.
      assert (timer_id t = deb_timer d) as Et by by apply Htimers.
      destruct (deb_debouncing d); [by destruct (proj2 Hs t Ht)|].
      destruct (decide (name = name')) as [<-|Hne].
      * rewrite Hlast, lookup_insert_eq. eexists. split; [done|]. split; cbn; [done|done| |].
        -- intros t' [H _]%Hin. by apply Htimers.
        -- rewrite (Hu t _ Ht Hs Et) in Hdue. split; [done|]. intros t' [H Hn]%Hin E. apply Hn, Hu; congruence.
      * rewrite lookup_insert_ne by done. destruct (keys_ !! name') as [last'|].
        -- destruct Hf' as (d' & Hn & Hok). exists d'. split; [done|]. eapply field_ok_step; [done|done|done| |]; cbn.
           ++ intros t' [H _]%Hin. by left.
           ++ intros t' H Hfor. apply Hin. split; [done|]. intros ->. by apply Hne, (for_field_inj _ _ t).
        -- destruct Hf' as [Hn Hno]. split; [done|]. intros t' [H _]%Hin. by apply Hno.
    + eapply fields_ok_step; [done|cbn; rewrite Hprog; by apply after_quiet_debounce|done|done| |]; cbn.
      * intros t' [H _]%Hin. by left.
      * intros t' name H Hfor. apply Hin. split; [done|]. intros ->. unfold for_field in Hfor. by rewrite Hprog in Hfor.
Qed.

Lemma typed_ok p keys_ : typed p keys_ -> page_ok p keys_.
Proof.
  induction 1 as [d now Hd|p keys_ id name _ IH Hid|p keys_ id ms _ IH Hid|p keys_ a _ IH Ha|p keys_ delay _ IH Hdelay|p keys_ t _ IH Ht Hdue].
  - split; cbn; [by intros ? ?%not_elem_of_nil|by intros ? ? ?%not_elem_of_nil|by intros ? ?%not_elem_of_nil|]. intros name. cbn. rewrite Hd, !lookup_empty. split; [done|].
    by intros ? ?%not_elem_of_nil.
  - by apply key_ok.
  - by apply blink_ok.
  - destruct IH as [? ? ? Hf]. split; [done..|]. eapply fields_ok_step; [done|by apply after_quiet_debounce|done|done|by left|done].
  - destruct IH as [? ? ? Hf]. split; [done..|]. eapply fields_ok_step; [done|done|cbn; lia|done|by left|done].
  - by apply fire_ok.
Qed.

(** ** Properties *)

(** C23: The error of a field is shown once the user has paused.  In every history
    of keys, links, other actions, passing time and timers that fire, a field that
    was not typed in shows no error.  Of the others each either shows it, at least
    three seconds passed since the last key and no timer is pending; or it hides
    it and exactly one timer is pending, due three seconds after the last key,
    which shows it when it fires. *)
Theorem error_shown_after_pause p keys_ name : typed p keys_ ->
  match keys_ !! name with
  | None => getIsDisplayDebounceError (dash_root (page_dash p)) name = false
  | Some last =>
      if getIsDisplayDebounceError (dash_root (page_dash p)) name
      then (last + 3000 <= page_clock p)%Z /\ forall t, t ∈ page_timers p -> ~ for_field name t
      else exists t, (forall t', t' ∈ page_timers p /\ for_field name t' <-> t' = t) /\ timer_due t = (last + 3000)%Z /\
             getIsDisplayDebounceError (dash_root (page_dash (fire_timer t p))) name = true
  end.
Proof.
  intros Hok%typed_ok. pose proof (ok_fields _ _ Hok name) as Hf. unfold getIsDisplayDebounceError.
  destruct (keys_ !! name) as [last|]; [|by destruct Hf as [-> _]].
  destruct Hf as (d & -> & [_ _ Htimers Hs]). destruct (deb_debouncing d).
  - destruct Hs as [Hlast Hno]. split; [done|]. intros t Hin Hfor. apply (Hno t Hin). by apply Htimers.
  - exists (mkTimer (deb_timer d) (last + 3000) (SET_DEBOUNCING name true)). split; [|split; [reflexivity|]].
    + intros t'. split; [|by intros ->]. intros [Hin Hfor]. apply (ok_unique _ _ Hok); [done|done|].
      by apply Htimers.
    + unfold fire_timer. cbn. rewrite after_debounce. cbn. by destruct (root_debounce _ !! name); rewrite lookup_insert_eq.
Qed.
End debounce.

(** ** Witness: a key, two seconds, another key, three seconds *)

Abbreviation key id p := (setDebouncing keep_router no_hooks boot_empty (num id) "host" p).
Definition wait (delay : Z) (p : Page (R:=unit)) : Page :=
  mkPage (page_dash p) (page_clock p + delay) (page_timers p) (page_ids p).
Definition paused : Page := wait 3000 (key 2 (wait 2000 (key 1 (mkPage demo 0 [] [])))).

Lemma paused_typed : typed keep_router no_hooks boot_empty paused (<["host" := 2000%Z]> (<["host" := 0%Z]> ∅)).
Proof.
  apply typed_wait; [|done].
  apply (typed_key keep_router no_hooks boot_empty (wait 2000 (key 1 (mkPage demo 0 [] []))) (<["host" := 0%Z]> ∅)).
  - apply typed_wait; [|done]. apply (typed_key keep_router no_hooks boot_empty (mkPage demo 0 [] [])); [by apply typed_start|].
    by split; [|apply not_elem_of_nil].
  - split; [done|]. change (num 2 ∉ [num 1]). by intros ?%list_elem_of_singleton.
Qed.

Lemma error_shown_after_pause_witness :
  getIsDisplayDebounceError (dash_root (page_dash paused)) "host" = false /\
  exists t, page_timers paused = [t] /\ timer_due t = 5000%Z /\ page_clock paused = 5000%Z /\
    getIsDisplayDebounceError (dash_root (page_dash (fire_timer keep_router no_hooks boot_empty t paused))) "host" = true.
Proof.
  pose proof (error_shown_after_pause keep_router no_hooks boot_empty _ _ "host" paused_typed) as H.
  assert (getIsDisplayDebounceError (dash_root (page_dash paused)) "host" = false) as E by reflexivity.
  cbn [lookup] in H. rewrite lookup_insert_eq, E in H. destruct H as (t & Ht & Hdue & Hfire).
  split; [exact E|]. exists t. split; [|split; [exact Hdue|split; [reflexivity|exact Hfire]]].
  destruct (proj2 (Ht t) eq_refl) as [Hin _].
  change (page_timers paused) with [mkTimer (num 2) 5000 (SET_DEBOUNCING "host" true)] in *.
  by apply list_elem_of_singleton in Hin as ->.
Defined.
