(* ===== verification/LogStream.v ===== *)
(** [pages/Application/Log.tsx]: the page that streams the logs of pods, or opens
    shells in them, through a socket that reconnects.

    The state is the state of the React component with the fields of its object;
    an update of the state in a handler takes effect at the end of the handler.
    The socket is a third-party object: [ls_open] says whether its [readyState]
    is 1, and [ls_sent] are the messages given to its [send].  The page is about
    one namespace, which its messages about pods carry and the model leaves out. *)

From S2P Require Import Prelude JsString JsMap JsNumber ResourceTypes.

(** ** Data *)

(** A pod and one of its containers; the container is [undefined] for a pod
    without containers. *)
Abbreviation PodRef := (string * option string)%type.

Record LogOptions := mkLogOptions {
  opt_tailLines : Z;
  opt_timestamps : bool;
  opt_follow : bool;
  opt_previous : bool
}.

Definition tailLinesOptions : list Z := [100; 200; 500; 1000; 2000]%Z.

(** What the page sends.  The types of the two messages about pods depend on
    whether it shows logs or shells. *)
Inductive WsMessage :=
| AuthStatus
| Auth (authToken impersonation : string)
| SubscribePod (podName : string) (container : option string) (options : LogOptions)
| UnsubscribePod (podName : string) (container : option string)
| Stdin (podName data : string)
| Resize (podName data : string).

Definition message_type (isLog : bool) (m : WsMessage) : string :=
  match m with
  | AuthStatus => "authStatus"
  | Auth _ _ => "auth"
  | SubscribePod _ _ _ => if isLog then "subscribePodLog" else "execStartSession"
  | UnsubscribePod _ _ => if isLog then "unsubscribePodLog" else "execEndSession"
  | Stdin _ _ => "stdin"
  | Resize _ _ => "resize"
  end.

(** What the server sends: the [type] of a message with the properties read. *)
Inductive WsEvent :=
| LogStreamUpdate (podName data : string)
| ExecStreamUpdate (podName data : string)
| LogStreamDisconnected (podName data : string)
| ExecStreamDisconnected (podName data : string)
| AuthResult (status : Z)
| AuthStatusIs (status : Z)
| OtherEvent (type : string).
#[export] Instance WsEvent_eq_dec : EqDecision WsEvent.
Proof. solve_decision. Defined.

(** What was done to a terminal. *)
Inductive TerminalOp := WriteData (s : string) | WriteLine (s : string) | ClearTerminal.

(** [terminals] has the pods whose terminal is on the page. *)
Record LogStream := mkLogStream {
  ls_value : PodRef;
  subscribedPods : list PodRef;
  logOptions : LogOptions;
  timestampsFrom : gmap string string;
  wsQueueMessages : list WsMessage;
  terminals : gmap string (list TerminalOp);
  initalizedFromQuery : bool;
  ls_open : bool;
  ls_sent : list WsMessage
}.

Definition set_selection (s : LogStream) (value : PodRef) (pods : list PodRef) : LogStream :=
  mkLogStream value pods (logOptions s) (timestampsFrom s) (wsQueueMessages s) (terminals s) (initalizedFromQuery s) (ls_open s) (ls_sent s).
Definition set_logOptions (s : LogStream) (o : LogOptions) : LogStream :=
  mkLogStream (ls_value s) (subscribedPods s) o (timestampsFrom s) (wsQueueMessages s) (terminals s) (initalizedFromQuery s) (ls_open s) (ls_sent s).
Definition set_timestampsFrom (s : LogStream) m : LogStream :=
  mkLogStream (ls_value s) (subscribedPods s) (logOptions s) m (wsQueueMessages s) (terminals s) (initalizedFromQuery s) (ls_open s) (ls_sent s).
Definition set_queue (s : LogStream) (q : list WsMessage) : LogStream :=
  mkLogStream (ls_value s) (subscribedPods s) (logOptions s) (timestampsFrom s) q (terminals s) (initalizedFromQuery s) (ls_open s) (ls_sent s).
Definition set_terminals (s : LogStream) (m : gmap string (list TerminalOp)) : LogStream :=
  mkLogStream (ls_value s) (subscribedPods s) (logOptions s) (timestampsFrom s) (wsQueueMessages s) m (initalizedFromQuery s) (ls_open s) (ls_sent s).
Definition set_initalized (s : LogStream) : LogStream :=
  mkLogStream (ls_value s) (subscribedPods s) (logOptions s) (timestampsFrom s) (wsQueueMessages s) (terminals s) true (ls_open s) (ls_sent s).
Definition set_socket (s : LogStream) (o : bool) (sent : list WsMessage) : LogStream :=
  mkLogStream (ls_value s) (subscribedPods s) (logOptions s) (timestampsFrom s) (wsQueueMessages s) (terminals s) (initalizedFromQuery s) o sent.

(** The component when it is constructed. *)
Definition newLogStream : LogStream :=
  mkLogStream ("", Some "") [] (mkLogOptions 100 true true false) ∅ [] ∅ false false [].

(** ** Terminals *)

Definition saveTerminal (name : string) (present : bool) (s : LogStream) : LogStream :=
  set_terminals s (if present then <[name := []]> (terminals s) else base.delete name (terminals s)).

(** The characters up to the first white space, and the rest from there on. *)
Fixpoint span_word (s : string) : string * string :=
  match s with
  | "" => ("", "")
  | String c s' => if is_ws c then ("", s) else let '(w, rest) := span_word s' in (String c w, rest)
  end.

Definition is_line_end (c : ascii) : bool := bool_decide (c = "010"%char) || bool_decide (c = "013"%char).

Definition starts_with_digit (s : string) : bool := match s with String c _ => is_digit c | "" => false end.

(** [logs.match(/^\d+\S+/gm)[0]]: the first word at the start of a line that is a
    digit and at least one more character. *)
Fixpoint first_stamp (line_start : bool) (s : string) : string :=
  let word := (span_word s).1 in
  if line_start && starts_with_digit s && (2 <=? String.length word) then word
  else match s with
       | "" => ""
       | String c s' => first_stamp (is_line_end c) s'
       end.
Definition getTimestamps (logs : string) : string := first_stamp true logs.

(** [logs.replace(/^\d+.*?\s/gm, "")]: at the start of a line, a word that begins
    with a digit and the white space behind it.  The fuel is the length. *)
Fixpoint strip_stamps (fuel : nat) (line_start : bool) (s : string) : string :=
  match fuel, s with
  | S fuel, String c s' =>
      match (span_word s).2 with
      | String w rest =>
          if line_start && is_digit c then strip_stamps fuel (is_line_end w) rest
          else String c (strip_stamps fuel (is_line_end c) s')
      | "" => String c (strip_stamps fuel (is_line_end c) s')
      end
  | _, _ => s
  end.
Definition removeTimestamps (logs : string) : string := strip_stamps (String.length logs) true logs.

Definition terminal_do (podName : string) (op : TerminalOp) (s : LogStream) : LogStream :=
  match terminals s !! podName with
  | Some ops => set_terminals s (<[podName := ops ++ [op]]> (terminals s))
  | None => s
  end.

Definition writeData (podName data : string) (s : LogStream) : LogStream :=
  terminal_do podName (WriteData (if opt_timestamps (logOptions s) then data else removeTimestamps data)) s.

(** ** Messages to the server *)

Definition ws_send (m : WsMessage) (s : LogStream) : LogStream := set_socket s (ls_open s) (ls_sent s ++ [m]).

Definition sendOrQueueMessage (m : WsMessage) (s : LogStream) : LogStream :=
  if negb (ls_open s) then set_queue s (wsQueueMessages s ++ [m]) else ws_send m s.

Definition subscribe (pod : PodRef) (newLogOptions : option LogOptions) (s : LogStream) : LogStream :=
  let options := default (logOptions s) newLogOptions in
  sendOrQueueMessage
    (SubscribePod pod.1 pod.2 (mkLogOptions (opt_tailLines options) true (opt_follow options) (opt_previous options)))
    (terminal_do pod.1 ClearTerminal s).

Definition unsubscribe (pod : PodRef) (s : LogStream) : LogStream :=
  sendOrQueueMessage (UnsubscribePod pod.1 pod.2) s.

(** The terminal of a shell: what is typed, and its size. *)
Definition terminalOnData (podName data : string) (s : LogStream) : LogStream := sendOrQueueMessage (Stdin podName data) s.
Definition terminalOnResize (podName : string) (cols rows : Z) (s : LogStream) : LogStream :=
  sendOrQueueMessage (Resize podName (int_to_string cols +:+ "," +:+ int_to_string rows)) s.

(** ** The socket *)

Definition onopen (s : LogStream) : LogStream := ws_send AuthStatus s.

Definition afterWsAuthSuccess (s : LogStream) : LogStream :=
  let s1 := foldl (fun s pod => subscribe pod None s) s (subscribedPods s) in
  set_queue (foldl (fun s m => ws_send m s) s1 (wsQueueMessages s1)) [].

Definition stamp_from (podName data : string) (s : LogStream) : LogStream :=
  if negb (seqb (default "" (timestampsFrom s !! podName)) "") then s
  else set_timestampsFrom s (<[podName := getTimestamps data]> (timestampsFrom s)).

Definition disconnected_text : string :=
  String "010" (String "013" (String "027" "[1;31mTerminal disconnected" +:+ String "027" "[0m" +:+ String "010" "")).

Definition onmessage (authToken impersonation : string) (data : WsEvent) (s : LogStream) : LogStream :=
  match data with
  | LogStreamUpdate podName text => writeData podName text (stamp_from podName text s)
  | ExecStreamUpdate podName text => writeData podName text s
  | LogStreamDisconnected podName text => writeData podName text s
  | ExecStreamDisconnected podName text => terminal_do podName (WriteLine disconnected_text) (writeData podName text s)
  | AuthResult status => if (status =? 0)%Z then afterWsAuthSuccess s else s
  | AuthStatusIs status =>
      if (status =? 0)%Z then afterWsAuthSuccess s
      else if (status =? -1)%Z then ws_send (Auth authToken impersonation) s
      else s
  | OtherEvent _ => s
  end.

(** ** The choice of pods *)

(** [pods] are the pods of all components, with the names of their containers. *)
Definition getAllPods (components : list ApplicationComponentDetails) : list PodStatus :=
  concat (cd_pods <$> components).

Definition find_pod (pods : list PodStatus) (name : string) : option PodStatus :=
  List.find (fun pod => seqb (pod_name pod) name) pods.

Definition containerNames (pod : PodStatus) : list string := container_name <$> pod_containers pod.

Definition find_ref (l : list PodRef) (name : string) : option PodRef := List.find (fun r => seqb r.1 name) l.

(** [pods] and [active] are the lists parsed from the address of the page. *)
Definition initFromQuery (components : list ApplicationComponentDetails) (pods : option (list PodRef)) (active : option PodRef)
    (s : LogStream) : LogStream :=
  if initalizedFromQuery s then s
  else
    let names := pod_name <$> getAllPods components in
    let known (r : PodRef) := existsb (seqb r.1) names in
    let validPods := List.filter known (default [] pods) in
    let validValue := match active with Some r => if known r then r else ("", Some "") | None => ("", Some "") end in
    set_initalized (set_selection s validValue
      (if negb (length (subscribedPods s) =? length validPods) then validPods else subscribedPods s)).

Definition missing_pod : string := "Cannot read property 'containers' of undefined".

(** The pods of the new choice: those that were chosen keep their container. *)
Fixpoint choose_pods (pods : list PodStatus) (subscribed : list PodRef) (names : list string) : result (list PodRef) :=
  match names with
  | [] => Ok []
  | podName :: rest =>
      r ← match find_ref subscribed podName with
          | Some r => Ok r
          | None => match find_pod pods podName with
                    | Some pod => Ok (podName, head (containerNames pod))
                    | None => Throw missing_pod
                    end
          end;
      chosen ← choose_pods pods subscribed rest;
      Ok (r :: chosen)
  end.

(** The second loop over the names; what it did before an exception stays done. *)
Fixpoint subscribe_new (pods : list PodStatus) (subscribed names : list string) (newValue : PodRef) (s : LogStream)
    : LogStream * result PodRef :=
  match names with
  | [] => (s, Ok newValue)
  | podName :: rest =>
      match find_pod pods podName with
      | None => (s, Throw missing_pod)
      | Some pod =>
          let r := (podName, head (containerNames pod)) in
          subscribe_new pods subscribed rest
            (if seqb newValue.1 "" then r else newValue)
            (if existsb (seqb podName) subscribed then s else subscribe r None s)
      end
  end.

Definition onInputChange (components : list ApplicationComponentDetails) (currentPodNames : list string) (s : LogStream)
    : LogStream * result unit :=
  let pods := getAllPods components in
  match choose_pods pods (subscribedPods s) currentPodNames with
  | Throw e => (s, Throw e)
  | Ok currentPods =>
      let dropped := List.filter (fun r : PodRef => negb (existsb (seqb r.1) currentPodNames)) (subscribedPods s) in
      let s1 := foldl (fun s r => unsubscribe r s) s dropped in
      let newValue := if existsb (fun r : PodRef => seqb r.1 (ls_value s).1) dropped then ("", Some "") else ls_value s in
      match subscribe_new pods (fst <$> subscribedPods s) currentPodNames newValue s1 with
      | (s2, Throw e) => (s2, Throw e)
      | (s2, Ok value) => (set_selection s2 value currentPods, Ok tt)
      end
  end.

Definition onInputContainerChange (x : option string) (s : LogStream) : LogStream :=
  let change (s' : LogStream) (r : PodRef) :=
    if seqb r.1 (ls_value s).1 then subscribe (r.1, x) None (unsubscribe r s') else s' in
  let newSubscribedPods :=
    (fun r : PodRef => if seqb r.1 (ls_value s).1 then (r.1, x) else r) <$> subscribedPods s in
  set_selection (foldl change s (subscribedPods s)) ((ls_value s).1, x) newSubscribedPods.

Definition onLogOptionsChange (newLogOptions : LogOptions) (s : LogStream) : LogStream :=
  set_logOptions
    (foldl (fun s r => subscribe r (Some newLogOptions) (unsubscribe r s)) s (subscribedPods s)) newLogOptions.

(** ** Links to the page *)

(** The container a link opens: the first that is not the sidecar, if any. *)
Definition log_container (pod : PodStatus) : option string :=
  match containerNames pod with
  | "istio-proxy" :: second :: _ => Some (if seqb second "" then "istio-proxy" else second)
  | names => head names
  end.
