(* ===== verification/LogStreamFacts.v ===== *)
(** The log page and the server behind its socket: whenever the server has
    accepted the page, what it streams is what the user chose, less the streams it
    refused or ended. *)

From S2P Require Import Prelude JsString JsMap JsNumber ResourceTypes LogStream.

(** ** The server

    [api/handler/websocket.go] keeps one stream for each pod of a connection: a
    subscription replaces it and the end of a subscription stops it.  Requests
    about pods are refused before the connection is authorized, and subscriptions
    of pods the user may not see afterwards.  A stream may end on its own. *)

Abbreviation session := (option string * LogOptions)%type.

(** What a message makes of the stream of the pod [p]. *)
Definition effect1 (p : string) (v : option session) (m : WsMessage) : option session :=
  match m with
  | SubscribePod p' c o => if seqb p' p then Some (c, o) else v
  | UnsubscribePod p' _ => if seqb p' p then None else v
  | _ => v
  end.
Definition effect (ms : list WsMessage) (p : string) (v : option session) : option session := foldl (effect1 p) v ms.

(** [srv_ended] are the pods whose stream ended on its own. *)
Record LogServer := mkLogServer { srv_authorized : bool; srv_streams : string -> option session; srv_ended : list string }.

(** A message is about a pod. *)
Definition about_pod (m : WsMessage) : Prop :=
  match m with SubscribePod _ _ _ | UnsubscribePod _ _ | Stdin _ _ | Resize _ _ => True | _ => False end.

Section receive.
(** The pods whose logs, or shells, the server grants to the user. *)
Variable grants : string -> bool.

Definition granted (m : WsMessage) : bool := match m with SubscribePod p _ _ => grants p | _ => true end.

(** [accepts] says whether the server accepts the token of an [Auth] message. *)
Definition receive (accepts : bool) (v : LogServer) (m : WsMessage) : LogServer :=
  match m with
  | Auth _ _ => mkLogServer (srv_authorized v || accepts) (srv_streams v) (srv_ended v)
  | _ => if srv_authorized v && granted m
         then mkLogServer true (fun p => effect1 p (srv_streams v p) m) (srv_ended v) else v
  end.
Definition receive_all (accepts : bool) (ms : list WsMessage) (v : LogServer) : LogServer := foldl (receive accepts) v ms.

(** The stream of [p] ends. *)
Definition end_stream (p : string) (v : LogServer) : LogServer :=
  mkLogServer (srv_authorized v) (fun q => if seqb p q then None else srv_streams v q) (p :: srv_ended v).

Lemma effect1_refused m p v : granted m = false -> grants p = true -> effect1 p v m = v.
Proof. destruct m as [| |p' c o| | |]; try done. cbn. intros Hp' Hp. by destruct (seqb_spec p' p) as [->|]; [congruence|]. Qed.

Lemma effect1_granted m p : granted m = true -> grants p = false -> effect1 p None m = None.
Proof. destruct m as [| |p' c o|p' c| |]; try done; cbn; [|by destruct (seqb p' p)]. intros Hp' Hp. by destruct (seqb_spec p' p) as [->|]; [congruence|]. Qed.

Lemma receive_pods accepts ms v : Forall about_pod ms ->
  srv_authorized (receive_all accepts ms v) = srv_authorized v /\
  srv_ended (receive_all accepts ms v) = srv_ended v /\
  (forall p, grants p = true -> srv_streams (receive_all accepts ms v) p =
    if srv_authorized v then effect ms p (srv_streams v p) else srv_streams v p) /\
  (forall p, grants p = false -> srv_streams v p = None -> srv_streams (receive_all accepts ms v) p = None).
Proof.
  intros Hms. revert v. induction Hms as [|m ms Hm _ IH]; intros v; cbn [receive_all effect foldl].
  - split_and!; try done. intros p _. by destruct (srv_authorized v).
  - assert (Hr : receive accepts v m = if srv_authorized v && granted m
      then mkLogServer true (fun p => effect1 p (srv_streams v p) m) (srv_ended v) else v) by by destruct m.
    destruct (IH (receive accepts v m)) as (Ha & He & Hs & Hn). unfold receive_all, effect in *.
    rewrite Hr in *. destruct v as [auth streams ended]. cbn in *.
    destruct auth; cbn in *; [|done]. destruct (granted m) eqn:Hg; cbn in *; split_and!; try done.
    + intros p Hp Hv. apply Hn; [done|]. rewrite Hv. by apply effect1_granted.
    + intros p Hp. rewrite Hs by done. by rewrite effect1_refused.
Qed.
End receive.

Lemma effect_app ms1 ms2 p v : effect (ms1 ++ ms2) p v = effect ms2 p (effect ms1 p v).
Proof. apply foldl_app. Qed.

(** Messages leave the stream of a pod alone or decide it. *)
Lemma effect_cases ms p : (forall v, effect ms p v = v) \/ (exists w, forall v, effect ms p v = w).
Proof.
  induction ms as [|m ms IH] using rev_ind; [by left|].
  assert (Hm : (forall v, effect1 p v m = v) \/ exists w, forall v, effect1 p v m = w).
  { destruct m as [| |p' c o|p' c| |]; cbn; try (by left); destruct (seqb p' p); eauto. }
  unfold effect in *. setoid_rewrite foldl_app. cbn. destruct Hm as [Hm|[w Hm]].
  - setoid_rewrite Hm. exact IH.
  - right. exists w. intros v. apply Hm.
Qed.

(** ** What the page sends *)

(** [s'] is [s] after the messages [ms] were sent, or queued if the socket is not
    open; terminals apart. *)
Record emits (s s' : LogStream) (ms : list WsMessage) : Prop := {
  em_value : ls_value s' = ls_value s;
  em_pods : subscribedPods s' = subscribedPods s;
  em_options : logOptions s' = logOptions s;
  em_open : ls_open s' = ls_open s;
  em_queue : wsQueueMessages s' = if ls_open s then wsQueueMessages s else wsQueueMessages s ++ ms;
  em_sent : ls_sent s' = if ls_open s then ls_sent s ++ ms else ls_sent s
}.

Lemma emits_refl s : emits s s [].
Proof. split; try done; destruct (ls_open s); by rewrite ?app_nil_r. Qed.

Lemma emits_trans s1 s2 s3 ms1 ms2 : emits s1 s2 ms1 -> emits s2 s3 ms2 -> emits s1 s3 (ms1 ++ ms2).
Proof.
  intros [V1 P1 O1 C1 Q1 S1] [V2 P2 O2 C2 Q2 S2].
  split; rewrite ?V2, ?P2, ?O2, ?C2, ?Q2, ?S2, ?C1, ?Q1, ?S1; try done; destruct (ls_open s1); by rewrite ?(assoc_L (++)).
Qed.

Lemma terminal_do_emits p op s : emits s (terminal_do p op s) [].
Proof.
  unfold terminal_do. destruct (terminals s !! p); [|apply emits_refl].
  split; try done; cbn; destruct (ls_open s); by rewrite ?app_nil_r.
Qed.

Lemma send_emits m s : emits s (sendOrQueueMessage m s) [m].
Proof. unfold sendOrQueueMessage. destruct (ls_open s) eqn:Ho; split; cbn; by rewrite ?Ho. Qed.

Definition wire_options (o : LogOptions) : LogOptions :=
  mkLogOptions (opt_tailLines o) true (opt_follow o) (opt_previous o).

Lemma subscribe_emits r o s :
  emits s (subscribe r o s) [SubscribePod r.1 r.2 (wire_options (default (logOptions s) o))].
Proof.
  unfold subscribe. eapply (emits_trans _ _ _ []); [apply terminal_do_emits|].
  apply send_emits.
Qed.

Lemma unsubscribe_emits r s : emits s (unsubscribe r s) [UnsubscribePod r.1 r.2].
Proof. apply send_emits. Qed.

(** A loop whose every round emits messages that depend on the options only. *)
Lemma foldl_emits {A : Type} (f : LogStream -> A -> LogStream) (g : LogOptions -> A -> list WsMessage) l s :
  (forall s x, emits s (f s x) (g (logOptions s) x)) ->
  emits s (foldl f s l) (concat (g (logOptions s) <$> l)).
Proof.
  intros Hf. revert s. induction l as [|x l IH]; intros s; cbn; [apply emits_refl|].
  eapply emits_trans; [apply Hf|]. specialize (IH (f s x)). by rewrite (em_options _ _ _ (Hf s x)) in IH.
Qed.

(** ** What the user chose *)

Definition chosen (pods : list PodRef) (o : LogOptions) (p : string) : option session :=
  (fun c => (c, wire_options o)) <$> map_get pods p.
Definition selection (s : LogStream) : string -> option session := chosen (subscribedPods s) (logOptions s).

Definition distinct (l : list PodRef) : Prop := NoDup (map_keys l).

(** [s'] is [s] after a change of the choice that the messages [ms] tell. *)
Record chooses (s s' : LogStream) (ms : list WsMessage) : Prop := {
  ch_open : ls_open s' = ls_open s;
  ch_queue : wsQueueMessages s' = if ls_open s then wsQueueMessages s else wsQueueMessages s ++ ms;
  ch_sent : ls_sent s' = if ls_open s then ls_sent s ++ ms else ls_sent s;
  ch_pods : Forall about_pod ms;
  ch_distinct : distinct (subscribedPods s) -> distinct (subscribedPods s');
  ch_selection p : distinct (subscribedPods s) -> selection s' p = effect ms p (selection s p)
}.

Lemma seqb_sym a b : seqb a b = seqb b a.
Proof. unfold seqb. apply String.eqb_sym. Qed.

Lemma map_get_cons (k : string) (c : option string) l p : map_get ((k, c) :: l) p = if seqb k p then Some c else map_get l p.
Proof. cbn. destruct (seqb_spec k p) as [->|Hk]; [by rewrite decide_True|]. by rewrite decide_False by congruence. Qed.

(** Messages that start the streams of a list of pods, one group for each. *)
Lemma effect_restarts (h : PodRef -> list WsMessage) w pods p v : distinct pods ->
  (forall r p v, effect (h r) p v = if seqb r.1 p then Some (r.2, w) else v) ->
  effect (concat (h <$> pods)) p v =
    match map_get pods p with Some c => Some (c, w) | None => v end.
Proof.
  intros Hd Hh. revert v. induction pods as [|[k c] pods IH]; intros v; [done|].
  apply NoDup_cons in Hd as [Hk Hd]. cbn [fmap list_fmap concat]. rewrite effect_app, (IH Hd), Hh, map_get_cons. cbn.
  destruct (seqb_spec k p) as [->|Hp]; [|done].
  assert (map_get pods p = None) as ->; [|done].
  apply eq_None_not_Some. by intros ?%map_get_keys.
Qed.

Lemma about_concat {A : Type} (g : A -> list WsMessage) l : (forall x, Forall about_pod (g x)) -> Forall about_pod (concat (g <$> l)).
Proof. intros Hg. induction l as [|x l IH]; cbn; [done|]. by apply Forall_app. Qed.

(** ** Options *)

Lemma options_chooses o s : exists ms, chooses s (onLogOptionsChange o s) ms.
Proof.
  pose (g := fun (_ : LogOptions) (r : PodRef) => [UnsubscribePod r.1 r.2; SubscribePod r.1 r.2 (wire_options o)]).
  assert (He := foldl_emits (fun s r => subscribe r (Some o) (unsubscribe r s)) g (subscribedPods s) s).
  destruct He as [Hv Hp Ho Hc Hq Hs].
  { intros s' r. eapply (emits_trans _ _ _ [_]); [apply unsubscribe_emits|].
    pose proof (subscribe_emits r (Some o) (unsubscribe r s')) as H. exact H. }
  exists (concat (g (logOptions s) <$> subscribedPods s)). split; cbn; try done.
  - apply about_concat. intros r. by repeat constructor.
  - by rewrite Hp.
  - intros p Hd. unfold selection, chosen. cbn. rewrite Hp, (effect_restarts _ (wire_options o)); [|done|].
    + by destruct (map_get (subscribedPods s) p).
    + intros [k c] q v. cbn. by destruct (seqb k q).
Qed.

(** ** Containers *)

Definition rename (name : string) (x : option string) (r : PodRef) : PodRef :=
  if seqb r.1 name then (r.1, x) else r.

Lemma rename_keys name x pods : map_keys (rename name x <$> pods) = map_keys pods.
Proof.
  unfold map_keys. rewrite <- list_fmap_compose. apply list_fmap_ext. intros _ r _. unfold rename. cbn.
  by destruct (seqb r.1 name).
Qed.

Lemma rename_get name x pods p :
  map_get (rename name x <$> pods) p = if seqb p name then (fun _ => x) <$> map_get pods p else map_get pods p.
Proof.
  induction pods as [|[k c] pods IH]; [by destruct (seqb p name)|]. cbn [fmap list_fmap]. unfold rename at 1. cbn [fst].
  destruct (seqb_spec k name) as [->|Hk]; rewrite !map_get_cons, IH.
  - destruct (seqb_spec name p) as [->|Hp]; [by rewrite seqb_refl|]. by destruct (seqb p name).
  - destruct (seqb_spec k p) as [->|Hp]; [|done]. by rewrite (proj2 (seqb_false p name)).
Qed.

Lemma container_chooses x s : exists ms, chooses s (onInputContainerChange x s) ms.
Proof.
  set (name := (ls_value s).1).
  pose (g := fun (o : LogOptions) (r : PodRef) =>
    if seqb r.1 name then [UnsubscribePod r.1 r.2; SubscribePod r.1 x (wire_options o)] else []).
  destruct (foldl_emits (fun s' r => if seqb r.1 name then subscribe (r.1, x) None (unsubscribe r s') else s')
    g (subscribedPods s) s) as [Hv Hp Ho Hc Hq Hs].
  { intros s' r. unfold g. destruct (seqb r.1 name); [|apply emits_refl].
    eapply (emits_trans _ _ _ [_]); [apply unsubscribe_emits|].
    pose proof (subscribe_emits (r.1, x) None (unsubscribe r s')) as H.
    by rewrite (em_options _ _ _ (unsubscribe_emits r s')) in H. }
  exists (concat (g (logOptions s) <$> subscribedPods s)). split; cbn; fold name; try done.
  - apply about_concat. intros r. unfold g. destruct (seqb r.1 name); by repeat constructor.
  - unfold distinct. by rewrite (rename_keys name x).
  - intros p Hd. unfold selection, chosen. cbn. fold name. rewrite Ho.
    change (fun r : PodRef => if seqb r.1 name then (r.1, x) else r) with (rename name x). rewrite rename_get.
    clear Hv Hp Ho Hc Hq Hs. induction (subscribedPods s) as [|[k c] pods IH]; [by destruct (seqb p name)|].
    apply NoDup_cons in Hd as [Hk Hd]. cbn [fmap list_fmap concat]. rewrite effect_app, !map_get_cons.
    unfold g at 2. cbn [fst snd].
    destruct (seqb_spec k p) as [->|Hkp].
    + assert (Hnone : map_get pods p = None) by (apply eq_None_not_Some; by intros ?%map_get_keys).
      assert (Hid : forall v, effect (concat (g (logOptions s) <$> pods)) p v = v).
      { intros v. clear -Hk. induction pods as [|[k1 c1] pods IH] in v, Hk |- *; [done|]. cbn [fmap list_fmap concat].
        apply not_elem_of_cons in Hk as [Hne Hk]. rewrite effect_app, IH by done. unfold g. cbn.
        destruct (seqb k1 name); [|done]. cbn. rewrite (proj2 (seqb_false k1 p)); [done|]. cbn in Hne. congruence. }
      rewrite Hid. destruct (seqb p name); cbn; by rewrite ?seqb_refl.
    + rewrite IH by done. f_equal. destruct (seqb k name); [|done]. cbn.
      by rewrite (proj2 (seqb_false k p)).
Qed.

(** ** Pods *)

Lemma find_ref_get l name : find_ref l name = pair name <$> map_get l name.
Proof.
  induction l as [|[k c] l IH]; [done|]. rewrite map_get_cons. cbn.
  destruct (seqb_spec k name) as [->|Hk]; [done|]. exact IH.
Qed.

Section input.
Variables (pods : list PodStatus) (names : list string).
Hypothesis all_found : Forall (fun n => is_Some (find_pod pods n)) names.

(** The container of a pod that is new in the choice. *)
Definition first_container (name : string) : option string := find_pod pods name ≫= fun pod => head (containerNames pod).
Definition container_of (subscribed : list PodRef) (name : string) : option string :=
  match map_get subscribed name with Some c => c | None => first_container name end.

Lemma choose_pods_ok subscribed :
  choose_pods pods subscribed names = Ok ((fun n => (n, container_of subscribed n)) <$> names).
Proof.
  induction all_found as [|n names' [pod Hpod] Hall IH]; [done|]. specialize (IH Hall). cbn [choose_pods fmap list_fmap].
  rewrite find_ref_get. unfold container_of, first_container in *.
  destruct (map_get subscribed n) as [c|]; cbn [fmap option_fmap option_map mbind result_bind].
  - by rewrite IH.
  - rewrite Hpod. cbn [mbind result_bind]. by rewrite IH.
Qed.

Definition new_messages (subscribed : list string) (o : LogOptions) (name : string) : list WsMessage :=
  if existsb (seqb name) subscribed then [] else [SubscribePod name (first_container name) (wire_options o)].

Lemma subscribe_new_ok subscribed value s :
  exists s' value', subscribe_new pods subscribed names value s = (s', Ok value') /\
    emits s s' (concat (new_messages subscribed (logOptions s) <$> names)).
Proof.
  revert value s. induction all_found as [|n names' [pod Hpod] Hall IH]; intros value s.
  { do 2 eexists. split; [reflexivity|apply emits_refl]. }
  specialize (IH Hall). cbn [subscribe_new fmap list_fmap concat]. rewrite Hpod. unfold new_messages at 1, first_container at 1. rewrite Hpod.
  destruct (existsb (seqb n) subscribed).
  - apply IH.
  - set (r := (n, head (containerNames pod))).
    destruct (IH (if seqb value.1 "" then r else value) (subscribe r None s)) as (s' & v' & He & Hem).
    exists s', v'. split; [exact He|]. pose proof (subscribe_emits r None s) as Hs.
    rewrite (em_options _ _ _ Hs) in Hem. exact (emits_trans _ _ _ _ _ Hs Hem).
Qed.

Lemma chosen_names subscribed p :
  map_get ((fun n => (n, container_of subscribed n)) <$> names) p =
    if bool_decide (p ∈ names) then Some (container_of subscribed p) else None.
Proof.
  clear all_found. induction names as [|n names' IH]; [done|]. cbn [fmap list_fmap]. rewrite map_get_cons, IH.
  destruct (seqb_spec n p) as [->|Hn].
  - by rewrite bool_decide_eq_true_2 by (by left).
  - assert (Hb : bool_decide (p ∈ names') = bool_decide (p ∈ n :: names')).
    { apply bool_decide_ext. rewrite elem_of_cons. split; [by right|]. by intros [->|]. }
    by rewrite Hb.
Qed.

Lemma effect_new subscribed o p v :
  effect (concat (new_messages subscribed o <$> names)) p v =
    if bool_decide (p ∈ names /\ p ∉ subscribed) then Some (first_container p, wire_options o) else v.
Proof.
  clear all_found. revert v. induction names as [|n names' IH]; intros v.
  { cbn. rewrite bool_decide_eq_false_2; [done|]. by intros [?%not_elem_of_nil _]. }
  cbn [fmap list_fmap concat]. rewrite effect_app, IH. unfold new_messages. rewrite existsb_seqb.
  destruct (decide (p ∈ names' /\ p ∉ subscribed)) as [Hin|Hin].
  - rewrite (bool_decide_eq_true_2 _ Hin), bool_decide_eq_true_2; [done|]. split; [right; apply Hin|apply Hin].
  - rewrite (bool_decide_eq_false_2 _ Hin). destruct (decide (n = p)) as [->|Hn].
    + destruct (decide (p ∈ subscribed)) as [Hs|Hs].
      * rewrite (bool_decide_eq_true_2 _ Hs). cbn. rewrite bool_decide_eq_false_2; [done|]. by intros [_ ?].
      * rewrite (bool_decide_eq_false_2 _ Hs). cbn. rewrite seqb_refl, bool_decide_eq_true_2; [done|]. split; [by left|done].
    + assert (Heq : effect (if bool_decide (n ∈ subscribed) then [] else [SubscribePod n (first_container n) (wire_options o)]) p v = v).
      { destruct (bool_decide (n ∈ subscribed)); [done|]. cbn. by rewrite (proj2 (seqb_false n p)). }
      rewrite Heq, bool_decide_eq_false_2; [done|]. intros [[->|?]%elem_of_cons ?]; naive_solver.
Qed.
End input.

Lemma effect_dropped (f : PodRef -> bool) pods p v :
  effect (concat ((fun r : PodRef => [UnsubscribePod r.1 r.2]) <$> List.filter f pods)) p v =
    if existsb (fun r => f r && seqb r.1 p) pods then None else v.
Proof.
  revert v. induction pods as [|[k c] pods IH]; intros v; [done|]. cbn [List.filter existsb].
  destruct (f (k, c)); cbn [fmap list_fmap concat andb fst]; [|apply IH].
  rewrite effect_app, IH. cbn. destruct (seqb k p); cbn; by destruct (existsb _ pods).
Qed.

Lemma existsb_dropped names pods p :
  existsb (fun r : PodRef => negb (existsb (seqb r.1) names) && seqb r.1 p) pods =
    bool_decide (p ∈ map_keys pods /\ p ∉ names).
Proof.
  induction pods as [|[k c] pods IH]; cbn [existsb fst].
  { symmetry. apply bool_decide_eq_false_2. by intros [?%not_elem_of_nil _]. }
  rewrite IH, existsb_seqb, <- bool_decide_not. change (map_keys ((k, c) :: pods)) with (k :: map_keys pods).
  destruct (seqb_spec k p) as [->|Hk].
  - rewrite Bool.andb_true_r. destruct (decide (p ∈ names)) as [Hn|Hn].
    + rewrite (bool_decide_eq_false_2 (~ p ∈ names)) by tauto. cbn. apply bool_decide_ext. tauto.
    + rewrite (bool_decide_eq_true_2 (~ p ∈ names)) by done. cbn. symmetry. apply bool_decide_eq_true_2. split; [by left|done].
  - rewrite Bool.andb_false_r. cbn. apply bool_decide_ext. rewrite elem_of_cons. naive_solver.
Qed.

Lemma input_chooses components names s :
  NoDup names -> Forall (fun n => is_Some (find_pod (getAllPods components) n)) names ->
  exists s' ms, onInputChange components names s = (s', Ok tt) /\ chooses s s' ms.
Proof.
  intros Hnd Hall. unfold onInputChange. set (pods := getAllPods components) in *.
  rewrite (choose_pods_ok pods names Hall). set (dropped := List.filter _ (subscribedPods s)).
  set (value := if existsb _ dropped then _ else _).
  pose proof (foldl_emits (fun s r => unsubscribe r s) (fun _ r => [UnsubscribePod r.1 r.2]) dropped s
    (fun s r => unsubscribe_emits r s)) as H1.
  set (s1 := foldl _ s dropped) in *.
  destruct (subscribe_new_ok pods names Hall (fst <$> subscribedPods s) value s1) as (s2 & v & -> & H2).
  rewrite (em_options _ _ _ H1) in H2. destruct (emits_trans _ _ _ _ _ H1 H2) as [Hv Hp Ho Hc Hq Hs].
  do 2 eexists. split; [reflexivity|]. split; cbn; [exact Hc|exact Hq|exact Hs| | |].
  - apply Forall_app. split; apply about_concat; [intros r; by repeat constructor|].
    intros n. unfold new_messages. destruct (existsb (seqb n) (subscribedPods s).*1); by repeat constructor.
  - intros _. unfold distinct, map_keys. rewrite <- list_fmap_compose. cbn. by rewrite list_fmap_id.
  - intros p Hd. unfold selection, chosen. cbn. rewrite Ho, (chosen_names pods names), effect_app, effect_new.
    subst dropped. rewrite effect_dropped, existsb_dropped. change (fst <$> subscribedPods s) with (map_keys (subscribedPods s)).
    pose proof (map_get_keys (subscribedPods s) p) as Hk. unfold container_of.
    destruct (decide (p ∈ names)) as [Hn|Hn].
    + rewrite (bool_decide_eq_true_2 _ Hn), (bool_decide_eq_false_2 (p ∈ map_keys _ /\ _)) by tauto.
      destruct (map_get (subscribedPods s) p) as [c|] eqn:E.
      * rewrite bool_decide_eq_false_2; [done|]. intros [_ []]. apply Hk. by eexists.
      * rewrite bool_decide_eq_true_2; [done|]. split; [done|]. intros [? ?]%Hk. done.
    + rewrite (bool_decide_eq_false_2 _ Hn), (bool_decide_eq_false_2 (p ∈ names /\ _)) by tauto.
      destruct (decide (p ∈ map_keys (subscribedPods s))) as [Hin|Hin].
      * by rewrite bool_decide_eq_true_2.
      * rewrite bool_decide_eq_false_2 by tauto.
        destruct (map_get (subscribedPods s) p) eqn:E; [|done]. destruct Hin. apply Hk. by eexists.
Qed.

(** ** The page and the server *)

Record World := mkWorld { w_page : LogStream; w_server : LogServer; w_ready : bool }.

(** The messages the page sent arrive in order. *)
Definition settle_page (grants : string -> bool) (accepts ready : bool) (v : LogServer) (s : LogStream) : World :=
  mkWorld (set_socket s (ls_open s) []) (receive_all grants accepts (ls_sent s) v) ready.

(** A connection whose request carried an identity is authorized from the start. *)
Definition new_connection (authorized : bool) : LogServer := mkLogServer authorized (fun _ => None) [].

(** The server tells the page that it is authorized. *)
Definition success (data : WsEvent) : bool :=
  match data with AuthResult status | AuthStatusIs status => (status =? 0)%Z | _ => false end.

(** While the socket is open and the page is not authorized yet, a change of the
    choice overtakes the messages that are still queued; [settled_queue] excludes it. *)
Definition settled_queue (w : World) : Prop :=
  ls_open (w_page w) = true -> w_ready w = false -> wsQueueMessages (w_page w) = [].

Section histories.
Variable grants : string -> bool.
Abbreviation settle_page := (settle_page grants).

(** The histories of a page: it is opened with an address, the socket opens and
    closes any number of times, the server answers and ends streams, and the user
    chooses pods that are there, another container, or other options, types into a
    shell or changes its size. *)
Inductive history : World -> Prop :=
| history_start components pods active : distinct (default [] pods) ->
    history (mkWorld (initFromQuery components pods active newLogStream) (new_connection false) false)
| history_open w authorized : history w -> ls_open (w_page w) = false ->
    history (settle_page false false (new_connection authorized) (onopen (set_socket (w_page w) true [])))
| history_close w : history w ->
    history (mkWorld (set_socket (w_page w) false []) (new_connection false) false)
| history_ended w p : history w ->
    history (mkWorld (w_page w) (end_stream p (w_server w)) (w_ready w))
| history_event w token impersonation data accepts : history w -> ls_open (w_page w) = true ->
    (success data = true -> srv_authorized (w_server w) = true) ->
    history (settle_page accepts (success data || w_ready w) (w_server w) (onmessage token impersonation data (w_page w)))
| history_pods w components names s : history w -> settled_queue w ->
    NoDup names -> Forall (fun n => is_Some (find_pod (getAllPods components) n)) names ->
    onInputChange components names (w_page w) = (s, Ok tt) ->
    history (settle_page false (w_ready w) (w_server w) s)
| history_container w x : history w -> settled_queue w ->
    history (settle_page false (w_ready w) (w_server w) (onInputContainerChange x (w_page w)))
| history_options w o : history w -> settled_queue w ->
    history (settle_page false (w_ready w) (w_server w) (onLogOptionsChange o (w_page w)))
| history_terminal w name present : history w ->
    history (mkWorld (saveTerminal name present (w_page w)) (w_server w) (w_ready w))
| history_typed w podName data : history w ->
    history (settle_page false (w_ready w) (w_server w) (terminalOnData podName data (w_page w)))
| history_resized w podName cols rows : history w ->
    history (settle_page false (w_ready w) (w_server w) (terminalOnResize podName cols rows (w_page w))).

(** The queue tells nothing but the choice, and the server streams nothing but
    the choice, all of it that it granted and that did not end once the page knows
    it is authorized. *)
Record in_step (w : World) : Prop := {
  step_distinct : distinct (subscribedPods (w_page w));
  step_sent : ls_sent (w_page w) = [];
  step_pods : Forall about_pod (wsQueueMessages (w_page w));
  step_queue p : effect (wsQueueMessages (w_page w)) p (selection (w_page w) p) = selection (w_page w) p;
  step_ready : w_ready w = true ->
    ls_open (w_page w) = true /\ srv_authorized (w_server w) = true /\ wsQueueMessages (w_page w) = [] /\
    forall p, grants p = true -> p ∉ srv_ended (w_server w) -> srv_streams (w_server w) p = selection (w_page w) p;
  step_refused p : grants p = false -> srv_streams (w_server w) p = None;
  step_closed p : ls_open (w_page w) = false -> srv_streams (w_server w) p = None;
  step_server p : srv_streams (w_server w) p = None \/
    srv_streams (w_server w) p = selection (w_page w) p /\ srv_authorized (w_server w) = true
}.

Lemma selection_socket s o l p : selection (set_socket s o l) p = selection s p.
Proof. done. Qed.

Lemma queue_step q ms p v v' : effect q p v = v -> v' = effect ms p v -> effect (q ++ ms) p v' = v'.
Proof.
  intros Hq ->. rewrite effect_app. destruct (effect_cases ms p) as [Hid|[w Hw]]; [by rewrite !Hid|by rewrite !Hw].
Qed.

(** What the server streams after messages that the choice [sel'] follows. *)
Lemma receive_choice ms v (sel sel' : string -> option session) p : Forall about_pod ms ->
  sel' p = effect ms p (sel p) -> (grants p = false -> srv_streams v p = None) ->
  srv_streams v p = None \/ srv_streams v p = sel p /\ srv_authorized v = true ->
  let v' := receive_all grants false ms v in
  srv_streams v' p = None \/ srv_streams v' p = sel' p /\ srv_authorized v' = true.
Proof.
  intros Hms Hsel Hg Hs. destruct (receive_pods grants false ms v Hms) as (Ha & _ & Hstr & Hnone). cbn. rewrite Ha.
  destruct (grants p) eqn:Hp; [|left; auto]. rewrite Hstr, Hsel by done.
  destruct Hs as [Hn|[Hn Hauth]].
  - destruct (srv_authorized v); [|by left]. rewrite Hn.
    destruct (effect_cases ms p) as [Hid|[x Hx]]; [left; apply Hid|right; by rewrite !Hx].
  - rewrite Hauth, Hn. by right.
Qed.

(** A change of the choice keeps the two in step. *)
Lemma chooses_in_step w s ms : in_step w -> settled_queue w -> chooses (w_page w) s ms ->
  in_step (settle_page false (w_ready w) (w_server w) s).
Proof.
  intros [Hd Hsent Hpods Hq Hr Hg Hc Hs] Hset [Co Cq Cs Cm Cd Csel].
  assert (Hsel : forall p, selection s p = effect ms p (selection (w_page w) p)) by (intros p; by apply Csel).
  assert (Hsent' : ls_sent s = if ls_open (w_page w) then ms else []) by (rewrite Cs, Hsent; by destruct (ls_open _)).
  destruct (receive_pods grants false ms (w_server w) Cm) as (Ha & He & Hstr & Hnone).
  unfold settle_page. rewrite Hsent'.
  destruct (ls_open (w_page w)) eqn:Ho;
    (split; cbn [w_page w_server w_ready set_socket subscribedPods ls_sent wsQueueMessages ls_open receive_all foldl];
     try setoid_rewrite selection_socket; try done).
  - by apply Cd.
  - by rewrite Cq.
  - intros p. rewrite Cq, Hsel. destruct (w_ready w) eqn:Hready; [by destruct (Hr eq_refl) as (_ & _ & -> & _)|].
    by rewrite (Hset Ho Hready).
  - intros Hready. destruct (Hr Hready) as (_ & Hauth & Hempty & Hall). change (foldl (receive grants false)) with (receive_all grants false). rewrite Ha, Cq. split_and!; try done.
    intros p Hp Hend. rewrite He in Hend. by rewrite Hstr, Hauth, Hsel, Hall.
  - intros p Hp. apply Hnone; auto.
  - intros p. by rewrite Co.
  - intros p. by apply (receive_choice ms _ (selection (w_page w))); auto.
  - by apply Cd.
  - rewrite Cq. by apply Forall_app.
  - intros p. rewrite Cq. eapply queue_step; [apply Hq|apply Hsel].
  - intros Hready. by destruct (Hr Hready).
  - intros p _. by apply Hc.
  - intros p. left. by apply Hc.
Qed.

(** The start of all streams, and the queue behind it. *)
Lemma success_emits s : ls_open s = true -> ls_sent s = [] -> distinct (subscribedPods s) ->
  Forall about_pod (wsQueueMessages s) ->
  exists ms, ls_sent (afterWsAuthSuccess s) = ms ++ wsQueueMessages s /\ Forall about_pod ms /\
    (forall p v, effect ms p v = match selection s p with Some w => Some w | None => v end) /\
    wsQueueMessages (afterWsAuthSuccess s) = [] /\ ls_open (afterWsAuthSuccess s) = true /\
    subscribedPods (afterWsAuthSuccess s) = subscribedPods s /\ logOptions (afterWsAuthSuccess s) = logOptions s.
Proof.
  intros Ho Hsent Hd Hq. unfold afterWsAuthSuccess.
  pose proof (foldl_emits (fun s pod => subscribe pod None s) (fun o r => [SubscribePod r.1 r.2 (wire_options o)])
    (subscribedPods s) s (fun s r => subscribe_emits r None s)) as [Hv Hp Hopt Hopen Hqueue Hs].
  set (s1 := foldl _ s (subscribedPods s)) in *. rewrite Ho in *.
  assert (Hsend : forall ms s, foldl (fun s m => ws_send m s) s ms = set_socket s (ls_open s) (ls_sent s ++ ms)).
  { induction ms as [|m ms IH]; intros s'; cbn; [by destruct s'; rewrite app_nil_r|]. rewrite IH. cbn.
    by rewrite <- (assoc_L (++)). }
  rewrite Hsend, Hqueue. cbn [set_queue set_socket ls_sent wsQueueMessages ls_open subscribedPods logOptions].
  exists (concat ((fun r : PodRef => [SubscribePod r.1 r.2 (wire_options (logOptions s))]) <$> subscribedPods s)).
  rewrite Hs, Hsent. split_and!; try done.
  - apply about_concat. intros r. by repeat constructor.
  - intros p v. rewrite (effect_restarts _ (wire_options (logOptions s))) by done. unfold selection, chosen.
    by destruct (map_get (subscribedPods s) p).
Qed.

(** A page that sends nothing and keeps the choice. *)
Lemma quiet_in_step w s accepts : in_step w -> emits (w_page w) s [] ->
  in_step (settle_page accepts (w_ready w) (w_server w) s).
Proof.
  intros [Hd Hsent Hpods Hq Hr Hg Hc Hs] [Ev Ep Eo Ec Eq Es].
  assert (Hsel : forall p, selection s p = selection (w_page w) p) by (intros p; unfold selection; by rewrite Ep, Eo).
  assert (Esent : ls_sent s = []) by (rewrite Es, Hsent; by destruct (ls_open _)).
  assert (Equeue : wsQueueMessages s = wsQueueMessages (w_page w)) by (rewrite Eq; destruct (ls_open _); by rewrite ?app_nil_r).
  unfold settle_page. rewrite Esent.
  split; cbn [w_page w_server w_ready set_socket subscribedPods ls_sent wsQueueMessages ls_open receive_all foldl];
    try setoid_rewrite selection_socket; try setoid_rewrite Hsel; rewrite ?Ep, ?Equeue, ?Ec; done.
Qed.

Lemma emits_keep s s' : ls_value s' = ls_value s -> subscribedPods s' = subscribedPods s -> logOptions s' = logOptions s ->
  ls_open s' = ls_open s -> wsQueueMessages s' = wsQueueMessages s -> ls_sent s' = ls_sent s -> emits s s' [].
Proof. intros. split; try done; destruct (ls_open s); by rewrite ?app_nil_r. Qed.

Lemma writeData_emits p text s : emits s (writeData p text s) [].
Proof. apply terminal_do_emits. Qed.

Lemma data_emits token impersonation data s : success data = false ->
  (forall status, data = AuthStatusIs status -> status <> -1)%Z -> emits s (onmessage token impersonation data s) [].
Proof.
  intros Hsucc Hno. destruct data as [p t|p t|p t|p t|status|status|k]; cbn [onmessage].
  - eapply (emits_trans _ _ _ [] []); [|apply writeData_emits]. unfold stamp_from.
    destruct (negb _); by apply emits_keep.
  - apply writeData_emits.
  - apply writeData_emits.
  - eapply (emits_trans _ _ _ [] []); [apply writeData_emits|apply terminal_do_emits].
  - cbn in Hsucc. rewrite Hsucc. apply emits_refl.
  - cbn in Hsucc. rewrite Hsucc. destruct (Z.eqb_spec status (-1)) as [->|_]; [by destruct (Hno (-1)%Z)|apply emits_refl].
  - apply emits_refl.
Qed.

Lemma success_in_step w accepts : in_step w -> ls_open (w_page w) = true -> srv_authorized (w_server w) = true ->
  in_step (settle_page accepts true (w_server w) (afterWsAuthSuccess (w_page w))).
Proof.
  intros [Hd Hsent Hpods Hq Hr Hg Hc Hs] Ho Hauth.
  destruct (success_emits (w_page w) Ho Hsent Hd Hpods) as (ms & Es & Hms & Heff & Eq & Eo & Ep & Eopt).
  set (s := afterWsAuthSuccess (w_page w)) in *.
  assert (Hsel : forall p, selection s p = selection (w_page w) p) by (intros p; unfold selection; by rewrite Ep, Eopt).
  assert (Hall : Forall about_pod (ms ++ wsQueueMessages (w_page w))) by by apply Forall_app.
  destruct (receive_pods grants accepts _ (w_server w) Hall) as (Ha & He & Hstr & Hnone). rewrite <- Es in *.
  assert (Hstreams : forall p, grants p = true -> srv_streams (receive_all grants accepts (ls_sent s) (w_server w)) p = selection s p).
  { intros p Hp. rewrite Hstr, Hauth, Es, effect_app, Heff, Hsel by done.
    transitivity (effect (wsQueueMessages (w_page w)) p (selection (w_page w) p)); [|apply Hq]. f_equal.
    destruct (selection (w_page w) p) eqn:E; [done|]. destruct (Hs p) as [->|[-> _]]; done. }
  unfold settle_page. split; cbn [w_page w_server w_ready set_socket subscribedPods ls_sent wsQueueMessages ls_open];
    try setoid_rewrite selection_socket; rewrite ?Ep, ?Eq, ?Eo, ?Ha; try done.
  - intros _. split_and!; try done. intros p Hp _. by apply Hstreams.
  - intros p Hp. apply Hnone; auto.
  - intros p. destruct (grants p) eqn:Hp; [right; by rewrite Hstreams|left; apply Hnone; auto].
Qed.

Lemma auth_in_step w token impersonation accepts : in_step w -> ls_open (w_page w) = true ->
  in_step (settle_page accepts (w_ready w) (w_server w) (ws_send (Auth token impersonation) (w_page w))).
Proof.
  intros [Hd Hsent Hpods Hq Hr Hg Hc Hs] Ho. unfold settle_page, ws_send. cbn [set_socket ls_sent ls_open]. rewrite Hsent.
  split; cbn [w_page w_server w_ready set_socket subscribedPods ls_sent wsQueueMessages ls_open receive_all foldl app receive srv_streams srv_authorized];
    try setoid_rewrite selection_socket; try done.
  - intros Hready. destruct (Hr Hready) as (? & -> & ? & ?). by split_and!.
  - intros p. destruct (Hs p) as [Hn|[Hn ->]]; [by left|by right].
Qed.

(** What is typed changes no stream, queued or not. *)
Lemma typed_in_step w m : in_step w -> about_pod m -> (forall p v, effect1 p v m = v) ->
  in_step (settle_page false (w_ready w) (w_server w) (sendOrQueueMessage m (w_page w))).
Proof.
  intros [Hd Hsent Hpods Hq Hr Hg Hc Hs] Hm Hid.
  destruct (receive_pods grants false [m] (w_server w)) as (Ha & He & Hstr & Hnone); [by constructor; [|constructor]|].
  assert (Hsame : forall p, srv_streams (receive_all grants false [m] (w_server w)) p = srv_streams (w_server w) p).
  { intros p. destruct (grants p) eqn:Hp; [|rewrite Hnone, Hg; auto]. rewrite Hstr by done. cbn. rewrite Hid. by destruct (srv_authorized _). }
  unfold sendOrQueueMessage, settle_page, ws_send. destruct (ls_open (w_page w)) eqn:Ho;
    cbn [negb set_queue set_socket ls_sent ls_open]; rewrite Hsent; cbn [app];
    (split; cbn [w_page w_server w_ready set_queue set_socket subscribedPods ls_sent wsQueueMessages ls_open];
     try setoid_rewrite selection_socket; try setoid_rewrite Hsame; rewrite ?Ha, ?He, ?Ho; try done).
  - apply Forall_app. by split; [|constructor; [|constructor]].
  - intros p. change (effect (wsQueueMessages (w_page w) ++ [m]) p (selection (w_page w) p) = selection (w_page w) p).
    eapply queue_step; [apply Hq|]. cbn. by rewrite Hid.
  - intros Hready. by destruct (Hr Hready).
Qed.

(** The end of a stream. *)
Lemma ended_in_step w p : in_step w -> in_step (mkWorld (w_page w) (end_stream p (w_server w)) (w_ready w)).
Proof.
  intros [Hd Hsent Hpods Hq Hr Hg Hc Hs]. split; cbn; try done.
  - intros Hready. destruct (Hr Hready) as (Ho & Ha & He & Hall). split_and!; try done.
    intros q Hq' [Hne Hend]%not_elem_of_cons. rewrite (proj2 (seqb_false p q)) by congruence. auto.
  - intros q Hq'. destruct (seqb p q); auto.
  - intros q Ho. destruct (seqb p q); auto.
  - intros q. destruct (seqb p q); auto.
Qed.

Lemma history_in_step w : history w -> in_step w.
Proof.
  induction 1 as [components pods active Hd|w authorized _ IH Ho|w _ IH|w p _ IH|w token imp data accepts _ IH Ho Hauth
    |w components names s _ IH Hset Hnd Hall He|w x _ IH Hset|w o _ IH Hset|w name present _ IH
    |w podName data _ IH|w podName cols rows _ IH].
  - assert (Hdist : distinct (subscribedPods (initFromQuery components pods active newLogStream))).
    { unfold initFromQuery. cbn [initalizedFromQuery newLogStream]. cbn. set (valid := List.filter _ _).
      assert (distinct valid) as Hv.
      { unfold distinct, map_keys in *. subst valid. clear -Hd. induction (default [] pods) as [|r l IH]; [apply NoDup_nil_2|].
        cbn in *. apply NoDup_cons in Hd as [Hr Hd]. destruct (existsb _ _); [|by apply IH]. cbn. apply NoDup_cons.
        split; [|by apply IH]. intros Hin. apply Hr. apply list_elem_of_fmap in Hin as (r' & -> & Hin).
        apply list_elem_of_In, filter_In in Hin as [Hin _]. apply list_elem_of_fmap_2, list_elem_of_In. exact Hin. }
      by destruct valid. }
    split; try done. intros p. by left.
  - destruct IH as [Hd Hsent Hpods Hq Hr Hg Hc Hs]. unfold settle_page, onopen, ws_send. cbn [set_socket ls_sent ls_open app].
    destruct authorized; (split; cbn; try done; intros p; by left).
  - destruct IH as [Hd Hsent Hpods Hq Hr Hg Hc Hs]. split; try done. intros p. by left.
  - by apply ended_in_step.
  - destruct (success data) eqn:Hsucc; cbn [orb].
    + assert (onmessage token imp data (w_page w) = afterWsAuthSuccess (w_page w)) as ->.
      { destruct data; try done; cbn in *; by rewrite Hsucc. }
      apply success_in_step; [done|done|by apply Hauth].
    + destruct (decide (data = AuthStatusIs (-1))) as [->|Hne]; [by apply auth_in_step|].
      apply quiet_in_step; [done|]. apply data_emits; [done|]. by intros status -> ->.
  - destruct (input_chooses components names (w_page w) Hnd Hall) as (s' & ms & He' & Hch).
    rewrite He in He'. injection He' as <-. by eapply chooses_in_step.
  - destruct (container_chooses x (w_page w)) as [ms Hch]. by eapply chooses_in_step.
  - destruct (options_chooses o (w_page w)) as [ms Hch]. by eapply chooses_in_step.
  - destruct IH as [Hd Hsent Hpods Hq Hr Hg Hc Hs]. by split.
  - by apply typed_in_step.
  - by apply typed_in_step.
Qed.

End histories.

(** ** Examples: a pod is chosen before the socket opens *)

Definition demo_container (name : string) : PodContainer := mkPodContainer name (num 0) true true (num 0).
Definition demo_log_pod (name : string) : PodStatus :=
  mkPodStatus name "" "" "" "" [] "" "" (num 0) (num 0) false (num 0) [demo_container "main"] [] (mkMetrics false [] []).
Definition demo_components (names : list string) : list ApplicationComponentDetails :=
  [mkComponentDetails newEmptyComponentLike (mkMetrics false [] []) (demo_log_pod <$> names) []
     (mkIstio None None None None None None None None)].

Definition opened : World := mkWorld (initFromQuery (demo_components ["web"]) None None newLogStream) (new_connection false) false.
Definition all_granted (p : string) : bool := true.
Definition choose (names : list string) (w : World) : World :=
  settle_page all_granted false (w_ready w) (w_server w) (onInputChange (demo_components ["web"]) names (w_page w)).1.
Definition connect (w : World) : World := settle_page all_granted false false (new_connection false) (onopen (set_socket (w_page w) true [])).
Definition tell (data : WsEvent) (w : World) : World :=
  settle_page all_granted true (success data || w_ready w) (w_server w) (onmessage "token" "" data (w_page w)).
Definition authorize (w : World) : World := tell (AuthResult 0) (tell (AuthStatusIs (-1)) w).

Lemma authorized_history : history all_granted (authorize (connect (choose ["web"] opened))).
Proof.
  apply history_event; [apply history_event; [|reflexivity|done]|reflexivity|reflexivity].
  apply history_open; [|reflexivity].
  eapply (history_pods all_granted opened (demo_components ["web"]) ["web"]).
  - apply history_start. apply NoDup_nil_2.
  - done.
  - apply NoDup_singleton.
  - repeat constructor. by eexists.
  - reflexivity.
Qed.


(** The choice is taken back after the socket opened and before the page is
    authorized: the message that starts the stream is still queued, is sent after
    the one that ends it, and the server streams a pod nobody chose. *)
Lemma queue_overtaken :
  let w := authorize (choose [] (connect (choose ["web"] opened))) in
  w_ready w = true /\ subscribedPods (w_page w) = [] /\
  srv_streams (w_server w) "web" = Some (Some "main", mkLogOptions 100 true true false).
Proof. split_and!; reflexivity. Qed.

(** A chosen pod has gone from the components: the handler of the next choice ends
    the other stream, throws, and leaves the old choice. *)
Lemma vanished_pod :
  let s := (onInputChange (demo_components ["web"; "job"]) ["web"; "job"] newLogStream).1 in
  let '(s', r) := onInputChange (demo_components ["web"]) ["job"] s in
  r = Throw missing_pod /\ subscribedPods s' = subscribedPods s /\
  wsQueueMessages s' = wsQueueMessages s ++ [UnsubscribePod "web" (Some "main")].
Proof. vm_compute. split_and!; reflexivity. Qed.
