(* ===== verification/Watch.v ===== *)
(** [hoc/withData.tsx]: what the dashboard loads when it starts, and how it
    turns the messages of the watch socket into actions of the store. *)

From S2P Require Import Prelude JsString JsNumber ResourceTypes ActionTypes AccessTokens ReducerUtils ResourceReducers UiReducers RootReducer SliceFacts RootFacts CasbinMiddleware Store ComponentForms Async Api Actions ActionFacts ThunkFacts.

(** ** Messages *)

(** The [kind] of a message with its [data]; the socket and the API agree on the
    type of each kind.  The data of a kind the handler does not know are never
    read. *)
Inductive WatchData :=
| WatchError (message : option string)
| WatchApplication (data : ApplicationDetails)
| WatchComponent (data : ApplicationComponentDetails)
| WatchHttpRoute (data : HttpRoute)
| WatchNode (data : Node)
| WatchHttpsCert (data : Certificate)
| WatchRegistry (data : Registry)
| WatchVolume (data : Disk)
| WatchSSO (data : SSOConfig)
| WatchProtectedEndpoint (data : ProtectedEndpoint)
| WatchDeployAccessToken (data : AccessToken)
| WatchService (data : Service)
| WatchRoleBinding (data : RoleBinding)
| WatchOther (kind : string).

Record WatchResMessage := mkWatchMessage {
  msg_namespace : string;
  msg_action : ResourceActionType;
  msg_data : WatchData
}.

(** What the client sends when the socket opens. *)
Record StartWatching := mkStartWatching {
  watch_method : string;
  watch_token : string;
  watch_impersonation : string
}.

Section watch.
Context {R : Type}.
Variables K8sApiPrefix K8sApiVersion : string.
Abbreviation thunk := (Async R).
Abbreviation api m := (m K8sApiPrefix K8sApiVersion) (only parsing).

Definition start_watching (authToken impersonation impersonationType : string) : StartWatching :=
  mkStartWatching "StartWatching" authToken (generateKalmImpersonnation impersonation impersonationType).

(** The thunks dispatched when the component mounts, in order; none is awaited. *)
Definition loadData (canEditActiveNamespace canViewCluster : bool) : list (thunk unit) :=
  [ api loadRoutesAction;
    api loadApplicationsAction ;; mret tt;
    api loadDeployAccessTokensAction;
    api loadProtectedEndpointAction ] ++
  (if canEditActiveNamespace || canViewCluster then [ api loadRegistriesAction ] else []) ++
  (if canViewCluster then
     [ api loadCertificatesAction;
       api loadCertificateIssuersAction;
       api loadCertificateAcmeServerAction;
       api loadSSOConfigAction;
       api loadNodesAction;
       api loadClusterInfoAction;
       api loadServicesAction "";
       api loadPersistentVolumesAction;
       api loadStorageClassesAction ]
   else []).

Definition reloadResouces (canViewCluster : bool) : list (thunk unit) :=
  if canViewCluster then [ api loadPersistentVolumesAction; api loadServicesAction "" ] else [].

(** The handler of a message; the result says whether it asked for the throttled
    reload of volumes and services. *)
Definition onmessage (data : WatchResMessage) : thunk bool :=
  let action := msg_action data in
  match msg_data data with
  | WatchError message => fire (setErrorNotificationAction message) ;; mret false
  | WatchApplication d => dispatch_ (ApplicationResourceAction action d) ;; mret false
  | WatchComponent d => dispatch_ (ComponentResourceAction action (msg_namespace data) d) ;; mret true
  | WatchHttpRoute d => dispatch_ (HttpRouteResourceAction action (msg_namespace data) d) ;; mret false
  | WatchNode d => dispatch_ (NodeResourceAction action d) ;; mret false
  | WatchHttpsCert d => dispatch_ (HttpsCertResourceAction action d) ;; mret false
  | WatchRegistry d => dispatch_ (RegistryResourceAction action d) ;; mret false
  | WatchVolume d => dispatch_ (VolumeResourceAction action d) ;; mret false
  | WatchSSO d => dispatch_ (SSOConfigResourceAction action d) ;; mret false
  | WatchProtectedEndpoint d => dispatch_ (ProtectedEndpointResourceAction action d) ;; mret false
  | WatchDeployAccessToken d =>
      dispatch_ (DeployAccessTokenResourceAction action (AccessTokenToDeployAccessToken d)) ;; mret false
  | WatchService d => dispatch_ (ServiceResourceAction action d) ;; mret false
  | WatchRoleBinding d => dispatch_ (RoleBindingResourceAction action d) ;; mret false
  | WatchOther _ => mret false
  end.

(** Messages are handled one after the other. *)
Fixpoint handle_messages (messages : list WatchResMessage) : thunk unit :=
  match messages with
  | [] => mret tt
  | message :: rest => onmessage message ;; handle_messages rest
  end.
End watch.

(** ** The store follows the socket *)

(** The change a message reports, if it reports one of the store's resources. *)
Definition reported (message : WatchResMessage) : option ResourceActions :=
  let action := msg_action message in
  match msg_data message with
  | WatchError _ | WatchOther _ | WatchSSO _ => None
  | WatchApplication d => Some (ApplicationResourceAction action d)
  | WatchComponent d => Some (ComponentResourceAction action (msg_namespace message) d)
  | WatchHttpRoute d => Some (HttpRouteResourceAction action (msg_namespace message) d)
  | WatchNode d => Some (NodeResourceAction action d)
  | WatchHttpsCert d => Some (HttpsCertResourceAction action d)
  | WatchRegistry d => Some (RegistryResourceAction action d)
  | WatchVolume d => Some (VolumeResourceAction action d)
  | WatchProtectedEndpoint d => Some (ProtectedEndpointResourceAction action d)
  | WatchDeployAccessToken d => Some (DeployAccessTokenResourceAction action (AccessTokenToDeployAccessToken d))
  | WatchService d => Some (ServiceResourceAction action d)
  | WatchRoleBinding d => Some (RoleBindingResourceAction action d)
  end.

(** The server's changes are announced in order, with what is there already announced
    again by a new connection; other messages come between.  Through all of it the
    namesakes are apart. *)
Inductive announces : ServerState -> list WatchResMessage -> ServerState -> Prop :=
| announces_nil v : announces v [] v
| announces_change v m ev v1 rest v2 : reported m = Some ev -> server_change v ev v1 -> namesakes_apart v1 -> announces v1 rest v2 ->
    announces v (m :: rest) v2
| announces_other v m rest v2 : reported m = None -> announces v rest v2 -> announces v (m :: rest) v2.

Section facts.
Context {R : Type}.
Variable connectRouter : R -> Actions -> R.
Variable call : FnRef -> Actions -> bool.
Variable b : Boot.
Variable pathname : string.
Abbreviation dashboard := (Dashboard R).
Abbreviation exec := (exec connectRouter call b pathname).
Implicit Types (d : dashboard).

(** The handler of a message that reports a change is one dispatch. *)
Lemma onmessage_reported m ev d tr d' x : reported m = Some ev -> exec (onmessage m) d tr d' x ->
  d' = after connectRouter call b d ev /\ is_Some (match x with Fulfilled r => Some r | Rejected _ => None end).
Proof.
  unfold reported, onmessage. intros Hm H.
  destruct (msg_data m); try done; injection Hm as <-;
    apply exec_bind in H as (t1 & d1 & y1 & t2 & -> & H1 & H2); apply exec_dispatch_ in H1 as (-> & -> & ->);
    try done; destruct H2 as (_ & -> & ->); by split.
Qed.

Lemma onmessage_other m d tr d' x v : reported m = None -> exec (onmessage m) d tr d' x ->
  store_holds v (dash_root d) -> store_holds v (dash_root d') /\
  is_Some (match x with Fulfilled r => Some r | Rejected _ => None end).
Proof.
  unfold reported, onmessage. intros Hm H Hv. destruct (msg_data m); try done.
  - apply exec_bind in H as (t1 & d1 & y1 & t2 & -> & H1 & H2).
    destruct H1 as (t3 & d3 & y3 & t4 & -> & H3 & -> & -> & ->). destruct H2 as (_ & -> & ->). split; [|done].
    apply exec_settle_with in H3 as (t5 & d5 & y5 & t6 & -> & H5 & -> & -> & ->).
    apply exec_try_catch in H5 as (t7 & d7 & y7 & t8 & -> & H7 & H8).
    apply exec_dispatch_ in H7 as (-> & -> & ->); [|done]. destruct H8 as (_ & -> & _).
    by eapply store_quiet, after_reduced.
  - apply exec_bind in H as (t1 & d1 & y1 & t2 & -> & H1 & H2).
    apply exec_dispatch_ in H1 as (-> & -> & ->); [|done]. destruct H2 as (_ & -> & ->). split; [|done].
    pose proof (after_reduced connectRouter call b d (SSOConfigResourceAction (msg_action m) data) eq_refl) as Hr.
    destruct Hr as [E1 E2 E3 E4 E5 E6 E7 E8 E9 E10 E11 _ _ _ _], Hv.
    split; rewrite ?E1, ?E2, ?E3, ?E4, ?E5, ?E6, ?E7, ?E8, ?E9, ?E10, ?E11; try done.
    by destruct (msg_action m).
  - destruct H as (_ & -> & ->). by split.
Qed.

Lemma messages_followed v messages v' d tr d' x :
  store_holds v (dash_root d) -> announces v messages v' ->
  exec (handle_messages messages) d tr d' x ->
  x = Fulfilled tt /\ store_holds v' (dash_root d').
Proof.
  intros Hv Ha. revert d tr Hv. induction Ha as [v|v m ev v1 rest v2 Hm Hc Hap _ IH|v m rest v2 Hm _ IH]; intros d tr Hv H.
  - destruct H as (_ & -> & ->). by split.
  - apply exec_bind in H as (t1 & d1 & y1 & t2 & -> & H1 & H2).
    destruct (onmessage_reported _ _ _ _ _ _ Hm H1) as [-> [r Hr]]. destruct y1 as [r1|]; [|done].
    apply (IH _ _) in H2; [done|]. eapply store_change; [done..|]. by apply after_reduced.
  - apply exec_bind in H as (t1 & d1 & y1 & t2 & -> & H1 & H2).
    destruct (onmessage_other _ _ _ _ _ v Hm H1 Hv) as [Hv1 [r Hr]]. destruct y1 as [r1|]; [|done].
    by apply (IH _ _) in H2.
Qed.

(** C3: The dashboard follows the watch socket.  If the store shows the server's
    resources and the socket announces the server's changes in order, the resources
    that are there already once more when it connects again, and errors, settings of
    the single sign-on and messages of unknown kinds in between, then the handlers
    never fail and the store shows the server's resources after the last message, as
    long as no two routes, volumes, services or role bindings of different namespaces
    share a name; access tokens arrive as rules and are shown as scopes. *)
Theorem watch_follows_server v messages v' d tr d' x :
  store_holds v (dash_root d) -> announces v messages v' ->
  exec (handle_messages messages) d tr d' x ->
  x = Fulfilled tt /\ store_holds v' (dash_root d').
Proof. apply messages_followed. Qed.
End facts.

(** ** What a lost connection leaves behind *)

(** A change that was missed is not made up for when the connection is back: the
    announcement of a resource the store has under that name is dropped for the kinds
    that keep what they have, as the nodes. *)
Lemma missed_update_stays s (d : Node) : isInArray (nodes s) d = true ->
  nodes (node_reducer s (NodeResourceAction RESOURCE_ACTION_ADD d)) = nodes s.
Proof. intros Hd. cbn. by rewrite Hd. Qed.

(** ** Witness: a service comes, an error is reported, the service changes *)

Definition demo_messages : list WatchResMessage :=
  [ mkWatchMessage "shop" RESOURCE_ACTION_ADD (WatchService (svc 80));
    mkWatchMessage "" RESOURCE_ACTION_ADD (WatchError (Some "connection lost"));
    mkWatchMessage "shop" RESOURCE_ACTION_ADD (WatchService (svc 80));
    mkWatchMessage "shop" RESOURCE_ACTION_UPDATE (WatchService (svc 8080)) ].

Lemma watch_follows_server_witness :
  exists d', demo_run (handle_messages demo_messages) = (d', Fulfilled tt) /\
    store_holds (with_services {[web_key := svc 8080]}) (dash_root d').
Proof.
  destruct (demo_execution (handle_messages demo_messages)) as [tr H].
  eexists. split; [reflexivity|].
  apply (watch_follows_server keep_router no_hooks boot_empty "/" server_empty demo_messages
    (with_services {[web_key := svc 8080]}) demo _ _ _ start_holds) in H; [exact (proj2 H)|].
  eapply announces_change; [reflexivity|apply (change_services server_empty _ _ {[web_key := svc 80]}), svc_added|apply apart_services, names_apart_one|].
  eapply announces_other; [reflexivity|].
  eapply announces_change; [reflexivity|apply (change_services _ _ _ {[web_key := svc 80]}), svc_replayed|apply apart_services, names_apart_one|].
  eapply announces_change; [reflexivity|apply (change_services _ _ _ {[web_key := svc 8080]}), svc_updated|apply apart_services, names_apart_one|apply announces_nil].
Defined.
