(* ===== verification/MockStore.v ===== *)
(** [api/mockStore.ts] and [api/mockApi/index.ts]: the server of the
    demonstration mode, kept in the browser.

    A type cast keeps the object it is applied to: where the code stores a form
    under the type of a resource, the model stores the form.  The local storage
    holds the JSON of the data, here the data themselves.  The arrays of the
    data are only changed through copies, but for the pods of a component, whose
    array [deletePod] changes in place.  [produce] freezes what it returns unless
    the build is a production build, and assigning a property of a frozen object
    is a [TypeError]. *)

From S2P Require Import Prelude JsString JsNumber ResourceTypes ActionTypes ReducerUtils ResourceReducers Watch.

(** ** Data *)

(** [registry as Registry] of a form. *)
Inductive RegistryEntry := FullRegistry (r : Registry) | FormRegistry (f : RegistryFormType).
#[export] Instance RegistryEntry_name : NameResource RegistryEntry := fun e =>
  match e with FullRegistry r => reg_name r | FormRegistry f => regForm_name f end.

(** A form is the resource with one more property. *)
Inductive CertificateEntry := FullCertificate (c : Certificate) | FormCertificate (f : CertificateFormType).
#[export] Instance CertificateEntry_name : NameResource CertificateEntry := fun e =>
  match e with FullCertificate c => cert_name c | FormCertificate f => cert_name (form_certificate f) end.

Inductive IssuerEntry := FullIssuer (i : CertificateIssuer) | FormIssuer (f : CertificateIssuerFormType).
#[export] Instance IssuerEntry_name : NameResource IssuerEntry := fun e =>
  match e with FullIssuer i => issuer_name i | FormIssuer f => issuer_name (issuerForm_issuer f) end.

Record MockStoreData := mkMockData {
  mockRegistries : list RegistryEntry;
  mockErrorPod : PodStatus;
  mockApplications : list ApplicationDetails;
  mockApplicationComponents : gmap string (list ApplicationComponentDetails);
  mockNodes : NodesListResponse;
  mockVolumes : list Disk;
  mockStorageClasses : list StorageClass;
  mockSimpleOptions : list VolumeOption;
  mockStatefulSetOptions : list VolumeOption;
  mockCertificates : list CertificateEntry;
  mockCertificateIssuers : list IssuerEntry;
  mockHttpRoutes : list HttpRoute;
  mockAcmeServer : AcmeServerInfo;
  mockSSO : SSOConfig;
  mockClusterInfo : ClusterInfo;
  mockLoginStatus : LoginStatus;
  mockServices : list Service
}.

Definition set_registries (d : MockStoreData) x := mkMockData x (mockErrorPod d) (mockApplications d) (mockApplicationComponents d) (mockNodes d) (mockVolumes d) (mockStorageClasses d) (mockSimpleOptions d) (mockStatefulSetOptions d) (mockCertificates d) (mockCertificateIssuers d) (mockHttpRoutes d) (mockAcmeServer d) (mockSSO d) (mockClusterInfo d) (mockLoginStatus d) (mockServices d).
Definition set_applications (d : MockStoreData) x := mkMockData (mockRegistries d) (mockErrorPod d) x (mockApplicationComponents d) (mockNodes d) (mockVolumes d) (mockStorageClasses d) (mockSimpleOptions d) (mockStatefulSetOptions d) (mockCertificates d) (mockCertificateIssuers d) (mockHttpRoutes d) (mockAcmeServer d) (mockSSO d) (mockClusterInfo d) (mockLoginStatus d) (mockServices d).
Definition set_applicationComponents (d : MockStoreData) x := mkMockData (mockRegistries d) (mockErrorPod d) (mockApplications d) x (mockNodes d) (mockVolumes d) (mockStorageClasses d) (mockSimpleOptions d) (mockStatefulSetOptions d) (mockCertificates d) (mockCertificateIssuers d) (mockHttpRoutes d) (mockAcmeServer d) (mockSSO d) (mockClusterInfo d) (mockLoginStatus d) (mockServices d).
Definition set_volumes (d : MockStoreData) x := mkMockData (mockRegistries d) (mockErrorPod d) (mockApplications d) (mockApplicationComponents d) (mockNodes d) x (mockStorageClasses d) (mockSimpleOptions d) (mockStatefulSetOptions d) (mockCertificates d) (mockCertificateIssuers d) (mockHttpRoutes d) (mockAcmeServer d) (mockSSO d) (mockClusterInfo d) (mockLoginStatus d) (mockServices d).
Definition set_certificates (d : MockStoreData) x := mkMockData (mockRegistries d) (mockErrorPod d) (mockApplications d) (mockApplicationComponents d) (mockNodes d) (mockVolumes d) (mockStorageClasses d) (mockSimpleOptions d) (mockStatefulSetOptions d) x (mockCertificateIssuers d) (mockHttpRoutes d) (mockAcmeServer d) (mockSSO d) (mockClusterInfo d) (mockLoginStatus d) (mockServices d).
Definition set_issuers (d : MockStoreData) x := mkMockData (mockRegistries d) (mockErrorPod d) (mockApplications d) (mockApplicationComponents d) (mockNodes d) (mockVolumes d) (mockStorageClasses d) (mockSimpleOptions d) (mockStatefulSetOptions d) (mockCertificates d) x (mockHttpRoutes d) (mockAcmeServer d) (mockSSO d) (mockClusterInfo d) (mockLoginStatus d) (mockServices d).
Definition set_routes (d : MockStoreData) x := mkMockData (mockRegistries d) (mockErrorPod d) (mockApplications d) (mockApplicationComponents d) (mockNodes d) (mockVolumes d) (mockStorageClasses d) (mockSimpleOptions d) (mockStatefulSetOptions d) (mockCertificates d) (mockCertificateIssuers d) x (mockAcmeServer d) (mockSSO d) (mockClusterInfo d) (mockLoginStatus d) (mockServices d).

(** The messages the mock store makes.  [data] is [undefined] when the element
    that is deleted is not there. *)
Inductive MockMessage :=
| ApplicationMessage (action : ResourceActionType) (data : option ApplicationDetails)
| ComponentMessage (namespace : string) (action : ResourceActionType) (data : option ApplicationComponentDetails)
| PodMessage (action : ResourceActionType) (data : PodStatus).

(** The message the handler of the dashboard parses; [JSON.stringify] leaves out
    an undefined property. *)
Definition delivered (m : MockMessage) : option WatchResMessage :=
  match m with
  | ApplicationMessage action data => mkWatchMessage "" action ∘ WatchApplication <$> data
  | ComponentMessage namespace action data => mkWatchMessage namespace action ∘ WatchComponent <$> data
  | PodMessage action _ => Some (mkWatchMessage "" action (WatchOther "Pod"))
  end.

(** [mock_cache] is the entry [CACHE_KEY] of the local storage, [mock_onmessage]
    says whether the page has set the handler, and [mock_sent] are the messages
    the handler was called with.  [mock_autoFreeze] is the setting of Immer, on in
    every build but production builds; [mock_frozen] says whether the object
    [this.data] is frozen. *)
Record MockStore := mkMockStore {
  mock_data : MockStoreData;
  mock_cache : option MockStoreData;
  mock_onmessage : bool;
  mock_sent : list MockMessage;
  mock_autoFreeze : bool;
  mock_frozen : bool
}.

Definition CACHE_KEY : string := "kubernetes-api-mock-data-v3".
Abbreviation MockM := (M MockStore).

(** A change of an object below [this.data]. *)
Definition change_data (d : MockStoreData) : MockM unit :=
  mmodify (fun s => mkMockStore d (mock_cache s) (mock_onmessage s) (mock_sent s) (mock_autoFreeze s) (mock_frozen s)).

(** [this.data.<property> = value] *)
Definition assign_data (d : MockStoreData) : MockM unit :=
  frozen ← mgets mock_frozen;
  if frozen : bool then mthrow "Cannot assign to read only property of object" else change_data d.

(** [this.data = produce(this.data, ...)] *)
Definition replace_data (d : MockStoreData) : MockM unit :=
  mmodify (fun s => mkMockStore d (mock_cache s) (mock_onmessage s) (mock_sent s) (mock_autoFreeze s) (mock_autoFreeze s)).

(** [new MockStore()] *)
Definition newMockStore (autoFreeze : bool) (initData : MockStoreData) (cache : option MockStoreData) : MockStore :=
  mkMockStore (default initData cache) cache false [] autoFreeze false.

Definition saveData (messageData : option MockMessage) : MockM unit :=
  mmodify (fun s =>
    mkMockStore (mock_data s) (Some (mock_data s)) (mock_onmessage s)
      (if mock_onmessage s then mock_sent s ++ option_list messageData else mock_sent s)
      (mock_autoFreeze s) (mock_frozen s)).

(** ** Operations of the store *)

Section arrays.
Context {T : Type} `{NameResource T}.

(** [arr.findIndex((x) => x.name === name)] *)
Definition index_of (arr : list T) (name : string) : option nat :=
  findIndex (fun x => seqb (resource_name x) name) arr.

(** [arr.splice(index, 1)]: the index -1 is the last element. *)
Definition splice_at (index : option nat) (arr : list T) : list T :=
  match index with Some i => splice1 i arr | None => take (length arr - 1) arr end.

(** [index >= 0 ? arr[index] = x : arr.push(x)] *)
Definition put_at (index : option nat) (x : T) (arr : list T) : list T :=
  match index with Some i => <[i := x]> arr | None => arr ++ [x] end.
End arrays.

Definition deleteRegistry (name : string) : MockM unit :=
  d ← mgets mock_data;
  let registries := mockRegistries d in
  assign_data (set_registries d
    (match index_of registries name with Some index => splice1 index registries | None => registries end)) ;;
  saveData None.

Definition updateRegistry (registry : RegistryFormType) : MockM unit :=
  d ← mgets mock_data;
  assign_data (set_registries d
    (put_at (index_of (mockRegistries d) (regForm_name registry)) (FormRegistry registry) (mockRegistries d))) ;;
  saveData None.

Definition deleteVolume (name : string) : MockM unit :=
  d ← mgets mock_data;
  assign_data (set_volumes d (splice_at (index_of (mockVolumes d) name) (mockVolumes d))) ;;
  saveData None.

(** The last component with a pod of the name, with the pod's index and the pod. *)
Fixpoint find_pod (name : string) (i : nat) (l : list ApplicationComponentDetails) : option (nat * nat * PodStatus) :=
  match l with
  | [] => None
  | component :: rest =>
      let this := j ← findIndex (fun c => seqb (pod_name c) name) (cd_pods component);
                  pod ← cd_pods component !! j; Some (i, j, pod) in
      match find_pod name (S i) rest with Some found => Some found | None => this end
  end.

Definition set_pods (c : ApplicationComponentDetails) (pods : list PodStatus) : ApplicationComponentDetails :=
  mkComponentDetails (cd_component c) (cd_metrics c) pods (cd_services c) (cd_istioMetricHistories c).

(** [frozen] says whether the array of pods is frozen: one that went through a
    [produce] of the list of components, or of a reducer.  All of the data are
    frozen when [this.data] is. *)
Definition deletePod (frozen : bool) (namespace name : string) : MockM unit :=
  d ← mgets mock_data;
  match mockApplicationComponents d !! namespace with
  | None => mret tt : MockM unit
  | Some l =>
      match find_pod name 0 l with
      | None => mret tt
      | Some (componentIndex, podIndex, pod) =>
          data_frozen ← mgets mock_frozen;
          if frozen || data_frozen then mthrow "Cannot delete property"
          else
            change_data (set_applicationComponents d
              (<[namespace := base.alter (fun c => set_pods c (splice1 podIndex (cd_pods c))) componentIndex l]>
                (mockApplicationComponents d))) ;;
            saveData (Some (PodMessage RESOURCE_ACTION_DELETE pod))
      end
  end.

Definition deleteCertificate (name : string) : MockM unit :=
  d ← mgets mock_data;
  assign_data (set_certificates d (splice_at (index_of (mockCertificates d) name) (mockCertificates d))) ;;
  saveData None.

Definition deleteHttpRoute (namespace name : string) : MockM unit :=
  d ← mgets mock_data;
  assign_data (set_routes d (splice_at (index_of (mockHttpRoutes d) name) (mockHttpRoutes d))) ;;
  saveData None.

Definition deleteApplication (name : string) : MockM unit :=
  d ← mgets mock_data;
  let index := index_of (mockApplications d) name in
  let application : option ApplicationDetails := i ← index; mockApplications d !! i in
  assign_data (set_applications d (splice_at index (mockApplications d))) ;;
  saveData (Some (ApplicationMessage RESOURCE_ACTION_DELETE application)).

Definition deleteApplicationComponent (applicationName name : string) : MockM unit :=
  d ← mgets mock_data;
  match mockApplicationComponents d !! applicationName with
  | None => mthrow "Cannot read property 'undefined' of undefined"
  | Some l =>
      let index := index_of l name in
      let component : option ApplicationComponentDetails := i ← index; l !! i in
      assign_data (set_applicationComponents d
        (<[applicationName := splice_at index l]> (mockApplicationComponents d))) ;;
      saveData (Some (ComponentMessage applicationName RESOURCE_ACTION_DELETE component))
  end.

Definition updateCertificate (certificate : CertificateFormType) : MockM unit :=
  d ← mgets mock_data;
  assign_data (set_certificates d
    (put_at (index_of (mockCertificates d) (cert_name (form_certificate certificate))) (FormCertificate certificate)
      (mockCertificates d))) ;;
  saveData None.

Definition updateCertificateIssuer (certificateIssuer : CertificateIssuerFormType) : MockM unit :=
  d ← mgets mock_data;
  assign_data (set_issuers d
    (put_at (index_of (mockCertificateIssuers d) (issuer_name (issuerForm_issuer certificateIssuer)))
      (FormIssuer certificateIssuer) (mockCertificateIssuers d))) ;;
  saveData None.

Definition updateHttpRoute (namespace : string) (httpRoute : HttpRoute) : MockM unit :=
  d ← mgets mock_data;
  assign_data (set_routes d
    (put_at (index_of (mockHttpRoutes d) (route_name httpRoute)) httpRoute (mockHttpRoutes d))) ;;
  saveData None.

Definition updateApplication (application : ApplicationDetails) : MockM unit :=
  d ← mgets mock_data;
  let index := index_of (mockApplications d) (app_name application) in
  replace_data (set_applications d (put_at index application (mockApplications d))) ;;
  saveData (Some (ApplicationMessage (if index is Some _ then RESOURCE_ACTION_UPDATE else RESOURCE_ACTION_ADD) (Some application))).

Definition updateApplicationComponent (applicationName : string) (component : ApplicationComponentDetails) : MockM unit :=
  d ← mgets mock_data;
  let l := mockApplicationComponents d !! applicationName in
  let index : option nat := l ← l; index_of l (resource_name component) in
  let l' := match l with
            | Some l => put_at index component l
            | None => [component]
            end in
  replace_data (set_applicationComponents d (<[applicationName := l']> (mockApplicationComponents d))) ;;
  saveData (Some (ComponentMessage applicationName
    (if index is Some _ then RESOURCE_ACTION_UPDATE else RESOURCE_ACTION_ADD) (Some component))).

(** ** The API of the demonstration mode

    The methods that only read the data return a part of them; those that stand
    for services the demonstration has not return a constant. *)

Abbreviation reads f := (mgets (fun s => f (mock_data s))).

Definition MockApi_getClusterInfo : MockM ClusterInfo := reads mockClusterInfo.
Definition MockApi_getLoginStatus : MockM LoginStatus := reads mockLoginStatus.
Definition MockApi_validateToken (token : string) : MockM bool := mret true.
Definition MockApi_getNodes : MockM NodesListResponse := reads mockNodes.
(** [undefined] when there is no node. *)
Definition MockApi_cordonNode : MockM (option Node) := reads (fun d => nodesList_nodes (mockNodes d) !! 0).
Definition MockApi_uncordonNode : MockM (option Node) := reads (fun d => nodesList_nodes (mockNodes d) !! 0).
Definition MockApi_getPersistentVolumes : MockM (list Disk) := reads mockVolumes.
Definition MockApi_getStorageClasses : MockM (list StorageClass) := reads mockStorageClasses.
Definition MockApi_getSimpleOptions (namespace : string) : MockM (list VolumeOption) := reads mockSimpleOptions.
Definition MockApi_getStatefulSetOptions (namespace : string) : MockM (list VolumeOption) := reads mockStatefulSetOptions.
Definition MockApi_getRegistries : MockM (list RegistryEntry) := reads mockRegistries.
Definition MockApi_getApplicationList : MockM (list ApplicationDetails) := reads mockApplications.

(** [arr.find((x) => x.name === name)] *)
Definition find_named {T} `{NameResource T} (name : string) (arr : list T) : option T :=
  index ← index_of arr name; arr !! index.

Definition MockApi_getApplication (name : string) : MockM (option ApplicationDetails) :=
  reads (fun d => find_named name (mockApplications d)).
Definition MockApi_getApplicationComponentList (applicationName : string) : MockM (option (list ApplicationComponentDetails)) :=
  reads (fun d => mockApplicationComponents d !! applicationName).
Definition MockApi_getApplicationComponent (applicationName name : string) : MockM (option ApplicationComponentDetails) :=
  d ← mgets mock_data;
  match mockApplicationComponents d !! applicationName with
  | None => mthrow "Cannot read property 'find' of undefined"
  | Some l => mret (find_named name l)
  end.
Definition MockApi_getHttpRoutes : MockM (list HttpRoute) := reads mockHttpRoutes.

Definition MockApi_createHttpRoute (httpRoute : HttpRoute) : MockM HttpRoute :=
  updateHttpRoute (route_namespace httpRoute) httpRoute ;; mret httpRoute.
Definition MockApi_updateHttpRoute (httpRoute : HttpRoute) : MockM HttpRoute :=
  updateHttpRoute (route_namespace httpRoute) httpRoute ;; mret httpRoute.
Definition MockApi_deleteHttpRoute (httpRoute : HttpRoute) : MockM bool :=
  deleteHttpRoute (route_namespace httpRoute) (route_name httpRoute) ;; mret true.

Definition MockApi_getCertificateList : MockM (list CertificateEntry) := reads mockCertificates.
Definition MockApi_getCertificateIssuerList : MockM (list IssuerEntry) := reads mockCertificateIssuers.
Definition MockApi_createCertificate (certificate : CertificateFormType) : MockM CertificateFormType :=
  updateCertificate certificate ;; mret certificate.
Definition MockApi_createCertificateIssuer (certificateIssuer : CertificateIssuerFormType) : MockM CertificateIssuerFormType :=
  updateCertificateIssuer certificateIssuer ;; mret certificateIssuer.

(** The argument is the object at run time, whose properties are overwritten:
    [frozen] says whether it is frozen. *)
Definition MockApi_createApplication (frozen : bool) (application : ApplicationDetails) : MockM ApplicationDetails :=
  if frozen then mthrow "Cannot assign to read only property 'metrics' of object" else
  let applicationDetails :=
    mkApplication (app_name application) (Some (mkIstio None None None None None None None None)) "Active"
      (mkMetrics true [] []) ["writer"; "reader"] in
  updateApplication applicationDetails ;; mret applicationDetails.

Definition MockApi_createApplicationComponent (frozen : bool) (applicationName : string) (component : ApplicationComponentDetails)
    : MockM ApplicationComponentDetails :=
  if frozen then mthrow "Cannot assign to read only property 'metrics' of object" else
  mockErrorPod ← reads mockErrorPod;
  let componentDetails :=
    mkComponentDetails (cd_component component) (mkMetrics true [] []) [mockErrorPod] []
      (cd_istioMetricHistories component) in
  updateApplicationComponent applicationName componentDetails ;; mret componentDetails.

Definition MockApi_createRegistry (registry : RegistryFormType) : MockM RegistryFormType :=
  updateRegistry registry ;; mret registry.
Definition MockApi_createRoleBinding (roleBinding : RoleBinding) : MockM unit := mret tt.
Definition MockApi_updateRoleBinding (roleBinding : RoleBinding) : MockM unit := mret tt.
Definition MockApi_deleteCertificate (name : string) : MockM unit := deleteCertificate name.
Definition MockApi_deleteApplication (name : string) : MockM unit := deleteApplication name.
Definition MockApi_deleteApplicationComponent (applicationName name : string) : MockM unit :=
  deleteApplicationComponent applicationName name.
Definition MockApi_loadServices (name : string) : MockM (list Service) := reads mockServices.
(** Declared with the name alone: the first argument of the callers, the
    namespace, is taken for the name. *)
Definition MockApi_deletePersistentVolume (name : string) : MockM unit := deleteVolume name.
Definition MockApi_deletePod (frozen : bool) (namespace name : string) : MockM unit := deletePod frozen namespace name.
Definition MockApi_deleteRegistry (name : string) : MockM unit := deleteRegistry name.
Definition MockApi_deleteRoleBinding (namespace bindingName : string) : MockM unit := mret tt.
Definition MockApi_getRegistry (name : string) : MockM (option RegistryEntry) :=
  reads (fun d => find_named name (mockRegistries d)).
Definition MockApi_loadRoleBindings : MockM (list RoleBinding) := mret [].
Definition MockApi_getServiceAccountSecret (name : string) : MockM string := mret "".

(** The argument is the object at run time. *)
Definition MockApi_updateApplication (application : ApplicationDetails) : MockM ApplicationDetails :=
  updateApplication application ;; mret application.
Definition MockApi_updateApplicationComponent (applicationName : string) (component : ApplicationComponentDetails)
    : MockM ApplicationComponentDetails :=
  updateApplicationComponent applicationName component ;; mret component.
Definition MockApi_updateRegistry (registry : RegistryFormType) : MockM RegistryFormType :=
  updateRegistry registry ;; mret registry.

Definition MockApi_getSSOConfig : MockM SSOConfig := reads mockSSO.
Definition MockApi_deleteSSOConfig : MockM unit := mret tt.
Definition MockApi_listProtectedEndpoints : MockM (list ProtectedEndpoint) := mret [].
Definition MockApi_deleteProtectedEndpoint (protectedEndpoint : ProtectedEndpoint) : MockM unit := mret tt.
Definition MockApi_listDeployAccessTokens : MockM (list DeployAccessToken) := mret [].
Definition MockApi_deleteDeployAccessToken (protectedEndpoint : DeployAccessToken) : MockM unit := mret tt.
Definition MockApi_resolveDomain (domain type : string) (timeout : Z) : MockM (list string) := mret ["1.1.1.1"].
Definition MockApi_createAcmeServer (acmeServer : AcmeServerFormType) : MockM AcmeServerInfo := reads mockAcmeServer.
Definition MockApi_deleteAcmeServer (acmeServer : AcmeServerFormType) : MockM unit := mret tt.
Definition MockApi_editAcmeServer (acmeServer : AcmeServerFormType) : MockM unit := mret tt.
Definition MockApi_getAcmeServer : MockM AcmeServerInfo := reads mockAcmeServer.
