(* ===== verification/MockFacts.v ===== *)
(** The demonstration mode: the mock store announces its changes the way the
    server does, so the dashboard follows it, and a page that is loaded again
    finds the data it left; in a development build the frozen data refuse most
    changes. *)

From S2P Require Import Prelude JsString JsNumber ResourceTypes ActionTypes ReducerUtils ResourceReducers UiReducers RootReducer SliceFacts RootFacts CasbinMiddleware Store Async Actions ActionFacts ThunkFacts Watch MockStore.

(** ** Arrays *)

Section arrays.
Context {T : Type} `{NameResource T}.
Implicit Types (arr : list T) (x : T).

Lemma index_of_Some arr name i : index_of arr name = Some i ->
  exists x, arr !! i = Some x /\ resource_name x = name.
Proof. apply (findIndex_key_Some resource_name), recognizes_name. Qed.

Lemma index_of_is_Some arr name : is_Some (index_of arr name) <-> is_Some (names arr !! name).
Proof.
  unfold index_of, names. rewrite table_is_Some.
  pose proof (findIndex_key_None resource_name _ _ arr (recognizes_name name)) as Hn.
  rewrite <- not_eq_None_Some, Hn. split; [|tauto]. intros ?. by apply dec_stable.
Qed.

Lemma put_at_names arr x : unique_names arr ->
  names (put_at (index_of arr (resource_name x)) x arr) = <[resource_name x := x]> (names arr) /\
  unique_names (put_at (index_of arr (resource_name x)) x arr).
Proof. apply (put_table resource_name), recognizes_name. Qed.

Lemma splice_at_names arr name : unique_names arr -> is_Some (index_of arr name) ->
  names (splice_at (index_of arr name) arr) = delete name (names arr) /\
  unique_names (splice_at (index_of arr name) arr).
Proof.
  intros Hnd [i Hi]. rewrite Hi. cbn. destruct (index_of_Some _ _ _ Hi) as (x & Hx & <-).
  by apply table_splice.
Qed.
End arrays.

#[local] Arguments index_of : simpl never.

(** ** What the mock store serves *)

Definition component_state (d : MockStoreData) : ComponentState :=
  set_components component_initialState (mockApplicationComponents d).

(** The resources of the data that are announced. *)
Record serves (d : MockStoreData) (v : ServerState) : Prop := {
  serves_applications : array_holds (mockApplications d) (srv_applications v);
  serves_components : components_hold (component_state d) (srv_components v)
}.

(** Two versions of the data with the same applications and components. *)
Lemma serves_same d d' v : serves d v ->
  mockApplications d' = mockApplications d -> mockApplicationComponents d' = mockApplicationComponents d -> serves d' v.
Proof. intros [Ha Hc] Ea Ec. split; [by rewrite Ea | unfold component_state; by rewrite Ec]. Qed.

Definition with_applications (v : ServerState) m : ServerState :=
  mkServer (srv_nodes v) m (srv_components v) (srv_httpRoutes v) (srv_certificates v) (srv_registries v) (srv_volumes v) (srv_endpoints v) (srv_tokens v) (srv_services v) (srv_roleBindings v).
Definition with_components (v : ServerState) m : ServerState :=
  mkServer (srv_nodes v) (srv_applications v) m (srv_httpRoutes v) (srv_certificates v) (srv_registries v) (srv_volumes v) (srv_endpoints v) (srv_tokens v) (srv_services v) (srv_roleBindings v).

(** [m] is a message that announces a change of the server from [v] to [v']. *)
Definition announcement (v : ServerState) (m : MockMessage) (v' : ServerState) : Prop :=
  exists w ev, delivered m = Some w /\ reported w = Some ev /\ server_change v ev v'.

Lemma put_application_announced d v a :
  serves d v -> namesakes_apart v -> application_valid a ->
  let index := index_of (mockApplications d) (app_name a) in
  exists v', serves (set_applications d (put_at index a (mockApplications d))) v' /\ namesakes_apart v' /\
    announcement v (ApplicationMessage (if index is Some _ then RESOURCE_ACTION_UPDATE else RESOURCE_ACTION_ADD) (Some a)) v'.
Proof.
  intros [[Hu Hn] Hc] Hv Ha index. exists (with_applications v (<[app_name a := a]> (srv_applications v))).
  split; [split; [|exact Hc]|split; [exact Hv|]].
  - cbn. rewrite <- Hn. apply and_comm. by apply put_at_names.
  - do 2 eexists. split; [reflexivity|]. split; [reflexivity|]. apply change_applications.
    pose proof (index_of_is_Some (mockApplications d) (app_name a)) as Hi. rewrite Hn in Hi. fold index in Hi.
    destruct index as [i|]; constructor; try done.
    + by apply Hi; eexists.
    + apply eq_None_not_Some. rewrite <- Hi. by intros [? ?].
Qed.

Lemma delete_application_announced d v name i a :
  serves d v -> namesakes_apart v -> index_of (mockApplications d) name = Some i -> mockApplications d !! i = Some a ->
  exists v', serves (set_applications d (splice1 i (mockApplications d))) v' /\ namesakes_apart v' /\
    announcement v (ApplicationMessage RESOURCE_ACTION_DELETE (Some a)) v'.
Proof.
  intros [[Hu Hn] Hc] Hv Hi Ha. destruct (index_of_Some _ _ _ Hi) as (x & Hx & Hname). simplify_eq.
  exists (with_applications v (delete (app_name a) (srv_applications v))). split; [split; [|exact Hc]|split; [exact Hv|]].
  - cbn. rewrite <- Hn. apply and_comm. by apply table_splice.
  - do 2 eexists. split; [reflexivity|]. split; [reflexivity|]. apply change_applications. constructor.
    rewrite <- Hn. apply index_of_is_Some. by eexists.
Qed.

(** Replacing the list of one application. *)
Lemma set_list_holds d m name l m' :
  components_hold (component_state d) m -> unique_names l ->
  (forall ns n, m' !! (ns, n) = if decide (name = ns) then pair ns <$> names l !! n else m !! (ns, n)) ->
  components_hold (component_state (set_applicationComponents d (<[name := l]> (mockApplicationComponents d)))) m'.
Proof.
  intros [Hu Hm] Hl Hm'. split; [exact (set_components_unique (component_state d) name l Hu Hl)|].
  intros ns n. rewrite Hm', Hm. etransitivity;
    [|symmetry; exact (f_equal (fmap (pair ns)) (component_at_set (component_state d) name l ns n))].
  by case_decide.
Qed.

Lemma put_component_announced d v name c :
  serves d v -> namesakes_apart v ->
  let l := mockApplicationComponents d !! name in
  let index : option nat := l ← l; index_of l (resource_name c) in
  let l' := match l with Some l => put_at index c l | None => [c] end in
  exists v', serves (set_applicationComponents d (<[name := l']> (mockApplicationComponents d))) v' /\ namesakes_apart v' /\
    announcement v (ComponentMessage name (if index is Some _ then RESOURCE_ACTION_UPDATE else RESOURCE_ACTION_ADD) (Some c)) v'.
Proof.
  intros [Ha Hc] Hv l index l'. exists (with_components v (<[(name, resource_name c) := (name, c)]> (srv_components v))).
  assert (Hat : forall n, srv_components v !! (name, n) = pair name <$> (l ≫= fun l => names l !! n)) by apply Hc.
  assert (Hl' : unique_names l' /\ names l' = <[resource_name c := c]> (default ∅ (names <$> l))).
  { destruct l as [l0|] eqn:El; cbn; [|split; [apply NoDup_singleton|done]]. apply and_comm, put_at_names.
    by apply (proj1 Hc name). }
  split; [split; [exact Ha|]|split; [exact Hv|]].
  - eapply set_list_holds; [exact Hc|apply Hl'|]. intros ns n. cbn. rewrite (proj2 Hl'), lookup_insert.
    destruct (decide (name = ns)) as [<-|Hns]; [|by rewrite decide_False by congruence].
    rewrite lookup_insert. destruct (decide (resource_name c = n)) as [<-|Hn]; [by rewrite decide_True|].
    rewrite decide_False by congruence. rewrite Hat. by destruct l; cbn; rewrite ?lookup_empty.
  - do 2 eexists. split; [reflexivity|]. split; [reflexivity|]. apply (change_components v _ (name, c)).
    assert (Hi : is_Some index <-> is_Some (srv_components v !! (name, resource_name c))).
    { rewrite Hat, fmap_is_Some. subst index. destruct l as [l0|]; cbn; [apply index_of_is_Some|done]. }
    destruct index as [i|]; constructor; try done.
    + by apply Hi; eexists.
    + apply eq_None_not_Some. unfold component_key. cbn. rewrite <- Hi. by intros [? ?].
Qed.

Lemma delete_component_announced d v name l n i c :
  serves d v -> namesakes_apart v -> mockApplicationComponents d !! name = Some l -> index_of l n = Some i -> l !! i = Some c ->
  exists v', serves (set_applicationComponents d (<[name := splice1 i l]> (mockApplicationComponents d))) v' /\ namesakes_apart v' /\
    announcement v (ComponentMessage name RESOURCE_ACTION_DELETE (Some c)) v'.
Proof.
  intros [Ha Hc] Hv Hl Hi Hx. destruct (index_of_Some _ _ _ Hi) as (x & Hx' & Hn). simplify_eq.
  assert (Hu : unique_names l) by by apply (proj1 Hc name).
  destruct (table_splice resource_name l i c Hu Hx) as [Ht Hu'].
  assert (Hat : forall n, srv_components v !! (name, n) = pair name <$> names l !! n).
  { intros n. rewrite (proj2 Hc). unfold component_at. cbn. by rewrite Hl. }
  exists (with_components v (delete (name, resource_name c) (srv_components v))). split; [split; [exact Ha|]|split; [exact Hv|]].
  - eapply set_list_holds; [exact Hc|exact Hu'|]. intros ns n. cbn. unfold names. rewrite Ht, !lookup_delete.
    destruct (decide (name = ns)) as [<-|Hns]; [|by rewrite decide_False by congruence].
    destruct (decide (resource_name c = n)) as [<-|Hne]; [by rewrite decide_True|].
    rewrite decide_False by congruence. apply Hat.
  - do 2 eexists. split; [reflexivity|]. split; [reflexivity|]. apply (change_components v _ (name, c)). constructor.
    unfold component_key. cbn. rewrite Hat, fmap_is_Some. apply index_of_is_Some. by eexists.
Qed.

(** ** Operations *)

(** The operations of the API that change the data, but for the deletion of a pod,
    whose message the handler does not know. *)
Inductive MockOp :=
| CreateApplication (a : ApplicationDetails)
| UpdateApplication (a : ApplicationDetails)
| DeleteApplication (name : string)
| CreateComponent (applicationName : string) (c : ApplicationComponentDetails)
| UpdateComponent (applicationName : string) (c : ApplicationComponentDetails)
| DeleteComponent (applicationName name : string)
| PutRoute (r : HttpRoute)
| DeleteRoute (r : HttpRoute)
| CreateCertificate (c : CertificateFormType)
| CreateIssuer (i : CertificateIssuerFormType)
| DeleteCertificate (name : string)
| PutRegistry (r : RegistryFormType)
| DeleteRegistry (name : string)
| DeleteVolume (name : string).

(** The component of the form is a result of [produce]. *)
Definition perform (op : MockOp) : MockM unit :=
  match op with
  | CreateApplication a => MockApi_createApplication false a ;; mret tt
  | UpdateApplication a => MockApi_updateApplication a ;; mret tt
  | DeleteApplication name => MockApi_deleteApplication name
  | CreateComponent app c =>
      autoFreeze ← mgets mock_autoFreeze; MockApi_createApplicationComponent autoFreeze app c ;; mret tt
  | UpdateComponent app c => MockApi_updateApplicationComponent app c ;; mret tt
  | DeleteComponent app name => MockApi_deleteApplicationComponent app name
  | PutRoute r => MockApi_updateHttpRoute r ;; mret tt
  | DeleteRoute r => MockApi_deleteHttpRoute r ;; mret tt
  | CreateCertificate c => MockApi_createCertificate c ;; mret tt
  | CreateIssuer i => MockApi_createCertificateIssuer i ;; mret tt
  | DeleteCertificate name => MockApi_deleteCertificate name
  | PutRegistry r => MockApi_updateRegistry r ;; mret tt
  | DeleteRegistry name => MockApi_deleteRegistry name
  | DeleteVolume name => MockApi_deletePersistentVolume name
  end.

(** Whether an operation writes an application or a component, which replaces
    [this.data], or assigns a property of it. *)
Definition replaces (op : MockOp) : bool :=
  match op with CreateApplication _ | UpdateApplication _ | CreateComponent _ _ | UpdateComponent _ _ => true | _ => false end.

(** What is deleted is there, and an updated application has one of the two
    states of an application. *)
Definition op_ok (d : MockStoreData) (op : MockOp) : Prop :=
  match op with
  | UpdateApplication a => application_valid a
  | DeleteApplication name => is_Some (index_of (mockApplications d) name)
  | DeleteComponent app name => is_Some (l ← mockApplicationComponents d !! app; index_of l name)
  | _ => True
  end.

(** The operation fails on no frozen object. *)
Definition not_refused (st : MockStore) (op : MockOp) : Prop :=
  match op with
  | CreateComponent _ _ => mock_autoFreeze st = false
  | _ => replaces op = true \/ mock_frozen st = false
  end.

Inductive possible : MockStore -> list MockOp -> Prop :=
| possible_nil st : possible st []
| possible_cons st op ops : op_ok (mock_data st) op -> not_refused st op ->
    (forall st', perform op st = Ok (tt, st') -> possible st' ops) -> possible st (op :: ops).

(** The store after its data became [d] and the messages [sent] were handled. *)
Definition saved (st : MockStore) (op : MockOp) (d : MockStoreData) (sent : list MockMessage) : MockStore :=
  mkMockStore d (Some d) true (mock_sent st ++ sent) (mock_autoFreeze st)
    (if replaces op then mock_autoFreeze st else mock_frozen st).

Ltac unfold_op :=
  unfold perform, MockApi_deleteApplication, deleteApplication, MockApi_deleteApplicationComponent,
    deleteApplicationComponent, MockApi_deleteRegistry, deleteRegistry, assign_data, change_data, replace_data, saveData, mgets, mmodify, mbind, M_bind, option_bind; cbn.

Lemma perform_announced st op v :
  mock_onmessage st = true -> serves (mock_data st) v -> namesakes_apart v ->
  op_ok (mock_data st) op -> not_refused st op ->
  exists d sent v', perform op st = Ok (tt, saved st op d sent) /\ serves d v' /\ namesakes_apart v' /\
    announces v (omap delivered sent) v'.
Proof.
  destruct st as [d cache on sent0 af fr]. cbn [mock_onmessage mock_data]. intros -> Hs Hv Hok Hnr.
  set (st := mkMockStore d cache true sent0 af fr).
  assert (Hone : forall d' m fr', (exists v', serves d' v' /\ namesakes_apart v' /\ announcement v m v') ->
    fr' = (if replaces op then af else fr) ->
    exists d1 sent v', Ok (tt, mkMockStore d' (Some d') true (sent0 ++ [m]) af fr') = Ok (tt, saved st op d1 sent) /\
      serves d1 v' /\ namesakes_apart v' /\ announces v (omap delivered sent) v').
  { intros d' m fr' (v' & Hs' & Hv' & w & ev & Hw & Hr & Hc) ->. exists d', [m], v'. do 3 (split; [done|]).
    cbn. rewrite Hw. eapply announces_change; [done..|constructor]. }
  assert (Hnone : forall d' fr', mockApplications d' = mockApplications d ->
      mockApplicationComponents d' = mockApplicationComponents d -> fr' = (if replaces op then af else fr) ->
    exists d1 sent v', Ok (tt, mkMockStore d' (Some d') true (sent0 ++ []) af fr') = Ok (tt, saved st op d1 sent) /\
      serves d1 v' /\ namesakes_apart v' /\ announces v (omap delivered sent) v').
  { intros d' fr' Ha Hc ->. exists d', [], v. split; [done|]. split; [by eapply serves_same|]. split; [done|constructor]. }
  destruct op; cbn in Hnr; try (destruct Hnr as [?|Hnr]; [done|]); try subst fr; try (by apply Hnone).
  - apply Hone; [|done]. apply put_application_announced; [done..|by left].
  - apply Hone; [|done]. by apply put_application_announced.
  - destruct Hok as [i Hi]. destruct (index_of_Some _ _ _ Hi) as (a & Ha & _).
    unfold_op. rewrite Hi. cbn. rewrite Ha.
    apply Hone; [|done]. by eapply delete_application_announced.
  - subst af. apply Hone; [|done]. by apply (put_component_announced d v applicationName (mkComponentDetails (cd_component c)
      (mkMetrics true [] []) [mockErrorPod d] [] (cd_istioMetricHistories c))).
  - apply Hone; [|done]. by apply put_component_announced.
  - destruct Hok as [i (l & Hl & Hi)%bind_Some]. destruct (index_of_Some _ _ _ Hi) as (c & Hc & _).
    unfold_op. rewrite Hl. cbn. rewrite Hi. cbn. rewrite Hc.
    apply Hone; [|done]. by eapply delete_component_announced.
  - unfold_op. by destruct (index_of _ name); apply Hnone.
Qed.

(** What a development build refuses: every other change once an application or a
    component was written, and every new component. *)
Lemma frozen_data_refuses st op : replaces op = false -> op_ok (mock_data st) op -> mock_frozen st = true ->
  exists e, perform op st = Throw e.
Proof.
  destruct st as [d cache on sent0 af fr]. cbn. intros Hop Hok ->.
  destruct op as [| | | | |app name| | | | | | | |]; try done; cbn in Hok; try (unfold_op; by eexists).
  unfold_op. destruct Hok as [i Hi]. apply bind_Some in Hi as (l & -> & _). by eexists.
Qed.

Lemma frozen_component_refused st app c : mock_autoFreeze st = true -> exists e, perform (CreateComponent app c) st = Throw e.
Proof. destruct st. cbn. intros ->. by eexists. Qed.

Lemma announces_app v ms1 v1 ms2 v2 : announces v ms1 v1 -> announces v1 ms2 v2 -> announces v (ms1 ++ ms2) v2.
Proof.
  induction 1 as [|v m ev v0 rest v1 Hm Hc Hv _ IH|v m rest v1 Hm _ IH]; intros H2; cbn; [done| |].
  - eapply announces_change; eauto.
  - eapply announces_other; eauto.
Qed.

Lemma operations_announced ops st v :
  mock_onmessage st = true -> serves (mock_data st) v -> namesakes_apart v -> possible st ops ->
  exists st' sent v', mforEach perform ops st = Ok (tt, st') /\ mock_sent st' = mock_sent st ++ sent /\
    serves (mock_data st') v' /\ announces v (omap delivered sent) v' /\
    (ops <> [] -> mock_cache st' = Some (mock_data st')) /\
    mock_frozen st' = if existsb replaces ops then mock_autoFreeze st else mock_frozen st.
Proof.
  revert st v. induction ops as [|op ops IH]; intros st v Hon Hs Hv Hp; inversion Hp as [|? ? ? Hok Hnr Hrest]; subst.
  - exists st, [], v. split; [done|]. split; [by rewrite app_nil_r|]. split; [done|]. split; [constructor|]. by split.
  - destruct (perform_announced st op v Hon Hs Hv Hok Hnr) as (d & sent & v1 & He & Hs1 & Hv1 & Ha).
    destruct (IH (saved st op d sent) v1 eq_refl Hs1 Hv1 (Hrest _ He)) as (st' & sent' & v' & He' & Hsent & Hs' & Ha' & Hc & Hf).
    exists st', (sent ++ sent'), v'. cbn [mforEach]. unfold mbind, M_bind. rewrite He. split; [done|].
    split; [by rewrite Hsent; cbn; rewrite (assoc_L (++))|]. split; [done|].
    split; [rewrite omap_app; by eapply announces_app|]. split.
    + intros _. destruct ops as [|op' ops]; [|by apply Hc]. cbn in He'. by injection He' as <-.
    + rewrite Hf. cbn. by destruct (replaces op), (existsb replaces ops).
Qed.

(** ** The demonstration mode *)

Section demonstration.
Context {R : Type}.
Variable connectRouter : R -> Actions -> R.
Variable call : FnRef -> Actions -> bool.
Variable b : Boot.
Variable pathname : string.
Implicit Types (d : Dashboard R).

End demonstration.

(** ** Witness: an application is created, gets a component, and is deleted *)

Definition demo_pod : PodStatus :=
  mkPodStatus "pod-0" "" "" "" "" [] "" "" (num 0) (num 0) false (num 0) [] [] (mkMetrics false [] []).
Definition demo_details : ApplicationComponentDetails :=
  mkComponentDetails newEmptyComponentLike (mkMetrics false [] []) [] [] (mkIstio None None None None None None None None).
Definition demo_data : MockStoreData :=
  let version := mkVersionInfo "" "" "" "" "" "" "" in
  mkMockData [] demo_pod [] ∅ (mkNodesList [] (mkMetrics false [] [])) [] [] [] [] [] [] []
    (mkAcmeServerInfo "" "" "" false) newEmptySSOConfig
    (mkClusterInfo "" "" (num 80) (num 443) (num 443) "" false false version version) demo_login [].
Definition demo_mock : MockStore := mkMockStore demo_data None true [] false false.
Definition demo_ops : list MockOp :=
  [CreateApplication (demo_app "shop" ""); CreateComponent "shop" demo_details; DeleteApplication "shop"].

Lemma demo_possible : possible demo_mock demo_ops.
Proof.
  constructor; [done|by left|]. intros st [= <-]. constructor; [done..|]. intros st [= <-].
  constructor; [by eexists|by right|]. intros st [= <-]. constructor.
Qed.

(** In a development build the creation of the component is refused, and so would be
    the deletion of the application. *)
Definition dev_mock : MockStore := mkMockStore demo_data None true [] true false.
Example component_refused : exists e, mforEach perform demo_ops dev_mock = Throw e.
Proof. by eexists. Qed.
Example deletion_refused : exists e, mforEach perform [CreateApplication (demo_app "shop" ""); DeleteApplication "shop"] dev_mock = Throw e.
Proof. by eexists. Qed.

