(* ===== verification/Setup.v ===== *)
(** [pages/Setup/index.tsx]: the page that sets a new cluster up.  The first step
    checks the DNS record of a domain and initializes the cluster, the second
    waits until the cluster has what it needs, the third shows the result.

    The page reads the store through its props.  Its requests are answered at
    any later time, as separate events; formik runs one submission at a time. *)

From S2P Require Import Prelude JsString JsNumber ResourceTypes.

(** ** The state of the page *)

Record SetupProps := mkSetupProps {
  setup_certs : list Certificate;
  setup_httpRoutes : list HttpRoute;
  setup_componentsMap : gmap string (list ApplicationComponentDetails);
  setup_ingressIP : string
}.

(** What the form of the first step is doing. *)
Inductive Submission :=
| Idle
| ResolvingDomain (domain ingressIP : string)
| Initializing (domain : string).

Record SetupPage := mkSetupPage {
  activeStep : nat;
  showDNSWarning : bool;
  ignoreDNSResult : bool;
  kalmCertReady : bool;
  kalmRouteReady : bool;
  KalmDexReady : bool;
  KalmAuthProxyReady : bool;
  initializeResponse : option InitializeClusterResponse;
  setup_submission : Submission;
  setup_error : option string;
  setup_notified : list string
}.

Definition newSetupPage : SetupPage := mkSetupPage 0 false false false false false false None Idle None [].

Definition set_submission (s : SetupPage) (sub : Submission) (error : option string) : SetupPage :=
  mkSetupPage (activeStep s) (showDNSWarning s) (ignoreDNSResult s) (kalmCertReady s) (kalmRouteReady s)
    (KalmDexReady s) (KalmAuthProxyReady s) (initializeResponse s) sub error (setup_notified s).
Definition set_warning (s : SetupPage) : SetupPage :=
  mkSetupPage (activeStep s) true (ignoreDNSResult s) (kalmCertReady s) (kalmRouteReady s)
    (KalmDexReady s) (KalmAuthProxyReady s) (initializeResponse s) (setup_submission s) (setup_error s) (setup_notified s).
Definition set_ignore (s : SetupPage) : SetupPage :=
  mkSetupPage (activeStep s) (showDNSWarning s) true (kalmCertReady s) (kalmRouteReady s)
    (KalmDexReady s) (KalmAuthProxyReady s) (initializeResponse s) (setup_submission s) (setup_error s) (setup_notified s).
Definition set_flags (s : SetupPage) (cert route dex proxy : bool) : SetupPage :=
  mkSetupPage (activeStep s) (showDNSWarning s) (ignoreDNSResult s) cert route dex proxy
    (initializeResponse s) (setup_submission s) (setup_error s) (setup_notified s).
Definition set_step (s : SetupPage) (step : nat) : SetupPage :=
  mkSetupPage step (showDNSWarning s) (ignoreDNSResult s) (kalmCertReady s) (kalmRouteReady s)
    (KalmDexReady s) (KalmAuthProxyReady s) (initializeResponse s) (setup_submission s) (setup_error s) (setup_notified s).
Definition set_response (s : SetupPage) (r : InitializeClusterResponse) : SetupPage :=
  mkSetupPage (activeStep s) (showDNSWarning s) (ignoreDNSResult s) (kalmCertReady s) (kalmRouteReady s)
    (KalmDexReady s) (KalmAuthProxyReady s) (Some r) (setup_submission s) (setup_error s) (setup_notified s).
Definition notify_error (s : SetupPage) (message : string) : SetupPage :=
  mkSetupPage (activeStep s) (showDNSWarning s) (ignoreDNSResult s) (kalmCertReady s) (kalmRouteReady s)
    (KalmDexReady s) (KalmAuthProxyReady s) (initializeResponse s) (setup_submission s) (setup_error s)
    (setup_notified s ++ [message]).

(** ** What the cluster needs *)

Definition getKalmCertReady (props : SetupProps) : bool :=
  match List.find (fun x => seqb (cert_name x) "kalm-cert") (setup_certs props) with
  | Some cert => bool_decide (cert_ready cert = Some "True")
  | None => false
  end.

Definition component_name (c : ApplicationComponentDetails) : string := comp_name (cd_component c).

Definition getKalmSystemComponentReady (componentName : string) (props : SetupProps) : bool :=
  match setup_componentsMap props !! "kalm-system" with
  | None => false
  | Some components =>
      if Nat.eqb (length components) 0 then false
      else match List.find (fun x => seqb (component_name x) componentName) components with
           | None => false
           | Some component =>
               existsb (fun x => seqb (pod_phase x) "Running" && seqb (pod_status x) "Running") (cd_pods component)
           end
  end.

Definition getKalmRouteReady (props : SetupProps) : bool :=
  existsb (fun x => seqb (route_name x) "kalm-route") (setup_httpRoutes props).

(** [isKalm...ChangedToReady]: ready now and not with the props before. *)
Definition changed_to_ready (ready : SetupProps -> bool) (prevProps props : SetupProps) : bool :=
  ready props && negb (ready prevProps).

Definition componentDidUpdate (prevProps props : SetupProps) (s : SetupPage) : SetupPage :=
  let rise (flag : bool) (ready : SetupProps -> bool) := if negb flag && changed_to_ready ready prevProps props then true else flag in
  set_flags s (rise (kalmCertReady s) getKalmCertReady) (rise (kalmRouteReady s) getKalmRouteReady)
    (rise (KalmDexReady s) (getKalmSystemComponentReady "dex"))
    (rise (KalmAuthProxyReady s) (getKalmSystemComponentReady "auth-proxy")).

(** ** The form of the first step *)

Definition dnsCheckError : string := "DNS check failed".

(** [validate] up to its request. *)
Definition validate (ingressIP domain : string) (s : SetupPage) : SetupPage :=
  if seqb domain "" then set_submission s Idle (Some "Required")
  else if negb (ignoreDNSResult s) then set_submission s (ResolvingDomain domain ingressIP) None
  else set_submission s (Initializing domain) None.

(** The rest of [validate] with the answer of the request, and the start of
    [submit] when there is no error. *)
Definition validate_answer (domain ingressIP : string) (answer : result (list string)) (s : SetupPage) : SetupPage :=
  let failed := set_submission (set_warning s) Idle (Some dnsCheckError) in
  match answer with
  | Throw _ => failed
  | Ok records =>
      if Nat.leb (length records) 0 || negb (existsb (seqb ingressIP) records) then failed
      else set_submission s (Initializing domain) None
  end.

(** [submit] with the answer of its request. *)
Definition submit_answer (answer : result InitializeClusterResponse) (s : SetupPage) : SetupPage :=
  match answer with
  | Ok res =>
      set_submission
        (set_response
           (set_flags (set_step s 1) (negb (isProduction (init_clusterInfo res))) (kalmRouteReady s) (KalmDexReady s)
              (KalmAuthProxyReady s)) res) Idle None
  | Throw e => set_submission (notify_error s e) Idle None
  end.

(** ** The second and third step *)

Definition canMoveToNext (s : SetupPage) : bool :=
  kalmCertReady s && kalmRouteReady s && KalmDexReady s && KalmAuthProxyReady s.

(** The address the third step shows. *)
Definition setup_url (s : SetupPage) : option string :=
  res ← initializeResponse s;
  Some ((if isProduction (init_clusterInfo res) then "https" else "http") +:+ "://" +:+ sso_domain (init_sso res)).

Inductive SetupView := SetupLoading | SetupDone | SetupStep (step : nat).
Definition setup_render (isClusterInfoLoaded isClusterInfoLoading canBeInitialized : bool) (s : SetupPage) : SetupView :=
  if negb isClusterInfoLoaded && isClusterInfoLoading then SetupLoading
  else if negb canBeInitialized then SetupDone
  else SetupStep (activeStep s).

(** ** What happens to the page *)

Inductive SetupEvent :=
| PropsChange (props : SetupProps)
| SubmitDomain (domain : string)
| Resolved (answer : result (list string))
| ContinueAnyway (domain : string)
| Initialized (answer : result InitializeClusterResponse)
| PressNext.

Definition is_idle (s : SetupPage) : bool := match setup_submission s with Idle => true | _ => false end.

(** The page with its props.  A button that is disabled or not shown does
    nothing, and an answer needs its request. *)
Definition setup_event (w : SetupPage * SetupProps) (e : SetupEvent) : SetupPage * SetupProps :=
  let (s, props) := w in
  match e with
  | PropsChange props' => (componentDidUpdate props props' s, props')
  | SubmitDomain domain =>
      if Nat.eqb (activeStep s) 0 && is_idle s then (validate (setup_ingressIP props) domain s, props) else w
  | ContinueAnyway domain =>
      if Nat.eqb (activeStep s) 0 && showDNSWarning s && is_idle s
      then (validate (setup_ingressIP props) domain (set_ignore s), props) else w
  | Resolved answer =>
      match setup_submission s with
      | ResolvingDomain domain ingressIP => (validate_answer domain ingressIP answer s, props)
      | _ => w
      end
  | Initialized answer =>
      match setup_submission s with
      | Initializing _ => (submit_answer answer s, props)
      | _ => w
      end
  | PressNext => if Nat.eqb (activeStep s) 1 && canMoveToNext s then (set_step s 2, props) else w
  end.

Definition setup_events (events : list SetupEvent) (w : SetupPage * SetupProps) : SetupPage * SetupProps :=
  foldl setup_event w events.
Definition setup_start (props : SetupProps) : SetupPage * SetupProps := (newSetupPage, props).

(** ** Facts *)

(** The props in the order in which the page saw them after the first. *)
Definition updates (events : list SetupEvent) : list SetupProps :=
  omap (fun e => match e with PropsChange props => Some props | _ => None end) events.

(** The condition became true at one of the updates, seen from [props] on. *)
Fixpoint risen (ready : SetupProps -> bool) (props : SetupProps) (seen : list SetupProps) : bool :=
  match seen with
  | [] => false
  | props' :: seen' => changed_to_ready ready props props' || risen ready props' seen'
  end.

(** The last of the props the page saw. *)
Fixpoint last_props (props : SetupProps) (seen : list SetupProps) : SetupProps :=
  match seen with [] => props | props' :: seen' => last_props props' seen' end.

Lemma last_props_app props seen1 seen2 : last_props props (seen1 ++ seen2) = last_props (last_props props seen1) seen2.
Proof. revert props. induction seen1 as [|p seen1 IH]; intros props; [done|]. apply IH. Qed.

Lemma risen_app ready props seen1 seen2 :
  risen ready props (seen1 ++ seen2) = risen ready props seen1 || risen ready (last_props props seen1) seen2.
Proof.
  revert props. induction seen1 as [|p seen1 IH]; intros props; [done|]. cbn [app risen last_props].
  by rewrite IH, Bool.orb_assoc.
Qed.

(** A condition that does not hold at first and holds at the end has risen. *)
Lemma risen_end ready props seen :
  ready props = false -> ready (last_props props seen) = true -> risen ready props seen = true.
Proof.
  revert props. induction seen as [|p seen IH]; intros props Hn Hl; cbn [last_props risen] in *; [congruence|].
  unfold changed_to_ready. rewrite Hn, Bool.andb_true_r. destruct (ready p) eqn:Hp; [done|]. by apply IH.
Qed.

(** A condition that always holds never rises. *)
Lemma risen_always ready props seen : ready props = true -> Forall (fun p => ready p = true) seen -> risen ready props seen = false.
Proof.
  intros Hr Hall. revert props Hr. induction Hall as [|p seen Hp _ IH]; intros props Hr; [done|]. cbn [risen].
  unfold changed_to_ready. rewrite Hp, Hr. by apply IH.
Qed.

Lemma updates_app events1 events2 : updates (events1 ++ events2) = updates events1 ++ updates events2.
Proof. apply omap_app. Qed.

(** The flags of the page and the conditions they follow. *)
Definition flags (s : SetupPage) : list bool := [kalmRouteReady s; KalmDexReady s; KalmAuthProxyReady s].
Definition conditions : list (SetupProps -> bool) :=
  [getKalmRouteReady; getKalmSystemComponentReady "dex"; getKalmSystemComponentReady "auth-proxy"].

(** One event: the flags rise with their conditions.  The certificate's flag does
    so too, unless the answer of the initialization sets it. *)
Lemma event_flags w e : let w' := setup_event w e in
  w'.2 = last_props w.2 (updates [e]) /\
  flags w'.1 = zip_with (fun flag ready => flag || risen ready w.2 (updates [e])) (flags w.1) conditions /\
  ((is_idle w.1 = true \/ forall a, e <> Initialized a) ->
     kalmCertReady w'.1 = kalmCertReady w.1 || risen getKalmCertReady w.2 (updates [e])).
Proof.
  destruct w as [s props].
  assert (Hf : flags s = zip_with (fun flag ready => flag || false) (flags s) conditions).
  { unfold flags. cbn. by rewrite !Bool.orb_false_r. }
  destruct e as [p|domain|answer|domain|answer|]; cbn [setup_event fst snd updates omap list_omap last_props risen].
  - split; [done|]. unfold flags, componentDidUpdate. cbn. rewrite !Bool.orb_false_r.
    split; [|intros _]; [f_equal; [|f_equal; [|f_equal]]|]; match goal with |- (if ?b then _ else _) = _ => idtac end;
      repeat match goal with |- context [changed_to_ready ?r ?a ?b] => destruct (changed_to_ready r a b) end;
      repeat match goal with |- context [negb (?f s)] => destruct (f s) end; done.
  - destruct (_ && _); [|by rewrite Bool.orb_false_r]. unfold validate. destruct (seqb domain ""); [by rewrite Bool.orb_false_r|].
    destruct (negb _); by rewrite Bool.orb_false_r.
  - destruct (setup_submission s); try by rewrite Bool.orb_false_r. unfold validate_answer.
    destruct answer as [records|]; [destruct (_ || _)|]; by rewrite Bool.orb_false_r.
  - destruct (_ && _); [|by rewrite Bool.orb_false_r]. unfold validate. destruct (seqb domain ""); [by rewrite Bool.orb_false_r|].
    destruct (negb _); by rewrite Bool.orb_false_r.
  - unfold is_idle. destruct (setup_submission s) eqn:Es; try by rewrite Bool.orb_false_r.
    split; [by destruct answer|]. split; [by destruct answer|]. intros [|Hne]; [done|]. by destruct (Hne answer).
  - destruct (_ && _); by rewrite Bool.orb_false_r.
Qed.

Lemma or_zip (fs : list bool) (cs : list (SetupProps -> bool)) (g h : (SetupProps -> bool) -> bool) : length fs = length cs ->
  zip_with (fun flag c => flag || h c) (zip_with (fun flag c => flag || g c) fs cs) cs =
  zip_with (fun flag c => flag || (g c || h c)) fs cs.
Proof.
  revert cs. induction fs as [|f fs IH]; intros [|c cs] Hl; try done. cbn in *. rewrite Bool.orb_assoc, IH by lia. done.
Qed.

Lemma setup_events_app events1 events2 w : setup_events (events1 ++ events2) w = setup_events events2 (setup_events events1 w).
Proof. apply foldl_app. Qed.

(** The flags after any events. *)
Lemma events_flags events w : let w' := setup_events events w in
  w'.2 = last_props w.2 (updates events) /\
  flags w'.1 = zip_with (fun flag ready => flag || risen ready w.2 (updates events)) (flags w.1) conditions.
Proof.
  revert w. induction events as [|e events IH]; intros w.
  { cbn. by rewrite !Bool.orb_false_r. }
  destruct (event_flags w e) as (Hp & Hf & _). destruct (IH (setup_event w e)) as [IHp IHf].
  cbn zeta in *. change (setup_events (e :: events) w) with (setup_events events (setup_event w e)).
  rewrite IHp, IHf, Hp, Hf, or_zip by done. change (e :: events) with ([e] ++ events). rewrite updates_app. split.
  - by rewrite last_props_app.
  - unfold flags, conditions. cbn [zip_with]. by rewrite !risen_app.
Qed.

(** The cluster was initialized with the answer [res]; the form is gone. *)
Definition initialized (res : InitializeClusterResponse) (s : SetupPage) : Prop :=
  1 <= activeStep s <= 2 /\ is_idle s = true /\ initializeResponse s = Some res /\ (activeStep s = 2 -> canMoveToNext s = true).

Lemma can_from_flags s : canMoveToNext s = kalmCertReady s && forallb id (flags s).
Proof. unfold canMoveToNext, flags. cbn. by rewrite Bool.andb_true_r, !Bool.andb_assoc. Qed.

Lemma forallb_rise (fs : list bool) (cs : list (SetupProps -> bool)) (g : (SetupProps -> bool) -> bool) :
  length fs = length cs -> forallb id fs = true -> forallb id (zip_with (fun flag c => flag || g c) fs cs) = true.
Proof.
  revert cs. induction fs as [|f fs IH]; intros [|c cs] Hl; try done. cbn. intros [Hf Hs]%Bool.andb_true_iff.
  unfold id in *. subst f. cbn. apply IH; [cbn in Hl; lia|done].
Qed.

Lemma initialized_event res w e : initialized res w.1 -> initialized res (setup_event w e).1.
Proof.
  destruct w as [s props]. intros Hw. pose proof Hw as (Hstep & Hidle & Hres & Hcan). cbn [fst] in *.
  assert (H0 : Nat.eqb (activeStep s) 0 = false) by (apply Nat.eqb_neq; lia).
  destruct e as [p|domain|answer|domain|answer|]; cbn [setup_event fst]; rewrite ?H0; cbn [andb]; try done.
  - destruct (event_flags (s, props) (PropsChange p)) as (_ & Hf & Hc). specialize (Hc (or_introl Hidle)).
    split; [exact Hstep|]. split; [exact Hidle|]. split; [exact Hres|].
    intros H2%Hcan. rewrite can_from_flags in *. cbn [setup_event fst] in Hf, Hc. rewrite Hf, Hc.
    apply Bool.andb_true_iff in H2 as [-> H2]. cbn [orb andb]. by apply forallb_rise.
  - unfold is_idle in Hidle. by destruct (setup_submission s).
  - unfold is_idle in Hidle. by destruct (setup_submission s).
  - destruct (Nat.eqb (activeStep s) 1 && canMoveToNext s) eqn:E; [|done]. apply Bool.andb_true_iff in E as [_ E].
    split_and!; try done; cbn; lia.
Qed.

Lemma initialized_events res events w : initialized res w.1 ->
  initialized res (setup_events events w).1 /\
  kalmCertReady (setup_events events w).1 = kalmCertReady w.1 || risen getKalmCertReady w.2 (updates events).
Proof.
  revert w. induction events as [|e events IH]; intros w Hw; [cbn; by rewrite Bool.orb_false_r|].
  destruct (event_flags w e) as (Hp & _ & Hc). cbn zeta in *. specialize (Hc (or_introl (proj1 (proj2 Hw)))).
  destruct (IH (setup_event w e) (initialized_event res w e Hw)) as [IHi IHc].
  change (setup_events (e :: events) w) with (setup_events events (setup_event w e)). split; [done|].
  rewrite IHc, Hc, Hp. change (e :: events) with ([e] ++ events). by rewrite updates_app, risen_app, Bool.orb_assoc.
Qed.

(** The answer of the initialization. *)
Lemma answer_initialized res w domain : setup_submission w.1 = Initializing domain ->
  let w' := setup_event w (Initialized (Ok res)) in
  initialized res w'.1 /\ w'.2 = w.2 /\ flags w'.1 = flags w.1 /\
  kalmCertReady w'.1 = negb (isProduction (init_clusterInfo res)).
Proof. destruct w as [s props]. cbn [fst]. intros Hs. cbn [setup_event]. rewrite Hs.
  split; [|done]. split; [cbn; lia|]. split; [done|]. split; [done|]. intros [=].
Qed.

(** The page after the submission of a domain whose initialization is answered by
    [res], with what happened before and after. *)
Definition setup_run (before : list SetupEvent) (res : InitializeClusterResponse) (after : list SetupEvent) (props : SetupProps) :
    SetupPage :=
  (setup_events (before ++ Initialized (Ok res) :: after) (setup_start props)).1.

Lemma setup_run_flags props before res after domain :
  let w := setup_events before (setup_start props) in setup_submission w.1 = Initializing domain ->
  let s := setup_run before res after props in
  initialized res s /\
  flags s = (fun ready => risen ready props (updates (before ++ after))) <$> conditions /\
  kalmCertReady s = negb (isProduction (init_clusterInfo res)) || risen getKalmCertReady w.2 (updates after).
Proof.
  intros w Hw s. subst s. unfold setup_run. rewrite setup_events_app. fold w.
  destruct (answer_initialized res w domain Hw) as (Hi & Hp & Hf & Hc). cbn zeta in *.
  change (setup_events (Initialized (Ok res) :: after) w) with (setup_events after (setup_event w (Initialized (Ok res)))).
  destruct (initialized_events res after _ Hi) as [Hi' Hc']. split; [done|].
  destruct (events_flags after (setup_event w (Initialized (Ok res)))) as [_ Hf'].
  destruct (events_flags before (setup_start props)) as [Hpb Hfb]. fold w in Hpb, Hfb. cbn zeta in *.
  split; [|by rewrite Hc', Hc, Hp]. rewrite Hf', Hf, Hp, Hfb, Hpb, or_zip by done.
  unfold flags, conditions, newSetupPage, setup_start. cbn [zip_with fst snd fmap list_fmap orb kalmRouteReady KalmDexReady KalmAuthProxyReady].
  by rewrite updates_app, !risen_app.
Qed.

(** C19: The second step of the setup waits for exactly what it names.  Whatever
    happened before and after the cluster was initialized, the step can be left
    exactly if the route and the two components have become ready while the page
    was open, and the certificate has become ready since the answer, or is not
    waited for outside production; and the third step is shown only then. *)
Theorem setup_next props before res after domain :
  let w := setup_events before (setup_start props) in setup_submission w.1 = Initializing domain ->
  let s := setup_run before res after props in let seen := updates (before ++ after) in
  canMoveToNext s =
    (negb (isProduction (init_clusterInfo res)) || risen getKalmCertReady w.2 (updates after)) &&
    risen getKalmRouteReady props seen && risen (getKalmSystemComponentReady "dex") props seen &&
    risen (getKalmSystemComponentReady "auth-proxy") props seen /\
  initializeResponse s = Some res /\ 1 <= activeStep s <= 2 /\ (activeStep s = 2 -> canMoveToNext s = true).
Proof.
  intros w Hw s seen. destruct (setup_run_flags props before res after domain Hw) as ((Hstep & _ & Hres & Hcan) & Hf & Hc).
  split; [|done]. rewrite can_from_flags. fold s in Hf, Hc. rewrite Hf, Hc. cbn. by rewrite Bool.andb_true_r, !Bool.andb_assoc.
Qed.

(** The setup ends.  If nothing it waits for was there when the page was opened,
    nor the certificate when the initialization was answered, then as soon as
    the page sees all of it the button of the second step leads to the third. *)
Theorem setup_ends props before res after domain :
  let w := setup_events before (setup_start props) in setup_submission w.1 = Initializing domain ->
  forallb (fun ready => negb (ready props)) conditions = true -> getKalmCertReady w.2 = false ->
  let now := last_props w.2 (updates after) in
  forallb (fun ready => ready now) conditions = true -> getKalmCertReady now = true ->
  activeStep (setup_run before res (after ++ [PressNext]) props) = 2.
Proof.
  intros w Hw Hno Hnoc now Hall Hallc.
  destruct (setup_run_flags props before res after domain Hw) as ((Hstep & Hidle & Hres & Hcan) & Hf & Hc).
  assert (Hlast : now = last_props props (updates (before ++ after))).
  { subst now. destruct (events_flags before (setup_start props)) as [Hpb _]. fold w in Hpb. rewrite Hpb, updates_app.
    by rewrite last_props_app. }
  assert (Hready : canMoveToNext (setup_run before res after props) = true).
  { rewrite can_from_flags, Hf, Hc. fold w. rewrite (risen_end getKalmCertReady w.2 (updates after)), Bool.orb_true_r by done. cbn [andb].
    unfold conditions in *. cbn [forallb fmap list_fmap] in *. rewrite Hlast in Hall.
    apply Bool.andb_true_iff in Hno as [Hn1 Hno]. apply Bool.andb_true_iff in Hno as [Hn2 Hno]. apply Bool.andb_true_iff in Hno as [Hn3 _].
    apply Bool.andb_true_iff in Hall as [Ha1 Hall]. apply Bool.andb_true_iff in Hall as [Ha2 Hall]. apply Bool.andb_true_iff in Hall as [Ha3 _].
    rewrite !risen_end by (done || by apply Bool.negb_true_iff). done. }
  unfold setup_run in *. rewrite app_comm_cons, app_assoc, setup_events_app.
  destruct (setup_events (before ++ Initialized (Ok res) :: after) (setup_start props)) as [s p]. cbn [fst] in *.
  cbn [setup_events foldl setup_event]. rewrite Hready, Bool.andb_true_r. destruct (Nat.eqb_spec (activeStep s) 1); cbn [fst]; [done|lia].
Qed.

(** ** Concrete runs *)

Definition sample_pod (name : string) : PodStatus :=
  mkPodStatus name "node" "Running" "Running" "" [] "" "Running" (num 0) (num 0) false (num 0) [] [] (mkMetrics false [] []).
Definition sample_details (name : string) : ApplicationComponentDetails :=
  mkComponentDetails
    {| comp_name := name; comp_image := ""; comp_replicas := num 1; comp_command := None; comp_resourceRequirements := None;
       comp_cpuRequest := None; comp_memoryRequest := None; comp_cpuLimit := None; comp_memoryLimit := None;
       comp_workloadType := None; comp_schedule := None; comp_restartStrategy := None;
       comp_terminationGracePeriodSeconds := None; comp_dnsPolicy := ""; comp_env := None; comp_ports := None;
       comp_volumes := None; comp_preInjectedFiles := None; comp_livenessProbe := None; comp_readinessProbe := None;
       comp_nodeSelectorLabels := None; comp_preferNotCoLocated := None; comp_podAffinityType := None;
       comp_protectedEndpoint := None |}
    (mkMetrics false [] []) [sample_pod name] [] (mkIstio None None None None None None None None).
Definition sample_route : HttpRoute :=
  mkHttpRoute "kalm-route" "kalm-system" [] [] [] [] None None [] None None None None None None None None.
Definition sample_cert : Certificate := mkCertificate "kalm-cert" None None None "" "" None [] (Some "True") None None.

Definition sample_none : SetupProps := mkSetupProps [] [] ∅ "10.0.0.1".
Definition sample_route_only : SetupProps := mkSetupProps [] [sample_route] ∅ "10.0.0.1".
Definition sample_cert_only : SetupProps := mkSetupProps [sample_cert] [] ∅ "10.0.0.1".
Definition sample_all : SetupProps :=
  mkSetupProps [sample_cert] [sample_route] {["kalm-system" := [sample_details "dex"; sample_details "auth-proxy"]]} "10.0.0.1".

Definition sample_response (production : bool) : InitializeClusterResponse :=
  mkInitializeCluster
    (mkClusterInfo "10.0.0.1" "" (num 80) (num 443) (num 443) "" true production
       (mkVersionInfo "" "" "" "" "" "" "") (mkVersionInfo "" "" "" "" "" "" ""))
    (mkTemporaryAdmin "admin" "password" "admin@example.com") (mkSSOConfig "kalm.example.com" None).
Definition sample_before : list SetupEvent :=
  [SubmitDomain "kalm.example.com"; Resolved (Ok ["10.9.9.9"]); ContinueAnyway "kalm.example.com"].

Lemma setup_next_witness :
  setup_submission (setup_events sample_before (setup_start sample_none)).1 = Initializing "kalm.example.com" /\
  canMoveToNext (setup_run sample_before (sample_response true) [PropsChange sample_route_only] sample_none) = false /\
  canMoveToNext (setup_run sample_before (sample_response true) [PropsChange sample_route_only; PropsChange sample_all] sample_none)
    = true.
Proof.
  assert (H : setup_submission (setup_events sample_before (setup_start sample_none)).1 = Initializing "kalm.example.com") by reflexivity.
  split; [exact H|]. split.
  - rewrite (proj1 (setup_next sample_none sample_before (sample_response true) [PropsChange sample_route_only] "kalm.example.com" H)).
    reflexivity.
  - rewrite (proj1 (setup_next sample_none sample_before (sample_response true)
      [PropsChange sample_route_only; PropsChange sample_all] "kalm.example.com" H)). reflexivity.
Defined.

Lemma setup_ends_witness :
  activeStep (setup_run sample_before (sample_response true) ([PropsChange sample_route_only; PropsChange sample_all] ++ [PressNext])
    sample_none) = 2.
Proof.
  apply (setup_ends sample_none sample_before (sample_response true) [PropsChange sample_route_only; PropsChange sample_all]
    "kalm.example.com"); reflexivity.
Defined.

(** A certificate that is ready before the answer of the initialization arrives is
    forgotten when the answer comes: the page waits forever. *)
Example certificate_before_the_answer after :
  Forall (fun p => getKalmCertReady p = true) (updates after) ->
  canMoveToNext (setup_run (sample_before ++ [PropsChange sample_cert_only]) (sample_response true) after sample_none) = false.
Proof.
  intros Hall. destruct (setup_run_flags sample_none (sample_before ++ [PropsChange sample_cert_only]) (sample_response true) after
    "kalm.example.com" eq_refl) as (_ & _ & Hc).
  rewrite can_from_flags, Hc, risen_always; [done|reflexivity|done].
Qed.

(** What is ready before the page is opened is never noticed. *)
Example ready_before_the_page before res after domain :
  setup_submission (setup_events before (setup_start sample_all)).1 = Initializing domain ->
  Forall (fun p => getKalmRouteReady p = true) (updates (before ++ after)) ->
  canMoveToNext (setup_run before res after sample_all) = false.
Proof.
  intros Hw Hall. destruct (setup_run_flags sample_all before res after domain Hw) as (_ & Hf & _).
  rewrite can_from_flags, Hf. unfold conditions. cbn [fmap list_fmap forallb]. rewrite risen_always; [|reflexivity|done].
  apply Bool.andb_false_r.
Qed.

Example setup_address :
  setup_url (setup_run sample_before (sample_response false) [] sample_none) = Some "http://kalm.example.com".
Proof. reflexivity. Qed.
