(* ===== verification/FilesEditor.v ===== *)
(** [forms/ComponentLike/preInjectedFiles.tsx]: the editor of the files a component
    injects into its pods.  The form holds the list of files; the editor keeps the
    index of the file its dialog edits, the content typed so far and the index the
    next new file gets.  A file counts only when it was saved: its path is then
    copied from [mountPathTmp], which the dialog's field writes directly. *)

From S2P Require Import Prelude JsString ResourceTypes Validators.

(** ** The state *)

Record FilesEditor := mkFilesEditor {
  form_files : list PreInjectedFile;
  editingFileIndex : Z;
  fileContentValue : string;
  activeIndex : Z;
  content_dialog : bool
}.

Definition newFilesEditor (files : list PreInjectedFile) : FilesEditor := mkFilesEditor files (-1)%Z "" (Z.of_nat (length files)) false.

Definition set_files (s : FilesEditor) (files : list PreInjectedFile) : FilesEditor :=
  mkFilesEditor files (editingFileIndex s) (fileContentValue s) (activeIndex s) (content_dialog s).
Definition set_activeIndex (s : FilesEditor) (i : Z) : FilesEditor :=
  mkFilesEditor (form_files s) (editingFileIndex s) (fileContentValue s) i (content_dialog s).
Definition close_content (s : FilesEditor) : FilesEditor :=
  mkFilesEditor (form_files s) (editingFileIndex s) (fileContentValue s) (activeIndex s) false.

Definition validateMountPath (value : option string) : option string :=
  match ValidatorRequired (from_option FString FUndefined value) with
  | Some e => Some e
  | None => KValidatorInjectedFilePath value
  end.

(** Arrays as the form changes them. *)
Definition lookupZ {A : Type} (i : Z) (l : list A) : option A := if Z.ltb i 0%Z then None else l !! Z.to_nat i.
Definition removeZ {A : Type} (i : Z) (l : list A) : list A := if Z.ltb i 0%Z then l else base.delete (Z.to_nat i) l.

(** ** The operations *)

Definition privateOpenEditDialog (file : PreInjectedFile) (index : Z) (s : FilesEditor) : FilesEditor :=
  mkFilesEditor (form_files s) index (file_content file) (activeIndex s) true.

Definition handleDiscard (isInvalidFile : bool) (s : FilesEditor) : FilesEditor :=
  let s' := if isInvalidFile then set_files s (removeZ (editingFileIndex s) (form_files s)) else s in
  close_content s'.

Definition save_file (file : PreInjectedFile) (content mountPathTmp : string) : PreInjectedFile :=
  mkPreInjectedFile content mountPathTmp (file_mountPathTmp file) (file_base64 file) (file_readonly file).

Definition handleSave (isInvalidFile : bool) (file : PreInjectedFile) (mountPathTmp : string) (s : FilesEditor) : FilesEditor :=
  if isInvalidFile then s
  else
    let s1 := set_files s (<[Z.to_nat (editingFileIndex s) := save_file file (fileContentValue s) mountPathTmp]> (form_files s)) in
    let s2 := if Z.eqb (editingFileIndex s) (activeIndex s) then set_activeIndex s1 (activeIndex s + 1)%Z else s1 in
    close_content s2.

Definition handleChangeEditor (value : string) (s : FilesEditor) : FilesEditor :=
  mkFilesEditor (form_files s) (editingFileIndex s) value (activeIndex s) (content_dialog s).

Definition handleRemove (index : Z) (s : FilesEditor) : FilesEditor :=
  set_activeIndex (set_files s (removeZ index (form_files s))) (activeIndex s - 1)%Z.

Definition initFile : PreInjectedFile := mkPreInjectedFile "" "" None None (Some true).

Definition handlePush (s : FilesEditor) : FilesEditor :=
  let files := form_files s in
  let files' := if Z.leb (Z.of_nat (length files)) (activeIndex s) then files ++ [initFile] else removelast files ++ [initFile] in
  privateOpenEditDialog initFile (activeIndex s) (set_files s files').

(** What the dialog shows: its file, the path typed for it, and whether it can be
    saved.  [syncError] says whether the form has an error for the path. *)
Definition editing_file (s : FilesEditor) : option PreInjectedFile := lookupZ (editingFileIndex s) (form_files s).
Definition mountPathTmp_of (s : FilesEditor) : string := default "" (editing_file s ≫= file_mountPathTmp).
Definition isInvalidFile (syncError : bool) (s : FilesEditor) : bool :=
  seqb (mountPathTmp_of s) "" || seqb (fileContentValue s) "" || syncError.

(** The dialog's field writes into the list.  An entry right after the last one is
    created with nothing else in it; past that the array gets a hole, on which
    the next rendering throws. *)
Definition set_mountPathTmp (value : string) (f : PreInjectedFile) : PreInjectedFile :=
  mkPreInjectedFile (file_content f) (file_mountPath f) (Some value) (file_base64 f) (file_readonly f).
Definition set_readonly (value : bool) (f : PreInjectedFile) : PreInjectedFile :=
  mkPreInjectedFile (file_content f) (file_mountPath f) (file_mountPathTmp f) (file_base64 f) (Some value).
Definition emptyFile : PreInjectedFile := mkPreInjectedFile "" "" None None None.

Definition set_field (g : PreInjectedFile -> PreInjectedFile) (s : FilesEditor) : option FilesEditor :=
  let i := editingFileIndex s in let files := form_files s in
  if Z.ltb i 0%Z then Some s
  else if Z.ltb i (Z.of_nat (length files)) then Some (set_files s (base.alter g (Z.to_nat i) files))
  else if Z.eqb i (Z.of_nat (length files)) then Some (set_files s (files ++ [g emptyFile]))
  else None.

(** The rows of the list are the files with a path. *)
Definition shown_file (f : PreInjectedFile) : bool := negb (seqb (file_mountPath f) "").
Definition shown_at (i : nat) (s : FilesEditor) : option PreInjectedFile :=
  f ← form_files s !! i; if shown_file f then Some f else None.

(** [submit] of the pages that create and edit a component. *)
Definition submitted_files (s : FilesEditor) : list PreInjectedFile :=
  List.filter (fun file => negb (seqb (file_mountPath file) "") || negb (seqb (file_content file) "")) (form_files s).

Inductive FilesEvent :=
| PressNewFile
| PressEdit (i : nat)
| PressDelete (i : nat)
| TypePath (value : string)
| TypeContent (value : string)
| TickReadonly (value : bool)
| PressSave (syncError : bool)
| PressDiscard (syncError : bool).

(** [None]: the page crashes.  The open dialog covers the list. *)
Definition files_event (s : FilesEditor) (e : FilesEvent) : option FilesEditor :=
  match e, content_dialog s with
  | PressNewFile, false => Some (handlePush s)
  | PressEdit i, false => Some (match shown_at i s with Some f => privateOpenEditDialog f (Z.of_nat i) s | None => s end)
  | PressDelete i, false => Some (match shown_at i s with Some _ => handleRemove (Z.of_nat i) s | None => s end)
  | TypePath value, true => set_field (set_mountPathTmp value) s
  | TypeContent value, true => Some (handleChangeEditor value s)
  | TickReadonly value, true => set_field (set_readonly value) s
  | PressSave syncError, true =>
      Some (match editing_file s with
            | Some file => handleSave (isInvalidFile syncError s) file (mountPathTmp_of s) s
            | None => s
            end)
  | PressDiscard syncError, true => Some (handleDiscard (isInvalidFile syncError s) s)
  | _, _ => Some s
  end.

Fixpoint files_events (events : list FilesEvent) (s : FilesEditor) : option FilesEditor :=
  match events with
  | [] => Some s
  | e :: events' => s' ← files_event s e; files_events events' s'
  end.

(** ** The specification: an ordered list of saved files *)

Inductive FileOp := AddFile (path content : string) | ReplaceFile (i : nat) (path content : string) | DeleteFile (i : nat).
Definition apply_file (l : list (string * string)) (op : FileOp) : list (string * string) :=
  match op with
  | AddFile path content => l ++ [(path, content)]
  | ReplaceFile i path content => <[i := (path, content)]> l
  | DeleteFile i => base.delete i l
  end.

(** What the user asks for with an event, given what the dialog shows. *)
Definition asked (s : FilesEditor) (e : FilesEvent) : list FileOp :=
  match e, content_dialog s with
  | PressDelete i, false => match shown_at i s with Some _ => [DeleteFile i] | None => [] end
  | PressSave syncError, true =>
      if isInvalidFile syncError s then []
      else if Z.eqb (editingFileIndex s) (activeIndex s) then [AddFile (mountPathTmp_of s) (fileContentValue s)]
      else [ReplaceFile (Z.to_nat (editingFileIndex s)) (mountPathTmp_of s) (fileContentValue s)]
  | _, _ => []
  end.

Fixpoint all_asked (s : FilesEditor) (events : list FilesEvent) : list FileOp :=
  match events with
  | [] => []
  | e :: events' => asked s e ++ from_option (fun s' => all_asked s' events') [] (files_event s e)
  end.

(** The editor loses a saved file when its dialog is discarded while it could not
    be saved. *)
Definition loses_file (s : FilesEditor) (e : FilesEvent) : bool :=
  match e with
  | PressDiscard syncError => content_dialog s && Z.ltb (editingFileIndex s) (activeIndex s) && isInvalidFile syncError s
  | _ => false
  end.
Fixpoint never_loses (s : FilesEditor) (events : list FilesEvent) : bool :=
  match events with
  | [] => true
  | e :: events' => negb (loses_file s e) && from_option (fun s' => never_loses s' events') true (files_event s e)
  end.

Definition saved (f : PreInjectedFile) : string * string := (file_mountPath f, file_content f).

(** ** The invariant *)

(** The saved files are before [activeIndex]; after them at most a draft. *)
Record editor_ok (s : FilesEditor) (kept draft : list PreInjectedFile) : Prop := mkEditorOk {
  ok_files : form_files s = kept ++ draft;
  ok_active : activeIndex s = Z.of_nat (length kept);
  ok_kept : Forall (fun f => shown_file f = true) kept;
  ok_draft : Forall (fun f => saved f = ("", "")) draft;
  ok_one : length draft <= 1;
  ok_editing : content_dialog s = true -> (0 <= editingFileIndex s < Z.of_nat (length (form_files s)))%Z
}.

Lemma newFilesEditor_ok files : Forall (fun f => shown_file f = true) files -> editor_ok (newFilesEditor files) files [].
Proof. intros Hf. split; cbn; try done; [by rewrite app_nil_r|lia]. Qed.

Lemma submitted_kept s kept draft : editor_ok s kept draft -> submitted_files s = kept.
Proof.
  intros H. unfold submitted_files. rewrite (ok_files _ _ _ H), List.filter_app.
  assert (Hd : List.filter (fun file => negb (seqb (file_mountPath file) "") || negb (seqb (file_content file) "")) draft = []).
  { destruct (ok_draft _ _ _ H) as [|d ds Hd Hds]; [done|]. pose proof (ok_one _ _ _ H) as Ho. cbn in Ho.
    destruct ds; [|cbn in Ho; lia]. cbn. by injection Hd as -> ->. }
  rewrite Hd, app_nil_r. pose proof (ok_kept _ _ _ H) as Hk. clear -Hk. induction Hk as [|f l Hf _ IH]; [done|].
  cbn. unfold shown_file in Hf. rewrite Hf. cbn. by rewrite IH.
Qed.

Lemma shown_kept s kept draft i : editor_ok s kept draft -> shown_at i s = kept !! i.
Proof.
  intros H. unfold shown_at. rewrite (ok_files _ _ _ H). destruct (kept !! i) as [f|] eqn:Ef.
  - rewrite (lookup_app_l_Some _ _ _ _ Ef). cbn. pose proof (proj1 (Forall_lookup _ _) (ok_kept _ _ _ H) i f Ef) as ->. done.
  - apply lookup_ge_None in Ef. rewrite lookup_app_r by done. destruct (draft !! (i - length kept)) as [d|] eqn:Ed; [|done]. cbn.
    pose proof (proj1 (Forall_lookup _ _) (ok_draft _ _ _ H) _ _ Ed) as Hd. cbn in Hd. injection Hd as Hd _. unfold shown_file.
    by rewrite Hd.
Qed.

(** The list after one of its entries was changed. *)
Lemma alter_split {A : Type} (g : A -> A) (kept draft : list A) i :
  base.alter g i (kept ++ draft) =
  if Nat.ltb i (length kept) then base.alter g i kept ++ draft else kept ++ base.alter g (i - length kept) draft.
Proof. destruct (Nat.ltb_spec i (length kept)); [by rewrite alter_app_l|by rewrite alter_app_r_alt]. Qed.

(** A change of a file that keeps its path and content. *)
Lemma set_field_ok g s kept draft : (forall f, saved (g f) = saved f) -> content_dialog s = true -> editor_ok s kept draft ->
  exists s' kept' draft', set_field g s = Some s' /\ editor_ok s' kept' draft' /\ saved <$> kept' = saved <$> kept.
Proof.
  intros Hg Ho H. pose proof (ok_editing _ _ _ H Ho) as He. unfold set_field.
  destruct (Z.ltb_spec (editingFileIndex s) 0); [lia|]. destruct (Z.ltb_spec (editingFileIndex s) (Z.of_nat (length (form_files s)))); [|lia].
  set (i := Z.to_nat (editingFileIndex s)).
  exists (set_files s (base.alter g i (form_files s))).
  assert (Halter : forall l j, Forall (fun f => shown_file f = true) l -> Forall (fun f => shown_file f = true) (base.alter g j l)).
  { intros l j Hl. apply Forall_alter; [done|]. intros f _ Hf. unfold shown_file in *. specialize (Hg f). injection Hg as -> _. done. }
  assert (Hsaved : forall (l : list PreInjectedFile) j, saved <$> base.alter g j l = saved <$> l).
  { intros l j. apply list_eq. intros k. rewrite !list_lookup_fmap, list_lookup_alter.
    destruct (decide (j = k)) as [->|]; [|done]. destruct (l !! k) as [f|]; [exact (f_equal Some (Hg f))|done]. }
  rewrite (ok_files _ _ _ H), alter_split. destruct (Nat.ltb i (length kept)).
  - exists (base.alter g i kept), draft. split; [done|]. split; [|done].
    split; cbn; try apply H; [done| | |].
    + rewrite length_alter. apply H.
    + apply Halter, H.
    + intros _. rewrite length_app, length_alter. rewrite (ok_files _ _ _ H), length_app in He. lia.
  - exists kept, (base.alter g (i - length kept) draft). split; [done|]. split; [|done].
    split; cbn; try apply H; [done| | |].
    + apply Forall_alter; [apply H|]. intros f _ Hf. exact (eq_trans (Hg f) Hf).
    + rewrite length_alter. apply H.
    + intros _. rewrite length_app, length_alter. rewrite (ok_files _ _ _ H), length_app in He. lia.
Qed.

Lemma delete_app_lt {A : Type} (l1 l2 : list A) i : i < length l1 -> base.delete i (l1 ++ l2) = base.delete i l1 ++ l2.
Proof.
  revert i. induction l1 as [|x l1 IH]; intros i Hi; [cbn in Hi; lia|]. destruct i as [|i]; [done|]. cbn in *. f_equal. apply IH. lia.
Qed.

(** The saved files, in order, are [l]. *)
Definition keeps (s : FilesEditor) (l : list (string * string)) : Prop :=
  exists kept draft, editor_ok s kept draft /\ saved <$> kept = l.

Lemma removeZ_nat {A : Type} i (l : list A) : removeZ (Z.of_nat i) l = base.delete i l.
Proof. unfold removeZ. destruct (Z.ltb_spec (Z.of_nat i) 0); [lia|]. by rewrite Nat2Z.id. Qed.

Lemma push_ok s l : content_dialog s = false -> keeps s l -> keeps (handlePush s) l.
Proof.
  intros _ (kept & draft & H & Hl). exists kept, [initFile]. split; [|done].
  assert (Hf : form_files (handlePush s) = kept ++ [initFile]).
  { unfold handlePush, privateOpenEditDialog, set_files. cbn [form_files]. rewrite (ok_files _ _ _ H), (ok_active _ _ _ H), length_app.
    pose proof (ok_one _ _ _ H) as Ho. destruct draft as [|d [|]]; cbn [length] in *; [| |lia].
    - rewrite app_nil_r. destruct (Z.leb_spec (Z.of_nat (length kept + 0)) (Z.of_nat (length kept))); [done|lia].
    - destruct (Z.leb_spec (Z.of_nat (length kept + 1)) (Z.of_nat (length kept))); [lia|]. by rewrite removelast_last. }
  split; try apply H; [exact Hf|by repeat constructor|done|]. intros _. rewrite Hf, length_app. cbn [length]. unfold handlePush.
  cbn [editingFileIndex privateOpenEditDialog set_files activeIndex]. rewrite (ok_active _ _ _ H). lia.
Qed.

Lemma edit_ok s l i : content_dialog s = false -> keeps s l ->
  keeps match shown_at i s with Some f => privateOpenEditDialog f (Z.of_nat i) s | None => s end l.
Proof.
  intros Hd (kept & draft & H & Hl). rewrite (shown_kept _ _ _ i H). exists kept, draft. split; [|done].
  destruct (kept !! i) as [f|] eqn:Ef; [|done]. split; cbn; try apply H. intros _. apply lookup_lt_Some in Ef.
  rewrite (ok_files _ _ _ H), length_app. lia.
Qed.

Lemma delete_ok s l i : content_dialog s = false -> keeps s l ->
  keeps match shown_at i s with Some _ => handleRemove (Z.of_nat i) s | None => s end
    match shown_at i s with Some _ => base.delete i l | None => l end.
Proof.
  intros Hd (kept & draft & H & <-). rewrite (shown_kept _ _ _ i H). destruct (kept !! i) as [f|] eqn:Ef; [|by exists kept, draft].
  exists (base.delete i kept), draft. pose proof (lookup_lt_Some _ _ _ Ef) as Hi. split; [|by rewrite list_fmap_delete].
  split; cbn; try apply H.
  - rewrite removeZ_nat, (ok_files _ _ _ H). by rewrite delete_app_lt.
  - rewrite (ok_active _ _ _ H), length_delete by (by exists f). lia.
  - apply Forall_delete, H.
  - intros Ho. by rewrite Hd in Ho.
Qed.

Lemma editing_split s kept draft f : editor_ok s kept draft -> content_dialog s = true -> editing_file s = Some f ->
  let i := Z.to_nat (editingFileIndex s) in
  (Z.eqb (editingFileIndex s) (activeIndex s) = false /\ i < length kept /\ kept !! i = Some f) \/
  (Z.eqb (editingFileIndex s) (activeIndex s) = true /\ i = length kept /\ draft = [f]).
Proof.
  intros H Ho Hf i. pose proof (ok_editing _ _ _ H Ho) as He. unfold editing_file, lookupZ in Hf.
  destruct (Z.ltb_spec (editingFileIndex s) 0); [lia|]. fold i in Hf. rewrite (ok_files _ _ _ H) in Hf, He. rewrite length_app in He.
  pose proof (ok_one _ _ _ H) as H1. rewrite (ok_active _ _ _ H).
  destruct (decide (i < length kept)) as [Hi|Hi].
  - left. split; [apply Z.eqb_neq; lia|]. split; [done|]. by rewrite lookup_app_l in Hf.
  - right. assert (i = length kept) as Hik by lia. split; [apply Z.eqb_eq; lia|]. split; [done|].
    rewrite lookup_app_r, Hik, Nat.sub_diag in Hf by lia. destruct draft as [|d [|]]; [done| |cbn in H1; lia]. cbn in Hf. congruence.
Qed.

Lemma save_ok s l syncError f : content_dialog s = true -> keeps s l -> editing_file s = Some f ->
  keeps (handleSave (isInvalidFile syncError s) f (mountPathTmp_of s) s) (foldl apply_file l (asked s (PressSave syncError))).
Proof.
  intros Ho (kept & draft & H & <-) Hf. unfold asked, handleSave. rewrite Ho.
  destruct (isInvalidFile syncError s) eqn:Ei; [by exists kept, draft|].
  assert (Hp : seqb (mountPathTmp_of s) "" = false).
  { unfold isInvalidFile in Ei. by destruct (seqb (mountPathTmp_of s) ""). }
  set (f' := save_file f (fileContentValue s) (mountPathTmp_of s)).
  assert (Hs' : shown_file f' = true) by (unfold shown_file; cbn; by rewrite Hp).
  destruct (editing_split s kept draft f H Ho Hf) as [(-> & Hi & Hk) | (-> & Hi & ->)]; cbn [foldl apply_file].
  - exists (<[Z.to_nat (editingFileIndex s) := f']> kept), draft. split; [|by rewrite list_fmap_insert].
    split; cbn; try apply H; [| | |done].
    + by rewrite (ok_files _ _ _ H), insert_app_l.
    + rewrite length_insert. apply H.
    + apply Forall_insert; [apply H|done].
  - exists (kept ++ [f']), []. split; [|by rewrite fmap_app]. split; cbn; [| | |done|lia|done].
    + rewrite (ok_files _ _ _ H), Hi, app_nil_r, insert_app_r_alt, Nat.sub_diag by lia. done.
    + rewrite length_app, (ok_active _ _ _ H). cbn. lia.
    + apply Forall_app. split; [apply H|by repeat constructor].
Qed.

Lemma discard_ok s l syncError : content_dialog s = true -> keeps s l -> loses_file s (PressDiscard syncError) = false ->
  keeps (handleDiscard (isInvalidFile syncError s) s) l.
Proof.
  intros Ho (kept & draft & H & <-) Hl. pose proof (ok_editing _ _ _ H Ho) as He. pose proof (ok_one _ _ _ H) as H1.
  cbn in Hl. rewrite Ho in Hl. cbn in Hl. unfold handleDiscard. destruct (isInvalidFile syncError s).
  - rewrite Bool.andb_true_r in Hl. apply Z.ltb_ge in Hl. rewrite (ok_active _ _ _ H) in Hl. rewrite (ok_files _ _ _ H), length_app in He.
    exists kept, []. split; [|done]. split; cbn; try apply H; [|done|lia|done].
    unfold removeZ. destruct (Z.ltb_spec (editingFileIndex s) 0); [lia|]. rewrite (ok_files _ _ _ H).
    replace (Z.to_nat (editingFileIndex s)) with (length kept) by lia.
    destruct draft as [|d [|]]; [cbn in He; lia|apply delete_middle|cbn in H1; lia].
  - exists kept, draft. split; [|done]. split; cbn; try apply H. done.
Qed.

(** One event: no crash, and the saved files change as asked. *)
Lemma files_step s l e : keeps s l -> loses_file s e = false ->
  exists s', files_event s e = Some s' /\ keeps s' (foldl apply_file l (asked s e)).
Proof.
  intros Hk Hl. destruct e as [|i|i|v|v|v|b|b], (content_dialog s) eqn:Ho; cbn [files_event asked]; rewrite Ho; cbn [foldl];
    try by (eexists; split; [reflexivity|]).
  - eexists. split; [reflexivity|]. by apply push_ok.
  - eexists. split; [reflexivity|]. by apply edit_ok.
  - eexists. split; [reflexivity|]. pose proof (delete_ok s l i Ho Hk) as Hd. by destruct (shown_at i s).
  - destruct Hk as (kept & draft & H & <-).
    destruct (set_field_ok (set_mountPathTmp v) s kept draft (fun f => eq_refl) Ho H) as (s' & k' & d' & Hs & H' & <-).
    exists s'. split; [done|]. by exists k', d'.
  - destruct Hk as (kept & draft & H & Hl'). eexists. split; [reflexivity|]. exists kept, draft. split; [|done].
    split; cbn; try apply H.
  - destruct Hk as (kept & draft & H & <-).
    destruct (set_field_ok (set_readonly v) s kept draft (fun f => eq_refl) Ho H) as (s' & k' & d' & Hs & H' & <-).
    exists s'. split; [done|]. by exists k', d'.
  - eexists. split; [reflexivity|]. destruct (editing_file s) as [f|] eqn:Ef.
    + pose proof (save_ok s l b f Ho Hk Ef) as Hsv. unfold asked in Hsv. by rewrite Ho in Hsv.
    + assert (Hi : isInvalidFile b s = true) by (unfold isInvalidFile, mountPathTmp_of; by rewrite Ef). by rewrite Hi.
  - eexists. split; [reflexivity|]. by apply discard_ok.
Qed.

Lemma files_run events s l : keeps s l -> never_loses s events = true ->
  exists s', files_events events s = Some s' /\ keeps s' (foldl apply_file l (all_asked s events)).
Proof.
  revert s l. induction events as [|e events IH]; intros s l Hk Hn; [by exists s|]. cbn [never_loses] in Hn.
  apply Bool.andb_true_iff in Hn as [Hl Hn]. apply Bool.negb_true_iff in Hl.
  destruct (files_step s l e Hk Hl) as (s1 & Hs1 & Hk1). rewrite Hs1 in Hn. cbn in Hn.
  destruct (IH s1 _ Hk1 Hn) as (s2 & Hs2 & Hk2). exists s2. cbn [files_events all_asked]. rewrite Hs1. cbn [mbind option_bind from_option].
  by rewrite foldl_app.
Qed.

(** C18: The editor of injected files keeps the list of saved files.  From any files
    with a path, whatever the user opens, types, discards, deletes and saves, the
    page does not crash, and the files the form submits are, in order and with
    their paths and contents, the first ones changed by the saved additions,
    replacements and deletions alone: unless a dialog that edits a saved file is
    discarded while it could not be saved. *)
Theorem files_refine files events : Forall (fun f => shown_file f = true) files ->
  never_loses (newFilesEditor files) events = true ->
  exists s', files_events events (newFilesEditor files) = Some s' /\
    saved <$> submitted_files s' = foldl apply_file (saved <$> files) (all_asked (newFilesEditor files) events).
Proof.
  intros Hf Hn. destruct (files_run events (newFilesEditor files) (saved <$> files)) as (s' & Hs' & kept & draft & H & Hl); [|done|].
  { exists files, []. split; [by apply newFilesEditor_ok|done]. }
  exists s'. split; [done|]. by rewrite (submitted_kept _ _ _ H), Hl.
Qed.

(** ** Concrete runs *)

Definition sample_file (path content : string) : PreInjectedFile := mkPreInjectedFile content path None None (Some true).
Definition sample_files : list PreInjectedFile := [sample_file "/etc/a" "A"; sample_file "/etc/b" "B"].

(** A new file is discarded half-way, another is saved, the first is changed, the
    second deleted while a draft lies behind them. *)
Definition sample_events : list FilesEvent :=
  [PressNewFile; TypePath "/etc/c"; PressDiscard false;
   PressNewFile; TypePath "/etc/c"; TypeContent "C"; PressSave false;
   PressEdit 0; TypePath "/etc/a2"; PressSave false;
   PressNewFile; TypePath "/etc/d"; TypeContent "D"; PressDiscard false; PressDelete 1].

Lemma files_refine_witness :
  exists s', files_events sample_events (newFilesEditor sample_files) = Some s' /\
    saved <$> submitted_files s' = [("/etc/a2", "A"); ("/etc/c", "C")].
Proof.
  destruct (files_refine sample_files sample_events) as (s' & Hs' & Hl); [by repeat constructor|reflexivity|].
  exists s'. split; [exact Hs'|]. rewrite Hl. reflexivity.
Defined.

(** A file that comes from the cluster has no [mountPathTmp]: opening it and closing
    the dialog removes it, and the index of the next new file is not corrected. *)
Example discard_removes_a_saved_file :
  (fun s => (saved <$> submitted_files s, activeIndex s)) <$>
    files_events [PressEdit 0; PressDiscard false] (newFilesEditor sample_files) = Some ([("/etc/b", "B")], 2%Z).
Proof. reflexivity. Qed.

(** After that happened twice, typing the path of a new file crashes the page. *)
Example discarding_twice_crashes :
  files_events [PressEdit 0; PressDiscard false; PressEdit 0; PressDiscard false; PressNewFile; TypePath "/etc/c"]
    (newFilesEditor sample_files) = None.
Proof. reflexivity. Qed.
