(* ===== verification/VolumesForm.v ===== *)
(** [forms/ComponentLike/Disks.tsx]: the list of a component's volumes in its form,
    with the workload type it depends on.  A select only gives the form a value of
    its options, and the workload type can only be changed while there are no
    volumes (forms/ComponentLike/index.tsx, [renderMain]). *)

From S2P Require Import Prelude JsString JsNumber ResourceTypes Utils.

(** ** The state *)

(** The store's part, and the name the form was opened with. *)
Record VolumesProps := mkVolumesProps {
  vp_statefulSetOptions : list VolumeOption;
  vp_simpleOptions : list VolumeOption;
  vp_storageClasses : list StorageClass;
  vp_initialName : string
}.

Record VolumesForm := mkVolumesForm { vf_name : string; vf_workloadType : string; vf_volumes : list Volume }.

Definition set_volumes (s : VolumesForm) (volumes : list Volume) : VolumesForm :=
  mkVolumesForm (vf_name s) (vf_workloadType s) volumes.

Definition set_vol_type (type : string) (v : Volume) : Volume :=
  mkVolume type (vol_path v) (vol_size v) (vol_storageClassName v) (vol_pvc v) (vol_pvToMatch v) (vol_claimName v) (vol_hostPath v).
Definition set_vol_claimName (claim : string) (v : Volume) : Volume :=
  mkVolume (vol_type v) (vol_path v) (vol_size v) (vol_storageClassName v) (vol_pvc v) (vol_pvToMatch v) claim (vol_hostPath v).
Definition set_vol_texts (path size class : string) (hostPath : option string) (v : Volume) : Volume :=
  mkVolume (vol_type v) path size class (vol_pvc v) (vol_pvToMatch v) (vol_claimName v) hostPath.

(** ** What the selects offer *)

Definition getUsingClaimNames (volumes : list Volume) : gset string :=
  list_to_set (vol_claimName <$> List.filter (fun volume => seqb (vol_type volume) VolumeTypePersistentVolumeClaim) volumes).

Definition isEdit (p : VolumesProps) : bool := negb (seqb (vp_initialName p) "").

Definition shouldDisabledStatefulSetPvcTemplate (p : VolumesProps) (fieldDiskType : string) : bool :=
  isEdit p && seqb fieldDiskType VolumeTypePersistentVolumeClaimTemplate.

Definition getVolumeOptions (p : VolumesProps) (s : VolumesForm) : list VolumeOption :=
  if seqb (vf_workloadType s) workloadTypeStatefulSet
  then List.filter (fun o => bool_decide (option_componentName o = Some (vf_name s))) (vp_statefulSetOptions p)
  else vp_simpleOptions p.

Definition getClaimNameOptions (p : VolumesProps) (s : VolumesForm) (disk : Volume) : list string :=
  let usingClaimNames := getUsingClaimNames (vf_volumes s) in
  option_name <$>
    List.filter (fun vo => seqb (option_name vo) (vol_claimName disk) || negb (bool_decide (option_name vo ∈ usingClaimNames)))
      (getVolumeOptions p s).

Definition getStorageClassesOptions (p : VolumesProps) : list string := sc_name <$> vp_storageClasses p.

Definition getTypeOptions (p : VolumesProps) (s : VolumesForm) (filedDiskType : string) : list string :=
  (if seqb (vf_workloadType s) workloadTypeServer
   then [VolumeTypePersistentVolumeClaimNew; VolumeTypePersistentVolumeClaim]
   else if seqb (vf_workloadType s) workloadTypeCronjob then []
   else if seqb (vf_workloadType s) workloadTypeDaemonSet then [VolumeTypeHostPath]
   else if seqb (vf_workloadType s) workloadTypeStatefulSet then
     if isEdit p then
       if shouldDisabledStatefulSetPvcTemplate p filedDiskType then [VolumeTypePersistentVolumeClaimTemplate] else []
     else [VolumeTypePersistentVolumeClaimTemplateNew; VolumeTypePersistentVolumeClaimTemplate]
   else []) ++ [VolumeTypeTemporaryDisk; VolumeTypeTemporaryMemory].

(** A field that the new volume leaves out is empty here. *)
Definition getDefaultAddValues (p : VolumesProps) (s : VolumesForm) : Volume :=
  let storageClassName := from_option sc_name "" (vp_storageClasses p !! 0) in
  let claim type := mkVolume type "" "" storageClassName "" "" "" None in
  let temporary := mkVolume VolumeTypeTemporaryDisk "" "" "" "" "" "" None in
  if seqb (vf_workloadType s) workloadTypeServer then claim VolumeTypePersistentVolumeClaimNew
  else if seqb (vf_workloadType s) workloadTypeCronjob then temporary
  else if seqb (vf_workloadType s) workloadTypeDaemonSet then mkVolume VolumeTypeHostPath "" "" "" "" "" "" (Some "")
  else if seqb (vf_workloadType s) workloadTypeStatefulSet then
    if isEdit p then temporary else claim VolumeTypePersistentVolumeClaimTemplateNew
  else claim VolumeTypePersistentVolumeClaimNew.

(** The fields of a volume after its type and path. *)
Inductive DiskField :=
| ClaimField (options : list string) (disabled : bool) (storageClass capacity : string)
| NewClaimField (storageClasses : list string)
| HostPathField
| SizeField.

Definition getFieldComponents (p : VolumesProps) (s : VolumesForm) (disk : Volume) : DiskField :=
  if seqb (vol_type disk) VolumeTypePersistentVolumeClaim || seqb (vol_type disk) VolumeTypePersistentVolumeClaimTemplate then
    let volumeOption := List.find (fun vo => seqb (option_name vo) (vol_claimName disk)) (getVolumeOptions p s) in
    ClaimField (getClaimNameOptions p s disk) (shouldDisabledStatefulSetPvcTemplate p (vol_type disk))
      (from_option option_storageClassName "" volumeOption) (from_option option_capacity "" volumeOption)
  else if seqb (vol_type disk) VolumeTypePersistentVolumeClaimNew || seqb (vol_type disk) VolumeTypePersistentVolumeClaimTemplateNew
  then NewClaimField (getStorageClassesOptions p)
  else if seqb (vol_type disk) VolumeTypeHostPath then HostPathField
  else SizeField.

(** ** What the user does *)

Inductive VolumesEvent :=
| AddVolume
| RemoveVolume (i : nat)
| ChooseType (i : nat) (type : string)
| ChooseClaim (i : nat) (claim : string)
| TypeTexts (i : nat) (path size class : string) (hostPath : option string)
| ChooseWorkload (type : string)
| TypeName (name : string).

Definition workloads : list string := [workloadTypeServer; workloadTypeCronjob; workloadTypeDaemonSet; workloadTypeStatefulSet].

(** A disabled field or button does nothing; a select offers nothing but its options. *)
Definition may_do (p : VolumesProps) (s : VolumesForm) (e : VolumesEvent) : bool :=
  match e with
  | AddVolume | TypeTexts _ _ _ _ _ => true
  | RemoveVolume i =>
      from_option (fun v => negb (shouldDisabledStatefulSetPvcTemplate p (vol_type v))) false (vf_volumes s !! i)
  | ChooseType i type =>
      from_option (fun v => negb (shouldDisabledStatefulSetPvcTemplate p (vol_type v)) &&
                            bool_decide (type ∈ getTypeOptions p s (vol_type v))) false (vf_volumes s !! i)
  | ChooseClaim i claim =>
      from_option (fun v => match getFieldComponents p s v with
                            | ClaimField options disabled _ _ => negb disabled && bool_decide (claim ∈ options)
                            | _ => false
                            end) false (vf_volumes s !! i)
  | ChooseWorkload type => negb (isEdit p) && Nat.eqb (length (vf_volumes s)) 0 && bool_decide (type ∈ workloads)
  | TypeName _ => negb (isEdit p)
  end.

Definition volumes_event (p : VolumesProps) (s : VolumesForm) (e : VolumesEvent) : VolumesForm :=
  if may_do p s e then
    match e with
    | AddVolume => set_volumes s (vf_volumes s ++ [getDefaultAddValues p s])
    | RemoveVolume i => set_volumes s (base.delete i (vf_volumes s))
    | ChooseType i type => set_volumes s (base.alter (set_vol_type type) i (vf_volumes s))
    | ChooseClaim i claim => set_volumes s (base.alter (set_vol_claimName claim) i (vf_volumes s))
    | TypeTexts i path size class hostPath => set_volumes s (base.alter (set_vol_texts path size class hostPath) i (vf_volumes s))
    | ChooseWorkload type => mkVolumesForm (vf_name s) type (vf_volumes s)
    | TypeName name => mkVolumesForm name (vf_workloadType s) (vf_volumes s)
    end
  else s.

Definition volumes_events (p : VolumesProps) (events : list VolumesEvent) (s : VolumesForm) : VolumesForm :=
  foldl (volumes_event p) s events.

(** ** The invariants *)

Definition is_claim (v : Volume) : bool := seqb (vol_type v) VolumeTypePersistentVolumeClaim.

(** Two volumes that mount existing disks do not mount the same. *)
Definition distinct_claims (volumes : list Volume) : Prop :=
  forall i j vi vj, volumes !! i = Some vi -> volumes !! j = Some vj -> i <> j ->
    is_claim vi = true -> is_claim vj = true -> vol_claimName vi = vol_claimName vj -> vol_claimName vi = "".

(** The select of the type shows the type of each volume. *)
Definition types_offered (p : VolumesProps) (s : VolumesForm) : Prop :=
  vf_workloadType s ∈ workloads /\ Forall (fun v => vol_type v ∈ getTypeOptions p s (vol_type v)) (vf_volumes s).

(** Back to an existing disk: the claim chosen before is still in the volume, and
    another volume may have taken it. *)
Definition reuses_claim (s : VolumesForm) (e : VolumesEvent) : bool :=
  match e with
  | ChooseType i type =>
      seqb type VolumeTypePersistentVolumeClaim &&
      from_option (fun v => negb (is_claim v) && bool_decide (vol_claimName v ∈ getUsingClaimNames (vf_volumes s))) false
        (vf_volumes s !! i)
  | _ => false
  end.

Fixpoint never_reuses (p : VolumesProps) (s : VolumesForm) (events : list VolumesEvent) : bool :=
  match events with
  | [] => true
  | e :: events' => negb (reuses_claim s e) && never_reuses p (volumes_event p s e) events'
  end.

Lemma using_claim volumes c : c ∈ getUsingClaimNames volumes <->
  exists j v, volumes !! j = Some v /\ is_claim v = true /\ vol_claimName v = c.
Proof.
  unfold getUsingClaimNames. rewrite elem_of_list_to_set, list_elem_of_fmap. split.
  - intros (v & -> & Hv). rewrite list_elem_of_In, filter_In, <- list_elem_of_In in Hv. destruct Hv as [Hv Ht].
    apply list_elem_of_lookup in Hv as [j Hj]. by exists j, v.
  - intros (j & v & Hj & Ht & <-). exists v. split; [done|].
    rewrite list_elem_of_In, filter_In, <- list_elem_of_In. split; [|exact Ht]. by apply list_elem_of_lookup_2 in Hj.
Qed.

(** One volume changed: only its pairs with the others matter. *)
Lemma distinct_alter g i volumes : distinct_claims volumes ->
  (forall v, volumes !! i = Some v -> is_claim (g v) = true ->
     (is_claim v = true /\ vol_claimName (g v) = vol_claimName v) \/ vol_claimName (g v) ∉ getUsingClaimNames volumes) ->
  distinct_claims (base.alter g i volumes).
Proof.
  intros Hd Hg.
  assert (Hside : forall j v w, volumes !! i = Some v -> volumes !! j = Some w -> i <> j -> is_claim (g v) = true -> is_claim w = true ->
    vol_claimName (g v) = vol_claimName w -> vol_claimName (g v) = "").
  { intros j v w Hv Hw Hne Hcg Hcw He. destruct (Hg v Hv Hcg) as [[Hcv Hsame]|Hnew].
    - rewrite Hsame in *. by apply (Hd i j v w).
    - destruct Hnew. apply using_claim. exists j, w. by rewrite He. }
  intros j k vj vk. rewrite !list_lookup_alter. destruct (decide (i = j)) as [<-|Hj], (decide (i = k)) as [<-|Hk]; [done| | |by apply Hd].
  - intros (v & Hv & ->)%fmap_Some_1 Hvk Hne. by apply (Hside k v vk).
  - intros Hvj (v & Hv & ->)%fmap_Some_1 Hne Hcj Hcg He. rewrite He. by apply (Hside j v vj).
Qed.

Lemma distinct_event p s e : distinct_claims (vf_volumes s) -> reuses_claim s e = false ->
  distinct_claims (vf_volumes (volumes_event p s e)).
Proof.
  intros Hd Hr. unfold volumes_event. destruct (may_do p s e) eqn:Hm; [|done].
  destruct e as [|i|i t|i c|i path size class hostPath|t|n]; cbn [set_volumes vf_volumes]; [| | | | |done|done].
  - intros i j vi vj Hi Hj Hne Hci Hcj He.
    assert (Hnew : forall k v, (vf_volumes s ++ [getDefaultAddValues p s]) !! k = Some v -> is_claim v = true ->
      vf_volumes s !! k = Some v).
    { intros k v [Hk|[_ Hk]]%lookup_app_Some Hc; [done|]. apply list_lookup_singleton_Some in Hk as [_ <-]. revert Hc.
      unfold getDefaultAddValues. repeat case_match; done. }
    apply (Hd i j vi vj); auto.
  - intros j k vj vk Hj Hk Hne. 
    assert (Hback : forall l v, base.delete i (vf_volumes s) !! l = Some v -> vf_volumes s !! (if Nat.ltb l i then l else S l) = Some v).
    { intros l v Hl. destruct (Nat.ltb_spec l i); [by rewrite list_lookup_delete_lt in Hl|by rewrite list_lookup_delete_ge in Hl]. }
    apply Hback in Hj. apply Hback in Hk. apply (Hd _ _ vj vk Hj Hk).
    destruct (Nat.ltb_spec j i), (Nat.ltb_spec k i); lia.
  - apply distinct_alter; [done|]. intros v Hv Hc. unfold is_claim in Hc. cbn in Hc. cbn [reuses_claim] in Hr. rewrite Hv, Hc in Hr.
    cbn in Hr. destruct (is_claim v) eqn:Ev; [left; done|]. right. cbn in Hr. by apply bool_decide_eq_false in Hr.
  - apply distinct_alter; [done|]. intros v Hv Hc. cbn [may_do] in Hm. rewrite Hv in Hm. cbn [from_option] in Hm.
    unfold getFieldComponents in Hm. unfold is_claim in Hc. cbn in Hc. rewrite Hc in Hm. cbn in Hm.
    apply Bool.andb_true_iff in Hm as [_ Hin]. apply bool_decide_eq_true in Hin. unfold getClaimNameOptions in Hin.
    apply list_elem_of_fmap in Hin as (vo & -> & Hvo). rewrite list_elem_of_In, filter_In in Hvo. destruct Hvo as [_ Hvo].
    apply Bool.orb_true_iff in Hvo as [Hsame|Hnew].
    + left. apply seqb_true in Hsame. split; [exact Hc|exact Hsame].
    + right. by apply Bool.negb_true_iff, bool_decide_eq_false in Hnew.
  - apply distinct_alter; [done|]. intros v Hv Hc. left. done.
Qed.

Lemma own_type_offered p s t t0 : t ∈ getTypeOptions p s t0 -> shouldDisabledStatefulSetPvcTemplate p t0 = false ->
  t ∈ getTypeOptions p s t.
Proof.
  unfold getTypeOptions. intros Hin Hd. rewrite Hd in Hin. repeat case_match; set_solver.
Qed.

Lemma default_offered p s : vf_workloadType s ∈ workloads ->
  vol_type (getDefaultAddValues p s) ∈ getTypeOptions p s (vol_type (getDefaultAddValues p s)).
Proof.
  unfold workloads, getTypeOptions, getDefaultAddValues. rewrite !elem_of_cons. intros [->|[->|[->|[->|[]%not_elem_of_nil]]]];
    cbn; try (destruct (isEdit p); cbn); set_solver.
Qed.

Lemma types_event p s e : types_offered p s -> types_offered p (volumes_event p s e).
Proof.
  intros [Hw Ht]. unfold volumes_event. destruct (may_do p s e) eqn:Hm; [|done].
  destruct e as [|i|i t|i c|i path size class hostPath|t|n]; cbn [set_volumes vf_volumes].
  - split; [done|]. apply Forall_app. split; [exact Ht|]. constructor; [exact (default_offered p s Hw)|done].
  - split; [done|]. exact (Forall_delete _ _ i Ht).
  - split; [done|]. apply Forall_alter; [done|]. intros v Hv _. cbn [may_do] in Hm. rewrite Hv in Hm. cbn [from_option] in Hm.
    apply Bool.andb_true_iff in Hm as [Hd Hin]. apply Bool.negb_true_iff in Hd. apply bool_decide_eq_true in Hin.
    exact (own_type_offered p s t (vol_type v) Hin Hd).
  - split; [done|]. by apply Forall_alter.
  - split; [done|]. by apply Forall_alter.
  - cbn [may_do] in Hm. apply Bool.andb_true_iff in Hm as [Hm Hin]. apply Bool.andb_true_iff in Hm as [_ Hl].
    apply bool_decide_eq_true in Hin. apply Nat.eqb_eq, length_zero_iff_nil in Hl. split; [done|]. cbn. rewrite Hl. constructor.
  - split; [done|]. exact Ht.
Qed.

(** C20: The volumes of a form stay consistent under everything the form lets the
    user do: the type of each volume is among the options its select offers for
    the workload type, also after a change of the workload type, and no two
    volumes mount the same existing disk, unless a volume is turned back to an
    existing disk whose claim another volume has taken meanwhile. *)
Theorem volumes_consistent p s events : types_offered p s -> distinct_claims (vf_volumes s) -> never_reuses p s events = true ->
  types_offered p (volumes_events p events s) /\ distinct_claims (vf_volumes (volumes_events p events s)).
Proof.
  revert s. induction events as [|e events IH]; intros s Ht Hd Hn; [done|]. cbn [never_reuses] in Hn.
  apply Bool.andb_true_iff in Hn as [Hr Hn]. apply Bool.negb_true_iff in Hr.
  apply IH; [by apply types_event|by apply distinct_event|done].
Qed.

(** ** Concrete forms *)

Definition sample_option (name : string) (component : option string) : VolumeOption :=
  mkVolumeOption name false None component "10Gi" name "" "standard".
Definition sample_volumes_props : VolumesProps :=
  mkVolumesProps [sample_option "data" (Some "db")] [sample_option "a" None; sample_option "b" None] [] "".
Definition server_form : VolumesForm := mkVolumesForm "web" workloadTypeServer [].
Definition two_disks : list VolumesEvent :=
  [AddVolume; ChooseType 0 VolumeTypePersistentVolumeClaim; ChooseClaim 0 "a";
   AddVolume; ChooseType 1 VolumeTypePersistentVolumeClaim; ChooseClaim 1 "a"; ChooseClaim 1 "b"].

Lemma volumes_consistent_witness :
  types_offered sample_volumes_props (volumes_events sample_volumes_props two_disks server_form) /\
  (vol_claimName <$> vf_volumes (volumes_events sample_volumes_props two_disks server_form)) = ["a"; "b"].
Proof.
  destruct (volumes_consistent sample_volumes_props server_form two_disks) as [Ht _].
  - split; [by left|constructor].
  - intros i j vi vj Hi. by destruct i.
  - reflexivity.
  - split; [exact Ht|reflexivity].
Defined.

(** The claim of a volume survives a change of its type, so two volumes can mount
    one disk. *)
Example claim_taken_twice :
  (fun v => (vol_type v, vol_claimName v)) <$>
    vf_volumes (volumes_events sample_volumes_props
      [AddVolume; ChooseType 0 VolumeTypePersistentVolumeClaim; ChooseClaim 0 "a"; ChooseType 0 VolumeTypeTemporaryDisk;
       AddVolume; ChooseType 1 VolumeTypePersistentVolumeClaim; ChooseClaim 1 "a"; ChooseType 0 VolumeTypePersistentVolumeClaim]
      server_form) = [(VolumeTypePersistentVolumeClaim, "a"); (VolumeTypePersistentVolumeClaim, "a")].
Proof. reflexivity. Qed.

(** The claims of disk groups are not counted: two volumes may take one group. *)
Example group_taken_twice :
  (fun v => (vol_type v, vol_claimName v)) <$>
    vf_volumes (volumes_events sample_volumes_props
      [AddVolume; ChooseType 0 VolumeTypePersistentVolumeClaimTemplate; ChooseClaim 0 "data";
       AddVolume; ChooseType 1 VolumeTypePersistentVolumeClaimTemplate; ChooseClaim 1 "data"]
      (mkVolumesForm "db" workloadTypeStatefulSet [])) =
  [(VolumeTypePersistentVolumeClaimTemplate, "data"); (VolumeTypePersistentVolumeClaimTemplate, "data")].
Proof. reflexivity. Qed.
