(* ===== verification/WorkloadViews.v ===== *)
(** The views of applications, components and pods: the badges, counts and charts
    that several pages compute from the same pods, each with its own code.

    pages/Application/Detail.tsx, pages/Application/List.tsx,
    widgets/ApplicationCard/index.tsx, widgets/ComponentStatus/index.tsx,
    pages/Components/PodsTable.tsx, pages/Components/ComponentPanel.tsx,
    pages/Components/BrifeInfo.tsx, pages/Components/BasicInfo.tsx and
    pages/Components/Status.tsx. *)

From S2P Require Import Prelude JsString JsNumber ResourceTypes Utils LogStream.

Inductive Badge := SuccessBadge | PendingBadge | ErrorBadge.

(** ** Badges *)

Module Badges.

(** [renderPodStatus] of widgets/ComponentStatus, with an unused copy in Detail.tsx:
    nothing for an unknown status. *)
Definition renderPodStatus (pod : PodStatus) : option Badge :=
  if pod_isTerminating pod then Some PendingBadge
  else if seqb (pod_status pod) "Running" then Some SuccessBadge
  else if seqb (pod_status pod) "Pending" then Some PendingBadge
  else if seqb (pod_status pod) "Succeeded" then Some SuccessBadge
  else if seqb (pod_status pod) "Failed" then Some ErrorBadge
  else None.

(** [renderPodStatus] of PodsTable.tsx *)
Definition table_pod_status (pod : PodStatus) : Badge :=
  if pod_isTerminating pod then PendingBadge
  else if seqb (pod_status pod) "Running" then SuccessBadge
  else if seqb (pod_status pod) "Pending" then PendingBadge
  else if seqb (pod_status pod) "Succeeded" then SuccessBadge
  else if seqb (pod_status pod) "Failed" then ErrorBadge
  else SuccessBadge.

(** [ComponentStatus] of pages/Components/Status.tsx, which the panel of a component
    renders; Detail.tsx has an unused copy, [renderComponentStatus]. *)
Record Flags := mkFlags { isError : bool; isPending : bool }.
Definition component_flags (flags : Flags) (pod : PodStatus) : Flags :=
  if pod_isTerminating pod then mkFlags (isError flags) true
  else if seqb (pod_status pod) "Pending" then mkFlags (isError flags) true
  else if seqb (pod_status pod) "Failed" then mkFlags true (isPending flags)
  else flags.
Definition ComponentStatus (component : ApplicationComponentDetails) : Badge :=
  let flags := foldl component_flags (mkFlags false false) (cd_pods component) in
  if isError flags then ErrorBadge else if isPending flags then PendingBadge else SuccessBadge.

End Badges.

(** ** Counts *)

Module Counts.

(** [getPodsNumber] *)
Definition running_count (count : nat) (pod : PodStatus) : nat :=
  if seqb (pod_status pod) "Succeeded" || seqb (pod_status pod) "Running" then count + 1 else count.
Definition getPodsNumber (component : ApplicationComponentDetails) : string :=
  nat_to_string (foldl running_count 0 (cd_pods component)) +:+ "/" +:+ nat_to_string (length (cd_pods component)).

(** [getPieChartData] of Detail.tsx: the counters of the two loops. *)
Record PieChart := mkPieChart {
  componentSuccess : nat; componentPending : nat; componentError : nat;
  podSuccess : nat; podPending : nat; podError : nat
}.

Definition pie_pod (acc : (nat * nat * nat) * (bool * bool)) (pod : PodStatus) : (nat * nat * nat) * (bool * bool) :=
  let '((success, pending, error), (hasError, hasPending)) := acc in
  if seqb (pod_status pod) "Succeeded" || seqb (pod_status pod) "Running" then ((success + 1, pending, error), (hasError, hasPending))
  else if seqb (pod_status pod) "Failed" then ((success, pending, error + 1), (true, hasPending))
  else ((success, pending + 1, error), (hasError, true)).

Definition pie_component (d : PieChart) (component : ApplicationComponentDetails) : PieChart :=
  let '((success, pending, error), (hasError, hasPending)) :=
    foldl pie_pod ((podSuccess d, podPending d, podError d), (false, false)) (cd_pods component) in
  if hasError then mkPieChart (componentSuccess d) (componentPending d) (componentError d + 1) success pending error
  else if hasPending then mkPieChart (componentSuccess d) (componentPending d + 1) (componentError d) success pending error
  else mkPieChart (componentSuccess d + 1) (componentPending d) (componentError d) success pending error.

Definition getPieChartData (components : list ApplicationComponentDetails) : PieChart :=
  foldl pie_component (mkPieChart 0 0 0 0 0 0) components.

(** [getPieChartData] of ApplicationCard: also the sums. *)
Record CardChart := mkCardChart { componentSize : nat; podSize : nat; card_chart : PieChart }.
Definition card_getPieChartData (components : list ApplicationComponentDetails) : CardChart :=
  let d := foldl pie_component (mkPieChart 0 0 0 0 0 0) components in
  mkCardChart (componentSuccess d + componentPending d + componentError d) (podSuccess d + podPending d + podError d) d.

(** [getPieChartData] of ComponentStatus: one component's pods. *)
Definition status_pod (acc : nat * nat * nat) (pod : PodStatus) : nat * nat * nat :=
  let '(success, pending, error) := acc in
  if seqb (pod_status pod) "Succeeded" || seqb (pod_status pod) "Running" then (success + 1, pending, error)
  else if seqb (pod_status pod) "Failed" then (success, pending, error + 1)
  else (success, pending + 1, error).
Definition status_getPieChartData (component : option ApplicationComponentDetails) : nat * nat * nat :=
  foldl status_pod (0, 0, 0) (from_option cd_pods [] component).

(** The pods ComponentStatus lists, by status. *)
Definition status_pods (component : ApplicationComponentDetails) : list PodStatus :=
  let having status := List.filter (fun pod => seqb (pod_status pod) status) (cd_pods component) in
  having "Failed" ++ having "Pending" ++ having "Running" ++ having "Succeeded".

(** [renderStatus] of pages/Application/List.tsx: the four counters. *)
Record ListCounts := mkListCounts { podCount : nat; successCount : nat; pendingCount : nat; errorCount : nat }.
Definition count_pod (c : ListCounts) (podStatus : PodStatus) : ListCounts :=
  let n := podCount c + 1 in
  if seqb (pod_status podStatus) "Running" then mkListCounts n (successCount c + 1) (pendingCount c) (errorCount c)
  else if seqb (pod_status podStatus) "Pending" then mkListCounts n (successCount c) (pendingCount c + 1) (errorCount c)
  else if seqb (pod_status podStatus) "Succeeded" then mkListCounts n (successCount c + 1) (pendingCount c) (errorCount c)
  else if seqb (pod_status podStatus) "Failed" then mkListCounts n (successCount c) (pendingCount c) (errorCount c + 1)
  else mkListCounts n (successCount c) (pendingCount c) (errorCount c).
Definition list_counts (components : list ApplicationComponentDetails) : ListCounts :=
  foldl (fun c component => foldl count_pod c (cd_pods component)) (mkListCounts 0 0 0 0) components.

(** [renderComponentStatus] of BrifeInfo.tsx and BasicInfo.tsx *)
Definition brief_pod (acc : nat * nat * nat) (pod : PodStatus) : nat * nat * nat :=
  let '(running, pending, error) := acc in
  if pod_isTerminating pod then (running, pending + 1, error)
  else if seqb (pod_status pod) "Pending" then (running, pending + 1, error)
  else if seqb (pod_status pod) "Failed" then (running, pending, error + 1)
  else if seqb (pod_status pod) "Running" || seqb (pod_status pod) "Succeeded" then (running + 1, pending, error)
  else (running, pending, error).
Definition brief_counts (component : ApplicationComponentDetails) : nat * nat * nat := foldl brief_pod (0, 0, 0) (cd_pods component).
Definition brief_component_status (component : ApplicationComponentDetails) : string :=
  let '(running, pending, error) := brief_counts component in
  let part label n := if Nat.ltb 0 n then label +:+ ": " +:+ nat_to_string n +:+ " " else "" in
  part "Running" running +:+ part "Pending" pending +:+ part "Error" error.

(** [hasPods] of List.tsx and ApplicationCard *)
Definition hasPods (components : list ApplicationComponentDetails) : bool :=
  negb (Nat.eqb (foldl (fun count component => foldl (fun count _ => count + 1) count (cd_pods component)) 0 components) 0).

End Counts.
Import Counts.

(** ** The list of applications *)

Section application_list.
Context (componentsMap : gmap string (list ApplicationComponentDetails)) (httpRoutes : list HttpRoute).
Context (canViewNamespace canEditNamespace : string -> bool) (canEditCluster : bool).

Definition components_of (name : string) : list ApplicationComponentDetails := default [] (componentsMap !! name).

Inductive StatusCell := NoPods | PodCounts (tooltip : string) (shown : list (Badge * nat)).
Definition renderStatus (app : ApplicationDetails) : StatusCell :=
  let c := list_counts (components_of (app_name app)) in
  if negb (canViewNamespace (app_name app)) || Nat.eqb (podCount c) 0 then NoPods
  else PodCounts
    ("Total " +:+ nat_to_string (podCount c) +:+ " pods are found. " +:+ String "010" "" +:+ nat_to_string (successCount c) +:+
     " ready, " +:+ nat_to_string (pendingCount c) +:+ " pending, " +:+ nat_to_string (errorCount c) +:+
     " failed. Click to view details.")
    (List.filter (fun b => Nat.ltb 0 b.2) [(SuccessBadge, successCount c); (PendingBadge, pendingCount c); (ErrorBadge, errorCount c)]).

Definition is_current (applicationName : string) (target : HttpRouteDestination) : bool :=
  match split_char "." (dest_host target) !! 1 with
  | Some "" | None => false
  | Some namespace => startsWith applicationName namespace
  end.
Definition getRoutes (applicationName : string) : list HttpRoute :=
  List.filter (fun x => existsb (is_current applicationName) (route_destinations x)) httpRoutes.

Definition renderExternalAccesses (app : ApplicationDetails) : string :=
  let applicationRoutes := getRoutes (app_name app) in
  if Nat.ltb 0 (length applicationRoutes) && canViewNamespace (app_name app)
  then pluralize "route" (Z.of_nat (length applicationRoutes)) else "-".

(** The row of an application: its name as a link or not, its cells, whether
    details can be opened and whether it can be deleted. *)
Record ApplicationRow := mkApplicationRow {
  row_name : string; row_linked : bool; row_status : StatusCell; row_chart_text : string; row_routes : string;
  row_details : option string; row_deletable : bool
}.
Definition application_row (app : ApplicationDetails) : ApplicationRow :=
  mkApplicationRow (app_name app) (canViewNamespace (app_name app)) (renderStatus app)
    (if hasPods (components_of (app_name app)) then "" else "No data") (renderExternalAccesses app)
    (if canViewNamespace (app_name app) then Some ("/applications/" +:+ app_name app +:+ "/components") else None)
    canEditCluster.

Definition getKRTableData (applications : list ApplicationDetails) : list ApplicationRow :=
  application_row <$> List.filter (fun app => canViewNamespace (app_name app) || canEditNamespace (app_name app)) applications.

(** The cards: the application, its routes and whether it can be edited. *)
Definition renderGrid (applications : list ApplicationDetails) : list (ApplicationDetails * list HttpRoute * bool) :=
  (fun app => (app, getRoutes (app_name app), canEditNamespace (app_name app))) <$>
    List.filter (fun app => canEditNamespace (app_name app) || canViewNamespace (app_name app)) applications.

Inductive ApplicationsView :=
| ApplicationsLoading | NoApplications
| ApplicationCards (cards : list (ApplicationDetails * list HttpRoute * bool)) | ApplicationTable (rows : list ApplicationRow).
Definition applications_view (loading firstLoaded usingApplicationCard : bool) (applications : list ApplicationDetails) :
    ApplicationsView :=
  if loading && negb firstLoaded then ApplicationsLoading
  else if Nat.eqb (length applications) 0 then NoApplications
  else if usingApplicationCard then ApplicationCards (renderGrid applications)
  else ApplicationTable (getKRTableData applications).

End application_list.

(** ** The table of pods *)

Record PodRow := mkPodRow {
  prow_badge : Badge; prow_popover : option (list string); prow_name : string; prow_node : string; prow_restarts : number;
  prow_status : string; prow_log : PodRef; prow_canEdit : bool
}.
Fixpoint numbered (i : nat) (l : list string) : list string :=
  match l with [] => [] | m :: l' => (nat_to_string i +:+ ". " +:+ m) :: numbered (S i) l' end.
Definition pod_row (canEdit : bool) (pod : PodStatus) : PodRow :=
  mkPodRow (Badges.table_pod_status pod)
    (if seqb (pod_status pod) "Failed" then Some (numbered 1 (warning_message <$> pod_warnings pod)) else None)
    (pod_name pod) (pod_node pod) (pod_restarts pod) (pod_statusText pod) (pod_name pod, log_container pod) canEdit.
Definition pods_table (canEdit : bool) (pods : list PodStatus) : list PodRow := pod_row canEdit <$> pods.

(** What deleting a pod dispatches, with the answer of [api.deletePod]. *)
Inductive PodDeleted := NotifySuccess (message : string) | NotifyError (message : string) | LoadComponents (ns : string) | LoadApplication (ns : string).
Definition delete_pod_confirmed (activeNamespaceName : string) (pod : PodStatus) (answer : result unit) : list PodDeleted :=
  match answer with
  | Ok _ => [NotifySuccess ("Delete pod " +:+ pod_name pod +:+ " successfully"); LoadComponents activeNamespaceName;
             LoadApplication activeNamespaceName]
  | Throw message => [NotifyError message]
  end.

(** The warnings of all pods (Detail.tsx). *)
Definition getWarningsKRTableData (components : list ApplicationComponentDetails) : list (string * string * string) :=
  c ← components; p ← cd_pods c; w ← pod_warnings p; [(comp_name (cd_component c), pod_name p, warning_message w)].

(** ** The facts of one component (BrifeInfo.tsx) *)

Definition NetworkingTab : string := "Networking".
Definition HealthTab : string := "Health".

Definition truthy_text (s : option string) : option string := match s with Some "" | None => None | Some t => Some t end.

(** A limit and a request; the memory is first converted by [toMi]. *)
Definition limit_texts (convert : string -> string) (limit request : option string) : string * string :=
  (from_option (fun l => "Limit: " +:+ convert l) "Limit Not Set" (truthy_text limit),
   from_option (fun r => "Request: " +:+ convert r) "Request Not Set" (truthy_text request)).

(** The ports shown, or the address of the form's tab that adds them.  A missing
    service port is [NaN] here; the code takes the container port only then. *)
Definition port_shown (p : ComponentLikePort) : string * number :=
  (port_protocol p, if isNaN (servicePort p) then containerPort p else servicePort p).
Definition renderPorts (activeNamespaceName : string) (component : ComponentLike) : list (string * number) + string :=
  match comp_ports component with
  | Some (p :: ports) => inl (port_shown <$> p :: ports)
  | _ => inr ("/applications/" +:+ activeNamespaceName +:+ "/components/" +:+ comp_name component +:+ "/edit#" +:+ NetworkingTab)
  end.

Definition getProbeType (probe : Probe) : string :=
  match probe_httpGet probe, probe_exec probe, probe_tcpSocket probe with
  | Some _, _, _ => "httpGet"
  | None, Some _, _ => "exec"
  | None, None, Some _ => "tcpSocket"
  | None, None, None => "unknown"
  end.

(** The two lines of [renderHealth] and the address of the tab that adds a probe. *)
Definition renderHealth (activeNamespaceName : string) (component : ComponentLike) : option string * option string * option string :=
  let line name p := p ≫= fun probe => Some (getProbeType probe +:+ " " +:+ name +:+ " probe configured.") in
  (line "readiness" (comp_readinessProbe component), line "liveness" (comp_livenessProbe component),
   match comp_readinessProbe component, comp_livenessProbe component with
   | Some _, Some _ => None
   | _, _ => Some ("/applications/" +:+ activeNamespaceName +:+ "/components/" +:+ comp_name component +:+ "/edit#" +:+ HealthTab)
   end).

Definition renderCopiableValue (value : option string) : option string := truthy_text value.
Definition some_items {A : Type} (l : option (list A)) : option (list A) :=
  match l with Some (x :: l') => Some (x :: l') | _ => None end.
Definition disks_title (disks : list Volume) : string :=
  nat_to_string (length disks) +:+ " " +:+ (if Nat.ltb 1 (length disks) then "disks" else "disk").

(** ** Reference counts *)

Definition badge_eqb (a b : Badge) : bool :=
  match a, b with
  | SuccessBadge, SuccessBadge | PendingBadge, PendingBadge | ErrorBadge, ErrorBadge => true
  | _, _ => false
  end.

(** The class of a pod: anything that neither runs nor failed is pending. *)
Definition pod_class (pod : PodStatus) : Badge :=
  if seqb (pod_status pod) "Succeeded" || seqb (pod_status pod) "Running" then SuccessBadge
  else if seqb (pod_status pod) "Failed" then ErrorBadge else PendingBadge.

Definition is_class {A : Type} (class : A -> Badge) (b : Badge) (x : A) : bool := badge_eqb (class x) b.
Definition count_class {A : Type} (class : A -> Badge) (b : Badge) (l : list A) : nat := length (List.filter (is_class class b) l).

(** The worst class among the pods of a component. *)
Definition worst (component : ApplicationComponentDetails) : Badge :=
  if existsb (is_class pod_class ErrorBadge) (cd_pods component) then ErrorBadge
  else if existsb (is_class pod_class PendingBadge) (cd_pods component) then PendingBadge else SuccessBadge.

Definition all_pods (components : list ApplicationComponentDetails) : list PodStatus := components ≫= cd_pods.

Lemma count_class_cons {A : Type} (class : A -> Badge) b x l :
  count_class class b (x :: l) = (if is_class class b x then 1 else 0) + count_class class b l.
Proof. unfold count_class. cbn. by destruct (is_class class b x). Qed.

Lemma count_class_app {A : Type} (class : A -> Badge) b l1 l2 :
  count_class class b (l1 ++ l2) = count_class class b l1 + count_class class b l2.
Proof. unfold count_class. by rewrite List.filter_app, length_app. Qed.

Lemma count_class_total {A : Type} (class : A -> Badge) l :
  count_class class SuccessBadge l + count_class class PendingBadge l + count_class class ErrorBadge l = length l.
Proof.
  induction l as [|x l IH]; [done|]. rewrite !count_class_cons. unfold is_class. cbn [length]. destruct (class x); cbn [badge_eqb]; lia.
Qed.

Lemma is_class_of {A : Type} (class : A -> Badge) b x : is_class class b x = badge_eqb (class x) b.
Proof. done. Qed.

(** Tuples of counters. *)
Ltac tuple_lia := repeat match goal with |- (_, _) = (_, _) => f_equal end; try done; lia.

(** The counters of the loop over the pods. *)
Lemma pie_pods pods s p e he hp :
  foldl pie_pod ((s, p, e), (he, hp)) pods =
  ((s + count_class pod_class SuccessBadge pods, p + count_class pod_class PendingBadge pods,
    e + count_class pod_class ErrorBadge pods),
   (he || existsb (is_class pod_class ErrorBadge) pods, hp || existsb (is_class pod_class PendingBadge) pods)).
Proof.
  revert s p e he hp. induction pods as [|pod pods IH]; intros s p e he hp; cbn [foldl existsb].
  { rewrite !Nat.add_0_r, !Bool.orb_false_r. done. }
  rewrite !count_class_cons, !is_class_of. unfold pie_pod at 2.
  assert (Hc : pod_class pod = if seqb (pod_status pod) "Succeeded" || seqb (pod_status pod) "Running" then SuccessBadge
    else if seqb (pod_status pod) "Failed" then ErrorBadge else PendingBadge) by done. revert Hc.
  destruct (seqb (pod_status pod) "Succeeded" || seqb (pod_status pod) "Running"); [|destruct (seqb (pod_status pod) "Failed")];
    intros ->; rewrite IH; cbn [badge_eqb orb]; rewrite ?Bool.orb_true_r, ?Bool.orb_true_l; tuple_lia.
Qed.

Lemma pie_components components d :
  foldl pie_component d components =
  mkPieChart (componentSuccess d + count_class worst SuccessBadge components)
    (componentPending d + count_class worst PendingBadge components) (componentError d + count_class worst ErrorBadge components)
    (podSuccess d + count_class pod_class SuccessBadge (all_pods components))
    (podPending d + count_class pod_class PendingBadge (all_pods components))
    (podError d + count_class pod_class ErrorBadge (all_pods components)).
Proof.
  revert d. induction components as [|c components IH]; intros d; cbn [foldl].
  { destruct d. cbn. f_equal; lia. }
  unfold all_pods in *. cbn [mbind list_bind]. rewrite IH, !count_class_cons, !count_class_app. unfold pie_component.
  rewrite pie_pods. cbn [orb].
  rewrite !(is_class_of worst). 
  assert (Hw : worst c = if existsb (is_class pod_class ErrorBadge) (cd_pods c) then ErrorBadge
    else if existsb (is_class pod_class PendingBadge) (cd_pods c) then PendingBadge else SuccessBadge) by done. revert Hw.
  destruct (existsb (is_class pod_class ErrorBadge) (cd_pods c));
    [|destruct (existsb (is_class pod_class PendingBadge) (cd_pods c))]; intros ->; cbn [badge_eqb componentSuccess componentPending componentError podSuccess podPending podError]; f_equal; lia.
Qed.

(** C26: The charts partition what they count.  The chart of an application's page
    and of its card count each component once, by the worst of its pods, and each
    pod once; so the card's totals are the numbers of components and of pods. *)
Theorem pie_chart_partition components :
  getPieChartData components =
    mkPieChart (count_class worst SuccessBadge components) (count_class worst PendingBadge components)
      (count_class worst ErrorBadge components) (count_class pod_class SuccessBadge (all_pods components))
      (count_class pod_class PendingBadge (all_pods components)) (count_class pod_class ErrorBadge (all_pods components)) /\
  card_chart (card_getPieChartData components) = getPieChartData components /\
  componentSize (card_getPieChartData components) = length components /\
  podSize (card_getPieChartData components) = length (all_pods components).
Proof.
  unfold card_getPieChartData, getPieChartData. rewrite pie_components. cbn. split; [done|]. split; [done|].
  split; apply count_class_total.
Qed.

(** ** Agreement of the views *)

(** One of the four phases, and not terminating. *)
Definition settled (pod : PodStatus) : bool :=
  negb (pod_isTerminating pod) && existsb (seqb (pod_status pod)) ["Running"; "Pending"; "Succeeded"; "Failed"].

Lemma settled_cases pod : settled pod = true ->
  pod_isTerminating pod = false /\
  (pod_status pod = "Running" \/ pod_status pod = "Pending" \/ pod_status pod = "Succeeded" \/ pod_status pod = "Failed").
Proof.
  unfold settled. rewrite existsb_seqb, Bool.andb_true_iff, Bool.negb_true_iff, bool_decide_eq_true, !elem_of_cons, elem_of_nil.
  naive_solver.
Qed.

Ltac settled_split pod H :=
  let Ht := fresh "Ht" in let Hs := fresh "Hs" in
  destruct (settled_cases pod H) as [Ht [Hs|[Hs|[Hs|Hs]]]].

Lemma list_pods pods n s p e : Forall (fun pod => settled pod = true) pods ->
  foldl count_pod (mkListCounts n s p e) pods =
  mkListCounts (n + length pods) (s + count_class pod_class SuccessBadge pods) (p + count_class pod_class PendingBadge pods)
    (e + count_class pod_class ErrorBadge pods).
Proof.
  intros Hall. revert n s p e. induction Hall as [|pod pods Hpod _ IH]; intros n s p e; cbn [foldl length].
  { cbn. f_equal; lia. }
  rewrite !count_class_cons, !is_class_of. unfold count_pod at 2, pod_class at 1 3 5.
  settled_split pod Hpod; rewrite Hs; eval_seqb; cbn [badge_eqb podCount successCount pendingCount errorCount];
    rewrite IH; f_equal; lia.
Qed.

Lemma list_components components n s p e : Forall (fun pod => settled pod = true) (all_pods components) ->
  foldl (fun c component => foldl count_pod c (cd_pods component)) (mkListCounts n s p e) components =
  mkListCounts (n + length (all_pods components)) (s + count_class pod_class SuccessBadge (all_pods components))
    (p + count_class pod_class PendingBadge (all_pods components)) (e + count_class pod_class ErrorBadge (all_pods components)).
Proof.
  revert n s p e. induction components as [|c components IH]; intros n s p e Hall; [cbn; f_equal; lia|].
  unfold all_pods in *. cbn [mbind list_bind foldl] in *. apply Forall_app in Hall as [Hc Hall].
  rewrite list_pods, IH, !count_class_app, length_app by done. f_equal; lia.
Qed.

Lemma status_pods_fold pods s p e :
  foldl status_pod (s, p, e) pods =
  (s + count_class pod_class SuccessBadge pods, p + count_class pod_class PendingBadge pods, e + count_class pod_class ErrorBadge pods).
Proof.
  revert s p e. induction pods as [|pod pods IH]; intros s p e; [cbn; tuple_lia|].
  cbn [foldl]. rewrite !count_class_cons, !is_class_of. unfold status_pod at 2, pod_class at 1 3 5.
  destruct (_ || _); [|destruct (seqb (pod_status pod) "Failed")]; rewrite IH; cbn [badge_eqb]; tuple_lia.
Qed.

Lemma brief_pods_fold pods s p e : Forall (fun pod => settled pod = true) pods ->
  foldl brief_pod (s, p, e) pods = foldl status_pod (s, p, e) pods.
Proof.
  intros Hall. revert s p e. induction Hall as [|pod pods Hpod _ IH]; intros s p e; [done|]. cbn [foldl].
  unfold brief_pod at 2, status_pod at 2. settled_split pod Hpod; rewrite Ht, Hs; eval_seqb; apply IH.
Qed.

Lemma component_badge pods he hp : Forall (fun pod => settled pod = true) pods ->
  foldl Badges.component_flags (Badges.mkFlags he hp) pods =
  Badges.mkFlags (he || existsb (is_class pod_class ErrorBadge) pods) (hp || existsb (is_class pod_class PendingBadge) pods).
Proof.
  intros Hall. revert he hp. induction Hall as [|pod pods Hpod _ IH]; intros he hp; cbn [foldl existsb].
  { by rewrite !Bool.orb_false_r. }
  rewrite !is_class_of. unfold Badges.component_flags at 2, pod_class at 1 3.
  settled_split pod Hpod; rewrite Ht, Hs; eval_seqb; cbn [badge_eqb Badges.isError Badges.isPending];
    rewrite IH; cbn [orb]; by rewrite ?Bool.orb_true_r, ?Bool.orb_true_l.
Qed.

Lemma status_pods_perm pods : Forall (fun pod => settled pod = true) pods ->
  let having status := List.filter (fun pod => seqb (pod_status pod) status) pods in
  having "Failed" ++ having "Pending" ++ having "Running" ++ having "Succeeded" ≡ₚ pods.
Proof.
  intros Hall having. subst having. induction Hall as [|pod pods Hpod _ IH]; [done|]. cbn [List.filter].
  settled_split pod Hpod; rewrite Hs; eval_seqb; (eapply Permutation_trans; [|apply perm_skip; exact IH]); solve_Permutation.
Qed.

(** C27: The views agree.  When each pod has one of the four phases and none is
    terminating, the list of applications counts what the chart counts, and for
    each component the text, the chart and the badge of its pages say the same,
    its status panel lists each pod once, and all tables give a pod one badge. *)
Theorem views_agree components : Forall (fun pod => settled pod = true) (all_pods components) ->
  (let d := card_getPieChartData components in
   list_counts components =
     mkListCounts (podSize d) (podSuccess (card_chart d)) (podPending (card_chart d)) (podError (card_chart d))) /\
  Forall (fun c =>
    brief_counts c = status_getPieChartData (Some c) /\
    Badges.ComponentStatus c = worst c /\
    status_pods c ≡ₚ cd_pods c /\
    Forall (fun pod => Badges.renderPodStatus pod = Some (pod_class pod) /\ Badges.table_pod_status pod = pod_class pod) (cd_pods c))
    components.
Proof.
  intros Hall. split.
  - unfold card_getPieChartData, list_counts. rewrite pie_components, list_components by done. cbn. by rewrite count_class_total.
  - apply Forall_forall. intros c Hc.
    assert (Hpods : Forall (fun pod => settled pod = true) (cd_pods c)).
    { apply Forall_forall. intros pod Hpod. rewrite Forall_forall in Hall. apply Hall. apply list_elem_of_bind. by exists c. }
    split; [by apply brief_pods_fold|]. split.
    { unfold Badges.ComponentStatus. by rewrite component_badge by done. }
    split; [by apply status_pods_perm|]. apply Forall_forall. intros pod Hpod. rewrite Forall_forall in Hpods.
    specialize (Hpods pod Hpod). unfold Badges.renderPodStatus, Badges.table_pod_status, pod_class.
    settled_split pod Hpods; by rewrite Ht, Hs.
Qed.

(** ** Concrete views *)

Definition view_pod (status : string) (terminating : bool) : PodStatus :=
  mkPodStatus "web-1" "node" status status "" [] "" status (num 0) (num 0) terminating (num 0) [] [] (mkMetrics false [] []).
Definition view_component (pods : list PodStatus) : ApplicationComponentDetails :=
  mkComponentDetails newEmptyComponentLike (mkMetrics false [] []) pods [] (mkIstio None None None None None None None None).

Lemma views_agree_witness :
  let c := view_component [view_pod "Running" false; view_pod "Failed" false] in
  list_counts [c] = mkListCounts 2 1 0 1 /\ Badges.ComponentStatus c = ErrorBadge.
Proof.
  destruct (views_agree [view_component [view_pod "Running" false; view_pod "Failed" false]]) as [Hl Hc]; [by repeat constructor|].
  split; [rewrite Hl; reflexivity|]. inversion Hc as [|? ? (_ & Hw & _) _]. rewrite Hw. reflexivity.
Defined.

(** A terminating pod that still runs: running for the charts, pending for the badges. *)
Example terminating_pod :
  let pod := view_pod "Running" true in let c := view_component [pod] in
  status_getPieChartData (Some c) = (1, 0, 0) /\ brief_counts c = (0, 1, 0) /\
  Badges.ComponentStatus c = PendingBadge /\ podSuccess (getPieChartData [c]) = 1.
Proof. done. Qed.

(** A pod of another status is counted as pending by the charts and shown as a
    success by the table. *)
Example unknown_status :
  let pod := view_pod "Unknown" false in
  status_getPieChartData (Some (view_component [pod])) = (0, 1, 0) /\ Badges.table_pod_status pod = SuccessBadge /\
  Badges.renderPodStatus pod = None /\ status_pods (view_component [pod]) = [].
Proof. done. Qed.

(** The routes of an application include those of applications its name begins. *)
Example routes_of_a_longer_name :
  is_current "web" (mkDestination "api.web-staging.svc.cluster.local" (num 1)) = true /\
  is_current "web" (mkDestination "api.other.svc.cluster.local" (num 1)) = false.
Proof. done. Qed.
