(* ===== verification/NumberFacts.v ===== *)
(** Signs of sums, products and differences of numbers, as far as sums of sizes
    and sorting by a difference need them. *)

From Corelib Require Import Floats.SpecFloat.
From S2P Require Import Prelude JsNumber.

(** A number that is neither [NaN] nor negative nor the negative zero. *)
Definition counting (x : number) : Prop :=
  match x with
  | S754_zero s | S754_infinity s | S754_finite s _ _ => s = false
  | S754_nan => False
  end.

(** The sign of a rounded value is the one asked for. *)
Definition signed (s : bool) (x : number) : Prop :=
  match x with
  | S754_zero s' | S754_infinity s' | S754_finite s' _ _ => s' = s
  | S754_nan => False
  end.

Lemma shr_1_nonneg r : (0 <= shr_m r)%Z -> (0 <= shr_m (shr_1 r))%Z.
Proof. destruct r as [m b s]. cbn. intros Hm. destruct m as [|[p|p|]|]; cbn; lia. Qed.

Lemma iter_shr_nonneg p r : (0 <= shr_m r)%Z -> (0 <= shr_m (SpecFloat.iter_pos shr_1 p r))%Z.
Proof.
  revert r. induction p as [p IH|p IH|]; intros r Hr; cbn [SpecFloat.iter_pos];
    [by apply IH, IH, shr_1_nonneg|by apply IH, IH|by apply shr_1_nonneg].
Qed.

Lemma shr_fexp_nonneg m e l : (0 <= m)%Z -> (0 <= shr_m (shr_fexp 53 1024 m e l).1)%Z.
Proof.
  intros Hm. unfold shr_fexp, shr.
  assert (H0 : (0 <= shr_m (shr_record_of_loc m l))%Z) by (destruct l as [|[]]; done).
  destruct (Z.sub _ e); cbn; [done|by apply iter_shr_nonneg|done].
Qed.

Lemma round_nonneg m l : (0 <= m)%Z -> (0 <= round_nearest_even m l)%Z.
Proof. intros Hm. destruct l as [|[]]; cbn; [done|destruct (Z.even m); lia|done|lia]. Qed.

Lemma binary_round_aux_signed s m e l : (0 <= m)%Z -> signed s (binary_round_aux 53 1024 s m e l).
Proof.
  intros Hm. unfold binary_round_aux. pose proof (shr_fexp_nonneg m e l Hm) as H1.
  destruct (shr_fexp 53 1024 m e l) as [r1 e1]. cbn [fst] in H1.
  pose proof (shr_fexp_nonneg _ e1 loc_Exact (round_nonneg _ (loc_of_shr_record r1) H1)) as H2.
  destruct (shr_fexp 53 1024 (round_nearest_even (shr_m r1) (loc_of_shr_record r1)) e1 loc_Exact) as [r2 e2]. cbn [fst] in H2.
  destruct (shr_m r2); [done| |lia]. by destruct (Z.leb e2 _).
Qed.

Lemma binary_round_signed s p e : signed s (binary_round 53 1024 s p e).
Proof. unfold binary_round. destruct (shl_align p e _) as [m e']. by apply binary_round_aux_signed. Qed.

Lemma counting_normalize z e : (0 <= z)%Z -> counting (binary_normalize 53 1024 z e false).
Proof.
  intros Hz. destruct z as [|p|p]; [done| |lia]. cbn. pose proof (binary_round_signed false p e) as Hs.
  by destruct (binary_round 53 1024 false p e).
Qed.

Lemma counting_num z : (0 <= z)%Z -> counting (num z).
Proof. apply counting_normalize. Qed.

Lemma counting_add x y : counting x -> counting y -> counting (nadd x y).
Proof.
  intros Hx Hy. destruct x as [sx|sx| |sx mx ex]; cbn in Hx; try done; subst sx;
    destruct y as [sy|sy| |sy my ey]; cbn in Hy; try done; subst sy; try done.
  unfold nadd, SFadd. cbn [cond_Zopp]. apply counting_normalize. lia.
Qed.

(** A product with a positive finite factor. *)
Lemma counting_mul x my ey : counting x -> counting (nmul x (S754_finite false my ey)).
Proof.
  intros Hx. destruct x as [sx|sx| |sx mx ex]; cbn in Hx; try done; subst sx; [done|done|].
  unfold nmul, SFmul. cbn [xorb]. pose proof (binary_round_aux_signed false (Zpos (mx * my)) (ex + ey) loc_Exact ltac:(lia)) as Hs.
  by destruct (binary_round_aux 53 1024 false (Zpos (mx * my)) (ex + ey) loc_Exact).
Qed.

(** Zero is neutral on the left. *)
Lemma zero_add x : counting x -> nadd (num 0) x = x.
Proof. destruct x as [[]|[]| |[]]; done. Qed.

(** [if (x)] *)
Definition truthy_number (x : number) : bool := match x with S754_zero _ | S754_nan => false | _ => true end.

Lemma falsy_counting x : counting x -> truthy_number x = false -> x = num 0.
Proof. destruct x as [[]|[]| |[]]; done. Qed.

(** ** Differences *)

Definition is_positive (x : number) : bool := ngt x (num 0).

Lemma signed_positive x : signed true x -> is_positive x = false.
Proof. destruct x as [[]|[]| |[]]; done. Qed.

Lemma normalize_positive z e : is_positive (binary_normalize 53 1024 z e false) = true -> (0 < z)%Z.
Proof.
  destruct z as [|p|p]; [done|lia|]. cbn. intros Hp. pose proof (signed_positive _ (binary_round_signed true p e)) as Hn. congruence.
Qed.

(** Two differences of the same numbers are not both positive. *)
Lemma sub_antisym x y : is_positive (nsub x y) = true -> is_positive (nsub y x) = false.
Proof.
  intros Hp. apply Bool.not_true_iff_false. intros Hq.
  destruct x as [sx|sx| |sx mx ex], y as [sy|sy| |sy my ey]; try done; try (destruct sx; done); try (destruct sy; done);
    try (destruct sx, sy; done).
  unfold nsub, SFsub in Hp, Hq. rewrite Z.min_comm in Hq. apply normalize_positive in Hp, Hq. lia.
Qed.

(** ** Exact scaling by powers of two *)

Lemma digits_bounds p : (2 ^ (Zpos (digits2_pos p) - 1) <= Zpos p < 2 ^ Zpos (digits2_pos p))%Z.
Proof.
  induction p as [p IH|p IH|]; cbn [digits2_pos]; [| |done];
    rewrite Pos2Z.inj_succ; replace (Z.succ (Zpos (digits2_pos p)) - 1)%Z with (Z.succ (Zpos (digits2_pos p) - 1)) by lia;
    rewrite !Z.pow_succ_r by lia; lia.
Qed.

Lemma digits_unique p d : (2 ^ (d - 1) <= Zpos p < 2 ^ d)%Z -> Zpos (digits2_pos p) = d.
Proof.
  intros [Hl Hu]. destruct (digits_bounds p) as [Hl' Hu']. set (q := Zpos (digits2_pos p)) in *.
  assert (0 <= d)%Z by (destruct (Z.lt_ge_cases d 0); [rewrite (Z.pow_neg_r 2 d) in Hu by lia; lia|lia]).
  assert (q - 1 < d)%Z by (apply (Z.pow_lt_mono_r_iff 2); lia).
  assert (d - 1 < q)%Z by (apply (Z.pow_lt_mono_r_iff 2); lia). lia.
Qed.

(** [m] with [k] zeros after it. *)
Definition shifted (m : positive) (k : nat) : positive := Nat.iter k xO m.

Lemma shifted_value m k : Zpos (shifted m k) = (Zpos m * 2 ^ Z.of_nat k)%Z.
Proof.
  induction k as [|k IH]; [cbn; lia|]. change (shifted m (S k)) with (xO (shifted m k)).
  rewrite Nat2Z.inj_succ, Z.pow_succ_r, Pos2Z.inj_xO, IH by lia. lia.
Qed.

Lemma shifted_digits m k : Zpos (digits2_pos (shifted m k)) = (Zpos (digits2_pos m) + Z.of_nat k)%Z.
Proof.
  induction k as [|k IH]; [cbn; lia|]. change (shifted m (S k)) with (xO (shifted m k)). cbn [digits2_pos].
  rewrite Pos2Z.inj_succ, IH. lia.
Qed.

Lemma iter_pos_nat {A : Type} (f : A -> A) p x : SpecFloat.iter_pos f p x = Nat.iter (Pos.to_nat p) f x.
Proof.
  revert x. induction p as [p IH|p IH|]; intros x; cbn [SpecFloat.iter_pos]; rewrite ?IH, <- ?Nat.iter_add.
  - rewrite <- Nat.iter_succ_r. f_equal. lia.
  - f_equal. lia.
  - done.
Qed.

Lemma shr_shifted m k :
  Nat.iter k shr_1 (Build_shr_record (Zpos (shifted m k)) false false) = Build_shr_record (Zpos m) false false.
Proof. induction k as [|k IH]; [done|]. rewrite Nat.iter_succ_r. exact IH. Qed.

Lemma fexp_normal e : (-1074 <= e)%Z -> fexp 53 1024 (53 + e) = e.
Proof. unfold fexp, emin. lia. Qed.

Lemma shr_fexp_shifted m k e : Zpos (digits2_pos m) = 53%Z -> (-1074 <= e)%Z ->
  shr_fexp 53 1024 (Zpos (shifted m k)) (e - Z.of_nat k) loc_Exact = (Build_shr_record (Zpos m) false false, e).
Proof.
  intros Hm He. unfold shr_fexp. cbn [Zdigits2 shr_record_of_loc]. rewrite shifted_digits, Hm.
  replace (53 + Z.of_nat k + (e - Z.of_nat k))%Z with (53 + e)%Z by lia. rewrite fexp_normal by done.
  replace (e - (e - Z.of_nat k))%Z with (Z.of_nat k) by lia. destruct k as [|k].
  - change (Z.of_nat 0) with 0%Z. cbn [shr]. by rewrite Z.sub_0_r.
  - unfold shr. change (Z.of_nat (S k)) with (Zpos (Pos.of_succ_nat k)). cbn match. rewrite iter_pos_nat, SuccNat2Pos.id_succ, shr_shifted.
    change (Zpos (Pos.of_succ_nat k)) with (Z.of_nat (S k)). f_equal. lia.
Qed.

(** A value that has at most 53 significant digits is not rounded. *)
Lemma round_exact s m k e : Zpos (digits2_pos m) = 53%Z -> (-1074 <= e <= 971)%Z ->
  binary_round_aux 53 1024 s (Zpos (shifted m k)) (e - Z.of_nat k) loc_Exact = S754_finite s m e.
Proof.
  intros Hm He. unfold binary_round_aux. rewrite shr_fexp_shifted by (done || lia). cbn [shr_m loc_of_shr_record round_nearest_even].
  pose proof (shr_fexp_shifted m 0 e Hm ltac:(lia)) as H0. change (shifted m 0) with m in H0. change (Z.of_nat 0) with 0%Z in H0.
  rewrite Z.sub_0_r in H0.
  rewrite H0. cbn [shr_m]. destruct (Z.leb_spec e (1024 - 53)); [done|lia].
Qed.

Lemma pos_iter_shifted m p : Pos.iter xO m p = shifted m (Pos.to_nat p).
Proof. unfold shifted. by rewrite Pos2Nat.inj_iter. Qed.

(** The representation of a small integer. *)
Lemma num_small n : (0 < n < 2 ^ 53)%Z -> exists m k,
  num n = S754_finite false m (- Z.of_nat k) /\ Zpos (digits2_pos m) = 53%Z /\ Zpos m = (n * 2 ^ Z.of_nat k)%Z /\ k <= 52.
Proof.
  intros Hn. destruct n as [|p|p]; [lia| |lia]. pose proof (digits_bounds p) as [Hl Hu]. set (d := Zpos (digits2_pos p)) in *.
  assert (Hd : (0 < d <= 53)%Z).
  { split; [lia|]. assert (d - 1 < 53)%Z by (apply (Z.pow_lt_mono_r_iff 2); lia). lia. }
  set (k := Z.to_nat (53 - d)). exists (shifted p k), k.
  assert (Hdig : Zpos (digits2_pos (shifted p k)) = 53%Z) by (rewrite shifted_digits; fold d; lia).
  split; [|split; [done|split; [apply shifted_value|lia]]].
  unfold num. cbn [binary_normalize]. unfold binary_round. fold d. rewrite Z.add_0_r.
  replace d with (53 + (d - 53))%Z at 1 by lia. rewrite fexp_normal by lia. unfold shl_align. rewrite Z.sub_0_r.
  pose proof (round_exact false (shifted p k) 0 (- Z.of_nat k) Hdig ltac:(lia)) as Hr. change (shifted (shifted p k) 0) with (shifted p k) in Hr.
  change (Z.of_nat 0) with 0%Z in Hr. rewrite Z.sub_0_r in Hr. rewrite <- Hr. destruct (d - 53)%Z as [|q|q] eqn:Eq; [|lia|].
  - assert (k = 0) as -> by lia. done.
  - rewrite pos_iter_shifted. replace (Pos.to_nat q) with k by lia. f_equal. lia.
Qed.

(** [2^j] as a number. *)
Definition power (j : Z) : number := S754_finite false (shifted 1 52) (j - 52).

Lemma mul_power m e j : Zpos (digits2_pos m) = 53%Z -> (-1074 <= e + j <= 971)%Z ->
  nmul (S754_finite false m e) (power j) = S754_finite false m (e + j).
Proof.
  intros Hm Hj. unfold nmul, SFmul, power. cbn [xorb]. replace (Zpos (m * shifted 1 52)) with (Zpos (shifted m 52)).
  - replace (e + (j - 52))%Z with ((e + j) - Z.of_nat 52)%Z by lia. by apply round_exact.
  - rewrite Pos2Z.inj_mul, !shifted_value. lia.
Qed.

(** Multiplying and dividing by a power of two loses nothing. *)
Lemma scale_exact n j : (0 < n < 2 ^ 53)%Z -> (0 <= j <= 60)%Z -> ndiv (nmul (num n) (power j)) (power j) = num n.
Proof.
  intros Hn Hj. destruct (num_small n Hn) as (m & k & -> & Hm & _ & Hk). set (e := (- Z.of_nat k)%Z).
  rewrite mul_power by (done || lia). unfold ndiv, SFdiv, power. cbn [xorb].
  assert (Hcore : SFdiv_core_binary 53 1024 (Zpos m) (e + j) (Zpos (shifted 1 52)) (j - 52) = (Zpos (shifted m 1), e - 1, loc_Exact)%Z).
  { unfold SFdiv_core_binary. cbn [Zdigits2]. rewrite Hm. replace (Zpos (digits2_pos (shifted 1 52))) with 53%Z by reflexivity.
    replace (53 + (e + j) - (53 + (j - 52)))%Z with (53 + (e - 1))%Z by lia. rewrite fexp_normal by lia.
    replace (Z.min (e - 1) (e + j - (j - 52)))%Z with (e - 1)%Z by lia.
    replace (e + j - (j - 52) - (e - 1))%Z with 53%Z by lia.
    assert (Hq : Z.shiftl (Zpos m) 53 = (Zpos (shifted m 1) * Zpos (shifted 1 52))%Z).
    { rewrite Z.shiftl_mul_pow2 by lia. rewrite !shifted_value. lia. }
    cbn [Z.shiftl] in Hq. rewrite Hq. pose proof (Z_div_mod_full (Zpos (shifted m 1) * Zpos (shifted 1 52)) (Zpos (shifted 1 52)) ltac:(done)) as Hdm.
    pose proof (Z.div_mul (Zpos (shifted m 1)) (Zpos (shifted 1 52)) ltac:(done)) as Hd.
    pose proof (Z_mod_mult (Zpos (shifted m 1)) (Zpos (shifted 1 52))) as Hmod. unfold Z.div, Z.modulo in Hd, Hmod.
    destruct (Z.div_eucl _ _) as [q r]. subst q r. done. }
  rewrite Hcore. cbn [Z.of_nat]. apply (round_exact false m 1 e); [done|lia].
Qed.

Lemma power_of j : (0 <= j <= 60)%Z -> num (2 ^ j) = power j.
Proof.
  intros Hj. assert (H : forallb (fun i => bool_decide (num (2 ^ i) = power i)) (seqZ 0 61) = true) by (vm_compute; done).
  rewrite forallb_forall in H. specialize (H j). rewrite bool_decide_eq_true in H. apply H. apply list_elem_of_In, elem_of_seqZ. lia.
Qed.
