(* ===== verification/Sizes.v ===== *)
(** The texts of sizes: the printing half of [utils/sizeConv.ts], and the fields of
    CPU, memory and disk sizes that show a stored text in a unit and store what is
    typed with that unit (forms/ComponentLike/index.tsx, Disks.tsx, and
    [RenderFormikComplexValueTextField] of forms/Basic/textfield.tsx). *)

From Corelib Require Import Floats.SpecFloat.
From S2P Require Import Prelude JsString JsNumber ResourceTypes Validators ValidatorFacts Utils NumberFacts.

(** ** Printing numbers *)

(** The integer closest to [m * 2^e * k], the larger one of two. *)
Definition scaled_round (m e k : Z) : Z :=
  if (0 <=? e)%Z then (m * 2 ^ e * k)%Z else ((2 * m * k + 2 ^ - e) / (2 * 2 ^ - e))%Z.

(** The digits of an integer of at least [f] decimals, with the point. *)
Fixpoint zeros (n : nat) : string := match n with O => "" | S n' => "0" +:+ zeros n' end.
Definition decimal_text (f : nat) (n : Z) : string :=
  let m := int_to_string n in
  match f with
  | O => m
  | _ => let padded := zeros (S f - String.length m) +:+ m in
         let k := String.length padded - f in str_take k padded +:+ "." +:+ str_drop k padded
  end.

(** [x.toFixed(f)].  From 10^21 on it is the exponent form, which the program's
    sizes do not reach: [None]. *)
Definition toFixed (f : nat) (x : number) : option string :=
  match x with
  | S754_nan => Some "NaN"
  | S754_infinity s => Some (if s then "-Infinity" else "Infinity")
  | S754_zero _ => Some (decimal_text f 0)
  | S754_finite s m e =>
      if (10 ^ 21 <=? scaled_round (Zpos m) e 1)%Z then None
      else Some ((if s then "-" else "") +:+ decimal_text f (scaled_round (Zpos m) e (10 ^ Z.of_nat f)))
  end.

(** [Math.round(x)] of a number that is not negative *)
Definition mathRound (x : number) : number :=
  match x with S754_finite _ m e => if (0 <=? e)%Z then x else num (scaled_round (Zpos m) e 1) | _ => x end.

(** ** [utils/sizeConv.ts] *)

(** The loop of [humanFileSize] over the units left: divides at least once, and
    again while the rounded value reaches the threshold. *)
Fixpoint scale_units (thresh r bytes : number) (unit_ : string) (units : list string) : number * string :=
  let bytes' := ndiv bytes thresh in
  match units with
  | [] => (bytes', unit_)
  | next :: units' =>
      if nge (ndiv (mathRound (nmul (SFabs bytes') r)) r) thresh then scale_units thresh r bytes' next units' else (bytes', unit_)
  end.

(** [humanFileSize(bytes)] with its defaults *)
Definition humanFileSize (bytes : number) : option string :=
  let thresh := num 1024 in
  if nlt (SFabs bytes) thresh then (fun s => s +:+ " B") <$> toFixed 2 bytes
  else
    let (value, unit_) := scale_units thresh (num 100) bytes "Ki" ["Mi"; "Gi"; "Ti"; "Pi"; "Ei"; "Zi"; "Yi"] in
    (fun s => s +:+ " " +:+ unit_) <$> toFixed 2 value.

(** [str.replace(/Ki|Mi|.../, "")]: the first unit in the text. *)
Definition unit_prefix (s : string) : option string := fst <$> List.find (fun e => startsWith e.1 s) unitMap.
Fixpoint drop_unit (s : string) : string :=
  match unit_prefix s with
  | Some u => str_drop (String.length u) s
  | None => match s with "" => "" | String c s' => String c (drop_unit s') end
  end.

(** The text of a size that is zero or not understood, or a number of Gi. *)
Definition sizeStringToGi (str : string) : string + number :=
  let n := sizeStringToNumber str in
  if neqb n (num 0) then inl (drop_unit str) else inr (ndiv n (num (1024 * 1024 * 1024))).

Definition sizeStringToMi (str : string) : option string :=
  toFixed 0 (ndiv (sizeStringToNumber str) (num (1024 * 1024))).

(** ** The fields of the component form *)

(** The value of a size field: [undefined], the number 0 or a text. *)
Inductive SizeValue := NoSize | ZeroSize | SizeText (s : string).

(** [parse] of a field with the given unit.  [empty] is what an empty text becomes. *)
Definition parse_size (empty : SizeValue) (unit_ : string) (value : string) : SizeValue :=
  match parseInt value with
  | Some z => if (z <? 0)%Z then ZeroSize else if seqb value "" then empty else SizeText (value +:+ unit_)
  | None => if seqb value "" then empty else SizeText (value +:+ unit_)
  end.

Definition parse_cpu : string -> SizeValue := parse_size NoSize "m".
Definition parse_memory : string -> SizeValue := parse_size NoSize "Mi".
Definition parse_disk : string -> SizeValue := parse_size (SizeText "") "Gi".

(** [format]: what the field shows. *)
Definition format_size (shown : string -> option string) (value : SizeValue) : option string :=
  match value with
  | NoSize | ZeroSize | SizeText "" => Some ""
  | SizeText s => shown s
  end.

Definition format_cpu : SizeValue -> option string :=
  format_size (fun s => toFixed 0 (nmul (sizeStringToNumber s) (num 1000))).
Definition format_memory : SizeValue -> option string := format_size sizeStringToMi.
(** The field of a disk shows what [sizeStringToGi] returns, a text or a number. *)
Definition format_disk (value : SizeValue) : string + number :=
  match value with NoSize | ZeroSize | SizeText "" => inl "" | SizeText s => sizeStringToGi s end.

(** What is shown after a text was typed into the field. *)
Definition typed_cpu (s : string) : option string := format_cpu (parse_cpu s).
Definition typed_memory (s : string) : option string := format_memory (parse_memory s).


(** ** Digits and units *)

(** The digits of a number that is not negative. *)
Lemma int_digits n : (0 <= n)%Z ->
  let s := int_to_string n in s <> "" /\ str_forall is_digit s = true /\ parse_digits 0 s = n /\ parseInt s = Some n.
Proof.
  intros Hn s. subst s. unfold int_to_string. destruct (Z.ltb_spec n 0); [lia|].
  pose proof (nat_to_string_ne (Z.to_nat n)) as Hne. pose proof (nat_to_string_digits (Z.to_nat n)) as Hd.
  pose proof (parse_nat (Z.to_nat n)) as Hp. split; [done|]. split; [done|]. rewrite Z2Nat.id in Hp by done. split.
  - destruct (nat_to_string (Z.to_nat n)) as [|c s]; [done|]. cbn [parse_unsigned] in Hp. cbn [str_forall] in Hd.
    apply Bool.andb_true_iff in Hd as [Hc _]. rewrite Hc in Hp. by injection Hp.
  - by rewrite parseInt_digits.
Qed.

Lemma span_digits_app s u : str_forall is_digit s = true -> (forall c u', u = String c u' -> is_digit c = false) ->
  span_digits (s +:+ u) = (s, u).
Proof.
  intros Hs Hu. induction s as [|c s IH]; cbn [String.append span_digits].
  - destruct u as [|c u']; [done|]. cbn. by rewrite (Hu c u' eq_refl).
  - cbn in Hs. apply Bool.andb_true_iff in Hs as [Hc Hs]. by rewrite Hc, IH.
Qed.

(** A number of a unit. *)
Lemma size_of_digits n u v : (0 <= n)%Z -> unit_value u = Some v -> sizeStringToNumber (int_to_string n +:+ u) = nmul (num n) v.
Proof.
  intros Hn Hu. destruct (int_digits n Hn) as (Hne & Hd & Hp & _).
  assert (Hshape : forall c u', u = String c u' -> is_digit c = false /\ c <> "."%char).
  { assert (Hall : Forall (fun e => match e.1 with String c _ => is_digit c = false /\ c <> "."%char | "" => True end) unitMap)
      by (repeat constructor; done).
    unfold unit_value in Hu. destruct (List.find _ unitMap) as [e|] eqn:Ef; [|done]. apply List.find_some in Ef as [Hin Heq].
    apply seqb_true in Heq. rewrite Forall_forall in Hall. specialize (Hall e ltac:(by apply list_elem_of_In)). rewrite Heq in Hall.
    intros c u' ->. done. }
  assert (Hmatch : match_size (int_to_string n +:+ u) = Some (int_to_string n, u)).
  { unfold match_size. rewrite span_digits_app; [|done|intros c u' E; by apply (Hshape c u')].
    cbn match. rewrite (proj2 (seqb_false _ _) Hne).
    assert (Hrest : (match u with
      | String "." rest' => let '(decimals, rest'') := span_digits rest' in if seqb decimals "" then None else Some rest''
      | _ => Some u end) = Some u).
    { destruct u as [|c u']; [done|]. destruct (Hshape c u' eq_refl) as [_ Hdot]. destruct c as [[] [] [] [] [] [] [] []]; done. }
    rewrite Hrest, Hu, Bool.orb_true_r. done. }
  unfold sizeStringToNumber. by rewrite Hmatch, Hu, Hp.
Qed.

Lemma scaled_round_shift n k : (0 <= n)%Z -> scaled_round (n * 2 ^ Z.of_nat k) (- Z.of_nat k) 1 = n.
Proof.
  intros Hn. unfold scaled_round. destruct (Z.leb_spec 0 (- Z.of_nat k)).
  - assert (k = 0) as -> by lia. cbn. lia.
  - rewrite Z.opp_involutive. assert (0 < 2 ^ Z.of_nat k)%Z by (apply Z.pow_pos_nonneg; lia).
    replace (2 * (n * 2 ^ Z.of_nat k) * 1 + 2 ^ Z.of_nat k)%Z with (2 ^ Z.of_nat k + n * (2 * 2 ^ Z.of_nat k))%Z by ring.
    rewrite Z.div_add by lia. rewrite Z.div_small by lia. lia.
Qed.

(** A small integer is printed exactly. *)
Lemma toFixed_integer n : (0 <= n < 2 ^ 53)%Z -> toFixed 0 (num n) = Some (int_to_string n).
Proof.
  intros Hn. destruct (decide (n = 0%Z)) as [->|Hne]; [done|].
  destruct (num_small n ltac:(lia)) as (m & k & -> & _ & Hm & _). unfold toFixed. rewrite Hm, !scaled_round_shift by lia.
  destruct (Z.leb_spec (10 ^ 21) n); [lia|]. done.
Qed.

Lemma zero_mul j : (0 <= j <= 60)%Z -> nmul (num 0) (num (2 ^ j)) = num 0.
Proof. intros Hj. by rewrite power_of. Qed.

Lemma typed_text empty n u : (0 <= n)%Z -> parse_size empty u (int_to_string n) = SizeText (int_to_string n +:+ u).
Proof.
  intros Hn. destruct (int_digits n Hn) as (Hne & _ & _ & Hp). unfold parse_size. rewrite Hp.
  destruct (Z.ltb_spec n 0); [lia|]. by rewrite (proj2 (seqb_false _ _) Hne).
Qed.

Lemma format_text shown n u : (0 <= n)%Z -> format_size shown (SizeText (int_to_string n +:+ u)) = shown (int_to_string n +:+ u).
Proof.
  intros Hn. destruct (int_digits n Hn) as (Hne & _). cbn. by destruct (int_to_string n).
Qed.

Lemma format_disk_text n u : (0 <= n)%Z -> format_disk (SizeText (int_to_string n +:+ u)) = sizeStringToGi (int_to_string n +:+ u).
Proof. intros Hn. destruct (int_digits n Hn) as (Hne & _). cbn. by destruct (int_to_string n). Qed.

(** C39: The size fields show what was typed.  A whole number typed into the memory field
    or the disk field is stored as its digits with the unit of the field, and the field
    then shows the number typed, whatever it is below 2^53: multiplying by the unit,
    dividing and printing loses nothing. *)
Theorem size_fields_roundtrip n : (0 <= n < 2 ^ 53)%Z ->
  parse_memory (int_to_string n) = SizeText (int_to_string n +:+ "Mi") /\
  parse_disk (int_to_string n) = SizeText (int_to_string n +:+ "Gi") /\
  format_memory (parse_memory (int_to_string n)) = Some (int_to_string n) /\
  format_disk (parse_disk (int_to_string n)) = if (n =? 0)%Z then inl "0" else inr (num n).
Proof.
  intros Hn. unfold format_memory, parse_memory, parse_disk. rewrite !typed_text, format_text, format_disk_text by lia.
  unfold sizeStringToMi, sizeStringToGi. rewrite (size_of_digits n "Mi" (num (2 ^ 20))), (size_of_digits n "Gi" (num (2 ^ 30))) by (done || lia).
  change (num (1024 * 1024 * 1024)) with (num (2 ^ 30)). change (num (1024 * 1024)) with (num (2 ^ 20)).
  split; [done|]. split; [done|]. destruct (Z.eqb_spec n 0) as [->|Hne].
  - rewrite !zero_mul by lia. split; reflexivity.
  - rewrite !power_of by lia. rewrite !scale_exact by lia. rewrite toFixed_integer by done. split; [done|].
    assert (Hnz : neqb (nmul (num n) (power 30)) (num 0) = false).
    { destruct (num_small n ltac:(lia)) as (m & k & -> & Hm & _ & Hk). by rewrite mul_power by (done || lia). }
    by rewrite Hnz.
Qed.

Lemma size_fields_roundtrip_witness :
  format_memory (parse_memory "512") = Some "512" /\ parse_disk "8" = SizeText "8Gi" /\ format_disk (parse_disk "8") = inr (num 8).
Proof.
  destruct (size_fields_roundtrip 512 ltac:(lia)) as (_ & _ & H & _). destruct (size_fields_roundtrip 8 ltac:(lia)) as (_ & Hs & _ & Hd).
  exact (conj H (conj Hs Hd)).
Defined.

(** Decimals are lost while they are typed, and a negative number clears the field. *)
Example decimals_are_lost : typed_memory "1.5" = Some "1" /\ typed_cpu "0.5" = Some "0" /\ typed_cpu "-4" = Some "".
Proof. vm_compute. done. Qed.

(** The thousandths of a core are rounded twice and still print as typed. *)
Example cpu_as_typed : typed_cpu "1100" = Some "1100" /\ typed_cpu "64001" = Some "64001".
Proof. vm_compute. done. Qed.

Example human_sizes :
  humanFileSize (num 1023) = Some "1023.00 B" /\ humanFileSize (num 1048575) = Some "1.00 Mi" /\
  humanFileSize (num 123456789) = Some "117.74 Mi".
Proof. vm_compute. done. Qed.

(** The printed value of [humanFileSize] is below the threshold, or its unit is the
    largest. *)
Lemma scale_units_bound thresh r bytes unit_ units :
  let (value, u) := scale_units thresh r bytes unit_ units in
  nge (ndiv (mathRound (nmul (SFabs value) r)) r) thresh = false \/ u = List.last (unit_ :: units) "".
Proof.
  revert bytes unit_. induction units as [|next units IH]; intros bytes unit_; cbn [scale_units]; [by right|].
  destruct (nge _ thresh) eqn:E; [|by left]. specialize (IH (ndiv bytes thresh) next).
  destruct (scale_units thresh r (ndiv bytes thresh) next units) as [value u]. destruct IH as [IH|IH]; [by left|right].
  exact IH.
Qed.
