(* ===== verification/Nodes.v ===== *)
(** The page of the cluster's nodes: pages/Nodes/List.tsx, CPU.tsx, Memory.tsx,
    Pods.tsx and ResourceRank.tsx. *)

From Corelib Require Import Floats.SpecFloat.
From Stdlib Require Import Sorting.Sorted.
From S2P Require Import Prelude JsString JsMap JsNumber ResourceTypes Validators Utils NumberFacts Sizes.

(** ** Cordoning *)

Definition hasCordon (node : Node) : bool := existsb (seqb "SchedulingDisabled") (node_statusTexts node).

(** The request a click on the button of the node [name] makes. *)
Inductive CordonCall := CordonNode (name : string) | UncordonNode (name : string).
Definition handleClickCordonButton (nodes : list Node) (name : string) : option CordonCall :=
  if seqb name "" then None
  else match List.find (fun n => seqb (node_name n) name) nodes with
       | None => None
       | Some node => Some (if hasCordon node then UncordonNode name else CordonNode name)
       end.
Definition cordon_button (node : Node) : string := if hasCordon node then "Enable Scheduling" else "Disable Scheduling".

(** ** The facts of a node *)

Definition key_values (d : option (dict string)) : list string := (fun e => e.1 +:+ ": " +:+ e.2) <$> default [] d.

(** The panel's texts that need no chart. *)
Definition node_facts (node : Node) : list (string * list string) :=
  let info := nodeStatus_nodeInfo (node_status node) in
  [ ("Name", [node_name node]); ("Status", [join ", " (node_statusTexts node)]); ("Internal IP", [node_internalIP node]);
    ("External IP", [node_externalIP node]); ("OS", [operatingSystem info +:+ "(" +:+ architecture info +:+ ")"]);
    ("OS Image", [osImage info]); ("Kernel Version", [kernelVersion info]); ("Kubelet version", [kubeletVersion info]);
    ("Labels", key_values (node_labels node)); ("Annotations", key_values (node_annotations node)) ].

(** ** Progress bars *)

Definition percent (part whole : number) : number := nmul (ndiv part whole) (num 100).

Record Progress := mkProgress { pr_part : number; pr_whole : number; pr_progress : number; pr_label : option string }.
Definition progress_label (progress : number) : option string := (fun s => "(" +:+ s +:+ "%)") <$> toFixed 2 progress.

Definition NodeCPU (node : Node) : Progress :=
  let allocatable := sizeStringToNumber (rl_cpu (nodeStatus_allocatable (node_status node))) in
  let requests := sizeStringToNumber (rl_cpu (alloc_requests (node_allocatedResources node))) in
  let progress := percent requests allocatable in mkProgress requests allocatable progress (progress_label progress).

Definition NodeMemory (node : Node) : Progress :=
  let allocatable := sizeStringToNumber (rl_memory (nodeStatus_allocatable (node_status node))) in
  let requests := sizeStringToNumber (rl_memory (alloc_requests (node_allocatedResources node))) in
  let progress := percent requests allocatable in mkProgress requests allocatable progress (progress_label progress).

Definition NodePods (node : Node) : Progress :=
  let allocatable := sizeStringToNumber (rl_pods (nodeStatus_allocatable (node_status node))) in
  let allocated := alloc_podsCount (node_allocatedResources node) in
  let progress := percent allocated allocatable in mkProgress allocated allocatable progress (progress_label progress).

(** The sums over all nodes: the requested and the allocatable amount. *)
Definition nodes_sums (amount : ResourceList -> string) (nodes : list Node) : number * number :=
  foldl (fun '(allocatable, requests) node =>
           (nadd allocatable (sizeStringToNumber (amount (nodeStatus_allocatable (node_status node)))),
            nadd requests (sizeStringToNumber (amount (alloc_requests (node_allocatedResources node))))))
        (num 0, num 0) nodes.
Definition nodes_progress (amount : ResourceList -> string) (nodes : list Node) : Progress :=
  let '(allocatable, requests) := nodes_sums amount nodes in
  let progress := percent requests allocatable in
  mkProgress requests allocatable progress (progress_label (if isNaN progress then num 0 else progress)).
Definition NodesCPU : list Node -> Progress := nodes_progress rl_cpu.
Definition NodesMemory : list Node -> Progress := nodes_progress rl_memory.

(** The text under the bar of one node and of all nodes. *)
Definition cpu_text (p : Progress) : option string :=
  r ← toFixed 2 (pr_part p); a ← toFixed 2 (pr_whole p);
  Some ("Allocated " +:+ r +:+ " Cores, Total allocatable " +:+ a +:+ " Cores").
Definition memory_text (p : Progress) : option string :=
  r ← humanFileSize (pr_part p); a ← humanFileSize (pr_whole p); Some ("Allocated " +:+ r +:+ ", Total allocatable " +:+ a).

(** ** Ranks *)

(** [if (m[name]) m[name] = m[name] + v; else m[name] = v] on an object whose keys
    are kept in the order of their insertion. *)
Definition add_rank (m : list (string * number)) (name : string) (v : number) : list (string * number) :=
  map_set m name match map_get m name with
                 | Some old => if truthy_number old then nadd old v else v
                 | None => v
                 end.

(** The loop over the requests: the name of a request and its value, if it has one.
    Names are not those of array indices, which an object would list first. *)
Definition rank_map (entries : list (string * option number)) : list (string * number) :=
  foldl (fun m e => match e.2 with Some v => add_rank m e.1 v | None => m end) [] entries.

Definition cpu_value (r : PodRequests) : option number :=
  if seqb (rl_cpu (preq_requests r)) "" then None else Some (nmul (sizeStringToNumber (rl_cpu (preq_requests r))) (num 1000)).
Definition memory_value (r : PodRequests) : option number :=
  if seqb (rl_memory (preq_requests r)) "" then None else Some (sizeStringToNumber (rl_memory (preq_requests r))).

Record RankOption := mkRankOption { rank_name : string; rank_value : number; rank_unit : option string }.
Definition rank_options (unit_ : option string) (m : list (string * number)) : list RankOption :=
  (fun e => mkRankOption e.1 e.2 unit_) <$> m.

Definition node_requests (node : Node) : list PodRequests := alloc_podsRequests (node_allocatedResources node).

Definition getNodesResourceRankData (nodes : list Node) : list RankOption * list RankOption :=
  let requests := nodes ≫= node_requests in
  (rank_options (Some "m") (rank_map ((fun r => (preq_namespace r, cpu_value r)) <$> requests)),
   rank_options None (rank_map ((fun r => (preq_namespace r, memory_value r)) <$> requests))).

Definition getNodeResourceRankData (node : Node) : list RankOption * list RankOption :=
  (rank_options (Some "m") (rank_map ((fun r => (preq_podName r, cpu_value r)) <$> node_requests node)),
   rank_options None (rank_map ((fun r => (preq_podName r, memory_value r)) <$> node_requests node))).

(** [render] of ResourceRank: the largest value, the stable sort by
    [b.value - a.value], and the width of a bar. *)
Definition maxBarWidth : number := num 200.
Definition max_value (allocateds : list RankOption) : number :=
  foldl (fun m a => if ngt (rank_value a) m then rank_value a else m) (num 0) allocateds.

(** [a] may stay before [b]. *)
Definition rank_before (a b : RankOption) : bool := negb (is_positive (nsub (rank_value b) (rank_value a))).
Fixpoint rank_insert (a : RankOption) (l : list RankOption) : list RankOption :=
  match l with
  | [] => [a]
  | b :: l' => if rank_before a b then a :: l else b :: rank_insert a l'
  end.
Definition rank_sort (l : list RankOption) : list RankOption := foldr rank_insert [] l.

Record Bar := mkBar { bar_name : string; bar_width : number; bar_value : number; bar_unit : option string }.
Definition ResourceRank (allocateds : list RankOption) : list Bar :=
  let m := max_value allocateds in
  (fun a => mkBar (rank_name a) (nmul (ndiv (rank_value a) m) maxBarWidth) (rank_value a) (rank_unit a)) <$> rank_sort allocateds.

(** ** What a rank shows *)

(** The values of a name, in order, and their sum. *)
Definition values_of (entries : list (string * option number)) (name : string) : list number :=
  omap (fun e => if seqb e.1 name then e.2 else None) entries.
Definition total_of (entries : list (string * option number)) (name : string) : number := foldl nadd (num 0) (values_of entries name).
(** The names that have a value, each once, in the order of their first value. *)
Definition named (entries : list (string * option number)) : list string :=
  foldl (fun names e => match e.2 with
                        | Some _ => if existsb (seqb e.1) names then names else names ++ [e.1]
                        | None => names
                        end) [] entries.

(** Values that may be added: not negative. *)
Definition counted (entries : list (string * option number)) : Prop :=
  Forall (fun e => match e.2 with Some v => counting v | None => True end) entries.

Lemma foldl_counting l x : counting x -> Forall counting l -> counting (foldl nadd x l).
Proof. intros Hx Hl. revert x Hx. induction Hl as [|y l Hy _ IH]; intros x Hx; [done|]. apply IH. by apply counting_add. Qed.

Lemma values_app es1 es2 name : values_of (es1 ++ es2) name = values_of es1 name ++ values_of es2 name.
Proof. apply omap_app. Qed.

Lemma values_one n v name : values_of [(n, v)] name = if seqb n name then from_option (fun x => [x]) [] v else [].
Proof. unfold values_of. cbn. by destruct (seqb n name), v. Qed.

Lemma values_counting entries name : counted entries -> Forall counting (values_of entries name).
Proof.
  intros H. induction H as [|[n [v|]] entries He _ IH]; [constructor| |]; unfold values_of; cbn [omap list_omap fst snd];
    destruct (seqb n name); try exact IH. by constructor.
Qed.

(** Adding with the falsy zero replaced is adding. *)
Lemma add_rank_value x v : counting x -> counting v -> (if truthy_number x then nadd x v else v) = nadd x v.
Proof. intros Hx Hv. destruct (truthy_number x) eqn:E; [done|]. rewrite (falsy_counting x Hx E). by rewrite zero_add. Qed.

Lemma map_has_keys {V : Type} (m : list (string * V)) k : map_has m k = existsb (seqb k) (map_keys m).
Proof.
  rewrite existsb_seqb. apply Bool.eq_iff_eq_true. by rewrite map_has_true, map_get_keys, bool_decide_eq_true.
Qed.

(** The map after the loop: its keys are the names, its values the sums. *)
Lemma rank_map_spec entries : counted entries ->
  map_keys (rank_map entries) = named entries /\
  forall name, map_get (rank_map entries) name =
    match values_of entries name with [] => None | _ => Some (total_of entries name) end.
Proof.
  induction entries as [|[n v] entries IH] using rev_ind; [done|]. intros [Hc He]%Forall_app.
  destruct (IH Hc) as [Hk Hg]. rewrite Forall_singleton in He. cbn [snd] in He.
  unfold rank_map, named, total_of in *. rewrite !foldl_app. cbn [foldl fst snd]. destruct v as [v|].
  - unfold add_rank at 1. rewrite map_keys_set, map_has_keys, Hk. split; [by destruct (existsb (seqb n) _); rewrite ?app_nil_r|].
    intros name. unfold add_rank. rewrite map_get_set, values_app, values_one.
    destruct (decide (n = name)) as [->|Hne].
    + rewrite seqb_refl, Hg. pose proof (values_counting entries name Hc) as Hv.
      rewrite foldl_app. cbn [from_option foldl].
      pose proof (foldl_counting _ (num 0) (counting_num 0 ltac:(lia)) Hv) as Hf.
      destruct (values_of entries name) as [|x l] eqn:E; cbn [app].
      * cbn [foldl]. rewrite zero_add; [reflexivity|exact He].
      * rewrite add_rank_value; [reflexivity|exact Hf|exact He].
    + rewrite (proj2 (seqb_false n name) Hne), app_nil_r. apply Hg.
  - split; [done|]. intros name. rewrite values_app, values_one. by destruct (seqb n name); rewrite app_nil_r.
Qed.

(** A map is the list of its keys with their values. *)
Lemma map_as_keys {V : Type} (m : list (string * V)) (f : string -> V) : NoDup (map_keys m) ->
  (forall k, k ∈ map_keys m -> map_get m k = Some (f k)) -> m = (fun k => (k, f k)) <$> map_keys m.
Proof.
  induction m as [|[k v] m IH]; intros Hn Hf; [done|]. apply NoDup_cons in Hn as [Hk Hn]. cbn [map_keys fmap list_fmap fst].
  pose proof (Hf k ltac:(by left)) as H0. cbn [map_get] in H0. rewrite decide_True in H0 by done. injection H0 as ->. f_equal.
  apply IH; [done|]. intros k' Hk'. specialize (Hf k' ltac:(by right)). cbn [map_get] in Hf.
  destruct (decide (k' = k)) as [->|]; [done|exact Hf].
Qed.

Lemma rank_insert_perm a l : rank_insert a l ≡ₚ a :: l.
Proof.
  induction l as [|b l IH]; [done|]. cbn [rank_insert]. destruct (rank_before a b); [done|]. rewrite IH. apply Permutation_swap.
Qed.
Lemma rank_sort_perm l : rank_sort l ≡ₚ l.
Proof. induction l as [|a l IH]; [done|]. unfold rank_sort in *. cbn [foldr]. by rewrite rank_insert_perm, IH. Qed.

Lemma rank_before_total a b : rank_before a b = false -> rank_before b a = true.
Proof. unfold rank_before. intros Hp%Bool.negb_false_iff. by rewrite (sub_antisym _ _ Hp). Qed.

Definition ranked (l : list RankOption) : Prop := Sorted (fun a b => rank_before a b = true) l.

Lemma rank_insert_sorted a l : ranked l -> ranked (rank_insert a l).
Proof.
  unfold ranked. intros Hl. induction Hl as [|b l Hl IH Hb]; cbn [rank_insert]; [by repeat constructor|].
  destruct (rank_before a b) eqn:E; [by repeat constructor|]. constructor; [exact IH|].
  apply rank_before_total in E. destruct l as [|c l]; cbn [rank_insert]; [by constructor|].
  destruct (rank_before a c); constructor; [done|]. by inversion Hb.
Qed.
Lemma rank_sort_sorted l : ranked (rank_sort l).
Proof. induction l as [|a l IH]; [constructor|]. by apply rank_insert_sorted. Qed.

Lemma named_NoDup entries : NoDup (named entries).
Proof.
  unfold named. assert (H : forall l, NoDup l -> NoDup (foldl (fun names (e : string * option number) =>
    match e.2 with Some _ => if existsb (seqb e.1) names then names else names ++ [e.1] | None => names end) l entries)); [|apply H; constructor].
  induction entries as [|[n [v|]] entries IH]; intros l Hl; cbn [foldl fst snd]; [done| |by apply IH].
  apply IH. rewrite existsb_seqb. case_bool_decide as Hin; [done|]. apply NoDup_app. split; [done|].
  split; [intros x Hx ->%list_elem_of_singleton; done|apply NoDup_singleton].
Qed.

(** What the sorted rank of [entries] is. *)
Definition shows_totals (entries : list (string * option number)) (unit_ : option string) (rank : list RankOption) : Prop :=
  ranked (rank_sort rank) /\
  rank_sort rank ≡ₚ (fun name => mkRankOption name (total_of entries name) unit_) <$> named entries /\
  NoDup (named entries) /\ (forall name, name ∈ named entries <-> values_of entries name <> []).

Lemma rank_shows entries unit_ : counted entries -> shows_totals entries unit_ (rank_options unit_ (rank_map entries)).
Proof.
  intros Hc. destruct (rank_map_spec entries Hc) as [Hk Hg]. split; [apply rank_sort_sorted|].
  assert (Hin : forall name, name ∈ named entries <-> values_of entries name <> []).
  { intros name. rewrite <- Hk, <- map_get_keys, Hg. destruct (values_of entries name); split; [by intros [? ?]|done|done|by eexists]. }
  split; [|split; [apply named_NoDup|exact Hin]]. rewrite rank_sort_perm. unfold rank_options.
  rewrite (map_as_keys (rank_map entries) (total_of entries)).
  - rewrite Hk, <- list_fmap_compose. done.
  - rewrite Hk. apply named_NoDup.
  - intros k Hkk. rewrite Hk in Hkk. apply Hin in Hkk. rewrite Hg. by destruct (values_of entries k).
Qed.

Lemma parse_digits_nonneg s acc : (0 <= acc)%Z -> (0 <= parse_digits acc s)%Z.
Proof.
  revert acc. induction s as [|c s IH]; intros acc Ha; [done|]. cbn [parse_digits]. destruct (is_digit c) eqn:Hc; [|done].
  apply IH. assert (0 <= digit_value c)%Z; [|lia]. unfold is_digit in Hc. apply Bool.andb_true_iff in Hc as [Hc _].
  apply N.leb_le in Hc. unfold digit_value. lia.
Qed.

Lemma counting_size s : counting (sizeStringToNumber s).
Proof.
  unfold sizeStringToNumber. destruct (match_size s) as [[whole u]|]; [|by apply counting_num].
  assert (Hn : counting (num (parse_digits 0 whole))) by (apply counting_num, parse_digits_nonneg; lia).
  destruct (unit_value u) as [v|] eqn:Hv; [|done].
  assert (Hall : forallb (fun e => match e.2 with S754_finite false _ _ => true | _ => false end) unitMap = true)
    by (vm_compute; reflexivity).
  unfold unit_value in Hv. destruct (List.find _ unitMap) as [e|] eqn:Ef; [|discriminate Hv]. apply List.find_some in Ef as [Hin _]. injection Hv as <-.
  rewrite forallb_forall in Hall. specialize (Hall e Hin). destruct (e.2) as [| | |[] m x]; try discriminate Hall.
  exact (counting_mul _ m x Hn).
Qed.

Lemma cpu_counting r : match cpu_value r with Some v => counting v | None => True end.
Proof.
  unfold cpu_value. destruct (seqb _ ""); [done|]. change (num 1000) with (S754_finite false 8796093022208000 (-43)).
  apply counting_mul, counting_size.
Qed.
Lemma memory_counting r : match memory_value r with Some v => counting v | None => True end.
Proof. unfold memory_value. destruct (seqb _ ""); [done|]. apply counting_size. Qed.

Lemma counted_fmap (name : PodRequests -> string) (value : PodRequests -> option number) (l : list PodRequests) :
  (forall r, match value r with Some v => counting v | None => True end) -> counted ((fun r => (name r, value r)) <$> l).
Proof. intros Hv. apply Forall_fmap, Forall_forall. intros r _. apply Hv. Qed.

(** The ranks of the nodes page show totals.  In the rank of all nodes each
    namespace with a request, and in the rank of one node each pod name with one,
    has exactly one bar; its value is the sum of its requests in their order, and
    the bars are sorted by it, the largest first. *)
Theorem ranks_show_totals nodes node :
  let requests := nodes ≫= node_requests in let own := node_requests node in
  shows_totals ((fun r => (preq_namespace r, cpu_value r)) <$> requests) (Some "m") (getNodesResourceRankData nodes).1 /\
  shows_totals ((fun r => (preq_namespace r, memory_value r)) <$> requests) None (getNodesResourceRankData nodes).2 /\
  shows_totals ((fun r => (preq_podName r, cpu_value r)) <$> own) (Some "m") (getNodeResourceRankData node).1 /\
  shows_totals ((fun r => (preq_podName r, memory_value r)) <$> own) None (getNodeResourceRankData node).2.
Proof.
  cbn zeta. split; [|split; [|split]]; apply rank_shows, counted_fmap; intros r; apply cpu_counting || apply memory_counting.
Qed.

(** ** A concrete node *)

Definition sample_amounts (cpu memory : string) : ResourceList := mkResourceList cpu memory "110" [].
Definition sample_node (requests : list PodRequests) : Node :=
  mkNode "node-1" (num 0) None None [] ["Ready"] "" ""
    (mkAllocated (num 2) (sample_amounts "500m" "1Gi") (sample_amounts "" "") requests)
    (mkNodeStatus (sample_amounts "2" "4Gi") (sample_amounts "2" "4Gi") [] []
       (mkNodeInfo "" "" "" "" "" "" "" "" "linux" "amd64") []) (mkMetrics false [] []).
Definition sample_request (pod ns cpu : string) : PodRequests := mkPodRequests pod ns (sample_amounts cpu "").

(** The rank of one node adds the pods of one name from different namespaces. *)
Example same_pod_name :
  (fun b => (bar_name b, bar_value b)) <$>
    ResourceRank (getNodeResourceRankData (sample_node
      [sample_request "redis-0" "a" "100m"; sample_request "web" "a" "150m"; sample_request "redis-0" "b" "100m"])).1 =
  [("redis-0", num 200); ("web", num 150)].
Proof. vm_compute. done. Qed.

Example progress_of_a_node :
  pr_label (NodeCPU (sample_node [])) = Some "(25.00%)" /\ pr_label (NodeMemory (sample_node [])) = Some "(25.00%)" /\
  pr_label (NodesCPU []) = Some "(0.00%)".
Proof. vm_compute. done. Qed.
