(* ===== verification/ComponentEditor.v ===== *)
(** The rest of the form of components: forms/ComponentLike/Probes.tsx, Envs.tsx,
    Ports.tsx, and from forms/ComponentLike/index.tsx the tabs, the main fields and
    the hint at a private registry. *)

From Corelib Require Import Floats.SpecFloat.
From S2P Require Import Prelude JsString JsNumber ResourceTypes Validators FormChecks WorkloadViews.

(** ** Probes *)

(** [ports.find(x => x.protocol === protocol && !!x.containerPort)] and its port *)
Definition potentialPort (protocol : string) (ports : option (list ComponentLikePort)) : PortRef :=
  match List.find (fun x => seqb (port_protocol x) protocol && truthy_port (containerPort x)) (default [] ports) with
  | Some x => PortNumber (containerPort x)
  | None => PortNumber (num 8080)
  end.

Definition probe_defaults (exec : option (option (list string))) (http : option ProbeHttpGet) (tcp : option ProbeTcpSocket) : Probe :=
  mkProbe exec http tcp (Some (num 10)) (Some (num 1)) (Some (num 10)) (Some (num 1)) (Some (num 3)).

(** The value the field gets; [None] is [null]. *)
Definition handleChangeType (type : string) (ports : option (list ComponentLikePort)) : option Probe :=
  if seqb type "httpGet" then
    Some (probe_defaults None
      (Some (mkProbeHttpGet (Some "0.0.0.0") None (Some "/health") (potentialPort PortProtocolHTTP ports) (Some "HTTP"))) None)
  else if seqb type "exec" then Some (probe_defaults (Some (Some [""])) None None)
  else if seqb type "tcpSocket" then
    Some (probe_defaults None None (Some (mkProbeTcpSocket (Some "0.0.0.0") (potentialPort PortProtocolTCP ports))))
  else None.

Definition form_getProbeType (probe : option Probe) : string :=
  match probe with
  | None => "none"
  | Some p =>
      match probe_httpGet p, probe_exec p, probe_tcpSocket p with
      | Some _, _, _ => "httpGet"
      | None, Some _, _ => "exec"
      | None, None, Some _ => "tcpSocket"
      | None, None, None => "none"
      end
  end.

Definition probe_types : list string := ["none"; "httpGet"; "exec"; "tcpSocket"].

(** The parts of the field that are shown, and the words on a failed round. *)
Inductive ProbePart := HttpGetPart | ExecPart | TcpSocketPart | CommonPart (failure : string) (consecutive_successes : bool).
Definition render_probe (name : string) (probe : option Probe) : list ProbePart :=
  let type := form_getProbeType probe in
  (if seqb type "httpGet" then [HttpGetPart] else []) ++ (if seqb type "exec" then [ExecPart] else []) ++
  (if seqb type "tcpSocket" then [TcpSocketPart] else []) ++
  (if seqb type "none" then [] else
    [CommonPart (if seqb type "httpGet" then "an error response (http status code >= 400) is returned"
                 else if seqb type "exec" then "the command exits with a non-zero code" else "the TCP connection is failed")
      (negb (seqb name "livenessProbe"))]).

(** ** Environment variables and ports *)

Definition push_env (env : option (list ComponentLikeEnv)) : list ComponentLikeEnv := default [] env ++ [mkEnv "" "static" ""].
Definition remove_env (i : nat) (env : option (list ComponentLikeEnv)) : list ComponentLikeEnv := base.delete i (default [] env).
Definition env_name_error (value : string) : option string :=
  match ValidatorRequired (FString value) with Some e => Some e | None => ValidatorEnvName (Some value) end.

(** A new port has a protocol only. *)
Definition push_port (ports : option (list ComponentLikePort)) : list ComponentLikePort :=
  default [] ports ++ [mkPort PortProtocolHTTP NaN NaN].
Definition remove_port (i : nat) (ports : option (list ComponentLikePort)) : list ComponentLikePort := base.delete i (default [] ports).
Definition port_protocols : list string := [PortProtocolHTTP; PortProtocolHTTP2; PortProtocolGRPC; PortProtocolTCP; PortProtocolUDP].

(** ** Tabs *)

(** The address [pushToTab] goes to. *)
Definition pushToTab (pathname : string) (tabIndex : nat) : string :=
  pathname +:+ "#" +:+ from_option strip_spaces "" (tabs !! tabIndex).

(** [window.location.hash] of an address *)
Fixpoint hash_of (address : string) : string :=
  match address with
  | "" => ""
  | String c address' => if decide (c = "#"%char) then address else hash_of address'
  end.

Definition Configurations : string := "Config".
Definition DisksTab : string := "Disks".
Definition Scheduling : string := "Pod Scheduling".

Section tab_errors.
Context (showError : string -> bool).
Definition tab_has_error (tab : string) : bool :=
  (seqb tab Configurations && (showError "preInjectedFiles" || showError "env" || showError "command")) ||
  (seqb tab DisksTab && showError "volumes") ||
  (seqb tab HealthTab && (showError "livenessProbe" || showError "readinessProbe")) ||
  (seqb tab NetworkingTab && showError "ports") ||
  (seqb tab Scheduling && (showError "cpuLimit" || showError "memoryLimit" || showError "nodeSelectorLabels")).
Definition renderTabs : list (string * bool) := (fun tab => (tab, tab_has_error tab)) <$> tabs.
End tab_errors.

(** ** The main fields *)

Inductive ScaleField := ReplicasField | ScheduleField.
Definition renderReplicasOrSchedule (workloadType : string) : option ScaleField :=
  if seqb workloadType workloadTypeServer || seqb workloadType workloadTypeStatefulSet then Some ReplicasField
  else if seqb workloadType workloadTypeCronjob then Some ScheduleField else None.

Record MainFields := mkMainFields {
  main_name_disabled : bool; main_name_help : string; main_workload_disabled : bool; main_workload_help : string;
  main_scale : option ScaleField; main_alert : bool; main_button : string
}.

Definition isUnknownPrivateRegistry (registries : list Registry) (image : string) : bool :=
  match split_char "/" image with
  | [] | [_] => false
  | first :: _ =>
      if negb (includes "." first) then false
      else if existsb (seqb first) PublicRegistriesList then false
      else negb (existsb (fun r => includes first (reg_host r)) registries)
  end.

Definition renderMain (nameRule : string) (initialName workloadType image : string) (volumes : nat) (registries : list Registry) : MainFields :=
  let edit := negb (seqb initialName "") in
  let hasVolumes := Nat.ltb 0 volumes in
  mkMainFields edit (if edit then "Name can't be changed." else nameRule) (edit || hasVolumes)
    (if negb edit && hasVolumes then "Type can't be changed after created disks" else "")
    (renderReplicasOrSchedule workloadType) (negb (seqb image "") && isUnknownPrivateRegistry registries image)
    ((if edit then "Update" else "Deploy") +:+ " Component").

(** ** Facts *)

(** The type chosen is the type shown. *)
Lemma probe_type_chosen type ports : type ∈ probe_types -> form_getProbeType (handleChangeType type ports) = type.
Proof. unfold probe_types. rewrite !elem_of_cons. intros [->|[->|[->|[->|[]%not_elem_of_nil]]]]; done. Qed.

(** The page of a component and its form name the types of a probe alike. *)
Lemma probe_type_agrees p : form_getProbeType (Some p) <> "none" -> getProbeType p = form_getProbeType (Some p).
Proof. unfold getProbeType, form_getProbeType. destruct (probe_httpGet p), (probe_exec p), (probe_tcpSocket p); done. Qed.

Lemma hash_of_app path h : str_forall (fun c => negb (bool_decide (c = "#"%char))) path = true -> hash_of (path +:+ "#" +:+ h) = "#" +:+ h.
Proof.
  induction path as [|c path IH]; [done|]. cbn. intros [Hc Hp]%Bool.andb_true_iff. apply Bool.negb_true_iff, bool_decide_eq_false in Hc.
  destruct (decide (c = "#"%char)); [done|]. by apply IH.
Qed.

(** Going to a tab opens it, also from the links of a component's page. *)
Lemma tab_opened path i : str_forall (fun c => negb (bool_decide (c = "#"%char))) path = true -> i < 7 ->
  currentTabIndex (hash_of (pushToTab path i)) = i.
Proof.
  intros Hp Hi. unfold pushToTab. rewrite hash_of_app by done. do 7 (destruct i as [|i]; [reflexivity|]). lia.
Qed.

(** Errors of the requests of CPU and memory are shown at no tab. *)
Example request_errors_hidden : Forall (fun t => t.2 = false) (renderTabs (fun f => seqb f "cpuRequest" || seqb f "memoryRequest")).
Proof. repeat constructor. Qed.

(** An image of a registry whose host is a part of a known one is not reported. *)
Example registry_hint :
  let known := [mkRegistry "mine" "" "" "https://registry.example.com" (num 0) true []] in
  isUnknownPrivateRegistry known "registry.example.com/app" = false /\ isUnknownPrivateRegistry known "other.example.org/app" = true /\
  isUnknownPrivateRegistry known "example.com/app" = false /\ isUnknownPrivateRegistry known "gcr.io/app" = false.
Proof. done. Qed.
