(* ===== verification/Shell.v ===== *)
(** The frame of the pages: what the data providers give them ([hoc/*.tsx],
    pages/Application/ItemDataWrapper.tsx), the side bars, the application bar, the
    list of applications above the side bar, the login page, and the table of
    routes ([routes.tsx]).

    What the user may do is the interface [UserAuth]; in the program it is
    [state.auth.permissionMethods]. *)

From S2P Require Import Prelude JsString JsNumber ResourceTypes ActionTypes ResourceReducers UiReducers RootReducer Utils.

(** ** The interface of permissions ([hoc/withUserAuth.tsx]) *)

Class UserAuth := {
  canViewNamespace : string -> bool;
  canEditNamespace : string -> bool;
  canManageNamespace : string -> bool;
  canViewCluster : bool;
  canEditCluster : bool;
  canManageCluster : bool
}.

(** ** Providers *)

Section providers.
Context {RouterState : Type}.
Abbreviation State := (RootState RouterState).

(** [hoc/withNamespace.tsx] *)
Record NamespaceProps := mkNamespaceProps {
  np_param : string;
  np_activeNamespaceName : string;
  np_activeNamespace : option ApplicationDetails;
  np_applications : list ApplicationDetails;
  np_components : option (list ApplicationComponentDetails);
  np_isNamespaceLoading : bool;
  np_isNamespaceFirstLoaded : bool
}.

(** [applicationName] is the parameter of the address, empty when there is none. *)
Definition namespace_props (state : State) (applicationName : string) : NamespaceProps :=
  let apps := root_applications state in
  let activeNamespaceName := if seqb applicationName "" then active (root_namespaces state) else applicationName in
  mkNamespaceProps applicationName activeNamespaceName
    (List.find (fun x => seqb (app_name x) activeNamespaceName) (applications apps)) (applications apps)
    (components (root_components state) !! activeNamespaceName) (app_isListLoading apps) (app_isListFirstLoaded apps).

(** The namespace it makes current: when it is mounted, and when the name changes. *)
Definition namespace_mounted (p : NamespaceProps) : string := np_activeNamespaceName p.
Definition namespace_updated (prevProps p : NamespaceProps) : option string :=
  if seqb (np_activeNamespaceName p) (np_activeNamespaceName prevProps) then None else Some (np_activeNamespaceName p).

Inductive NamespaceView := NamespaceLoading | AppNotFound | NamespacePage.
Definition namespace_view (p : NamespaceProps) : NamespaceView :=
  if negb (np_isNamespaceFirstLoaded p) then NamespaceLoading
  else if Nat.ltb 0 (length (np_applications p)) && negb (seqb (np_param p) "") &&
          negb (existsb (fun app => seqb (app_name app) (np_param p)) (np_applications p)) then AppNotFound
  else NamespacePage.

(** [hoc/withComponent.tsx]: [None] is the page for a missing component. *)
Definition component_of (p : NamespaceProps) (name : string) : option ApplicationComponentDetails :=
  l ← np_components p; List.find (fun c => seqb (comp_name (cd_component c)) name) l.

(** [render] of pages/Components/List.tsx needs the application: [Throw] when it is
    missing. *)
Definition component_list_view (p : NamespaceProps) : result (list ApplicationComponentDetails) :=
  match np_activeNamespace p with
  | None => Throw "Cannot read property 'name' of undefined"
  | Some _ => Ok (default [] (np_components p))
  end.

(** The other providers select a part of the state. *)
Definition routes_props (state : State) (name : string) : bool * bool * list HttpRoute * option HttpRoute :=
  let s := root_routes state in
  (route_isLoading s, route_isFirstLoaded s, httpRoutes s, List.find (fun x => seqb (route_name x) name) (httpRoutes s)).
Definition certs_props (state : State) : bool * bool * list Certificate :=
  let s := root_certificates state in (cert_isLoading s, cert_isFirstLoaded s, certificates s).
Definition cluster_props (state : State) : option ClusterInfo * bool * bool :=
  let s := root_cluster state in (cluster_info s, cluster_isLoading s, cluster_isFirstLoaded s).
Definition componentsMap_props (state : State) : gmap string (list ApplicationComponentDetails) := components (root_components state).
Definition deployAccessTokens_props (state : State) : list DeployAccessToken * bool * bool :=
  let s := root_deployAccessTokens state in (deployAccessTokens s, dat_loaded s, dat_isLoading s).
Definition disks_props (state : State) : list Disk := persistentVolumes (root_persistentVolumes state).
Definition roleBindings_props (state : State) : bool * bool * list RoleBinding :=
  let s := root_roles state in (rb_isLoading s, rb_isFirstLoaded s, roleBindings s).
Definition sso_props (state : State) : option SSOConfig * bool * bool * bool * bool * list ProtectedEndpoint :=
  let s := root_sso state in
  (sso_config s, sso_loaded s, sso_isLoading s, isProtectedEndpointsLoaded s, isProtectedEndpointsLoading s, protectedEndpoints s).
Definition userAuth_props (state : State) : AuthState * string * string * string * PermissionMethods :=
  let a := root_auth state in (a, auth_token a, auth_impersonation a, auth_impersonationType a, permissionMethods a).

(** [pages/Application/ItemDataWrapper.tsx]: the application and the component of an
    address; [search_component] is the parameter of its query. *)
Definition item_props (state : State) (applicationName componentName search_component : string) :
    option ApplicationDetails * option (list ApplicationComponentDetails) * option ApplicationComponentDetails * bool :=
  let componentName' := if seqb componentName "" then search_component else componentName in
  let application := List.find (fun x => seqb (app_name x) applicationName) (applications (root_applications state)) in
  let comps := a ← application; components (root_components state) !! app_name a in
  (application, comps, l ← comps; List.find (fun x => seqb (comp_name (cd_component x)) componentName') l,
   app_isItemLoading (root_applications state)).

End providers.

(** ** Reloading an application *)

(** The wrapper of an application's pages: its field [interval], the timers that are
    pending in the browser, the next timer's number and the loads it dispatched. *)
Record Reloader := mkReloader { rl_interval : option nat; rl_pending : list nat; rl_next : nat; rl_loads : nat }.
Definition newReloader : Reloader := mkReloader None [] 1 0.

(** [loadData]: two requests, and a timer of a minute when reloading. *)
Definition loadData (autoReload : bool) (r : Reloader) : Reloader :=
  let r' := mkReloader (rl_interval r) (rl_pending r) (rl_next r) (S (rl_loads r)) in
  if autoReload then mkReloader (Some (rl_next r')) (rl_next r' :: rl_pending r') (S (rl_next r')) (rl_loads r') else r'.

Inductive ReloadEvent := Mount | TimerFires (id : nat) | Unmount.
(** The browser fires a timer that is pending, once; [interval] keeps its number. *)
Definition reload_event (autoReload : bool) (r : Reloader) (e : ReloadEvent) : Reloader :=
  match e with
  | Mount => loadData autoReload r
  | TimerFires id =>
      if bool_decide (id ∈ rl_pending r)
      then loadData autoReload
             (mkReloader (rl_interval r) (List.filter (fun t => negb (Nat.eqb t id)) (rl_pending r)) (rl_next r) (rl_loads r))
      else r
  | Unmount =>
      match rl_interval r with
      | Some id => mkReloader (rl_interval r) (List.filter (fun t => negb (Nat.eqb t id)) (rl_pending r)) (rl_next r) (rl_loads r)
      | None => r
      end
  end.

(** ** The list of applications ([widgets/Namespaces.tsx]) *)

Section namespaces.
Context `{UserAuth}.

(** One round of the loop over the applications: the array of the path's parts is
    shared by the rounds and written by each. *)
Definition namespace_link (pathnameSplits : list string) (name : string) : string * list string :=
  let part i := default "" (pathnameSplits !! i) in
  if negb (seqb (part 1) "") && negb (seqb (part 2) "") && seqb (part 1) "applications" then
    let splits' := <[2 := name]> pathnameSplits in (join "/" (take 4 splits'), splits')
  else ("/applications/" +:+ name +:+ "/components", pathnameSplits).

Fixpoint namespace_links (pathnameSplits : list string) (names : list string) : list (string * string) :=
  match names with
  | [] => []
  | name :: names' => let '(to, splits') := namespace_link pathnameSplits name in (name, to) :: namespace_links splits' names'
  end.

Definition Namespaces (pathname : string) (apps : list ApplicationDetails) : list (string * string) :=
  namespace_links (split_char "/" pathname)
    (app_name <$> List.filter (fun app => canEditNamespace (app_name app) || canViewNamespace (app_name app)) apps).

Definition namespace_button (loading firstLoaded : bool) (activeNamespace : option ApplicationDetails) : string :=
  if loading && negb firstLoaded then "Loading..." else from_option app_name "Select a Application" activeNamespace.

(** ** The side bars *)

Record MenuItem := mkMenuItem { item_text : string; item_to : string; item_exact : bool }.
Definition item (text to : string) : MenuItem := mkMenuItem text to false.
Definition when (b : bool) (i : MenuItem) : option MenuItem := if b then Some i else None.

(** [getSideBarData] of layout/RootDrawer.tsx *)
Definition getSideBarData (activeNamespaceName : string) : list (string * list (option MenuItem)) :=
  [ ("Application",
     [ Some (item "Apps" "/applications"); when canViewCluster (item "Certificates" "/certificates");
       Some (item "Routes" "/routes"); when (canEditNamespace activeNamespaceName || canEditCluster) (item "CI / CD" "/ci") ]);
    ("Cluster",
     [ when canViewCluster (item "Nodes" "/cluster/nodes"); when canViewCluster (item "Load Balancer" "/cluster/loadbalancer");
       when canViewCluster (item "Disks" "/cluster/disks");
       when (canEditNamespace activeNamespaceName || canViewCluster) (item "Registries" "/cluster/registries") ]);
    ("Settings",
     [ when canViewCluster (item "Single Sign-on" "/sso"); when canManageCluster (item "Members" "/cluster/members");
       when canManageCluster (item "Version" "/version") ]) ].

(** What is rendered: groups without items are left out. *)
Definition RootDrawer (activeNamespaceName : string) : list (string * list MenuItem) :=
  omap (fun g => match omap id g.2 with [] => None | items => Some (g.1, items) end) (getSideBarData activeNamespaceName).

(** [getMenuData] of pages/Application/ApplicationSidebar.tsx *)
Definition getMenuData (activeNamespaceName : string) : list MenuItem :=
  [item "Components" ("/applications/" +:+ activeNamespaceName +:+ "/components")] ++
  (if canManageNamespace activeNamespaceName || canEditCluster
   then [item "Members" ("/applications/" +:+ activeNamespaceName +:+ "/members")] else []) ++
  [mkMenuItem "Dashboard" ("/applications/" +:+ activeNamespaceName +:+ "/metrics") true].

(** [to.split("?")[0]] *)
Definition before_query (to : string) : string := default "" (head (split_char "?" to)).
Definition item_selected (pathname : string) (i : MenuItem) : bool :=
  if item_exact i then seqb pathname (item_to i) else startsWith (before_query (item_to i)) pathname.

End namespaces.

(** ** The application bar ([layout/AppBar.tsx]) *)

Definition shown_email (email : string) : string :=
  if Nat.ltb 15 (String.length email) then str_take 15 email +:+ "..." else email.

Definition renderBreadcrumbContent (path : string) : string :=
  if seqb path "applications" || seqb path "" then "Apps"
  else match List.find (fun e => seqb e.1 path)
         [("routes", "Routes"); ("components", "Components"); ("certificates", "Certificates"); ("nodes", "Nodes");
          ("loadbalancer", "Load Balancer"); ("disks", "Disks"); ("registries", "Registries"); ("new", "New");
          ("upload", "Upload"); ("edit", "Edit"); ("sso", "SSO"); ("acme", "ACME DNS Server"); ("ci", "CI");
          ("metrics", "Dashboard")] with
       | Some e => e.2
       | None => path
       end.

Inductive Crumb := LogoCrumb | LastCrumb (text : string) | LinkCrumb (text to : string).
Definition breadcrumb (pathArray : list string) (index : nat) (path : string) : option Crumb :=
  if seqb path "cluster" then None
  else if Nat.eqb index 0 then Some LogoCrumb
  else if Nat.eqb (index + 1) (length pathArray) then Some (LastCrumb (renderBreadcrumbContent path))
  else Some (LinkCrumb (renderBreadcrumbContent path) (join "/" (take (index + 1) pathArray))).
Definition breadcrumbs (pathname : string) : list Crumb :=
  let pathArray := split_char "/" pathname in
  omap (fun e => breadcrumb pathArray e.1 e.2) (zip (seq 0 (length pathArray)) pathArray).

(** The entries of the user's menu. *)
Inductive UserEntry := EmailEntry (email : string) | ProfileEntry (to : string) | StopImpersonating (text : string) | LogoutEntry.
Definition user_menu (email impersonation impersonationType : string) : list UserEntry :=
  [EmailEntry (shown_email email); ProfileEntry "/profile"] ++
  (if seqb impersonation "" then []
   else [StopImpersonating (if seqb impersonationType "user" then "Stop impersonating " +:+ impersonation
                            else "Stop impersonating as member in " +:+ impersonation +:+ " group")]) ++
  (if includes "localhost" email then [] else [LogoutEntry]).

(** ** The login page ([layout/Login/index.tsx]) *)

Record LoginPage := mkLoginPage { login_value : string; login_error : option string }.
Definition login_handleChange (value : string) : LoginPage := mkLoginPage value None.

(** [handleSubmit]: the token it sends, and what it does with the answer of
    [validateTokenAction], an empty text or an error. *)
Definition login_submit (s : LoginPage) : LoginPage + string :=
  if seqb (login_value s) "" then inl (mkLoginPage (login_value s) (Some "Auth token is required.")) else inr (login_value s).
Definition login_answer (errorMessage : string) (s : LoginPage) : LoginPage * option string :=
  if seqb errorMessage "" then (s, Some "/") else (mkLoginPage (login_value s) (Some errorMessage), None).

(** ** The table of routes ([routes.tsx])

    The pages of the dashboard in the order of the table; all are exact. *)

Definition route_table : list (string * string) :=
  [ ("/profile", "ProfilePage"); ("/system", "SystemPage"); ("/setup", "SetupPage"); ("/sso", "SSOPage");
    ("/sso/config", "SSOConfigPage"); ("/endpoints", "EndpointsPage"); ("/endpoints/new", "NewEndpointPage");
    ("/endpoints/:name/edit", "EditEndpointPage"); ("/version", "VersionPage"); ("/cluster", "Redirect");
    ("/cluster/nodes", "NodeListPage"); ("/cluster/loadbalancer", "LoadBalancerInfoPage"); ("/cluster/disks", "DiskListPage");
    ("/cluster/registries", "RegistryListPage"); ("/cluster/registries/new", "RegistryNewPage");
    ("/cluster/registries/:name/edit", "RegistryEditPage"); ("/cluster/members", "RolesListPage");
    ("/cluster/members/new", "MemberNewPage"); ("/cluster/members/:name/edit", "RolesListPage"); ("/ci", "CIPage");
    ("/ci/keys", "Redirect"); ("/ci/keys/new", "DeployAccessTokenNewPage"); ("/ci/keys/:name", "DeployAccessTokenDetailPage");
    ("/applications", "ApplicationListPage"); ("/applications/new", "ApplicationNewPage");
    ("/applications/:applicationName/", "ComponentListPage"); ("/applications/:applicationName/metrics", "ApplicationShowPage");
    ("/routes", "RouteListPage"); ("/routes/new", "RouteNewPage"); ("/routes/:name/edit", "RouteEditPage");
    ("/routes/:name", "RouteRedirectList"); ("/applications/:applicationName/components", "ComponentListPage");
    ("/applications/:applicationName/components/new", "ComponentNewPage");
    ("/applications/:applicationName/components/:name", "ComponentShowPage");
    ("/applications/:applicationName/components/:name/edit", "ComponentEditPage");
    ("/applications/:applicationName/members", "RolesListPage"); ("/applications/:applicationName/members/new", "MemberNewPage");
    ("/applications/:applicationName/members/:name/edit", "RolesListPage"); ("/applications/:applicationName/logs", "Log");
    ("/applications/:applicationName/shells", "Log"); ("/certificates", "CertificateListPage");
    ("/certificates/new", "CertificateNewPage"); ("/certificates/upload", "CertificateUploadPage");
    ("/certificates/:name/edit", "CertificateEditPage"); ("/certificates/:name", "CertificateDetailPage");
    ("/acme", "CertificateAcmePage"); ("/acme/edit", "CertificateAcmeEditPage") ].

(** [NoMatch] of pages/NoMatch: where an address without a page goes. *)
Definition no_match_replace (pathname : string) : string := if seqb pathname "/" then "/applications" else "/404".

(** The path of an address: what is before its query and hash. *)
Definition address_path (address : string) : string :=
  default "" (head (split_char "?" (default "" (head (split_char "#" address))))).

(** The parts of a pattern or a path, without the empty one after a last slash. *)
Definition drop_last_empty (l : list string) : list string :=
  match last l with Some "" => removelast l | _ => l end.
Definition parts (path : string) : list string := drop_last_empty (split_char "/" path).

(** A part with a colon stands for any text; the others for themselves. *)
Fixpoint parts_match (pattern path : list string) : bool :=
  match pattern, path with
  | [], [] => true
  | p :: pattern', x :: path' => (if startsWith ":" p then negb (seqb x "") else seqb p x) && parts_match pattern' path'
  | _, _ => false
  end.

(** Text that stays one part of a path. *)
Definition plain (s : string) : bool :=
  negb (seqb s "") && negb (has_char "/" s) && negb (has_char "?" s) && negb (has_char "#" s).

(** ** The timer of the wrapper *)

(** One timer is pending, and [interval] names it. *)
Definition one_timer (autoReload : bool) (r : Reloader) : Prop :=
  if autoReload then exists id, rl_pending r = [id] /\ rl_interval r = Some id /\ (id < rl_next r)%nat
  else rl_pending r = [] /\ rl_interval r = None.

Lemma fires_one_timer auto ids r : one_timer auto r -> one_timer auto (foldl (reload_event auto) r (TimerFires <$> ids)).
Proof.
  revert r. induction ids as [|i ids IH]; intros r Hr; [done|]. cbn [fmap list_fmap foldl]. apply IH. unfold reload_event.
  case_bool_decide as Hi; [|done]. destruct auto; cbn [one_timer] in Hr |- *; [|destruct Hr as [Hr _]; by rewrite Hr in Hi; apply elem_of_nil in Hi].
  destruct Hr as (id & Hp & _ & Hlt). rewrite Hp in Hi |- *. apply list_elem_of_singleton in Hi as ->.
  exists (rl_next r). cbn. rewrite Nat.eqb_refl. cbn. auto.
Qed.

Lemma fires_idle auto ids r : rl_pending r = [] -> foldl (reload_event auto) r (TimerFires <$> ids) = r.
Proof.
  intros Hr. induction ids as [|i ids IH]; [done|]. cbn [fmap list_fmap foldl]. cbn [reload_event]. by rewrite Hr.
Qed.

(** The wrapper of an application's pages reloads while it is mounted and stops
    when it is left.  Whatever timers fire after it is mounted, one timer is pending
    when it reloads and none when it does not; after it is unmounted none is pending,
    and no firing loads anything more. *)
Theorem reload_stops (auto : bool) (fires fires' : list nat) :
  let mounted := foldl (reload_event auto) newReloader (Mount :: (TimerFires <$> fires)) in
  let left := reload_event auto mounted Unmount in
  one_timer auto mounted /\ rl_pending left = [] /\ foldl (reload_event auto) left (TimerFires <$> fires') = left.
Proof.
  intros mounted left.
  assert (Hm : one_timer auto mounted).
  { apply fires_one_timer. destruct auto; [|done]. exists 1%nat. split; [done|]. split; [done|]. cbn. lia. }
  assert (Hl : rl_pending left = []).
  { subst left. unfold reload_event. destruct auto; cbn [one_timer] in Hm.
    - destruct Hm as (id & Hp & Hi & _). rewrite Hi, Hp. cbn. by rewrite Nat.eqb_refl.
    - destruct Hm as [Hp Hi]. by rewrite Hi. }
  split; [done|]. split; [done|]. by apply fires_idle.
Qed.
