(* ===== verification/Navigation.v ===== *)
(** Where the links of the frame and of the views lead: each address is one of the
    table of routes, and the list of applications keeps the page while it changes
    the application. *)

From S2P Require Import Prelude JsString JsNumber ResourceTypes ResourceReducers ActionTypes CasbinModel WorkloadViews Shell.

(** ** Addresses and their parts *)

Lemma plain_name s : plain s = true <-> s <> "" /\ has_char "/" s = false /\ has_char "?" s = false /\ has_char "#" s = false.
Proof. unfold plain. rewrite !Bool.andb_true_iff, !Bool.negb_true_iff, seqb_false. tauto. Qed.

(** A part of an address, also the empty one before the first slash. *)
Definition part_ok (s : string) : Prop := has_char "/" s = false /\ has_char "?" s = false /\ has_char "#" s = false.

Lemma plain_part s : plain s = true -> part_ok s.
Proof. intros (_ & H)%plain_name. exact H. Qed.

Lemma address_path_join l : Forall part_ok l -> address_path (join "/" l) = join "/" l.
Proof.
  intros Hl. unfold address_path.
  assert (Hc : forall c, has_char c "/" = false -> Forall (fun s => has_char c s = false) l -> split_char c (join "/" l) = [join "/" l]).
  { intros c Hs Hall. apply split_char_none. by apply has_char_join. }
  rewrite (Hc "#"%char eq_refl) by (eapply Forall_impl; [exact Hl|]; by intros s (_ & _ & H)). cbn [head from_option id].
  rewrite (Hc "?"%char eq_refl) by (eapply Forall_impl; [exact Hl|]; by intros s (_ & H & _)). done.
Qed.

Lemma address_path_hash a h : has_char "#" a = false -> address_path (a +:+ "#" +:+ h) = address_path a.
Proof.
  intros Ha. unfold address_path. change ("#" +:+ h) with (String "#" h). rewrite split_char_app by done. by rewrite (split_char_none "#" a).
Qed.

Lemma address_path_query a q : has_char "#" a = false -> has_char "?" a = false -> has_char "#" q = false ->
  address_path (a +:+ "?" +:+ q) = address_path a.
Proof.
  intros Ha Hq Hh. unfold address_path. rewrite (split_char_none "#" (a +:+ "?" +:+ q)) by (rewrite !has_char_app, Ha, Hh; done).
  rewrite (split_char_none "#" a) by done. cbn [head from_option id]. change ("?" +:+ q) with (String "?" q).
  rewrite split_char_app by done. by rewrite (split_char_none "?" a).
Qed.

Lemma parts_join l : l <> [] -> Forall part_ok l -> parts (join "/" l) = drop_last_empty l.
Proof.
  intros Hne Hl. unfold parts. change "/" with (String "/" "") at 1. rewrite split_char_join; [done|done|].
  eapply Forall_impl; [exact Hl|]. by intros s (H & _).
Qed.

(** ** Routing *)

Section routing.
(** The matching of exact paths is the router's; where a pattern and a path have
    the same parts it accepts. *)
Variable matches_path : string -> string -> bool.
Hypothesis exact_paths : forall pattern path, parts_match (parts pattern) (parts path) = true -> matches_path pattern path = true.

Definition page_of (address : string) : option string :=
  snd <$> List.find (fun r => matches_path r.1 (address_path address)) route_table.
Definition routed (address : string) : Prop := is_Some (page_of address).

Lemma routed_parts address pattern : pattern ∈ fst <$> route_table -> parts_match (parts pattern) (parts (address_path address)) = true ->
  routed address.
Proof.
  intros (r & -> & Hr)%list_elem_of_fmap Hm. unfold routed, page_of.
  destruct (List.find (fun r => matches_path r.1 (address_path address)) route_table) as [r'|] eqn:E; [by eexists|].
  pose proof (List.find_none _ _ E r ltac:(by apply list_elem_of_In)) as Hn. cbn in Hn. by rewrite exact_paths in Hn.
Qed.

Lemma routed_join l pattern : pattern ∈ fst <$> route_table -> l <> [] -> Forall part_ok l ->
  parts_match (parts pattern) (drop_last_empty l) = true -> routed (join "/" l).
Proof.
  intros Hp Hne Hl Hm. apply (routed_parts _ pattern Hp). by rewrite address_path_join, parts_join.
Qed.

End routing.

(** Solves the membership of a pattern in the table. *)
Ltac in_table := apply (bool_decide_unpack _); vm_compute; reflexivity.

(** The parts of an address: literals and plain names. *)
Ltac parts_ok := repeat (apply Forall_cons; split; [first [by apply plain_part | done]|]); apply Forall_nil_2.

Section links.
Variable matches_path : string -> string -> bool.
Hypothesis exact_paths : forall pattern path, parts_match (parts pattern) (parts path) = true -> matches_path pattern path = true.
Abbreviation goes := (routed matches_path).

Lemma goes_literal to : existsb (fun r => parts_match (parts r.1) (parts (address_path to))) route_table = true -> goes to.
Proof.
  intros (r & Hr & Hm)%existsb_exists. apply (routed_parts _ exact_paths _ r.1); [|done]. apply list_elem_of_fmap. exists r.
  split; [done|]. by apply list_elem_of_In.
Qed.

Lemma goes_app name page : plain name = true -> page ∈ ["metrics"; "components"; "members"; "logs"; "shells"] ->
  goes ("/applications/" +:+ name +:+ "/" +:+ page).
Proof.
  intros Hn Hp. change ("/applications/" +:+ name +:+ "/" +:+ page) with (join "/" [""; "applications"; name; page]).
  rewrite !elem_of_cons in Hp. destruct Hp as [->|[->|[->|[->|[->|[]%not_elem_of_nil]]]]].
  - apply (routed_join _ exact_paths _ "/applications/:applicationName/metrics"); [in_table|done|parts_ok|].
    by destruct name.
  - apply (routed_join _ exact_paths _ "/applications/:applicationName/components"); [in_table|done|parts_ok|].
    by destruct name.
  - apply (routed_join _ exact_paths _ "/applications/:applicationName/members"); [in_table|done|parts_ok|].
    by destruct name.
  - apply (routed_join _ exact_paths _ "/applications/:applicationName/logs"); [in_table|done|parts_ok|].
    by destruct name.
  - apply (routed_join _ exact_paths _ "/applications/:applicationName/shells"); [in_table|done|parts_ok|].
    by destruct name.
Qed.

Lemma goes_component name comp : plain name = true -> plain comp = true ->
  goes ("/applications/" +:+ name +:+ "/components/" +:+ comp) /\
  goes ("/applications/" +:+ name +:+ "/components/" +:+ comp +:+ "/edit").
Proof.
  intros Hn Hc. split.
  - change ("/applications/" +:+ name +:+ "/components/" +:+ comp) with (join "/" [""; "applications"; name; "components"; comp]).
    apply (routed_join _ exact_paths _ "/applications/:applicationName/components/:name"); [in_table|done|parts_ok|].
    by destruct name, comp.
  - change ("/applications/" +:+ name +:+ "/components/" +:+ comp +:+ "/edit")
      with (join "/" [""; "applications"; name; "components"; comp; "edit"]).
    apply (routed_join _ exact_paths _ "/applications/:applicationName/components/:name/edit"); [in_table|done|parts_ok|].
    by destruct name, comp.
Qed.

(** ** The list of applications *)

(** A round writes only the part of the application, which every round overwrites:
    the rounds do not see each other. *)
Lemma namespace_link_shared ps m n : m <> "" ->
  (namespace_link (namespace_link ps m).2 n).1 = (namespace_link ps n).1.
Proof.
  intros Hm. unfold namespace_link at 2.
  destruct (negb (seqb (default "" (ps !! 1)) "") && negb (seqb (default "" (ps !! 2)) "") && seqb (default "" (ps !! 1)) "applications") eqn:E;
    [|done].
  apply Bool.andb_true_iff in E as [[E1 E2]%Bool.andb_true_iff E3]. cbn [snd].
  assert (Hl : (2 < length ps)%nat).
  { destruct (ps !! 2) eqn:El; [by eapply lookup_lt_Some|done]. }
  unfold namespace_link. rewrite list_lookup_insert_ne by done. rewrite list_lookup_insert_eq by done.
  cbn [from_option id]. rewrite E1, E2, E3. apply seqb_false in Hm. rewrite Hm. cbn [negb andb fst].
  by rewrite list_insert_insert_eq.
Qed.

Lemma namespace_links_map ps names : Forall (fun n => n <> "") names ->
  namespace_links ps names = (fun n => (n, (namespace_link ps n).1)) <$> names.
Proof.
  intros H. revert ps. induction H as [|n names Hn _ IH]; intros ps; [done|]. cbn [namespace_links fmap list_fmap].
  destruct (namespace_link ps n) as [to ps'] eqn:E. cbn [fst]. f_equal. rewrite IH. apply list_fmap_ext.
  intros _ m _. f_equal. change ps' with (to, ps').2. rewrite <- E. by apply namespace_link_shared.
Qed.

Definition app_pages : list string := ["metrics"; "components"; "members"; "logs"; "shells"].

(** What the table says of an address with a page of an application. *)
Lemma table_pages ps : existsb (fun r => parts_match (parts r.1) ps) route_table = true ->
  head ps = Some "" /\ forall p a x l, ps = p :: "applications" :: a :: x :: l -> x ∈ app_pages.
Proof.
  intros (r & Hr & Hm)%existsb_exists.
  assert (Ht : forallb (fun r => match parts r.1 with
      | a :: b :: l => seqb a "" && negb (startsWith ":" b) &&
          match l with c :: d :: _ => negb (seqb b "applications") || (negb (startsWith ":" d) && existsb (seqb d) app_pages) | _ => true end
      | _ => false end) route_table = true) by (vm_compute; reflexivity).
  rewrite forallb_forall in Ht. specialize (Ht r Hr). destruct (parts r.1) as [|a [|b l]]; [done..|].
  apply Bool.andb_true_iff in Ht as [[Ha%seqb_true Hb]%Bool.andb_true_iff Ht]. subst a. apply Bool.negb_true_iff in Hb.
  destruct ps as [|p ps]; [done|]. cbn [parts_match] in Hm. change (startsWith ":" "") with false in Hm. cbn iota in Hm.
  apply Bool.andb_true_iff in Hm as [<-%seqb_true Hm]. split; [done|].
  intros p' a x l' [= _ ->]. cbn [parts_match] in Hm. rewrite Hb in Hm. apply Bool.andb_true_iff in Hm as [->%seqb_true Hm].
  destruct l as [|c [|d l]]; [done| |]; cbn [parts_match] in Hm; apply Bool.andb_true_iff in Hm as [_ Hm]; [done|].
  apply Bool.andb_true_iff in Hm as [Hx _]. change (seqb "applications" "applications") with true in Ht. cbn [negb orb] in Ht.
  apply Bool.andb_true_iff in Ht as [Hd (y & Hy & ->%seqb_true)%existsb_exists]. apply Bool.negb_true_iff in Hd.
  rewrite Hd in Hx. apply seqb_true in Hx as ->. by apply list_elem_of_In.
Qed.

Lemma goes_name name : plain name = true -> goes ("/applications/" +:+ name).
Proof.
  intros Hn. change ("/applications/" +:+ name) with (join "/" [""; "applications"; name]).
  apply (routed_join _ exact_paths _ "/applications/:applicationName/"); [in_table|done|parts_ok|].
  by destruct name.
Qed.

(** The address of an application in the list, from an address that is routed. *)
Lemma goes_namespace_link pathname name : plain name = true ->
  existsb (fun r => parts_match (parts r.1) (parts pathname)) route_table = true ->
  goes (namespace_link (split_char "/" pathname) name).1.
Proof.
  intros Hn Ht. unfold parts in Ht. remember (split_char "/" pathname) as ps eqn:Eps. clear Eps. unfold namespace_link.
  destruct (negb (seqb (default "" (ps !! 1)) "") && negb (seqb (default "" (ps !! 2)) "") && seqb (default "" (ps !! 1)) "applications") eqn:E;
    [|by apply goes_app; [|set_solver]].
  apply Bool.andb_true_iff in E as [[_ E2%Bool.negb_true_iff%seqb_false]%Bool.andb_true_iff E3%seqb_true].
  destruct ps as [|p [|b [|a l]]]; cbn in E2, E3; [done..|]. subst b. cbn [fst insert list_insert].
  apply table_pages in Ht as [Hh Hp].
  assert (p = "") as ->.
  { unfold drop_last_empty in Hh. destruct l; cbn in Hh; [destruct a; cbn in Hh|]; try congruence.
    all: destruct (last _) as [[]|]; cbn in Hh; congruence. }
  destruct l as [|x l]; [exact (goes_name name Hn)|].
  destruct (decide (x = "" /\ l = [])) as [[-> ->]|Hx].
  - change (goes (join "/" [""; "applications"; name; ""])).
    apply (routed_join _ exact_paths _ "/applications/:applicationName/"); [in_table|done|parts_ok|].
    by destruct name.
  - change (goes ("/applications/" +:+ name +:+ "/" +:+ x)). apply goes_app; [done|].
    assert (exists l', drop_last_empty ("" :: "applications" :: a :: x :: l) = "" :: "applications" :: a :: x :: l') as [l' El].
    { unfold drop_last_empty. destruct l as [|y l].
      - exists []. cbn. destruct x; [by destruct Hx|done].
      - rewrite !last_cons_cons. destruct (last (y :: l)) as [[]|]; [by exists (removelast (y :: l))|by eexists..]. }
    by apply (Hp _ _ _ _ El).
Qed.

Lemma goes_hash address h : has_char "#" address = false -> goes address -> goes (address +:+ "#" +:+ h).
Proof. intros Ha Hg. unfold routed, page_of in *. by rewrite address_path_hash. Qed.

Lemma plain_no_hash s : plain s = true -> has_char "#" s = false.
Proof. by intros (_ & _ & _ & H)%plain_name. Qed.

(** The address of a tab of a component's form. *)
Lemma goes_tab name comp tab : plain name = true -> plain comp = true ->
  goes ("/applications/" +:+ name +:+ "/components/" +:+ comp +:+ "/edit#" +:+ tab).
Proof.
  intros Hn Hc.
  replace ("/applications/" +:+ name +:+ "/components/" +:+ comp +:+ "/edit#" +:+ tab)
    with (("/applications/" +:+ name +:+ "/components/" +:+ comp +:+ "/edit") +:+ "#" +:+ tab)
    by (change "/edit#" with ("/edit" +:+ "#"); rewrite !sapp_assoc; reflexivity).
  apply goes_hash; [|by apply goes_component]. by rewrite !has_char_app, (plain_no_hash name), (plain_no_hash comp) by done.
Qed.

Lemma goes_literals (l : list string) :
  forallb (fun to => existsb (fun r => parts_match (parts r.1) (parts (address_path to))) route_table) l = true -> Forall goes l.
Proof. rewrite forallb_forall. intros Hl. apply Forall_forall. intros to Hto. apply goes_literal, Hl. by apply list_elem_of_In. Qed.

Lemma root_drawer_goes `{UserAuth} name : Forall (fun g => Forall (fun i => goes (item_to i)) g.2) (RootDrawer name).
Proof.
  assert (Hl : Forall (fun g => Forall (fun i => from_option (fun i => goes (item_to i)) True i) g.2) (getSideBarData name)).
  { unfold getSideBarData. repeat constructor; unfold when; try (match goal with |- context [if ?b then _ else _] => destruct b end);
      try exact I; by apply goes_literal. }
  apply Forall_forall. intros g (g' & Hg & Hs)%list_elem_of_omap. apply Forall_forall. intros i Hi.
  rewrite Forall_forall in Hl. specialize (Hl g' Hg). rewrite Forall_forall in Hl.
  assert (Hi' : i ∈ omap id g'.2) by (destruct (omap id g'.2); [done|]; by injection Hs as <-).
  apply list_elem_of_omap in Hi' as (o & Ho & Eo). change (o = Some i) in Eo. subst o.
  exact (Hl _ Ho).
Qed.

Lemma menu_goes `{UserAuth} name : plain name = true -> Forall (fun i => goes (item_to i)) (getMenuData name).
Proof.
  intros Hn. unfold getMenuData. destruct (canManageNamespace name || canEditCluster); cbn [app]; repeat constructor; cbn [item_to item];
    apply (goes_app name _ Hn); set_solver.
Qed.

Lemma profile_entry email imp kind to : ProfileEntry to ∈ user_menu email imp kind -> to = "/profile".
Proof.
  unfold user_menu. repeat case_match; cbn [app]; rewrite !elem_of_cons, elem_of_nil; naive_solver.
Qed.

Lemma namespaces_fmap `{UserAuth} pathname apps : Forall (fun app => plain (app_name app) = true) apps ->
  Namespaces pathname apps = (fun n => (n, (namespace_link (split_char "/" pathname) n).1)) <$>
    (app_name <$> List.filter (fun app => canEditNamespace (app_name app) || canViewNamespace (app_name app)) apps).
Proof.
  intros Ha. apply namespace_links_map. apply Forall_fmap. apply Forall_forall. intros app Hin.
  apply list_elem_of_In, filter_In in Hin as [Hin%list_elem_of_In _]. rewrite Forall_forall in Ha.
  by destruct (proj1 (plain_name _) (Ha _ Hin)).
Qed.

Lemma namespaces_go `{UserAuth} pathname apps : Forall (fun app => plain (app_name app) = true) apps ->
  existsb (fun r => parts_match (parts r.1) (parts pathname)) route_table = true -> Forall (fun e => goes e.2) (Namespaces pathname apps).
Proof.
  intros Ha Ht. rewrite namespaces_fmap by done. rewrite !Forall_fmap. apply Forall_forall. intros app Hin. cbn.
  apply list_elem_of_In, filter_In in Hin as [Hin%list_elem_of_In _]. rewrite Forall_forall in Ha. apply goes_namespace_link; auto.
Qed.

Lemma namespaces_list `{UserAuth} pathname apps app : Forall (fun app => plain (app_name app) = true) apps ->
  app ∈ apps -> canViewNamespace (app_name app) = true ->
  (app_name app, (namespace_link (split_char "/" pathname) (app_name app)).1) ∈ Namespaces pathname apps.
Proof.
  intros Ha Hin Hv. rewrite namespaces_fmap by done. apply list_elem_of_fmap. exists (app_name app). split; [done|].
  apply list_elem_of_fmap. exists app. split; [done|]. apply list_elem_of_In, filter_In. split; [by apply list_elem_of_In|].
  by rewrite Hv, Bool.orb_true_r.
Qed.

(** C28: No link of the frame is dead.  For names that are one part of an address, the
    entries of both side bars, of the user's menu and of the list of applications lead
    to a page of the table of routes, whatever the user may do; so do the links of a
    component's page to the tabs that add ports and probes.  The list of applications
    does so from every address the router accepts, and what it makes of an application
    does not depend on the applications listed before it, although the rounds share
    the array they write. *)
Theorem no_dead_links (H : UserAuth) (name pathname : string) (apps : list ApplicationDetails) (component : ComponentLike)
    (Hname : plain name = true) (Hcomp : plain (comp_name component) = true)
    (Happs : Forall (fun app => plain (app_name app) = true) apps)
    (Hpath : existsb (fun r => parts_match (parts r.1) (parts pathname)) route_table = true) :
  Forall (fun g => Forall (fun i => goes (item_to i)) g.2) (RootDrawer name) /\
  Forall (fun i => goes (item_to i)) (getMenuData name) /\
  (forall email impersonation kind to, ProfileEntry to ∈ user_menu email impersonation kind -> goes to) /\
  Forall (fun e => goes e.2) (Namespaces pathname apps) /\
  (forall app, app ∈ apps -> canViewNamespace (app_name app) = true ->
     (app_name app, (namespace_link (split_char "/" pathname) (app_name app)).1) ∈ Namespaces pathname apps) /\
  (forall to, renderPorts name component = inr to -> goes to) /\
  (forall to, (renderHealth name component).2 = Some to -> goes to).
Proof.
  split; [|split; [|split; [|split; [|split; [|split]]]]].
  - apply root_drawer_goes.
  - apply menu_goes; done.
  - intros email imp kind to Hin. apply profile_entry in Hin as ->. by apply goes_literal.
  - by apply namespaces_go.
  - intros app Happ Hv. by apply namespaces_list.
  - intros to. unfold renderPorts. destruct (comp_ports component) as [[]|]; intros [= <-]; by apply goes_tab.
  - intros to. unfold renderHealth. cbn [snd]. destruct (comp_readinessProbe component), (comp_livenessProbe component);
      intros [= <-]; by apply goes_tab.
Qed.

End links.

Definition web_component : ComponentLike :=
  mkComponentLike "web" "nginx" (num 1) None None None None None None None None None None "ClusterFirst" None None None None None None
    None None None None.

Lemma no_dead_links_witness :
  let auth := {| canViewNamespace := fun _ => true; canEditNamespace := fun _ => false; canManageNamespace := fun _ => false;
                 canViewCluster := true; canEditCluster := false; canManageCluster := false |} in
  Namespaces (H := auth) "/applications/old/logs" [mkApplication "shop" None "Active" (mkMetrics false [] []) []] =
    [("shop", "/applications/shop/logs")] /\
  routed (fun pattern path => parts_match (parts pattern) (parts path)) "/applications/shop/logs".
Proof.
  intros auth. split; [vm_compute; reflexivity|].
  destruct (no_dead_links (fun pattern path => parts_match (parts pattern) (parts path)) (fun _ _ H => H) auth "shop"
    "/applications/old/logs" [mkApplication "shop" None "Active" (mkMetrics false [] []) []] 
    web_component) as (_ & _ & _ & Hl & _); [vm_compute; reflexivity..|by repeat constructor|vm_compute; reflexivity|].
  inversion Hl. done.
Defined.

(** The crumb above a page that edits a registry leads nowhere: the table has the page
    for editing and the list, but none for one registry; so for the members and the
    protected endpoints. *)
Example dead_breadcrumbs :
  let dead pathname := List.filter (fun to => negb (existsb (fun r => parts_match (parts r.1) (parts to)) route_table))
    (omap (fun c => match c with LinkCrumb _ to => Some to | _ => None end) (breadcrumbs pathname)) in
  dead "/cluster/registries/hub/edit" = ["/cluster/registries/hub"] /\
  dead "/applications/shop/members/alice/edit" = ["/applications/shop/members/alice"] /\
  dead "/endpoints/sso/edit" = ["/endpoints/sso"] /\
  dead "/applications/shop/components/web/edit" = [] /\ dead "/certificates/c/edit" = [].
Proof. vm_compute. repeat split. Qed.
