(* ===== verification/Tables.v ===== *)
(** The tables of the pages: the search of [widgets/KRTable.tsx], which looks into
    the elements of the cells, and the rows of the pages with disks, certificates,
    registries, deploy keys, protected endpoints and members. *)

From S2P Require Import Prelude JsString JsNumber ResourceTypes FormChecks Sizes WorkloadViews.

(** ** Cells *)

(** What a cell holds: a text, a list, an object with its JSON text, an element with
    its attributes and children, or another value, which has no text. *)
Inductive Cell :=
| OtherCell (truthy : bool)
| NullCell
| TextCell (s : string)
| ListCell (l : list Cell)
| ObjectCell (json : string)
| ElementCell (attributes : list (string * Cell)) (children : Cell).

Definition truthy_cell (c : Cell) : bool :=
  match c with OtherCell b => b | NullCell => false | TextCell s => negb (seqb s "") | _ => true end.

(** An element without attributes, one without children, and the list of children. *)
Definition around (children : Cell) : Cell := ElementCell [] children.
Definition bare (attributes : list (string * Cell)) : Cell := ElementCell attributes (OtherCell false).
Definition undefined_cell : Cell := OtherCell false.
(** [<Typography variant="subtitle2">]: without children the search reads the variant. *)
Definition subtitle (children : Cell) : Cell := ElementCell [("variant", TextCell "subtitle2")] children.
Definition function_cell : Cell := OtherCell true.
Definition optional_text (s : option string) : Cell := from_option TextCell undefined_cell s.

(** ** The search *)

Definition text_matches (filter s : string) : bool := negb (seqb s "") && includes (toLowerCase filter) (toLowerCase s).

Section search.
(** [JSON.stringify] of the objects among the attributes. *)
Variable stringify : Cell -> string.

Definition attribute_text (c : Cell) : option string :=
  match c with
  | TextCell s => Some s
  | NullCell => Some "null"
  | ObjectCell json => Some json
  | ListCell _ | ElementCell _ _ => Some (stringify c)
  | OtherCell _ => None
  end.
Definition attribute_includes (filter : string) (c : Cell) : bool :=
  from_option (text_matches filter) false (attribute_text c).

Fixpoint cellIncludes (filter : string) (cellValue : Cell) : bool :=
  match cellValue with
  | TextCell s => text_matches filter s
  | ListCell l => existsb (cellIncludes filter) l
  | ElementCell attributes children =>
      if truthy_cell children then cellIncludes filter children
      else existsb (fun e => attribute_includes filter e.2) attributes || attribute_includes filter children
  | OtherCell _ | NullCell | ObjectCell _ => false
  end.

(** A row is what its columns show, by the names of the columns. *)
Abbreviation Row := (list (string * Cell)).
Definition row_value (row : Row) (id : string) : Cell :=
  from_option snd undefined_cell (List.find (fun e => seqb e.1 id) row).

Definition kFilter (rows : list Row) (ids : list string) (filterValue : string) : list Row :=
  List.filter (fun row => seqb filterValue "" || existsb (fun id => cellIncludes filterValue (row_value row id)) ids) rows.

(** ** What the search looks at *)

Fixpoint cell_texts (c : Cell) : list string :=
  match c with
  | TextCell s => [s]
  | ListCell l => flat_map cell_texts l
  | ElementCell attributes children =>
      if truthy_cell children then cell_texts children
      else omap (fun e => attribute_text e.2) attributes ++ option_list (attribute_text children)
  | OtherCell _ | NullCell | ObjectCell _ => []
  end.

Definition row_texts (ids : list string) (row : Row) : list string := flat_map (fun id => cell_texts (row_value row id)) ids.

Lemma existsb_omap {A B : Type} (f : A -> option B) (p : B -> bool) l :
  existsb p (omap f l) = existsb (fun x => from_option p false (f x)) l.
Proof.
  induction l as [|x l IH]; [done|]. cbn [omap list_omap existsb]. destruct (f x); cbn [existsb from_option]; by rewrite <- IH.
Qed.

Lemma existsb_flat_map {A B : Type} (f : A -> list B) (p : B -> bool) l :
  existsb p (flat_map f l) = existsb (fun x => existsb p (f x)) l.
Proof. induction l as [|x l IH]; [done|]. cbn [flat_map existsb]. by rewrite existsb_app, IH. Qed.

Lemma cellIncludes_texts filter : forall c, cellIncludes filter c = existsb (text_matches filter) (cell_texts c).
Proof.
  fix IH 1. intros [b| |s|l|json|attributes children]; [done|done| | |done|].
  - cbn. by rewrite Bool.orb_false_r.
  - cbn [cellIncludes cell_texts]. rewrite existsb_flat_map. induction l as [|c l IHl]; [done|]. cbn [existsb]. by rewrite IH, IHl.
  - cbn [cellIncludes cell_texts]. rewrite IH. destruct (truthy_cell children); [done|].
    rewrite existsb_app, existsb_omap. f_equal. unfold attribute_includes.
    destruct (attribute_text children); [|done]. cbn. by rewrite Bool.orb_false_r.
Qed.

End search.

(** ** Rows *)

Section rows.
Context (canEditCluster : bool) (canEditNamespace : string -> bool).

(** [DeleteButtonWithConfirmPopover], and a link with an icon and a tooltip. *)
Definition delete_button (popupId popupTitle : string) : Cell :=
  bare [("popupId", TextCell popupId); ("popupTitle", TextCell popupTitle); ("confirmedAction", function_cell)].
Definition icon_link (tooltipTitle to : string) : Cell :=
  ElementCell [("tooltipTitle", TextCell tooltipTitle); ("to", TextCell to)] (bare []).
Definition shown_if (b : bool) (c : Cell) : Cell := if b then c else NullCell.

(** *** Disks ([pages/Disks/List.tsx]) *)

(** A missing text used as a key or in an address. *)
Definition shown_name (s : option string) : string := default "undefined" s.

Definition isInUseAndHasComponent (componentsMap : gmap string (list ApplicationComponentDetails)) (disk : Disk) : bool :=
  disk_isInUse disk &&
  existsb (fun c => bool_decide (Some (comp_name (cd_component c)) = disk_componentName disk))
    (default [] (componentsMap !! shown_name (disk_componentNamespace disk))).

(** A link to what uses the disk, or a tooltip about what used it. *)
Definition last_used (children : Cell) : Cell := ElementCell [("title", TextCell "Last used by")] (around children).
Definition disk_link (json_style to : string) (name : Cell) : Cell :=
  ElementCell [("style", ObjectCell json_style); ("to", TextCell to); ("onClick", function_cell)] name.

(** [sizeStringToGi(disk.capacity) + " Gi"]: a text, a number that is not zero, or one
    the model does not print, for which [print] stands. *)
Definition renderCapacity (print : number -> string) (disk : Disk) : string :=
  match sizeStringToGi (disk_capacity disk) with inl s => s | inr n => print n end +:+ " Gi".

Definition disk_row (componentsMap : gmap string (list ApplicationComponentDetails)) (print : number -> string) (json_style : string)
    (disk : Disk) : list (string * Cell) :=
  let used := isInUseAndHasComponent componentsMap disk in
  let ns := optional_text (disk_componentNamespace disk) in let comp := optional_text (disk_componentName disk) in
  [ ("name", TextCell (disk_name disk)); ("isInUse", TextCell (if used then "Yes" else "No"));
    ("componentNamespace",
     if used then disk_link json_style ("/applications/" +:+ shown_name (disk_componentNamespace disk) +:+ "/components") ns
     else last_used ns);
    ("componentName",
     if used then disk_link json_style ("/applications/" +:+ shown_name (disk_componentNamespace disk) +:+ "/components/" +:+
                                        shown_name (disk_componentName disk)) comp
     else last_used (ListCell [TextCell " "; comp]));
    ("capacity", TextCell (renderCapacity print disk));
    ("actions",
     shown_if canEditCluster (around
       (if used then ElementCell [("disabled", OtherCell true);
                        ("tooltipTitle", TextCell "The disk must be unmounted(removed) from all associated components before it can be deleted")]
                       (bare [])
        else delete_button "delete-disk-popup" "DELETE DISK?"))) ].
Definition disk_columns : list string := ["name"; "isInUse"; "componentNamespace"; "componentName"; "capacity"; "actions"].

(** *** Certificates ([pages/Certificate/List.tsx]) *)

Definition yes_no (b : option bool) : string := if default false b then "Yes" else "No".
Definition renderCertType (cert : Certificate) : string :=
  if default false (cert_isSelfManaged cert) then "Externally Uploaded" else "Let's Encrypt".
Definition truthy_number_option (n : option number) : option number :=
  n ≫= fun x => if isNaN x || neqb x (num 0) then None else Some x.

Inductive CertStatus := CertNormal | CertPending (reason : option string).
Definition cert_status (cert : Certificate) : CertStatus :=
  if bool_decide (cert_ready cert = Some "True") then CertNormal else CertPending (truthy_text (cert_reason cert)).
Definition render_cert_status (cert : Certificate) : Cell :=
  match cert_status cert with
  | CertNormal => around (around (TextCell "Normal"))
  | CertPending (Some reason) => around (ListCell [around (bare []); around (TextCell reason)])
  | CertPending None => bare []
  end.

(** [date] prints the seconds of a time through a third-party library. *)
Definition certificate_row (date : number -> string) (cert : Certificate) : list (string * Cell) :=
  [ ("name", subtitle (ElementCell [("to", TextCell ("/certificates/" +:+ cert_name cert))] (TextCell (cert_name cert))));
    ("domains", around (ListCell ((fun domain => around (TextCell domain)) <$> cert_domains cert)));
    ("status", render_cert_status cert); ("isSelfManaged", TextCell (renderCertType cert));
    ("isSignedByTrustedCA", TextCell (yes_no (cert_isSignedByTrustedCA cert)));
    ("expireTimestamp", TextCell (from_option date "-" (truthy_number_option (cert_expireTimestamp cert))));
    ("actions", around (if canEditCluster then around (ListCell
       [ (if default false (cert_isSelfManaged cert) then icon_link "Edit" ("/certificates/" +:+ cert_name cert +:+ "/edit") else undefined_cell);
         delete_button "delete-certificate-popup" "DELETE CERTIFICATE?" ]) else undefined_cell)) ].
Definition certificate_columns : list string :=
  ["name"; "domains"; "status"; "isSelfManaged"; "isSignedByTrustedCA"; "expireTimestamp"; "actions"].

(** *** Registries ([pages/Registry/List.tsx]) *)

Definition renderHost (row : Registry) : string := if seqb (reg_host row) "" then "DockerHub" else reg_host row.
Definition registry_row (row : Registry) : list (string * Cell) :=
  [ ("name", subtitle (TextCell (reg_name row))); ("host", TextCell (renderHost row)); ("username", TextCell (reg_username row));
    ("password", TextCell "******");
    ("verified", if reg_authenticationVerified row then bare [] else around (around (bare [])));
    ("actions", shown_if canEditCluster (around (ListCell
       [icon_link "Edit" ("/cluster/registries/" +:+ reg_name row +:+ "/edit"); delete_button "delete-registry-popup" "DELETE REGISTRY?"]))) ].
Definition registry_columns : list string := ["name"; "host"; "username"; "password"; "verified"; "actions"].
Definition renderRepositories (row : Registry) : string := join "," (repo_name <$> reg_repositories row).

(** *** Deploy keys ([pages/CI/index.tsx]) *)

Definition renderScope (row : DeployAccessToken) : option string :=
  if seqb (dat_scope row) DeployAccessTokenScopeCluster then Some "Cluster"
  else if seqb (dat_scope row) DeployAccessTokenScopeNamespace then Some "Specific Applications"
  else if seqb (dat_scope row) DeployAccessTokenScopeComponent then Some "Specific Components" else None.
Definition renderResources (row : DeployAccessToken) : Cell :=
  if seqb (dat_scope row) DeployAccessTokenScopeCluster then TextCell "-"
  else if seqb (dat_scope row) DeployAccessTokenScopeNamespace || seqb (dat_scope row) DeployAccessTokenScopeComponent
  then ListCell ((fun r => around (TextCell r)) <$> dat_resources row) else undefined_cell.
Definition token_row (canEdit : bool) (row : DeployAccessToken) : list (string * Cell) :=
  [ ("memo", subtitle (TextCell (dat_memo row))); ("scope", optional_text (renderScope row)); ("resources", renderResources row);
    ("actions", shown_if canEdit (around (ListCell
       [icon_link "Details" ("/ci/keys/" +:+ dat_name row); delete_button "delete-ci-popup" "DELETE CI?"]))) ].
Definition token_columns : list string := ["memo"; "scope"; "resources"; "actions"].

(** *** Protected endpoints ([pages/SSO/EndpointsPage.tsx])

    Their table has no title, and without one no field for a search. *)

Definition joined (l : option (list string)) : string := match l with Some (x :: l') => join ", " (x :: l') | _ => "All" end.
(** The test asks for the right to edit a namespace of the endpoint's name. *)
Definition endpoint_row (row : ProtectedEndpoint) : list (string * Cell) :=
  [ ("namespace", TextCell (endpoint_namespace row)); ("component", TextCell (endpoint_endpointName row));
    ("ports", TextCell (joined (List.map int_text <$> endpoint_ports row))); ("grantedGroups", TextCell (joined (endpoint_groups row)));
    ("actions", shown_if (canEditNamespace (endpoint_name row)) (around (ListCell
       [icon_link "Edit" ("/endpoints/" +:+ endpoint_name row +:+ "/edit"); delete_button "delete-sso-popup" "DELETE SSO?"]))) ].
Definition endpoint_columns : list string := ["namespace"; "component"; "ports"; "grantedGroups"; "actions"].

(** *** Members ([pages/Members/index.tsx]) *)

Definition isClusterLevel (pathname : string) : bool := startsWith "/cluster/members" pathname.
Definition getRoleBindings (pathname activeNamespaceName : string) (roleBindings : list RoleBinding) : list RoleBinding :=
  let filterNamespace := if isClusterLevel pathname then "kalm-system" else activeNamespaceName in
  List.filter (fun x => seqb (rb_namespace x) filterNamespace) roleBindings.
Definition renderSubjectType (roleBinding : RoleBinding) : string :=
  if seqb (rb_subjectType roleBinding) SubjectTypeUser then "User"
  else if seqb (rb_subjectType roleBinding) SubjectTypeGroup then "Group" else "Unknown-" +:+ rb_subjectType roleBinding.

(** The roles a member can be given, by their values. *)
Definition role_items (cluster : bool) : list (string * string) :=
  if cluster then [("clusterViewer", "Cluster Viewer"); ("clusterEditor", "Cluster Editor"); ("clusterOwner", "Cluster Owner")]
  else [("viewer", "Viewer"); ("editor", "Editor"); ("owner", "Owner")].
Definition renderRole (cluster : bool) (roleBinding : RoleBinding) : Cell :=
  ElementCell [("label", TextCell "Role"); ("value", TextCell (rb_role roleBinding))]
    (ListCell ((fun i => ElementCell [("value", TextCell i.1)] (TextCell i.2)) <$> role_items cluster)).

(** [changeRole]: the binding it sends, if the role is another. *)
Definition changeRole (roleBinding : RoleBinding) (newRole : string) : option RoleBinding :=
  if seqb (rb_role roleBinding) newRole then None
  else Some (mkRoleBinding (rb_name roleBinding) (rb_namespace roleBinding) (rb_subject roleBinding) (rb_subjectType roleBinding)
               newRole (rb_expiredAtTimestamp roleBinding)).

Definition member_row (cluster : bool) (roleBinding : RoleBinding) : list (string * Cell) :=
  [ ("name", TextCell (rb_name roleBinding)); ("subject", TextCell (rb_subject roleBinding));
    ("type", TextCell (renderSubjectType roleBinding)); ("role", renderRole cluster roleBinding);
    ("actions", around (ListCell
       [ ElementCell [("tooltipTitle", TextCell "Impersonate")] (bare []);
         delete_button ("delete-member-" +:+ rb_namespace roleBinding +:+ "-" +:+ rb_name roleBinding +:+ "-popup") "DELETE Member" ])) ].
Definition member_columns : list string := ["type"; "subject"; "role"; "actions"].

End rows.

(** ** What the search finds *)

Lemma kFilter_rows {A : Type} stringify (row : A -> list (string * Cell)) (items : list A) ids filterValue :
  filterValue <> "" ->
  kFilter stringify (row <$> items) ids filterValue =
    row <$> List.filter (fun x => existsb (text_matches filterValue) (row_texts stringify ids (row x))) items.
Proof.
  intros Hf. unfold kFilter. induction items as [|x items IH]; [done|]. cbn [fmap list_fmap List.filter].
  assert (He : (seqb filterValue "" || existsb (fun id => cellIncludes stringify filterValue (row_value (row x) id)) ids) =
    existsb (text_matches filterValue) (row_texts stringify ids (row x))).
  { apply seqb_false in Hf. rewrite Hf. cbn [orb]. unfold row_texts. rewrite existsb_flat_map. clear.
    induction ids as [|id ids IH]; [done|]. cbn [existsb]. by rewrite cellIncludes_texts, IH. }
  unfold fmap in IH. rewrite He. destruct (existsb (text_matches filterValue) (row_texts stringify ids (row x))); [cbn; f_equal|]; exact IH.
Qed.

(** The texts each row is searched by: those it shows, and the identifier and the
    title of the popup of its delete button, which it does not show. *)
Definition popup (b : bool) (id title : string) : list string := if b then [id; title] else [].

(** A name in bold letters: the search reads their variant if it is empty. *)
Definition subtitle_texts (s : string) : list string := if seqb s "" then ["subtitle2"; ""] else [s].

Definition registry_texts (canEdit : bool) (r : Registry) : list string :=
  subtitle_texts (reg_name r) ++ [renderHost r; reg_username r; "******"] ++ popup canEdit "delete-registry-popup" "DELETE REGISTRY?".
Definition token_texts (canEdit : bool) (t : DeployAccessToken) : list string :=
  subtitle_texts (dat_memo t) ++ option_list (renderScope t) ++ (if seqb (dat_scope t) DeployAccessTokenScopeCluster then ["-"]
    else if renderScope t then dat_resources t else []) ++ popup canEdit "delete-ci-popup" "DELETE CI?".
Definition disk_texts (canEdit : bool) (componentsMap : gmap string (list ApplicationComponentDetails)) (print : number -> string)
    (d : Disk) : list string :=
  let used := isInUseAndHasComponent componentsMap d in
  [disk_name d; if used then "Yes" else "No"] ++ option_list (disk_componentNamespace d) ++
  (if used then [] else [" "]) ++ option_list (disk_componentName d) ++ [renderCapacity print d] ++
  popup (canEdit && negb used) "delete-disk-popup" "DELETE DISK?".
Definition certificate_texts (canEdit : bool) (date : number -> string) (c : Certificate) : list string :=
  [cert_name c] ++ cert_domains c ++
  match cert_status c with CertNormal => ["Normal"] | CertPending r => option_list r end ++
  [renderCertType c; yes_no (cert_isSignedByTrustedCA c); from_option date "-" (truthy_number_option (cert_expireTimestamp c))] ++
  popup canEdit "delete-certificate-popup" "DELETE CERTIFICATE?".
Definition member_texts (cluster : bool) (b : RoleBinding) : list string :=
  [renderSubjectType b; rb_subject b] ++ (role_items cluster).*2 ++
  popup true ("delete-member-" +:+ rb_namespace b +:+ "-" +:+ rb_name b +:+ "-popup") "DELETE Member".

Lemma around_text stringify s : cell_texts stringify (around (TextCell s)) = [s].
Proof. unfold around. cbn [cell_texts truthy_cell]. by destruct (seqb_spec s "") as [->|]. Qed.

Lemma subtitle_text stringify s : cell_texts stringify (subtitle (TextCell s)) = subtitle_texts s.
Proof. unfold subtitle, subtitle_texts. cbn [cell_texts truthy_cell]. by destruct (seqb_spec s "") as [->|]. Qed.

Lemma optional_texts stringify s : cell_texts stringify (around (optional_text s)) = option_list s.
Proof. destruct s as [s|]; [apply around_text|reflexivity]. Qed.

Lemma list_texts stringify (f : string -> Cell) l : (forall s, cell_texts stringify (f s) = [s]) ->
  cell_texts stringify (ListCell (f <$> l)) = l.
Proof. intros Hf. induction l as [|s l IH]; [done|]. cbn in *. by rewrite Hf, IH. Qed.

(** A filter that is not empty is not found in an empty text. *)
Lemma text_matches_includes filterValue : filterValue <> "" ->
  forall s, text_matches filterValue s = includes (toLowerCase filterValue) (toLowerCase s).
Proof. intros Hf s. unfold text_matches. destruct s; [|done]. by destruct filterValue. Qed.

Section texts.
Context (stringify : Cell -> string).

Lemma registry_row_texts canEdit r : row_texts stringify registry_columns (registry_row canEdit r) = registry_texts canEdit r.
Proof.
  unfold row_texts, registry_columns. cbn [flat_map]. unfold registry_row, row_value. cbn [List.find fst]. eval_seqb.
  cbn [from_option snd]. rewrite subtitle_text. destruct (reg_authenticationVerified r), canEdit; reflexivity.
Qed.

Lemma token_row_texts canEdit t : row_texts stringify token_columns (token_row canEdit t) = token_texts canEdit t.
Proof.
  unfold row_texts, token_columns. cbn [flat_map]. unfold token_row, row_value. cbn [List.find fst]. eval_seqb.
  cbn [from_option snd]. rewrite subtitle_text. unfold token_texts, renderResources, renderScope.
  destruct (seqb (dat_scope t) DeployAccessTokenScopeCluster); [by destruct canEdit|].
  destruct (seqb (dat_scope t) DeployAccessTokenScopeNamespace); cbn [orb].
  - rewrite list_texts by apply around_text. by destruct canEdit.
  - destruct (seqb (dat_scope t) DeployAccessTokenScopeComponent).
    + rewrite list_texts by apply around_text. by destruct canEdit.
    + by destruct canEdit.
Qed.

(** The disks that are linked have a name to show. *)
Definition links_shown (componentsMap : gmap string (list ApplicationComponentDetails)) (d : Disk) : Prop :=
  isInUseAndHasComponent componentsMap d = true ->
  default "" (disk_componentNamespace d) <> "" /\ default "" (disk_componentName d) <> "".

Lemma link_texts json_style to name : default "" name <> "" ->
  cell_texts stringify (disk_link json_style to (optional_text name)) = option_list name.
Proof.
  intros Hn. destruct name as [name|]; [|done]. unfold disk_link, optional_text. cbn [from_option cell_texts truthy_cell].
  apply seqb_false in Hn. cbn in Hn. by rewrite Hn.
Qed.

Lemma disk_row_texts canEdit componentsMap print json_style d : links_shown componentsMap d ->
  row_texts stringify disk_columns (disk_row canEdit componentsMap print json_style d) = disk_texts canEdit componentsMap print d.
Proof.
  intros Hd. unfold row_texts, disk_columns. cbn [flat_map]. unfold disk_row, row_value. cbn [List.find fst]. eval_seqb.
  cbn [from_option snd]. unfold disk_texts. unfold links_shown in Hd. destruct (isInUseAndHasComponent componentsMap d).
  - destruct (Hd eq_refl) as [Hn Hc]. rewrite !link_texts by done. rewrite Bool.andb_false_r. by destruct canEdit.
  - assert (Hl : forall c, cell_texts stringify (last_used c) = cell_texts stringify (around c)) by done.
    rewrite !Hl, optional_texts. destruct canEdit, (disk_componentName d); reflexivity.
Qed.

Lemma certificate_row_texts canEdit date c : cert_name c <> "" ->
  row_texts stringify certificate_columns (certificate_row canEdit date c) = certificate_texts canEdit date c.
Proof.
  intros Hc. unfold row_texts, certificate_columns. cbn [flat_map]. unfold certificate_row, row_value. cbn [List.find fst]. eval_seqb.
  cbn [from_option snd]. unfold certificate_texts.
  assert (Hn : cell_texts stringify (subtitle (ElementCell [("to", TextCell ("/certificates/" +:+ cert_name c))] (TextCell (cert_name c)))) = [cert_name c]).
  { unfold subtitle. cbn [cell_texts truthy_cell]. apply seqb_false in Hc. by rewrite Hc. }
  rewrite Hn.
  assert (Hd : forall l, cell_texts stringify (around (ListCell l)) = cell_texts stringify (ListCell l)) by done.
  rewrite Hd, list_texts by apply around_text. f_equal. f_equal.
  assert (Hs : cell_texts stringify (render_cert_status c) = match cert_status c with CertNormal => ["Normal"] | CertPending r => option_list r end).
  { unfold render_cert_status. destruct (cert_status c) as [|[reason|]]; [reflexivity| |reflexivity].
    rewrite Hd. cbn [cell_texts flat_map]. by rewrite around_text. }
  rewrite Hs. f_equal. cbn [cell_texts app]. do 3 f_equal. destruct canEdit; [|done]. by destruct (default false (cert_isSelfManaged c)).
Qed.

Lemma member_row_texts cluster b : row_texts stringify member_columns (member_row cluster b) = member_texts cluster b.
Proof.
  unfold row_texts, member_columns. cbn [flat_map]. unfold member_row, row_value. cbn [List.find fst]. eval_seqb.
  cbn [from_option snd]. by destruct cluster.
Qed.

(** C29: The search of the tables finds what they show.  For each of five pages, a
    search keeps exactly the rows of which a text contains it, whatever the case of the
    letters, in their order.  The texts of a row are those it shows, for a registry
    never its password, and also some that it does not: for a member each role that
    could be chosen, where a row can be deleted the identifier and the title of the
    popup of its button, the space before the component of a disk nothing mounts, and
    for a registry without a name and a token without a memo the variant of the letters.
    The names of certificates, and of the application and component of a disk that links
    to them, are not empty. *)
Theorem search_finds filterValue canEdit cluster date print componentsMap json_style registries tokens disks certificates members :
  filterValue <> "" -> Forall (fun c => cert_name c <> "") certificates -> Forall (links_shown componentsMap) disks ->
  let found {A} (texts : A -> list string) (l : list A) :=
    List.filter (fun x => existsb (fun s => includes (toLowerCase filterValue) (toLowerCase s)) (texts x)) l in
  kFilter stringify (registry_row canEdit <$> registries) registry_columns filterValue =
    registry_row canEdit <$> found (registry_texts canEdit) registries /\
  kFilter stringify (token_row canEdit <$> tokens) token_columns filterValue =
    token_row canEdit <$> found (token_texts canEdit) tokens /\
  kFilter stringify (disk_row canEdit componentsMap print json_style <$> disks) disk_columns filterValue =
    disk_row canEdit componentsMap print json_style <$> found (disk_texts canEdit componentsMap print) disks /\
  kFilter stringify (certificate_row canEdit date <$> certificates) certificate_columns filterValue =
    certificate_row canEdit date <$> found (certificate_texts canEdit date) certificates /\
  kFilter stringify (member_row cluster <$> members) member_columns filterValue =
    member_row cluster <$> found (member_texts cluster) members.
Proof.
  intros Hf Hc Hd found.
  assert (Hfound : forall A (texts : A -> list string) row ids l, Forall (fun x => row_texts stringify ids (row x) = texts x) l ->
    kFilter stringify (row <$> l) ids filterValue = row <$> found A texts l).
  { intros A texts row ids l Hl. rewrite kFilter_rows by done. f_equal. subst found. cbn beta.
    induction Hl as [|x l Hx _ IH]; [done|]. cbn [List.filter]. rewrite IH, Hx.
    assert (He : forall t, existsb (text_matches filterValue) t = existsb (fun s => includes (toLowerCase filterValue) (toLowerCase s)) t).
    { induction t as [|s t IHt]; [done|]. cbn [existsb]. by rewrite text_matches_includes, IHt. }
    by rewrite He. }
  repeat split; apply Hfound, Forall_forall; intros x Hx;
    auto using registry_row_texts, token_row_texts, member_row_texts.
  - apply disk_row_texts. rewrite Forall_forall in Hd. by apply Hd.
  - apply certificate_row_texts. rewrite Forall_forall in Hc. by apply Hc.
Qed.

End texts.

(** ** Concrete tables *)

Definition sample_member (subject role : string) : RoleBinding := mkRoleBinding ("m-" +:+ subject) "kalm-system" subject "user" role (num 1).

Lemma search_finds_witness :
  kFilter (fun _ => "") (member_row true <$> [sample_member "alice" "clusterViewer"; sample_member "bob" "clusterOwner"])
    member_columns "ALI" = [member_row true (sample_member "alice" "clusterViewer")].
Proof.
  destruct (search_finds (fun _ => "") "ALI" true true (fun _ => "") (fun _ => "") ∅ "{}" [] [] [] []
    [sample_member "alice" "clusterViewer"; sample_member "bob" "clusterOwner"]) as (_ & _ & _ & _ & Hm); [done|constructor|constructor|].
  rewrite Hm. vm_compute. reflexivity.
Defined.

(** A search for a role finds the members without it too: the cell of the role holds
    every role that could be chosen. *)
Example role_found_in_every_row :
  kFilter (fun _ => "") (member_row true <$> [sample_member "alice" "clusterViewer"]) member_columns "owner" =
    [member_row true (sample_member "alice" "clusterViewer")].
Proof. vm_compute. reflexivity. Qed.

(** A search finds what no one sees: the identifier of a popup. *)
Example popup_found :
  length (kFilter (fun _ => "") (registry_row true <$> [mkRegistry "hub" "u" "p" "" (num 0) true []]) registry_columns "popup") = 1 /\
  kFilter (fun _ => "") (registry_row false <$> [mkRegistry "hub" "u" "p" "" (num 0) true []]) registry_columns "popup" = [].
Proof. vm_compute. split; reflexivity. Qed.

(** A token without a memo is found by the name of the style of its letters. *)
Example style_found :
  let token := mkDeployAccessToken "key" "" DeployAccessTokenScopeCluster [] "" "" in
  kFilter (fun _ => "") [token_row false token] token_columns "sub" = [token_row false token].
Proof. vm_compute. reflexivity. Qed.

(** The actions of an endpoint are shown for the right to edit a namespace of the
    endpoint's name, not the namespace it is in. *)
Example endpoint_of_another_name :
  let e := mkProtectedEndpoint "web-sso" "shop" "web" None None in
  row_value (endpoint_row (seqb "shop") e) "actions" = NullCell /\ row_value (endpoint_row (seqb "web-sso") e) "actions" <> NullCell.
Proof. split; [reflexivity|discriminate]. Qed.

(** A disk that a component mounts is linked to it and cannot be deleted. *)
Example mounted_disk :
  let disk := mkDisk "data" true (Some "shop") (Some "web") "Bound" "10Gi" None in
  isInUseAndHasComponent {["shop" := []]} disk = false /\
  row_value (disk_row true ∅ (fun _ => "") "{}" disk) "componentName" = last_used (ListCell [TextCell " "; TextCell "web"]) /\
  row_value (disk_row true ∅ (fun _ => "") "{}" disk) "actions" = around (delete_button "delete-disk-popup" "DELETE DISK?").
Proof. repeat split. Qed.
