(* ===== verification/Charts.v ===== *)
(** The charts: the series of the line charts ([widgets/SmallLineChart.tsx],
    [widgets/charts/]), and the doughnuts, which share one array of colours
    ([widgets/DoughnutChart.tsx]). *)

From S2P Require Import Prelude JsString JsNumber ResourceTypes Utils Sizes.

(** ** Line charts *)

(** [now] is the time the chart is drawn at; without a filter, or with all, every
    item is shown. *)
Definition item_shown (now : Z) (filter : option string) (item : MetricItem) : bool :=
  match filter with
  | None | Some "" => true
  | Some f => if seqb f "all" then true else nge (metric_x item) (num (getStartTimestamp now f))
  end.

Record Series := mkSeries { labels : list number; values : list number }.
(** [generateData] of [LineChart]. *)
Definition line_generateData (now : Z) (filter : option string) (data : option MetricList) : Series :=
  match data with
  | Some items => mkSeries (metric_x <$> List.filter (item_shown now filter) items) (metric_y <$> List.filter (item_shown now filter) items)
  | None => mkSeries [] []
  end.

(** [generateData] of [BaseLineChart]: the labels are those of the first series. It
    throws without one. *)
Definition base_generateData (now : Z) (filter : option string) (data : list (string * MetricList)) : result (list number * list (string * list number)) :=
  match data with
  | [] => Throw "Cannot read property 'data' of undefined"
  | (_, first) :: _ =>
      Ok (metric_x <$> List.filter (item_shown now filter) first,
          (fun s => (s.1, metric_y <$> List.filter (item_shown now filter) s.2)) <$> data)
  end.

(** [generateData] and [renderText] of [SmallLineChart]: a chart without data shows
    a fixed curve in grey. *)
Definition emptyChartDataX : list number := num <$> [1; 2; 3; 4; 5; 6; 7; 8; 9]%Z.
Definition emptyChartDataY : list number := num <$> [1; 3; 1; 5; 2; 7; 2; 5; 8]%Z.
Definition data_grey (light : bool) : string := if light then "grey[400]" else "grey[800]".
Definition or_text (s : option string) (d : string) : string := match s with Some "" | None => d | Some t => t end.
Record SmallChart := mkSmallChart { small_series : Series; small_border : string; small_background : string }.
Definition small_generateData (light : bool) (borderColor backgroundColor : option string) (data : option MetricList) : SmallChart :=
  match data with
  | Some (x :: l) => mkSmallChart (mkSeries (metric_x <$> x :: l) (metric_y <$> x :: l)) (or_text borderColor "#DDD")
                       (or_text backgroundColor "rgba(75,192,192,0.4)")
  | _ => mkSmallChart (mkSeries emptyChartDataX emptyChartDataY) (data_grey light) (data_grey light)
  end.
Definition small_renderText (formatValue : number -> string) (data : option MetricList) : string :=
  from_option (fun item => formatValue (metric_y item)) "" (data ≫= last).
(** The test of [render] is on the function, which is never falsy: the tooltip for a
    chart without data is not rendered. *)
Definition small_tooltip (hoverText : option string) (data : option MetricList) : option string := None.

(** [formatMemory]; the number [toFixed] does not print is not printed. *)
Definition formatMemory (value : number) : option string := (fun s => s +:+ " Mi") <$> toFixed 0 (ndiv value (num (1024 * 1024))).

(** The colours of the series of the two charts of requests, by their legends. *)
Definition status_colors (legend : string) : option (string * string) :=
  if seqb legend "2xx" then Some ("#4caf50", "rgba(76, 175, 80, 0.5)")
  else if seqb legend "4xx" then Some ("#ffc107", "rgba(255, 193, 7, 0.5)")
  else if seqb legend "5xx" then Some ("#f44336", "rgba(255, 67, 54, 0.5)") else None.
Definition bytes_colors (legend : string) : option (string * string) :=
  if seqb legend "request" then Some ("rgba(33, 150, 243, 1)", "rgba(33, 150, 243, 0.5)")
  else if seqb legend "response" then Some ("#ffc107", "rgba(255, 193, 7, 0.5)") else None.

(** [formatYAxesValue={humanFileSize} {...props}]: a format among the props wins. *)
Definition bytes_format (props_format : option (number -> option string)) : number -> option string := default humanFileSize props_format.

(** The series of an application's page ([pages/Application/Detail.tsx]). *)
Definition history (f : IstioMetricHistories -> option MetricList) (app : ApplicationDetails) : MetricList :=
  default [] (app_istioMetricHistories app ≫= f).
Definition status_series (app : ApplicationDetails) : list (string * MetricList) :=
  [("2xx", history httpRespCode2XXCount app); ("4xx", history httpRespCode4XXCount app); ("5xx", history httpRespCode5XXCount app)].
Definition bytes_series (app : ApplicationDetails) : list (string * MetricList) :=
  [("request", history httpRequestBytes app); ("response", history httpResponseBytes app)].
Definition formatYAxesValue (value : number) : option string := toFixed 2 value.

(** ** Doughnuts *)

(** The array of colours is declared once for the module: every doughnut refers to it. *)
Definition defaultColors : list string := ["green[700]"; "grey[700]"; "red[700]"].

(** [getData]: what is drawn, and the array after it. *)
Definition doughnut_getData (light : bool) (data : list nat) (colors : list string) : list nat * list string :=
  if Nat.eqb (foldl Nat.add 0 data) 0 then ([0; 1], <[1 := data_grey light]> colors) else (data, colors).

Definition doughnut_labels (title : string) (labels : list string) (data : list nat) : option string * list (string * nat) :=
  (if Nat.eqb (foldl Nat.add 0 data) 0 then Some ("No " +:+ title) else None,
   omap (fun e => match data !! e.1 with Some 0 => None | Some n => Some (e.2, n) | None => None end) (zip (seq 0 (length labels)) labels)).

(** The doughnuts of the pages, in the order they are drawn. *)
Definition draw_all (charts : list (bool * list nat)) (colors : list string) : list string :=
  foldl (fun colors c => (doughnut_getData c.1 c.2 colors).2) colors charts.
(** The three doughnuts of an application's page. *)
Definition detail_doughnuts (light : bool) (componentSuccess componentPending componentError podSuccess podPending podError routes : nat) :
    list (bool * list nat) :=
  [(light, [componentSuccess; componentPending; componentError]); (light, [podSuccess; podPending; podError]); (light, [routes])].

(** ** What they show *)

(** A line chart has one value for each label, and they belong together. *)
Lemma line_aligned now filter items :
  zip (labels (line_generateData now filter (Some items))) (values (line_generateData now filter (Some items))) =
    (fun i => (metric_x i, metric_y i)) <$> List.filter (item_shown now filter) items.
Proof.
  cbn. induction (List.filter (item_shown now filter) items) as [|i l IH]; [done|]. cbn. by rewrite <- IH.
Qed.

(** The charts of several series are aligned where the series have the same times. *)
Lemma base_aligned now filter first rest :
  Forall (fun s => metric_x <$> s.2 = metric_x <$> first.2) rest ->
  exists times series, base_generateData now filter (first :: rest) = Ok (times, series) /\
    Forall (fun s => length s.2 = length times) series.
Proof.
  intros Hr. destruct first as [legend items]. eexists _, _. split; [reflexivity|].
  assert (Hlen : forall l l' : MetricList, metric_x <$> l = metric_x <$> l' ->
    length (List.filter (item_shown now filter) l) = length (List.filter (item_shown now filter) l')).
  { intros l l'. revert l'. induction l as [|i l IH]; intros [|j l'] Hl; try discriminate; [done|].
    injection Hl as Hx Hl. cbn [List.filter].
    assert (Hs : item_shown now filter i = item_shown now filter j) by (unfold item_shown; by rewrite Hx).
    rewrite Hs. destruct (item_shown now filter j); cbn [length]; by rewrite (IH l' Hl). }
  cbn [fmap list_fmap]. constructor; cbn [snd]; [by rewrite !length_fmap|]. apply Forall_fmap.
  eapply Forall_impl; [exact Hr|]. intros s Hs. cbn in *. rewrite !length_fmap. by apply Hlen.
Qed.

Definition last_empty (charts : list (bool * list nat)) : option bool :=
  last (fst <$> List.filter (fun c => Nat.eqb (foldl Nat.add 0 c.2) 0) charts).

(** The doughnuts share their colours: once one without data is drawn, the colour of
    the second label of all of them is its light grey. *)
Lemma shared_colors charts a b c :
  draw_all charts [a; b; c] = [a; from_option data_grey b (last_empty charts); c].
Proof.
  induction charts as [|[light data] charts IH] using rev_ind; [done|].
  unfold draw_all in *. rewrite foldl_app, IH. unfold last_empty. rewrite List.filter_app, fmap_app, last_app. cbn.
  unfold doughnut_getData. destruct (Nat.eqb (foldl Nat.add 0 data) 0); reflexivity.
Qed.

(** An application without routes: the pending components turn light grey. *)
Example no_routes_greys_pending :
  draw_all (detail_doughnuts true 1 1 0 1 1 0 0) defaultColors = ["green[700]"; "grey[400]"; "red[700]"].
Proof. reflexivity. Qed.

(** The traffic of an application is shown as plain numbers: the page passes a format
    of its own, which takes the place of the sizes. *)
Example traffic_without_units :
  bytes_format (Some formatYAxesValue) (num 2048) = Some "2048.00" /\ bytes_format None (num 2048) <> Some "2048.00".
Proof. vm_compute. split; [reflexivity|discriminate]. Qed.
