(* ===== verification/Pages.v ===== *)
(** Small pages and widgets: the status of a domain's records
    ([widgets/DomainStatus.tsx], [widgets/AcmeServerGuide.tsx],
    pages/Certificate/Detail.tsx), the addresses of routes
    ([widgets/OpenInBrowser.tsx], [widgets/CopyAsCurl.tsx], pages/Route/), the
    profile, the deploy keys and the single sign-on. *)

From S2P Require Import Prelude JsString JsNumber ResourceTypes Utils FormChecks Sizes WorkloadViews Tables Shell.

(** ** The status of a domain *)

Record DomainProps := mkDomainProps {
  dp_domain : string; dp_isIPDomain : bool; dp_ingressIP : string;
  dp_ipAddress : option string; dp_cnameDomain : option string; dp_nsDomain : option string;
  dp_domainStatus : option Domain
}.

(** When the records are asked for: at first, and when the domain changes. *)
Definition asks_dns (p : DomainProps) : bool := negb (seqb (dp_domain p) "*") && negb (dp_isIPDomain p).
Definition domain_mounted (p : DomainProps) : option string := if asks_dns p then Some (dp_domain p) else None.
Definition domain_updated (prevProps p : DomainProps) : option string :=
  if negb (seqb (dp_domain p) (dp_domain prevProps)) && asks_dns p then Some (dp_domain p) else None.

Definition getIPAddress (p : DomainProps) : string := default (dp_ingressIP p) (dp_ipAddress p).
Definition contains (l : list string) (s : string) : bool := existsb (seqb s) l.

(** [isLoaded && name && record]: the records a check uses, if it applies. *)
Definition cname_check (p : DomainProps) (d : Domain) : option bool :=
  if default false (dom_isLoaded d) then cnameDomain ← truthy_text (dp_cnameDomain p); cname ← truthy_text (dom_cname d); Some (seqb cname cnameDomain)
  else None.
Definition ns_check (p : DomainProps) (d : Domain) : option bool :=
  if default false (dom_isLoaded d) then nsDomain ← truthy_text (dp_nsDomain p); ns ← dom_ns d; Some (contains ns (nsDomain +:+ "."))
  else None.
Definition a_check (p : DomainProps) (d : Domain) : option bool :=
  if default false (dom_isLoaded d) then aRecords ← dom_aRecords d; Some (contains aRecords (getIPAddress p)) else None.

(** [getError]: the first check that applies decides; an error without one. *)
Definition getError (p : DomainProps) : bool :=
  match dp_domainStatus p with
  | None => true
  | Some d => negb (default false (match cname_check p d with Some b => Some b | None => match ns_check p d with Some b => Some b | None => a_check p d end end))
  end.

Inductive HelperText :=
| CurrentCname (record domain cnameDomain : string) | AddCname (domain cnameDomain : string) | ConfigureAcme
| AddNs (domain nsDomain : string) | AddA (ip : string).
Definition getHelperText (p : DomainProps) (cnameRecords : option string) : HelperText :=
  match dp_cnameDomain p with
  | Some cnameDomain =>
      match truthy_text (Some cnameDomain), truthy_text cnameRecords with
      | Some c, Some r => CurrentCname r (dp_domain p) c
      | Some c, None => AddCname (dp_domain p) c
      | None, _ => ConfigureAcme
      end
  | None => match dp_nsDomain p with Some ns => AddNs (dp_domain p) ns | None => AddA (getIPAddress p) end
  end.

(** What is copied by the button, if anything.  The server of the state is [null] or an
    object, never undefined, so the first branch of the code is not taken. *)
Definition copyContent (p : DomainProps) (d : Domain) : option string :=
  if dom_cname d then truthy_text (dp_cnameDomain p) else truthy_text (Some (getIPAddress p)).

Inductive DomainView :=
| NoStatus | DomainConfigured | IPDiffers (ip : string) (of_ingress : bool) | CheckingDomain
| DomainWarning (text : HelperText) (copy : option string).
Definition domain_render (p : DomainProps) : DomainView :=
  if seqb (dp_domain p) "*" then NoStatus
  else if dp_isIPDomain p then
    if seqb (dp_domain p) (getIPAddress p) then DomainConfigured else IPDiffers (getIPAddress p) (negb (if dp_ipAddress p then true else false))
  else match dp_domainStatus p with
       | Some d => if default false (dom_isLoaded d) then
                     if getError p then DomainWarning (getHelperText p (dom_cname d)) (copyContent p d) else DomainConfigured
                   else CheckingDomain
       | None => CheckingDomain
       end.

(** [DNSConfigGuide]: the record it shows, and the status it renders. *)
Definition guide_record (nsRecord cnameRecord aRecord : option string) : string :=
  match truthy_text nsRecord, truthy_text cnameRecord, truthy_text aRecord with
  | Some r, _, _ => r | None, Some r, _ => r | None, None, Some r => r | _, _, _ => ""
  end.
Definition guide_status (domain : string) (isIPDomain : bool) (ingressIP : string) (nsRecord cnameRecord aRecord : option string)
    (d : option Domain) : DomainView :=
  domain_render (mkDomainProps domain isIPDomain ingressIP aRecord cnameRecord nsRecord d).

Inductive AcmeView := AcmeNothing | AcmeWaiting | AcmeNeedsConfig (ready : bool) | AcmeRunning.
Definition AcmeServerGuide (acmeServer : option AcmeServerInfo) (cert : option Certificate) (showPanel : bool) : AcmeView :=
  if from_option (fun c => negb (bool_decide (cert_httpsCertIssuer c = Some dns01Issuer))) false cert then AcmeNothing
  else match acmeServer with
       | None => AcmeWaiting
       | Some a =>
           if seqb (acmeDomain a) "" && seqb (ipForNameServer a) "" && seqb (nsDomain a) "" && negb (acme_ready a) then AcmeWaiting
           else if negb (acme_ready a) || showPanel then AcmeNeedsConfig (acme_ready a) else AcmeRunning
       end.

(** [renderDomainGuide] of a certificate's page: the domains, and for each the record
    to add or the status that is shown. *)
Inductive DomainGuide :=
| GuideA (domain ip : string) | GuideStatus (domain : string) | GuideCname (domain ns : string) | GuidePlain (domain : string).
Definition renderDomainGuide (ingressIP : string) (acmeServer : option AcmeServerInfo) (cert : Certificate) : option (list DomainGuide) :=
  if bool_decide (cert_httpsCertIssuer cert = Some http01Issuer) then Some ((fun d => GuideA d ingressIP) <$> cert_domains cert)
  else if bool_decide (cert_httpsCertIssuer cert = Some dns01Issuer) then
    if from_option acme_ready false acmeServer
    then List.map (fun e => GuideCname e.1 e.2) <$> cert_wildcardCertDNSChallengeDomainMap cert
    else Some (GuideStatus <$> cert_domains cert)
  else Some (GuidePlain <$> cert_domains cert).

(** The certificate of an address: the last part of its path. *)
Definition certificate_at (pathname : string) (certificates : list Certificate) : option Certificate :=
  let certName := default "" (last (split_char "/" pathname)) in head (List.filter (fun c => seqb (cert_name c) certName) certificates).
Definition certificate_facts (cert : Certificate) : string * string * string :=
  (cert_name cert, if default false (cert_isSelfManaged cert) then "Externally Uploaded" else default "" (cert_httpsCertIssuer cert),
   default "Not Ready" (truthy_text (cert_ready cert))).

(** ** Addresses of routes *)

(** A missing text, as a template prints it. *)
Definition scheme_of (route : HttpRoute) : string := shown_name (head (route_schemes route)).

(** [getRouteUrl]; [includes] and [replace] of a star replace the first. *)
Definition getRouteUrl (route : HttpRoute) (clusterInfo : ClusterInfo) (customHost : option string) : string :=
  let host := match truthy_text customHost with Some h => h | None => default "*" (truthy_text (head (route_hosts route))) end in
  let scheme := scheme_of route in
  let path := default "/" (truthy_text (head (route_paths route))) in
  let host' := if seqb host "*" then
    (if seqb (ingressIP clusterInfo) "" then ingressHostname clusterInfo else ingressIP clusterInfo) +:+ ":" +:+
    int_text (if seqb scheme "https" then httpsPort clusterInfo else httpPort clusterInfo) else host in
  scheme +:+ "://" +:+ replace_first "*" "wildcard" host' +:+ path.
Definition openable (route : HttpRoute) : bool := contains (route_methods route) "GET".

(** [buildCurlCommand]: the extra arguments and the host, for an ingress with a private
    address and for another. *)
Definition curl_arguments (clusterInfo : ClusterInfo) (scheme host : string) : list string * string :=
  if isPrivateIP (ingressIP clusterInfo) then
    let '(args, host') :=
      if seqb scheme "https" then (["-k"], if includes ":" host then host else host +:+ ":" +:+ int_text (httpsPort clusterInfo))
      else if includes ":" host then ([], host)
      else (["-H " +:+ quoted ("Host: " +:+ host)], host +:+ ":" +:+ int_text (httpPort clusterInfo)) in
    (args ++ ["--resolve " +:+ host' +:+ ":" +:+ ingressIP clusterInfo], host')
  else ([], host).
Definition buildCurlCommand (clusterInfo : ClusterInfo) (scheme host path method : string) : string :=
  let '(extraArgs, host') := curl_arguments clusterInfo scheme host in
  "curl -v -X " +:+ method +:+ join "" ((fun x => " " +:+ x) <$> extraArgs) +:+ " " +:+ scheme +:+ "://" +:+ host' +:+ path.
Definition copyAsCurl (clusterInfo : ClusterInfo) (route : HttpRoute) (host : option string) : string :=
  let first d l := default d (truthy_text (head l)) in
  buildCurlCommand clusterInfo (first "http" (route_schemes route)) (default (first "" (route_hosts route)) host)
    (first "/" (route_paths route)) (first "GET" (route_methods route)).

(** *** The list of routes ([pages/Route/List.tsx]); [json] prints a part of a route. *)

Inductive HttpSupport := Redirects | Supported | NotSupported.
Definition renderSupportHttp (row : HttpRoute) : HttpSupport :=
  if default false (route_httpRedirectToHttps row) && contains (route_schemes row) "http" && contains (route_schemes row) "https" then Redirects
  else if contains (route_schemes row) "http" then Supported else NotSupported.
Definition renderSupportHttps (row : HttpRoute) : bool := contains (route_schemes row) "https".
Definition renderRules (row : HttpRoute) : list string :=
  (fun x => rc_type x +:+ " " +:+ rc_name x +:+ " " +:+ rc_operator x +:+ " " +:+ rc_value x +:+ " ") <$> default [] (route_conditions row).
Definition is_some {A : Type} (o : option A) : bool := match o with Some _ => true | None => false end.
Definition renderAdvanced (row : HttpRoute) : string :=
  join "," (fst <$> List.filter snd
    [("mirror", is_some (route_mirror row)); ("delay", is_some (route_delay row)); ("fault", is_some (route_fault row));
     ("cors", is_some (route_cors row)); ("retries", is_some (route_retries row))]).

Inductive RoutePart := RowPart | MethodsPart | DestinationsPart.
Definition route_row (json : RoutePart -> HttpRoute -> string) (canEdit : bool) (row : HttpRoute) : list (string * Cell) :=
  [ ("host", bare [("row", ObjectCell (json RowPart row))]);
    ("urls", around (ListCell ((fun h => around (TextCell h)) <$> route_paths row)));
    ("http", match renderSupportHttp row with NotSupported => undefined_cell | _ => bare [] end);
    ("https", if renderSupportHttps row then bare [] else undefined_cell);
    ("methods", bare [("methods", ObjectCell (json MethodsPart row))]);
    ("targets", bare [("destinations", ObjectCell (json DestinationsPart row))]);
    ("actions", shown_if canEdit (around (ListCell
       [icon_link "Edit" ("/routes/" +:+ route_name row +:+ "/edit"); delete_button "delete-route-popup" "DELETE ROUTE?"]))) ].

Inductive RoutesView := RoutesLoading | RoutesTable (routes : list HttpRoute) | NoRoutes (can_add : bool).
(** The routes the user may view decide whether there is a table; it shows all. *)
Definition routes_view (isLoading isFirstLoaded canEdit : bool) (canViewNamespace : string -> bool) (httpRoutes : list HttpRoute) : RoutesView :=
  if isLoading && negb isFirstLoaded then RoutesLoading
  else match List.filter (fun r => canViewNamespace (route_namespace r)) httpRoutes with
       | [] => NoRoutes canEdit
       | _ => RoutesTable httpRoutes
       end.

(** *** A component's page ([pages/Components/Show.tsx], [pages/Route/Widget.tsx]) *)

Definition component_routes (componentName activeNamespaceName : string) (httpRoutes : list HttpRoute) : list HttpRoute :=
  List.filter (fun route => existsb (fun d => startsWith (componentName +:+ "." +:+ activeNamespaceName) (dest_host d)) (route_destinations route)) httpRoutes.
Definition shown_scheme (route : HttpRoute) : string :=
  (if Nat.ltb 1 (length (route_schemes route)) then "http(s)" else scheme_of route) +:+ "://".
Definition dns_names (component : ComponentLike) (activeNamespaceName : string) : string * string * string :=
  match comp_ports component with
  | Some (_ :: _) => (comp_name component +:+ "." +:+ activeNamespaceName +:+ ".svc.cluster.local",
                      comp_name component +:+ "." +:+ activeNamespaceName, comp_name component)
  | _ => ("none", "none", "none")
  end.

(** The boxes of the targets of a route ([widgets/Targets.tsx]): their heights, and
    their names without the suffix of the cluster. *)
Definition target_name (d : HttpRouteDestination) : string := replace_first ".svc.cluster.local" "" (dest_host d).
Definition pointHeight : Z := 32.
Definition pointMargin : Z := 10.
Definition spaceHeight (size : nat) : Z := (Z.of_nat size * (pointHeight + pointMargin) - pointMargin)%Z.
Definition point_position (index : nat) : Z := (Z.of_nat index * (pointHeight + pointMargin))%Z.
Definition targets_view (destinations : list HttpRouteDestination) : Z * list (Z * string) :=
  (spaceHeight (length destinations), imap (fun i d => (point_position i, target_name d)) destinations).

(** ** The profile ([pages/Profile/index.tsx]) *)

Section profile.
Context `{UserAuth}.

Definition renderClusterRole : option string :=
  if canManageCluster then Some "Cluster Owner" else if canEditCluster then Some "Cluster Editor"
  else if canViewCluster then Some "Cluster Viewer" else None.
Definition application_role (name : string) : string :=
  if canManageNamespace name then "Owner" else if canEditNamespace name then "Editor"
  else if canViewNamespace name then "Viewer" else "".
Definition getApplicationRoles (applications : list ApplicationDetails) : list (string * string) :=
  List.filter (fun x => negb (seqb x.2 "")) ((fun a => (app_name a, application_role (app_name a))) <$> applications).
(** The warning that there is no role, or the roles. *)
Definition renderApplicationRole (applications : list ApplicationDetails) : option (list (string * string)) :=
  match applications, getApplicationRoles applications with _ :: _, [] => None | _, roles => Some roles end.
Definition renderEmailOrName (email impersonation impersonationType : string) : string * string :=
  if negb (seqb impersonation "") then (if seqb impersonationType "group" then "Group" else "User", impersonation)
  else (if includes "@" email then "Email" else "Access Token", email).
End profile.

(** ** Deploy keys ([pages/CI/Detail.tsx], [pages/CI/index.tsx]) *)

Definition ci_tabs : list string := ["curl"; "Github Action"; "CircleCI orb"].
Definition ci_currentTabIndex (hash : string) : nat := default 0 (index_of (drop_hash hash) (strip_spaces <$> ci_tabs) 0).
Definition ci_pushToTab (pathname : string) (tabIndex : nat) : string := pathname +:+ "#" +:+ from_option strip_spaces "" (ci_tabs !! tabIndex).
Definition getDeployAccessToken (tokens : list DeployAccessToken) (name : string) : option DeployAccessToken :=
  List.find (fun x => seqb (dat_name x) name) tokens.
(** What is shown of the key: [slice(key.length - 4)], where a negative start counts
    from the end. *)
Definition shown_key (key : string) : string :=
  "****" +:+ (if Nat.leb 4 (String.length key) then last_chars 4 key else last_chars (4 - String.length key) key).
Definition token_scope (token : DeployAccessToken) : option (string * list string) :=
  if seqb (dat_scope token) DeployAccessTokenScopeCluster then Some ("Cluster", [])
  else if seqb (dat_scope token) DeployAccessTokenScopeNamespace then Some ("Specific Applications", dat_resources token)
  else if seqb (dat_scope token) DeployAccessTokenScopeComponent then Some ("Specific Components", dat_resources token) else None.
Inductive TokenView := TokenLoading | TokenNotFound (name : string) | TokenPage (token : DeployAccessToken).
Definition token_view (loaded isLoading : bool) (tokens : list DeployAccessToken) (name : string) : TokenView :=
  if negb loaded && isLoading then TokenLoading
  else match getDeployAccessToken tokens name with Some t => TokenPage t | None => TokenNotFound name end.
Definition ci_canEdit (canEditNamespace : string -> bool) (canEditCluster : bool) (activeNamespaceName : string) : bool :=
  canEditNamespace activeNamespaceName || canEditCluster.
Inductive CIView := CILoading | CIEmpty (can_add : bool) | CITable.
Definition ci_view (loaded isLoading canEdit : bool) (tokens : list DeployAccessToken) : CIView :=
  if negb loaded && isLoading then CILoading else match tokens with [] => CIEmpty canEdit | _ => CITable end.

(** ** Single sign-on ([pages/SSO/]) *)

(** The lines about a connector: a list of names and what separates them. *)
Definition separated (l : list string) : string :=
  join "" (imap (fun i g => g +:+ (if Nat.ltb i (length l - 1) then ", " else " ")) l).
Inductive ConnectorView :=
| GitlabView (name baseURL groups : string) (links : list string) | GithubView (name : string) (orgs : list string).
Definition org_line (org : GithubOrg) : string :=
  match org_teams org with
  | [] => "Users in organization " +:+ org_name org
  | teams => "Users in organization " +:+ org_name org +:+ " and teams " +:+ separated teams
  end.
Definition renderConnectorDetails (connector : SSOConnector) : ConnectorView :=
  match connector with
  | SSOGitlabConnector _ name config =>
      GitlabView name (gitlab_baseURL config) (separated (gitlab_groups config))
        ((fun g => gitlab_baseURL config +:+ "/" +:+ g) <$> gitlab_groups config)
  | SSOGithubConnector _ name config => GithubView name (org_line <$> github_orgs config)
  end.
Inductive SSOView := SSOLoading | SSODetails (issuer : string) (connectors : list ConnectorView) (edit : bool) | SSOEmpty (enable : bool).
Definition sso_view (canEditCluster isSSOConfigLoaded : bool) (ssoConfig : option SSOConfig) : SSOView :=
  if negb isSSOConfigLoaded then SSOLoading
  else match ssoConfig with
       | Some config => SSODetails ("https://" +:+ sso_domain config +:+ "/dex") (renderConnectorDetails <$> default [] (sso_connectors config)) canEditCluster
       | None => SSOEmpty canEditCluster
       end.
(** The page of the protected endpoints: a table, or a hint to enable single sign-on;
    and whether an endpoint can be added. *)
Definition endpoints_view (canEditNamespace : string -> bool) (canEditCluster isSSOConfigLoaded : bool) (activeNamespaceName : string)
    (ssoConfig : option SSOConfig) : option (bool * bool) :=
  if negb isSSOConfigLoaded then None
  else Some (if ssoConfig then true else false,
             (if ssoConfig then true else false) && (canEditNamespace activeNamespaceName || canEditCluster)).

(** ** The load balancer ([pages/LoadBalancer/index.tsx]) *)

Definition renderHostName (canViewCluster : bool) (row : ClusterInfo) : list string + string :=
  if canViewCluster then inl (List.filter (fun s => negb (seqb s "")) [ingressHostname row; ingressIP row])
  else inr "No permission to view this, please contact with admin.".
Definition loadbalancer_ports (row : ClusterInfo) : list (string * number) :=
  [("HTTP", httpPort row); ("HTTPs", httpsPort row); ("TLS", tlsPort row)].

(** ** What they show *)

(** A domain is shown as configured exactly when it is the address asked for, or its
    records are loaded and the first record asked for that the domain has at all is
    the one asked for: the name, else the name server, else the address. *)
Lemma domain_configured p : dp_domain p <> "*" ->
  domain_render p = DomainConfigured <->
  if dp_isIPDomain p then dp_domain p = getIPAddress p
  else exists d, dp_domainStatus p = Some d /\ dom_isLoaded d = Some true /\
    (cname_check p d = Some true \/ (cname_check p d = None /\ ns_check p d = Some true) \/
     (cname_check p d = None /\ ns_check p d = None /\ a_check p d = Some true)).
Proof.
  intros Hd. unfold domain_render. apply seqb_false in Hd. rewrite Hd. destruct (dp_isIPDomain p).
  { destruct (seqb_spec (dp_domain p) (getIPAddress p)); split; congruence. }
  unfold getError. destruct (dp_domainStatus p) as [d|] eqn:Ed; [|split; [done|by intros (d & [=] & _)]].
  destruct (dom_isLoaded d) as [[]|] eqn:El; cbn [default from_option id]; [|split; [done|intros (d' & [= <-] & Hl & _); congruence]..].
  split.
  - intros Hr. exists d. split; [done|]. split; [done|]. revert Hr.
    destruct (cname_check p d) as [[]|], (ns_check p d) as [[]|], (a_check p d) as [[]|]; cbn; try discriminate; auto 6.
  - intros (d' & [= <-] & _ & [->|[[-> ->]|[-> [-> ->]]]]); done.
Qed.

(** Without a record of the name asked for, addresses that match pass for it. *)
Example challenge_without_cname :
  domain_render (mkDomainProps "_acme-challenge.shop.com" false "10.0.0.1" None (Some "x.acme.com") None
    (Some (mkDomain (Some ["10.0.0.1"]) None "_acme-challenge.shop.com" None (Some true)))) = DomainConfigured.
Proof. reflexivity. Qed.

(** A domain whose answer about the name left an authority behind: the address to add is
    shown and cannot be copied. *)
Example address_not_copied :
  let d := mkDomain (Some ["1.1.1.1"]) (Some "ns1.host.com. admin.host.com.") "shop.com" None (Some true) in
  domain_render (mkDomainProps "shop.com" false "10.0.0.1" None None None (Some d)) = DomainWarning (AddA "10.0.0.1") None.
Proof. reflexivity. Qed.

(** The guide of the address of the name server passes it as a name: an address record
    that is right is not recognised once the domain has an authority. *)
Example shadow_domain_checked_as_name :
  let d := mkDomain (Some ["10.0.0.2"]) (Some "ns1.host.com.") "ns.shop.com" None (Some true) in
  guide_status "ns.shop.com" false "10.0.0.1" None (Some "10.0.0.2") None (Some d) <> DomainConfigured /\
  guide_status "ns.shop.com" false "10.0.0.1" None None (Some "10.0.0.2") (Some d) = DomainConfigured.
Proof. split; [discriminate|reflexivity]. Qed.

(** The list of routes filters what it tests, not what it shows. *)
Example hidden_route_shown route other : route_namespace route = "mine" -> route_namespace other = "yours" ->
  routes_view false true false (seqb "mine") [route; other] = RoutesTable [route; other] /\
  routes_view false true false (seqb "mine") [other] = NoRoutes false.
Proof. intros Hr Ho. unfold routes_view. cbn. by rewrite Hr, Ho. Qed.

(** The boxes of the targets do not overlap, and fit the space. *)
Lemma targets_fit size i j : i < size -> j < i ->
  (point_position j + pointHeight <= point_position i /\ point_position i + pointHeight <= spaceHeight size)%Z.
Proof. unfold point_position, spaceHeight, pointHeight, pointMargin. lia. Qed.

(** Going to a tab of a deploy key opens it. *)
Lemma ci_tab_opened i : i < 3 -> ci_currentTabIndex ("#" +:+ from_option strip_spaces "" (ci_tabs !! i)) = i.
Proof. intros Hi. do 3 (destruct i as [|i]; [reflexivity|]). lia. Qed.

(** Each application with a right is listed once, with the highest right. *)
Lemma profile_lists `{UserAuth} applications a : a ∈ applications ->
  canViewNamespace (app_name a) = true \/ canEditNamespace (app_name a) = true \/ canManageNamespace (app_name a) = true ->
  (app_name a, application_role (app_name a)) ∈ getApplicationRoles applications.
Proof.
  intros Ha Hr. unfold getApplicationRoles. apply list_elem_of_In, filter_In. split.
  - apply list_elem_of_In, list_elem_of_fmap. by exists a.
  - cbn [snd]. unfold application_role. destruct (canManageNamespace (app_name a)), (canEditNamespace (app_name a)), (canViewNamespace (app_name a));
      try done. by destruct Hr as [|[|]].
Qed.

Example urls :
  let info := mkClusterInfo "10.0.0.1" "" (num 80) (num 443) (num 0) "" false true (mkVersionInfo "" "" "" "" "" "" "") (mkVersionInfo "" "" "" "" "" "" "") in
  let route := newEmptyRouteForm "1" in
  getRouteUrl route info None = "http://10.0.0.1:80/" /\ getRouteUrl route info (Some "*.shop.com") = "http://wildcard.shop.com/" /\
  copyAsCurl info route (Some "shop.com") =
    "curl -v -X GET -H " +:+ quoted "Host: shop.com" +:+ " --resolve shop.com:80:10.0.0.1 http://shop.com:80/".
Proof. vm_compute. repeat split. Qed.
