(* ===== verification/Fields.v ===== *)
(** The fields of the forms ([forms/Basic/]) and what the small forms add to them:
    the throttled text field, the fields with several values, the check boxes, the
    ports of a protected endpoint, the options of deploy keys and the connectors.

    The throttle of [lodash] is third-party: the interface [Throttle] has its
    operations, and [ThrottleLaws] what its documentation says of a throttle with a
    leading and a trailing call. *)

From S2P Require Import Prelude JsString JsNumber ResourceTypes ActionTypes Utils Validators FormChecks.

(** ** The throttled text field ([forms/Basic/textfield.tsx]) *)

Class Throttle := {
  throttle : Type;
  new_throttle : throttle;
  (** A call, and the end of the window: the argument passed on, if any. *)
  throttle_call : string -> throttle -> throttle * option string;
  throttle_expire : throttle -> throttle * option string;
  (** The argument of the last call that was not passed on. *)
  pending : throttle -> option string
}.

Class ThrottleLaws `{Throttle} := {
  new_pending : pending new_throttle = None;
  call_passes : forall v t, let '(t', out) := throttle_call v t in
    (out = Some v /\ pending t' = None) \/ (out = None /\ pending t' = Some v);
  expire_passes : forall t, let '(t', out) := throttle_expire t in out = pending t /\ pending t' = None
}.

Section textfield.
Context `{Throttle}.
(** [normalize] of the texts typed; the identity for most fields. *)
Variable normalize : string -> string.

(** [innerValue], the value of the form, and the throttle of the field. *)
Record TextField := mkTextField { innerValue : string; field_value : string; field_throttle : throttle }.
Definition newTextField (value : string) : TextField := mkTextField value value new_throttle.

(** [setFieldValue], and the effect that follows a change of the value. *)
Definition setFieldValue (v : string) (f : TextField) : TextField :=
  if seqb v (field_value f) then f else mkTextField v v (field_throttle f).
Definition passed_on (out : option string) (f : TextField) : TextField := from_option (fun v => setFieldValue v f) f out.

Definition handleOnChange (text : string) (f : TextField) : TextField :=
  let newValue := normalize text in
  let '(t, out) := throttle_call newValue (field_throttle f) in
  passed_on out (mkTextField newValue (field_value f) t).

(** The event's text is what the field shows. *)
Definition handleBlurCallback (f : TextField) : TextField :=
  let newValue := normalize (innerValue f) in
  setFieldValue newValue (mkTextField newValue (field_value f) (field_throttle f)).

Definition window_ends (f : TextField) : TextField :=
  let '(t, out) := throttle_expire (field_throttle f) in passed_on out (mkTextField (innerValue f) (field_value f) t).

Inductive FieldEvent := TypeText (text : string) | Blur | WindowEnds.
Definition field_event (f : TextField) (e : FieldEvent) : TextField :=
  match e with TypeText text => handleOnChange text f | Blur => handleBlurCallback f | WindowEnds => window_ends f end.
Definition field_events (events : list FieldEvent) (f : TextField) : TextField := foldl field_event f events.

(** The last text typed. *)
Definition typed (value : string) (events : list FieldEvent) : string :=
  foldl (fun v e => match e with TypeText text => normalize text | _ => v end) value events.

(** *** The field shows what was typed, and the form gets it *)

Context `{!ThrottleLaws}.
Hypothesis normalize_idem : forall s, normalize (normalize s) = normalize s.

(** What is not passed on yet is what the field shows; otherwise the form has it. *)
Definition in_step (v : string) (f : TextField) : Prop :=
  innerValue f = v /\ normalize v = v /\ (pending (field_throttle f) = None -> field_value f = v) /\
  (forall w, pending (field_throttle f) = Some w -> w = v).

Lemma setFieldValue_shown v f : innerValue f = v -> innerValue (setFieldValue v f) = v /\ field_value (setFieldValue v f) = v /\
  field_throttle (setFieldValue v f) = field_throttle f.
Proof. intros Hv. unfold setFieldValue. by destruct (seqb_spec v (field_value f)). Qed.

Lemma in_step_event v f e : in_step v f -> in_step (typed v [e]) (field_event f e).
Proof.
  intros (Hi & Hn & Hp & Hs). destruct e as [text| |]; cbn [typed foldl field_event].
  - unfold handleOnChange. pose proof (call_passes (normalize text) (field_throttle f)) as Hc.
    destruct (throttle_call (normalize text) (field_throttle f)) as [t out]. destruct Hc as [[-> Ht]|[-> Ht]]; cbn [passed_on from_option].
    + destruct (setFieldValue_shown (normalize text) (mkTextField (normalize text) (field_value f) t) eq_refl) as (H1 & H2 & H3).
      split; [done|]. split; [apply normalize_idem|]. rewrite H3. cbn. split; [done|]. intros w. by rewrite Ht.
    + split; [done|]. split; [apply normalize_idem|]. cbn. rewrite Ht. split; [done|]. by intros w [= <-].
  - unfold handleBlurCallback. rewrite Hi, Hn.
    destruct (setFieldValue_shown v (mkTextField v (field_value f) (field_throttle f)) eq_refl) as (H1 & H2 & H3).
    split; [done|]. split; [done|]. rewrite H3. cbn. auto.
  - unfold window_ends. pose proof (expire_passes (field_throttle f)) as Hx.
    destruct (throttle_expire (field_throttle f)) as [t out]. destruct Hx as [-> Ht].
    destruct (pending (field_throttle f)) as [w|] eqn:Ew; cbn [passed_on from_option].
    + rewrite (Hs w eq_refl). destruct (setFieldValue_shown v (mkTextField (innerValue f) (field_value f) t) Hi) as (H1 & H2 & H3).
      split; [done|]. split; [done|]. rewrite H3. cbn. split; [done|]. intros w'. by rewrite Ht.
    + split; [done|]. split; [done|]. cbn. split; [auto|]. intros w. by rewrite Ht.
Qed.

Lemma in_step_events events v f : in_step v f -> in_step (typed v events) (field_events events f).
Proof.
  revert v f. induction events as [|e events IH]; intros v f Hf; [done|].
  change (typed v (e :: events)) with (typed (typed v [e]) events). cbn [field_events foldl]. apply IH. by apply in_step_event.
Qed.

Lemma in_step_blur v f : in_step v f -> field_value (handleBlurCallback f) = v.
Proof.
  intros (Hi & Hn & _). unfold handleBlurCallback. rewrite Hi, Hn.
  by destruct (setFieldValue_shown v (mkTextField v (field_value f) (field_throttle f)) eq_refl) as (_ & H2 & _).
Qed.

Lemma in_step_expire v f : in_step v f -> field_value (window_ends f) = v.
Proof.
  intros (Hi & Hn & Hp & Hs). unfold window_ends. pose proof (expire_passes (field_throttle f)) as Hx.
  destruct (throttle_expire (field_throttle f)) as [t out]. destruct Hx as [-> Ht].
  destruct (pending (field_throttle f)) as [w|]; cbn [passed_on from_option]; [|by apply Hp].
  rewrite (Hs w eq_refl). by destruct (setFieldValue_shown v (mkTextField (innerValue f) (field_value f) t) Hi) as (_ & H2 & _).
Qed.

(** C25: A throttled text field loses nothing.  Whatever is typed and however the windows
    of the throttle end, the field shows the last text typed, and the form has it as
    soon as the field is left, or the window ends; the late calls of the throttle
    after that leave it as it is. *)
Theorem field_settles value events (late : list FieldEvent) : normalize value = value ->
  Forall (fun e => e <> Blur /\ forall text, e <> TypeText text) late ->
  let f := field_events events (newTextField value) in let v := typed value events in
  innerValue f = v /\ field_value (window_ends f) = v /\
  field_value (field_events late (handleBlurCallback f)) = v /\ innerValue (field_events late (handleBlurCallback f)) = v.
Proof.
  intros Hv Hlate f v.
  assert (Hf : in_step v f).
  { apply in_step_events. split; [done|]. split; [done|]. cbn. split; [done|]. intros w. by rewrite new_pending. }
  split; [exact (proj1 Hf)|]. split; [by apply in_step_expire|].
  pose proof (in_step_event v f Blur Hf : in_step v (handleBlurCallback f)) as Hb.
  pose proof (in_step_blur v f Hf) as Hval. revert Hb Hval. generalize (handleBlurCallback f) as g.
  induction Hlate as [|e late [He1 He2] _ IH]; intros g Hg Hval; [exact (conj Hval (proj1 Hg))|].
  destruct e as [text| |]; [by destruct (He2 text)|done|]. cbn [field_events foldl field_event]. apply IH.
  - exact (in_step_event v g WindowEnds Hg).
  - by apply in_step_expire.
Qed.

End textfield.

(** A throttle: whether its window is open, and what waits for its end. *)
#[export] Instance window_throttle : Throttle := {|
  throttle := bool * option string;
  new_throttle := (false, None);
  throttle_call v t := if fst t then ((true, Some v), None) else ((true, None), Some v);
  throttle_expire t := match snd t with Some v => ((true, None), Some v) | None => ((false, None), None) end;
  pending t := snd t
|}.
#[export] Instance window_throttle_laws : ThrottleLaws.
Proof.
  split; [done| |].
  - intros v [[] w]; cbn; auto.
  - intros [b [w|]]; done.
Qed.

Lemma field_settles_witness :
  let f := field_events (fun s => s) [TypeText "a"; TypeText "ab"; TypeText "abc"] (newTextField "") in
  field_value f = "a" /\ field_value (field_events (fun s => s) [WindowEnds] (handleBlurCallback (fun s => s) f)) = "abc".
Proof.
  destruct (field_settles (fun s => s) (fun s => eq_refl) "" [TypeText "a"; TypeText "ab"; TypeText "abc"] [WindowEnds]
    eq_refl) as (_ & _ & Hv & _); [by repeat constructor|]. split; [reflexivity|exact Hv].
Defined.

(** A form that is submitted from the keyboard within the window gets the text of before. *)
Example submitted_too_early :
  let f := field_events (fun s => s) [TypeText "a"; TypeText "ab"] (newTextField "") in innerValue f = "ab" /\ field_value f = "a".
Proof. done. Qed.

(** A row of a list is removed while its field waits: the late call writes into the row
    that took its place, or makes a new one. *)
Definition late_write (i : nat) (v : string) (rows : list string) : list string :=
  if Nat.eqb i (length rows) then rows ++ [v] else <[i := v]> rows.
Definition remove_then_late (i : nat) (rows : list string) (f : TextField) : list string :=
  from_option (fun v => late_write i v (base.delete i rows)) (base.delete i rows) (pending (field_throttle f)).
Example removed_row_comes_back :
  let f := handleBlurCallback (fun s => s) (field_events (fun s => s) [TypeText "t"; TypeText "tw"] (newTextField "two")) in
  remove_then_late 1 ["one"; "tw"; "three"] f = ["one"; "tw"] /\ remove_then_late 1 ["one"; "tw"] f = ["one"; "tw"].
Proof. done. Qed.

(** ** Fields with several values ([forms/Basic/autoComplete.tsx]) *)

Section autocomplete.
(** The normaliser of the field, made for the whole list; on anything else it throws
    ([values.forEach] of a text). *)
Variable normalize : option (list string -> list string).

(** [onChange]: the trimmed values. *)
Definition multi_onChange (value : list string) : list string := from_option (fun n => n (trim <$> value)) (trim <$> value) normalize.
(** [onBlur]: a text left in the input becomes the value of an empty field; with a
    normaliser the text itself is passed to it. *)
Definition multi_onBlur (value : list string) (inputText : string) : result (option (list string)) :=
  match value with
  | [] => if seqb inputText "" then Ok None
          else match normalize with
               | Some _ => Throw "values.forEach is not a function"
               | None => Ok (Some [trim inputText])
               end
  | _ => Ok None
  end.
End autocomplete.

(** The error shown: the first of a list, or the text. *)
Definition multi_errorText (error : option (list (option string) + string)) : option string :=
  match error with Some (inl l) => head (omap id l) | Some (inr s) => Some s | None => None end.

(** A field with one of its options. *)
Definition single_value (options : list KAutoCompleteOption) (fieldValue : string) : option KAutoCompleteOption :=
  List.find (fun x => seqb (opt_value x) fieldValue) options.
Definition single_onChange (value : option KAutoCompleteOption) : string := from_option opt_value "" value.

(** A field with several of its options.  Its value is a list of texts, to which the
    component adds the option chosen; [option.value] of a text is undefined. *)
Definition chosen_value (item : string + KAutoCompleteOption) : option string := match item with inl _ => None | inr o => Some (opt_value o) end.
Definition multi_select (value : list string) (chosen : KAutoCompleteOption) : list (option string) :=
  chosen_value <$> (inl <$> value) ++ [inr chosen].

(** [renderValue] of the select fields. *)
Record SelectOption := mkSelectOption { so_value : string; so_text : string; so_selectedText : option string }.
Definition select_renderValue (options : list SelectOption) (value : string) : string :=
  match List.find (fun x => seqb (so_value x) value) options with
  | None => value
  | Some o => match so_selectedText o with Some "" | None => so_text o | Some t => t end
  end.

(** ** Check boxes ([forms/Basic/checkbox.tsx]) *)

Fixpoint remove_first (x : string) (l : list string) : list string :=
  match l with [] => [] | y :: l' => if seqb y x then l' else y :: remove_first x l' end.
Definition is_checked (value : list string) (x : string) : bool := existsb (seqb x) value.
Definition onCheckChange (value : list string) (x : string) (checked : bool) : list string :=
  if checked then value ++ [x] else remove_first x value.

(** ** Protected endpoints ([forms/ProtectedEndpoint/index.tsx]) *)

(** The ports typed, numbers or texts, where [None] is [NaN]; [parseInt] stops at the
    first character that is no digit, and a text that is not printed back the same is
    left out. *)
Definition port_text_of (n : option Z) : string := from_option int_to_string "NaN" n.
Definition set_add (n : option Z) (l : list (option Z)) : list (option Z) := if bool_decide (n ∈ l) then l else l ++ [n].
Definition add_port (l : list (option Z)) (x : option Z + string) : list (option Z) :=
  match x with
  | inl n => set_add n l
  | inr s => if seqb (port_text_of (parseInt s)) s then set_add (parseInt s) l else l
  end.
Definition normalizePorts (values : option (list (option Z + string))) : option (list (option Z)) := foldl add_port [] <$> values.
Definition port_error (port : option Z) : option string :=
  match port with
  | None | Some 0%Z => Some "Invalid port"
  | Some p => if (Z.ltb 65535 p || Z.leb p 0)%Z then Some "Port should be in range of (0,65536)" else None
  end.
Definition has_text (e : option string) : bool := match e with Some _ => true | None => false end.
Definition validatePorts (values : option (list (option Z))) : option (list (option string)) :=
  match values with
  | Some (x :: l) => let errors := port_error <$> x :: l in if existsb has_text errors then Some errors else None
  | _ => None
  end.

(** The form after an update: another application clears the component and the ports,
    another component the ports. *)
Record EndpointForm := mkEndpointForm { ef_namespace : string; ef_endpointName : string; ef_ports : list Z }.
Definition endpoint_updated (prev values : EndpointForm) : EndpointForm :=
  let v1 := if seqb (ef_namespace prev) (ef_namespace values) then values else mkEndpointForm (ef_namespace values) "" [] in
  if seqb (ef_endpointName prev) (ef_endpointName values) then v1 else mkEndpointForm (ef_namespace v1) (ef_endpointName v1) [].
Definition endpoint_isEdit (initial : ProtectedEndpoint) : bool := negb (seqb (endpoint_name initial) "").
Definition endpoint_components (allComponents : gmap string (list ApplicationComponentDetails)) (namespace : string) : list string :=
  if seqb namespace "" then [] else (fun c => comp_name (cd_component c)) <$> default [] (allComponents !! namespace).

(** ** Deploy keys ([forms/DeployAccessToken/index.tsx]) *)

Definition resource_options (applications : list ApplicationDetails) (allComponents : gmap string (list ApplicationComponentDetails)) :
    list KAutoCompleteOption :=
  applications ≫= fun a => (fun c => let n := app_name a +:+ "/" +:+ comp_name (cd_component c) in mkOption n n (app_name a)) <$>
    default [] (allComponents !! app_name a).
Definition application_options (applications : list ApplicationDetails) : list KAutoCompleteOption :=
  (fun a => mkOption (app_name a) (app_name a) "") <$> applications.
Definition scope_options (canEditCluster : bool) : list string :=
  (if canEditCluster then [DeployAccessTokenScopeCluster] else []) ++ [DeployAccessTokenScopeNamespace; DeployAccessTokenScopeComponent].
(** Another scope clears the resources. *)
Definition change_scope (scope : string) (t : DeployAccessToken) : DeployAccessToken :=
  mkDeployAccessToken (dat_name t) (dat_memo t) scope [] (dat_token t) (dat_creator t).

(** ** Single sign-on ([forms/SSOConfig/]) *)

Definition addConnector (connector : SSOConnector) (config : SSOConfig) : SSOConfig :=
  mkSSOConfig (sso_domain config) (Some (default [] (sso_connectors config) ++ [connector])).
Definition addOrganization (orgs : option (list GithubOrg)) : list GithubOrg := default [] orgs ++ [mkGithubOrg "" []].
Definition ValidatorOrgs {A : Type} (values : option (list A)) : option string :=
  match values with Some [] => Some "You should at least configure one organization." | _ => None end.
Definition sso_isEdit (initial : SSOConfig) : bool :=
  match sso_connectors initial with Some (_ :: _) => true | _ => negb (seqb (sso_domain initial) "") end.
Definition callback_url (config : SSOConfig) : string := "https://" +:+ sso_domain config +:+ "/dex/callback".

(** ** Certificates, registries, members and applications *)

(** [validate] of both certificate forms. *)
Definition certificate_validate (values : CertificateFormType) : option string :=
  if seqb (form_managedType values) selfManaged then
    match cert_domains (form_certificate values) with [] => Some "Invalid Certificate" | _ => None end
  else None.
Definition hasWildcardDomains (domains : list string) : bool := existsb (startsWith "*.") domains.
(** The domains of a form that was not changed are read from its certificate, by a
    third-party parser. *)
Definition rendered_domains (extractDomains : string -> list string) (dirty : bool) (cert : Certificate) : option (list string) :=
  match cert_domains cert with
  | [] => if negb dirty && negb (seqb (cert_selfManagedCertContent cert) "") then Some (extractDomains (cert_selfManagedCertContent cert)) else None
  | _ => None
  end.
Definition registry_validateHost (value : string) : option string :=
  if seqb value "" then None
  else match RequirePrefix "https://" (Some value) with Some e => Some e | None => RequireNoSuffix "/" (Some value) end.
Definition rolesOptions (isClusterLevel : bool) : list (string * string) :=
  if isClusterLevel then [("Cluster Viewer", "clusterViewer"); ("Cluster Editor", "clusterEditor"); ("Cluster Owner", "clusterOwner")]
  else [("Viewer", "viewer"); ("Editor", "editor"); ("Owner", "owner")].
Definition after_create_application (name : string) : string := "/applications/" +:+ name +:+ "/components/new".

(** ** Leaving a form ([widgets/Prompt.tsx]) *)

(** What the navigation is answered: nothing lets it pass. *)
Definition prompt_block (debug when : bool) (pathname message nextPathname : string) : option string :=
  if debug || negb when || seqb nextPathname pathname then None else Some message.
Definition prompt_beforeunload (debug when : bool) : option string :=
  if negb when || debug then None else Some "Are your sure to leave without saving changes?".

(** ** What the fields keep *)

(** A check box adds its value, or removes it; the others stay as they are. *)
Lemma checked_box value x b y : NoDup value -> is_checked value x = negb b ->
  NoDup (onCheckChange value x b) /\ (y ∈ onCheckChange value x b <-> if decide (y = x) then b = true else y ∈ value).
Proof.
  intros Hnd Hc. assert (Hin : forall l, is_checked l x = true <-> x ∈ l).
  { intros l. unfold is_checked. rewrite existsb_exists. split.
    - intros (z & Hz & ->%seqb_true). by apply list_elem_of_In.
    - intros Hx. exists x. split; [by apply list_elem_of_In|]. by apply seqb_true. }
  destruct b; cbn [onCheckChange negb] in *.
  - assert (Hx : x ∉ value) by (rewrite <- Hin; congruence). split.
    + apply NoDup_app. split; [done|]. split; [|apply NoDup_singleton]. intros z Hz ->%list_elem_of_singleton. done.
    + rewrite elem_of_app, list_elem_of_singleton. destruct (decide (y = x)); naive_solver.
  - clear Hc. induction Hnd as [|z l Hz Hnd IH]; cbn [remove_first]; [destruct (decide (y = x)); split; [constructor| |constructor|];
      rewrite ?elem_of_nil; split; done|].
    destruct (seqb_spec z x) as [->|Hzx].
    + split; [done|]. destruct (decide (y = x)) as [->|]; rewrite ?elem_of_cons; naive_solver.
    + destruct IH as [IH1 IH2]. assert (Hsub : forall w, w ∈ remove_first x l -> w ∈ l).
      { clear. induction l as [|v l IHl]; [done|]. intros w. cbn. destruct (seqb v x); rewrite ?elem_of_cons; naive_solver. }
      split; [constructor; [|done]; auto|]. rewrite elem_of_cons, IH2. destruct (decide (y = x)); rewrite ?elem_of_cons; naive_solver.
Qed.

(** The ports of an endpoint that are kept are told apart, and a list without errors has
    ports of 1 to 65535 only. *)
Lemma normalized_ports values l : normalizePorts values = Some l -> NoDup l.
Proof.
  unfold normalizePorts. destruct values as [values|]; [|done]. intros [= <-].
  assert (Hadd : forall n k, NoDup k -> NoDup (set_add n k)).
  { intros n k Hk. unfold set_add. case_bool_decide; [done|]. apply NoDup_app. split; [done|]. split; [|apply NoDup_singleton].
    by intros z Hz ->%list_elem_of_singleton. }
  assert (H : forall k, NoDup k -> NoDup (foldl add_port k values)); [|by apply H, NoDup_nil_2].
  induction values as [|x values IH]; intros k Hk; [done|]. cbn [foldl]. apply IH. unfold add_port.
  destruct x as [n|s]; [by apply Hadd|]. destruct (seqb _ _); [by apply Hadd|done].
Qed.

Lemma valid_ports values : validatePorts (Some values) = None <-> Forall (fun p => exists n, p = Some n /\ (0 < n <= 65535)%Z) values.
Proof.
  assert (He : forall p, has_text (port_error p) = false <-> exists n, p = Some n /\ (0 < n <= 65535)%Z).
  { intros [n|]; cbn [port_error]; [|split; [done|by intros (n & [=] & _)]].
    destruct n as [|q|q]; [split; [done|intros (n & [= <-] & Hn); lia]| |split; [done|intros (n & [= <-] & Hn); lia]].
    destruct (Z.ltb_spec 65535 (Z.pos q)); cbn [orb Z.leb Z.compare has_text]; split; try done.
    - intros (n & [= <-] & Hn). lia.
    - intros _. exists (Z.pos q). split; [done|]. lia. }
  unfold validatePorts. destruct values as [|x l]; [split; [constructor|done]|].
  assert (Hx : existsb has_text (port_error <$> x :: l) = false <-> Forall (fun p => exists n, p = Some n /\ (0 < n <= 65535)%Z) (x :: l)).
  { generalize (x :: l). intros k. induction k as [|p k IH]; [split; [constructor|done]|]. cbn [fmap list_fmap existsb].
    rewrite Bool.orb_false_iff, He, Forall_cons. unfold fmap in IH. tauto. }
  rewrite <- Hx. destruct (existsb has_text (port_error <$> x :: l)); split; congruence.
Qed.

(** A port that is no number is dropped before the check could tell. *)
Example bad_port_dropped : normalizePorts (Some [inr "80"; inr "123,,"; inr "http"]) = Some [Some 80%Z] /\ validatePorts (Some [Some 80%Z]) = None.
Proof. vm_compute. split; reflexivity. Qed.

(** A port that is left in the input of an empty field throws. *)
Example port_left_behind : multi_onBlur (Some (fun l => l)) [] "80" = Throw "values.forEach is not a function" /\
  multi_onBlur None [] " a " = Ok (Some ["a"]).
Proof. split; reflexivity. Qed.

(** The second resource of a deploy key takes the name of the first away. *)
Example second_resource :
  multi_select [] (mkOption "shop" "shop" "") = [Some "shop"] /\ multi_select ["shop"] (mkOption "blog" "blog" "") = [None; Some "blog"].
Proof. split; reflexivity. Qed.

(** A form whose application changes has no component and no port of the other. *)
Lemma endpoint_cleared prev values : ef_namespace prev <> ef_namespace values ->
  endpoint_updated prev values = mkEndpointForm (ef_namespace values) "" [].
Proof.
  intros H. unfold endpoint_updated. apply seqb_false in H. rewrite H.
  destruct (seqb (ef_endpointName prev) (ef_endpointName values)); reflexivity.
Qed.
