(* ===== verification/Submissions.v ===== *)
(** The pages with a form and the deletions the lists confirm: what each of them
    sends, where it goes afterwards, and what the user sees when it was refused.
    [pages/*/New.tsx], [pages/*/Edit.tsx] and the like, [forms/Application/index.tsx]
    and the handlers of the delete buttons. *)

From S2P Require Import Prelude JsString JsNumber ResourceTypes ActionTypes AccessTokens ResourceReducers UiReducers RootReducer SliceFacts RootFacts CasbinMiddleware Store ComponentForms Async Api Actions ActionFacts ThunkFacts FilesEditor Shell Navigation Tables.

(** ** Pages that edit a resource *)

(** What such a page shows while it loads, when the resource of its address does
    not exist, and else the form with its first values. *)
Inductive EditView (A : Type) := EditLoading | EditNotFound (text redirect : string) | EditForm (initial : A).
Arguments EditLoading {A}.
Arguments EditNotFound {A} _ _.
Arguments EditForm {A} _.

Definition edit_view {A : Type} (waiting : bool) (text redirect : string) (found : option A) : EditView A :=
  if waiting then EditLoading else match found with Some initial => EditForm initial | None => EditNotFound text redirect end.

Definition registry_edit_view (isLoading isFirstLoaded : bool) (registries : list Registry) (name : string) : EditView Registry :=
  edit_view (isLoading && negb isFirstLoaded) "Registry not found" "/cluster/registries"
    (List.find (fun registry => seqb (reg_name registry) name) registries).

Definition certificate_edit_view (isLoading isFirstLoaded : bool) (certificates : list Certificate) (name : string)
    : EditView CertificateFormType :=
  edit_view (isLoading && negb isFirstLoaded) "Certificate not found" "/applications"
    ((fun c => mkCertificateForm c selfManaged) <$> List.find (fun c => seqb (cert_name c) name) certificates).

Definition endpoint_edit_view (loaded loading : bool) (endpoints : list ProtectedEndpoint) (name : string) : EditView ProtectedEndpoint :=
  edit_view (negb loaded && loading) "Endpoint not found." "/applications"
    (List.find (fun x => seqb (endpoint_name x) name) endpoints).

Definition sso_edit_view (isSSOConfigLoaded : bool) (ssoConfig : option SSOConfig) : EditView SSOConfig :=
  if negb isSSOConfigLoaded then EditLoading else EditForm (default newEmptySSOConfig ssoConfig).

Definition acme_initial (acmeServer : option AcmeServerInfo) : AcmeServerFormType :=
  match acmeServer with
  | Some s => mkAcmeServerForm (acmeDomain s) (nsDomain s)
  | None => mkAcmeServerForm "" ""
  end.

(** The fields of a route that the pages assign. *)
Definition set_methods (route : HttpRoute) (methods : list string) (mode : option string) : HttpRoute :=
  mkHttpRoute (route_name route) (route_namespace route) (route_hosts route) (route_paths route) methods
    (route_schemes route) (route_stripPath route) (route_conditions route) (route_destinations route)
    (route_httpRedirectToHttps route) (route_timeout route) (route_retries route) (route_mirror route)
    (route_fault route) (route_delay route) (route_cors route) mode.
Definition set_namespace (route : HttpRoute) (namespace : string) : HttpRoute :=
  mkHttpRoute (route_name route) namespace (route_hosts route) (route_paths route) (route_methods route)
    (route_schemes route) (route_stripPath route) (route_conditions route) (route_destinations route)
    (route_httpRedirectToHttps route) (route_timeout route) (route_retries route) (route_mirror route)
    (route_fault route) (route_delay route) (route_cors route) (route_methodsMode route).

Definition route_initial (httpRoute : HttpRoute) : HttpRoute :=
  set_methods httpRoute (route_methods httpRoute)
    (Some (if Nat.leb 7 (length (route_methods httpRoute)) then methodsModeAll else methodsModeSpecific)).
Definition route_edit_view (isRoutesLoading isRoutesFirstLoaded : bool) (httpRoute : option HttpRoute) : EditView HttpRoute :=
  edit_view (isRoutesLoading && negb isRoutesFirstLoaded) "Route not found" "/routes" (route_initial <$> httpRoute).

(** [if (route.methodsMode === methodsModeAll) route.methods = AllHttpMethods] *)
Definition submitted_route (route : HttpRoute) : HttpRoute :=
  if bool_decide (route_methodsMode route = Some methodsModeAll)
  then set_methods route AllHttpMethods (route_methodsMode route) else route.

(** The filter of the pages of a component on the files the form submits. *)
Definition submitted_component (v : ComponentLike) : ComponentLike :=
  mkComponentLike (comp_name v) (comp_image v) (comp_replicas v) (comp_command v) (comp_resourceRequirements v)
    (comp_cpuRequest v) (comp_memoryRequest v) (comp_cpuLimit v) (comp_memoryLimit v) (comp_workloadType v)
    (comp_schedule v) (comp_restartStrategy v) (comp_terminationGracePeriodSeconds v) (comp_dnsPolicy v)
    (comp_env v) (comp_ports v) (comp_volumes v)
    (List.filter (fun file => negb (seqb (file_mountPath file) "") || negb (seqb (file_content file) "")) <$>
       comp_preInjectedFiles v)
    (comp_livenessProbe v) (comp_readinessProbe v) (comp_nodeSelectorLabels v) (comp_preferNotCoLocated v)
    (comp_podAffinityType v) (comp_protectedEndpoint v).

(** [coms[coms.length - 1]] of the query of the page that edits the ACME server. *)
Definition acme_target (search : string) : string :=
  default "" (last (split_str "=" (replace_first "?" "" search))).

(** [values.namespace = ...] *)
Definition submitted_member (cluster : bool) (activeNamespaceName : string) (v : RoleBinding) : RoleBinding :=
  mkRoleBinding (rb_name v) (if cluster then "kalm-system" else activeNamespaceName) (rb_subject v) (rb_subjectType v)
    (rb_role v) (rb_expiredAtTimestamp v).

(** ** What the pages do when their form is submitted *)

Section submit.
Context {R : Type}.
Variables K8sApiPrefix K8sApiVersion : string.
Abbreviation thunk := (Async R).

(** [dispatch(push(path))] *)
Definition push (path : string) : thunk unit := Push path (mret tt).
(** [try { p } catch (e) { console.log(e) }] *)
Definition logged (p : thunk unit) : thunk unit := try_catch p (fun _ => mret tt).

Definition route_new (activeNamespaceName : string) (route : HttpRoute) : thunk unit := logged (
  dispatch_thunk (createRouteAction K8sApiPrefix K8sApiVersion (set_namespace (submitted_route route) activeNamespaceName)) ;;
  dispatch_thunk (setSuccessNotificationAction "Create route successfully") ;;
  push "/routes").

Definition route_edit (route : HttpRoute) : thunk unit := logged (
  dispatch_thunk (updateRouteAction K8sApiPrefix K8sApiVersion (submitted_route route)) ;;
  dispatch_thunk (setSuccessNotificationAction "Update route successfully") ;;
  push "/routes").

Definition certificate_new (certificate : CertificateFormType) : thunk unit := logged (
  cert ← dispatch_thunk (createCertificateAction K8sApiPrefix K8sApiVersion certificate false);
  push ("/certificates/" +:+ cert_name cert)).

Definition certificate_edit (certificate : CertificateFormType) : thunk unit := logged (
  dispatch_thunk (createCertificateAction K8sApiPrefix K8sApiVersion certificate true) ;;
  push "/certificates").

Definition certificate_upload (certificate : CertificateFormType) : thunk unit := logged (
  dispatch_thunk (createCertificateAction K8sApiPrefix K8sApiVersion certificate false) ;;
  push "/certificates").

Definition acme_edit (search : string) (acmeServer : AcmeServerFormType) : thunk unit := logged (
  dispatch_thunk (editAcmeServerAction K8sApiPrefix K8sApiVersion acmeServer) ;;
  push ("/certificates/" +:+ acme_target search)).

Definition registry_new (registryValue : RegistryFormType) : thunk unit :=
  dispatch_thunk (createRegistryAction K8sApiPrefix K8sApiVersion registryValue) ;;
  push "/cluster/registries".

Definition registry_edit (registryValue : RegistryFormType) : thunk unit :=
  dispatch_thunk (updateRegistryAction K8sApiPrefix K8sApiVersion registryValue) ;;
  push "/cluster/registries".

Definition component_new (activeNamespaceName : string) (formValues : ComponentLike) : thunk unit :=
  dispatch_thunk (createComponentAction K8sApiPrefix K8sApiVersion (submitted_component formValues) (Some activeNamespaceName)) ;;
  push ("/applications/" +:+ activeNamespaceName +:+ "/components").

Definition component_edit (activeNamespaceName componentName : string) (formValues : ComponentLike) : thunk unit :=
  dispatch_thunk (updateComponentAction K8sApiPrefix K8sApiVersion (submitted_component formValues) (Some activeNamespaceName)) ;;
  push ("/applications/" +:+ activeNamespaceName +:+ "/components/" +:+ componentName).

Definition member_new (pathname activeNamespaceName : string) (values : RoleBinding) : thunk unit :=
  dispatch_thunk (createRoleBindingsAction K8sApiPrefix K8sApiVersion
    (submitted_member (isClusterLevel pathname) activeNamespaceName values)) ;;
  dispatch_thunk (setSuccessNotificationAction "Successfully create role binding") ;;
  if isClusterLevel pathname then push "/cluster/members"
  else push ("/applications/" +:+ activeNamespaceName +:+ "/members").

(** [isEdit] reads the props, which follow the state: it is asked again for the
    message, when the watch may have announced the new configuration. *)
Definition sso_isEditing : thunk bool := state ← getState; mret (bool_decide (is_Some (sso_config (root_sso state)))).
Definition sso_submit (config : SSOConfig) : thunk unit :=
  edit ← sso_isEditing;
  (if (edit : bool) then dispatch_thunk (updateSSOConfigAction K8sApiPrefix K8sApiVersion config) ;; mret tt
   else dispatch_thunk (createSSOConfigAction K8sApiPrefix K8sApiVersion config)) ;;
  edit' ← sso_isEditing;
  fire (setSuccessNotificationAction
    (if (edit' : bool) then "Update SSO Config Successfully" else "Create SSO Config Successfully")) ;;
  push "/sso".

Definition endpoint_new (values : ProtectedEndpoint) : thunk unit :=
  dispatch_thunk (createProtectedEndpointAction K8sApiPrefix K8sApiVersion values) ;; push "/sso".

Definition endpoint_edit (values : ProtectedEndpoint) : thunk unit :=
  dispatch_thunk (updateProtectedEndpointAction K8sApiPrefix K8sApiVersion values) ;; push "/sso".

Definition token_new (config : DeployAccessToken) : thunk unit :=
  dispatch_thunk (createDeployAccessTokenAction K8sApiPrefix K8sApiVersion config) ;;
  fire (setSuccessNotificationAction "Create Deploy key Successfully") ;;
  push ("/ci/keys/" +:+ dat_name config).

Definition application_new (applicationFormValue : Application) : thunk unit :=
  dispatch_thunk (createApplicationAction K8sApiPrefix K8sApiVersion applicationFormValue) ;;
  push ("/applications/" +:+ application_name applicationFormValue +:+ "/components/new").

(** ** What the delete buttons do *)

(** [try { p } catch { dispatch(setErrorNotificationAction()) }] *)
Definition reported (p : thunk unit) : thunk unit :=
  try_catch p (fun _ => fire (setErrorNotificationAction None)).

Definition application_delete (applicationDetails : ApplicationDetails) : thunk unit := reported (
  dispatch_thunk (deleteApplicationAction K8sApiPrefix K8sApiVersion (app_name applicationDetails)) ;;
  dispatch_thunk (setSuccessNotificationAction "Successfully delete an application")).

Definition registry_delete (registry : Registry) : thunk unit := reported (
  dispatch_thunk (deleteRegistryAction K8sApiPrefix K8sApiVersion (reg_name registry))).

Definition certificate_delete (cert : Certificate) : thunk unit := reported (
  dispatch_thunk (deleteCertificateAction K8sApiPrefix K8sApiVersion (cert_name cert)) ;;
  dispatch_thunk (setSuccessNotificationAction ("Successfully deleted certificate '" +:+ cert_name cert +:+ "'"))).

(** An absent namespace is printed into the address. *)
Definition disk_delete (disk : Disk) : thunk unit := reported (
  dispatch_thunk (deletePersistentVolumeAction K8sApiPrefix K8sApiVersion
    (default "undefined" (disk_componentNamespace disk)) (disk_name disk))).

(** The page of a token: the token of the address, if it is still there. *)
Definition token_delete (tokens : list DeployAccessToken) (name : string) : thunk unit :=
  match List.find (fun x => seqb (dat_name x) name) tokens with
  | Some token => fire (deleteDeployAccessTokenAction K8sApiPrefix K8sApiVersion token)
  | None => mret tt
  end.

(** The button and the form of the DNS server. *)
Definition acme_delete (acmeServer : AcmeServerFormType) : thunk unit :=
  dispatch_thunk (deleteAcmeServerAction K8sApiPrefix K8sApiVersion acmeServer) ;;
  dispatch_thunk (loadCertificateAcmeServerAction K8sApiPrefix K8sApiVersion).
Definition acme_new (values : AcmeServerFormType) : thunk unit := logged (
  dispatch_thunk (createAcmeServerAction K8sApiPrefix K8sApiVersion values) ;;
  dispatch_thunk (loadCertificateAcmeServerAction K8sApiPrefix K8sApiVersion)).
End submit.

(** ** What a program asks the server to change, and where it goes *)

Definition pushes (tr : list Event) : list string :=
  omap (fun ev => match ev with Pushed path => Some path | _ => None end) tr.

Definition rejected {A : Type} (x : settled A) : bool := match x with Rejected _ => true | Fulfilled _ => false end.

(** A request that is no mere read was rejected. *)
Definition refused (tr : list Event) : bool :=
  existsb (fun ev => match ev with Received _ req answer => negb (seqb (req_method req) "get") && rejected answer | _ => false end) tr.

Lemma pushes_app tr1 tr2 : pushes (tr1 ++ tr2) = pushes tr1 ++ pushes tr2.
Proof. apply omap_app. Qed.

Lemma refused_app tr1 tr2 : refused (tr1 ++ tr2) = refused tr1 || refused tr2.
Proof. apply existsb_app. Qed.

Section leaves.
Context {R : Type}.
Variable connectRouter : R -> Actions -> R.
Variable call : FnRef -> Actions -> bool.
Variable b : Boot.
Variable pathname : string.
Variables K8sApiPrefix K8sApiVersion : string.
Abbreviation exec := (exec connectRouter call b pathname).
Abbreviation after := (after connectRouter call b).
Abbreviation api m := (m K8sApiPrefix K8sApiVersion) (only parsing).

(** The program stays on the page, and what it does for the server ends like
    [outcome]: rejected if and only if the server refused it. *)
Definition stays {A : Type} (outcome : bool -> settled A -> Prop) (p : Async R A) : Prop :=
  forall d tr d' x, exec p d tr d' x -> pushes tr = [] /\ outcome (refused tr) x.

Definition either {A : Type} (r : bool) (_ : settled A) : Prop := r = false.
Definition sure {A : Type} (r : bool) (x : settled A) : Prop := r = false /\ rejected x = false.
Definition failing {A : Type} (r : bool) (x : settled A) : Prop := r = false /\ rejected x = true.
Definition as_answered {A : Type} (r : bool) (x : settled A) : Prop := r = rejected x.

(** Asks only to read, whatever comes of it. *)
Abbreviation reads := (stays either).
(** Asks for no change and fulfills. *)
Abbreviation proceeds := (stays sure).
(** Asks for no change and rejects. *)
Abbreviation rethrows := (stays failing).
(** Asks for changes and rejects exactly if one of them is refused. *)
Abbreviation attempts := (stays as_answered).

Lemma proceeds_attempts {A : Type} (p : Async R A) : proceeds p -> attempts p.
Proof. intros Hp d tr d' x (Hs & Hr & Hx)%Hp. split; [done|]. unfold as_answered. congruence. Qed.

Lemma proceeds_reads {A : Type} (p : Async R A) : proceeds p -> reads p.
Proof. intros Hp d tr d' x (Hs & Hr & Hx)%Hp. done. Qed.

Lemma proceeds_mret {A : Type} (y : A) : proceeds (mret y).
Proof. by intros d tr d' x (-> & -> & ->). Qed.

Lemma proceeds_getState : proceeds getState.
Proof. by intros d tr d' x (-> & -> & ->). Qed.

Lemma proceeds_tick : proceeds tick.
Proof. by intros d tr d' x (d1 & _ & -> & -> & ->). Qed.

Lemma proceeds_dispatch_ a : ActionFacts.plain a = true -> proceeds (dispatch_ a).
Proof. intros Ha d tr d' x (-> & -> & ->)%exec_dispatch_; done. Qed.

Lemma rethrows_throw {A : Type} e : rethrows (throw e : Async R A).
Proof. by intros d tr d' x (-> & -> & ->). Qed.

(** Requests: a read, and a change. *)
Lemma reads_request w c t : config_method c = "get" -> reads (axiosRequest K8sApiPrefix w c t).
Proof. intros Hc d tr d' x (headers & -> & _)%exec_axiosRequest. unfold either. cbn. by rewrite Hc. Qed.

Lemma attempts_request w c t : config_method c <> "get" -> attempts (axiosRequest K8sApiPrefix w c t).
Proof.
  intros Hc%seqb_false d tr d' x (headers & -> & _)%exec_axiosRequest. unfold as_answered. cbn. rewrite Hc. cbn. by rewrite orb_false_r.
Qed.

Lemma reads_bind {A B : Type} (p : Async R A) (k : A -> Async R B) : reads p -> (forall y, reads (k y)) -> reads (p ≫= k).
Proof.
  intros Hp Hk d tr d' x (t1 & d1 & y & t2 & -> & (Hs1 & Hr1)%Hp & H2)%exec_bind. unfold either in *.
  rewrite pushes_app, refused_app, Hs1, Hr1. destruct y as [y|e]; [by apply Hk in H2|]. by destruct H2 as (-> & _ & _).
Qed.

Lemma proceeds_bind {A B : Type} (p : Async R A) (k : A -> Async R B) : proceeds p -> (forall y, proceeds (k y)) -> proceeds (p ≫= k).
Proof.
  intros Hp Hk d tr d' x (t1 & d1 & y & t2 & -> & (Hs1 & Hr1 & Hx)%Hp & H2)%exec_bind. unfold sure in *.
  rewrite pushes_app, refused_app, Hs1, Hr1. destruct y as [y|e]; [by apply Hk in H2|done].
Qed.

Lemma attempts_bind {A B : Type} (p : Async R A) (k : A -> Async R B) : attempts p -> (forall y, attempts (k y)) -> attempts (p ≫= k).
Proof.
  intros Hp Hk d tr d' x (t1 & d1 & y & t2 & -> & (Hs1 & Hr1)%Hp & H2)%exec_bind. unfold as_answered in *.
  rewrite pushes_app, refused_app, Hs1, Hr1. destruct y as [y|e]; [by apply Hk in H2|]. by destruct H2 as (-> & _ & ->).
Qed.

Lemma rethrows_bind {A B : Type} (p : Async R A) (k : A -> Async R B) : proceeds p -> (forall y, rethrows (k y)) -> rethrows (p ≫= k).
Proof.
  intros Hp Hk d tr d' x (t1 & d1 & y & t2 & -> & (Hs1 & Hr1 & Hx)%Hp & H2)%exec_bind. unfold failing in *.
  rewrite pushes_app, refused_app, Hs1, Hr1. destruct y as [y|e]; [by apply Hk in H2|done].
Qed.

Lemma reads_try_catch {A : Type} (p : Async R A) h : reads p -> (forall e, reads (h e)) -> reads (try_catch p h).
Proof.
  intros Hp Hh d tr d' x (t1 & d1 & y & t2 & -> & (Hs1 & Hr1)%Hp & H2)%exec_try_catch. unfold either in *.
  rewrite pushes_app, refused_app, Hs1, Hr1. destruct y as [y|e]; [by destruct H2 as (-> & _ & _)|by apply Hh in H2].
Qed.

Lemma attempts_try_catch {A : Type} (p : Async R A) h : attempts p -> (forall e, rethrows (h e)) -> attempts (try_catch p h).
Proof.
  intros Hp Hh d tr d' x (t1 & d1 & y & t2 & -> & (Hs1 & Hr1)%Hp & H2)%exec_try_catch. unfold as_answered in *.
  rewrite pushes_app, refused_app, Hs1, Hr1. destruct y as [y|e]; [by destruct H2 as (-> & _ & ->)|].
  apply Hh in H2 as (-> & -> & ->). done.
Qed.

Lemma proceeds_spawn {A : Type} (p : Async R A) : reads p -> proceeds (spawn p).
Proof.
  intros Hp d tr d' x (t1 & d1 & y & t2 & -> & H1 & -> & -> & ->).
  apply exec_settle_with in H1 as (t3 & d3 & y3 & t4 & -> & (Hs & Hr)%Hp & -> & _ & _). unfold sure, either in *.
  by rewrite !app_nil_r, Hs, Hr.
Qed.

Lemma rethrows_ErrorHandler {A : Type} e : rethrows (ErrorHandler e : Async R A).
Proof.
  unfold ErrorHandler. destruct (error_response e) as [[status message]|]; [|apply rethrows_throw].
  destruct (seqb _ _); [|apply rethrows_throw]. apply rethrows_bind; [|intros; apply rethrows_throw].
  by apply proceeds_spawn, proceeds_reads, proceeds_dispatch_.
Qed.

Lemma attempts_thunk {A : Type} (p : Async R A) : attempts p -> attempts (dispatch_thunk p).
Proof. intros Hp. apply attempts_try_catch; [done|]. apply rethrows_ErrorHandler. Qed.

Lemma proceeds_fire {A : Type} (p : Async R A) : reads p -> proceeds (fire p).
Proof.
  intros Hp. apply proceeds_spawn, reads_try_catch; [done|]. intros e d tr d' x (Hs & Hr & _)%rethrows_ErrorHandler. done.
Qed.
(** The program goes to another page exactly if nothing it asked for was refused,
    and then once. *)
Definition leaves {A : Type} (to : list Event -> string -> Prop) (p : Async R A) : Prop :=
  forall d tr d' x, exec p d tr d' x ->
    if refused tr then pushes tr = [] else exists path, pushes tr = [path] /\ to tr path.

Definition leaves_to {A : Type} (path : string) (p : Async R A) : Prop := leaves (fun _ s => s = path) p.

Lemma leaves_to_push path : leaves_to path (push path).
Proof. intros d tr d' x (tr' & -> & -> & _). by exists path. Qed.

Lemma leaves_bind {A B : Type} to (p : Async R A) (k : A -> Async R B) :
  (forall t1 t2 s, to t2 s -> to (t1 ++ t2) s) ->
  attempts p -> (forall y, leaves to (k y)) -> leaves to (p ≫= k).
Proof.
  intros Hto Hp Hk d tr d' x (t1 & d1 & y & t2 & -> & (Hs1 & Hr1)%Hp & H2)%exec_bind. unfold as_answered in *.
  rewrite pushes_app, refused_app, Hs1, Hr1. destruct y as [y|e]; [|by destruct H2 as (-> & _ & _)].
  apply Hk in H2. cbn. destruct (refused t2); [done|]. destruct H2 as (path & -> & H2). exists path. eauto.
Qed.

Lemma leaves_to_bind {A B : Type} path (p : Async R A) (k : A -> Async R B) :
  attempts p -> (forall y, leaves_to path (k y)) -> leaves_to path (p ≫= k).
Proof. by apply leaves_bind. Qed.

Lemma leaves_logged to p : leaves to p -> leaves to (logged p).
Proof.
  intros Hp d tr d' x (t1 & d1 & y & t2 & -> & H1%Hp & H2)%exec_try_catch.
  assert (t2 = []) as -> by (by destruct y; destruct H2 as (-> & _)). by rewrite app_nil_r.
Qed.

Lemma leaves_to_logged path p : leaves_to path p -> leaves_to path (logged p).
Proof. apply leaves_logged. Qed.
End leaves.

(** [stay] proves these facts of the thunks, by what they are made of. *)
Ltac stay :=
  repeat first
    [ progress intros
    | apply rethrows_throw | apply attempts_thunk
    | match goal with
      | |- stays _ _ _ _ as_answered (axiosRequest _ ?w ?c ?t) => refine (attempts_request _ _ _ _ _ w c t _); discriminate
      | |- stays _ _ _ _ either (axiosRequest _ ?w ?c ?t) => refine (reads_request _ _ _ _ _ w c t _); reflexivity
      end
    | apply proceeds_mret | apply proceeds_getState | apply proceeds_tick | (apply proceeds_dispatch_; reflexivity)
    | apply proceeds_fire
    | match goal with
      | |- stays _ _ _ _ either (try_catch _ _) => apply reads_try_catch
      | |- stays _ _ _ _ as_answered (try_catch _ _) => apply attempts_try_catch
      | |- stays _ _ _ _ either (_ ≫= _) => apply reads_bind
      | |- stays _ _ _ _ as_answered (_ ≫= _) => apply attempts_bind
      | |- stays _ _ _ _ failing (_ ≫= _) => apply rethrows_bind
      | |- stays _ _ _ _ sure (_ ≫= _) => apply proceeds_bind
      | |- stays _ _ _ _ _ (if ?c then _ else _) => destruct c
      | |- stays _ _ _ _ _ (match ?c with Some _ => _ | None => _ end) => destruct c
      | |- stays _ _ _ _ either (mret _) => apply proceeds_reads
      | |- stays _ _ _ _ either (dispatch_ _) => apply proceeds_reads
      | |- stays _ _ _ _ either getState => apply proceeds_reads
      | |- stays _ _ _ _ either (throw _) => intros ? ? ? ? (-> & -> & ->); done
      | |- stays _ _ _ _ either (spawn _) => apply proceeds_reads
      | |- stays _ _ _ _ either (fire _) => apply proceeds_reads
      | |- stays _ _ _ _ as_answered (mret _) => apply proceeds_attempts
      | |- stays _ _ _ _ as_answered (dispatch_ _) => apply proceeds_attempts
      | |- stays _ _ _ _ as_answered getState => apply proceeds_attempts
      | |- stays _ _ _ _ as_answered tick => apply proceeds_attempts
      | |- stays _ _ _ _ as_answered (fire _) => apply proceeds_attempts
      | |- stays _ _ _ _ _ ?p => let h := head_of p in unfold h
      end ].

Section pages.
Context {R : Type}.
Variable connectRouter : R -> Actions -> R.
Variable call : FnRef -> Actions -> bool.
Variable b : Boot.
Variable pathname : string.
Variables K8sApiPrefix K8sApiVersion : string.
Abbreviation api m := (m K8sApiPrefix K8sApiVersion) (only parsing).
Abbreviation attempts := (stays connectRouter call b pathname as_answered).
Abbreviation leaves := (leaves connectRouter call b pathname).
Abbreviation leaves_to := (leaves_to connectRouter call b pathname).

(** [depart] proves where a page goes. *)
Ltac depart :=
  intros;
  match goal with |- leaves_to _ ?p => let h := head_of p in unfold h end;
  repeat first
    [ apply leaves_to_push
    | apply leaves_to_logged
    | (apply leaves_to_bind; [stay|intros])
    | match goal with |- leaves_to _ (if ?c then _ else _) => destruct c end ].

Lemma certificate_attempts v isEdit d tr d' x :
  exec connectRouter call b pathname (dispatch_thunk (api createCertificateAction v isEdit)) d tr d' x ->
  pushes tr = [] /\ refused tr = rejected x /\
  match x with Fulfilled cert => Dispatched (CREATE_CERTIFICATE cert) ∈ tr | Rejected _ => True end.
Proof.
  intros H. assert (Hs : attempts (dispatch_thunk (api createCertificateAction v isEdit))) by stay.
  destruct (Hs _ _ _ _ H) as [Hp Hr]. split; [done|]. split; [done|]. destruct x as [cert|]; [|done].
  apply exec_try_catch in H as (t1 & d1 & y & t2 & -> & H1 & H2). destruct y as [c|e].
  - destruct H2 as (-> & _ & [= ->]). rewrite app_nil_r. clear Hp Hr.
    apply exec_bind in H1 as (t3 & d3 & y3 & t4 & -> & H3 & H4).
    apply exec_dispatch_ in H3 as (-> & -> & ->); [|done]. apply exec_bind in H4 as (t5 & d5 & y5 & t6 & -> & _ & H6).
    destruct y5 as [c5|]; [|by destruct H6 as (_ & _ & ?)].
    apply exec_bind in H6 as (t7 & d7 & y7 & t8 & -> & H7 & H8). apply exec_dispatch_ in H7 as (-> & -> & ->); [|done].
    apply exec_bind in H8 as (t9 & d9 & y9 & t10 & -> & H9 & H10). apply exec_dispatch_ in H9 as (-> & -> & ->); [|done].
    destruct H10 as (-> & _ & [= ->]). set_solver.
  - apply (rethrows_ErrorHandler connectRouter call b pathname) in H2 as (_ & _ & H2). done.
Qed.

Section targets.
Variable matches_path : string -> string -> bool.
Hypothesis exact_paths : forall pattern path, parts_match (parts pattern) (parts path) = true -> matches_path pattern path = true.

(** The program goes to [path], and that is a page of the table of routes. *)
Definition lands {A : Type} (path : string) (p : Async R A) : Prop := leaves_to path p /\ routed matches_path path.

Lemma goes_new name : plain name = true -> routed matches_path ("/applications/" +:+ name +:+ "/components/new").
Proof.
  intros Hn. change ("/applications/" +:+ name +:+ "/components/new") with (join "/" [""; "applications"; name; "components"; "new"]).
  apply (routed_join _ exact_paths _ "/applications/:applicationName/components/new"); [in_table|done|parts_ok|]. by destruct name.
Qed.

Lemma goes_certificate name : name = "" \/ plain name = true -> routed matches_path ("/certificates/" +:+ name).
Proof.
  intros [->|Hn]; [by apply (goes_literal _ exact_paths)|].
  change ("/certificates/" +:+ name) with (join "/" [""; "certificates"; name]).
  apply (routed_join _ exact_paths _ "/certificates/:name"); [in_table|done|parts_ok|]. by destruct name.
Qed.

Lemma goes_token name : name = "" \/ plain name = true -> routed matches_path ("/ci/keys/" +:+ name).
Proof.
  intros [->|Hn]; [by apply (goes_literal _ exact_paths)|].
  change ("/ci/keys/" +:+ name) with (join "/" [""; "ci"; "keys"; name]).
  apply (routed_join _ exact_paths _ "/ci/keys/:name"); [in_table|done|parts_ok|]. by destruct name.
Qed.

(** Names that an address can end with. *)
Definition addressable (name : string) : Prop := name = "" \/ plain name = true.

Lemma certificate_new_leaves v :
  leaves (fun tr s => exists cert, Dispatched (CREATE_CERTIFICATE cert) ∈ tr /\ s = "/certificates/" +:+ cert_name cert /\
            (addressable (cert_name cert) -> routed matches_path s))
    (api certificate_new v).
Proof.
  apply leaves_logged. intros d tr d' x (t1 & d1 & y & t2 & -> & (Hp & Hr & Hy)%certificate_attempts & H2)%exec_bind.
  rewrite pushes_app, refused_app, Hp, Hr. destruct y as [cert|e]; [|by destruct H2 as (-> & _ & _)].
  destruct H2 as (t3 & -> & -> & _). cbn. exists ("/certificates/" +:+ cert_name cert). split; [done|].
  exists cert. split; [set_solver|]. split; [done|]. apply goes_certificate.
Qed.

(** C14: The pages with a form leave exactly when the server accepted what they sent.
    Whatever else happens meanwhile, each of them goes to another page once if no
    change it asked for was refused, and else stays where it is.  The address it goes
    to is stated for each page, and is one of the table of routes provided the names
    in it are parts of an address: of the application and component, not empty and
    without slash, question mark and hash; of the certificate the server answered, of
    the target in the query of the page of the ACME server and of the new token, empty
    or the like.  A new token has no name in the form, so its page leads to the list,
    see [token_page_not_shown]. *)
Theorem submissions_leave ns comp : plain ns = true -> plain comp = true ->
  (forall v, lands "/routes" (api route_new ns v)) /\
  (forall v, lands "/routes" (api route_edit v)) /\
  (forall v, leaves (fun tr s => exists cert, Dispatched (CREATE_CERTIFICATE cert) ∈ tr /\ s = "/certificates/" +:+ cert_name cert /\
                       (addressable (cert_name cert) -> routed matches_path s))
               (api certificate_new v)) /\
  (forall v, lands "/certificates" (api certificate_edit v)) /\
  (forall v, lands "/certificates" (api certificate_upload v)) /\
  (forall search v, addressable (acme_target search) -> lands ("/certificates/" +:+ acme_target search) (api acme_edit search v)) /\
  (forall v, lands "/cluster/registries" (api registry_new v)) /\
  (forall v, lands "/cluster/registries" (api registry_edit v)) /\
  (forall v, lands ("/applications/" +:+ ns +:+ "/components") (api component_new ns v)) /\
  (forall v, lands ("/applications/" +:+ ns +:+ "/components/" +:+ comp) (api component_edit ns comp v)) /\
  (forall path v, lands (if isClusterLevel path then "/cluster/members" else "/applications/" +:+ ns +:+ "/members")
                    (api member_new path ns v)) /\
  (forall v, lands "/sso" (api sso_submit v)) /\
  (forall v, lands "/sso" (api endpoint_new v)) /\
  (forall v, lands "/sso" (api endpoint_edit v)) /\
  (forall v, addressable (dat_name v) -> lands ("/ci/keys/" +:+ dat_name v) (api token_new v)) /\
  (forall v, plain (application_name v) = true ->
     lands ("/applications/" +:+ application_name v +:+ "/components/new") (api application_new v)).
Proof.
  intros Hns Hcomp. repeat match goal with |- _ /\ _ => split end; intros;
    first [apply certificate_new_leaves | match goal with |- lands _ _ => split; [depart|] end].
  1-4, 6-7, 11-13: by apply (goes_literal _ exact_paths).
  - by apply goes_certificate.
  - apply (goes_app _ exact_paths); [done|set_solver].
  - exact (proj1 (goes_component _ exact_paths ns comp Hns Hcomp)).
  - destruct (isClusterLevel path); [by apply (goes_literal _ exact_paths)|]. apply (goes_app _ exact_paths); [done|set_solver].
  - by apply goes_token.
  - by apply goes_new.
Qed.
End targets.
End pages.

(** ** Deletions *)

Section deletions.
Context {R : Type}.
Variable connectRouter : R -> Actions -> R.
Variable call : FnRef -> Actions -> bool.
Variable b : Boot.
Variable pathname : string.
Variables K8sApiPrefix K8sApiVersion : string.
Abbreviation api m := (m K8sApiPrefix K8sApiVersion) (only parsing).
Abbreviation exec := (exec connectRouter call b pathname).

(** The handler never rejects and stays on the page, and the last thing the user
    is told of a deletion the server refused is the error. *)
Definition reports (p : Async R unit) : Prop :=
  forall d tr d' x, exec p d tr d' x ->
    rejected x = false /\ pushes tr = [] /\
    (refused tr = true -> root_notification (dash_root d') = Some (mkNotification SomethingWrong "error")).

Lemma reported_reports p : stays connectRouter call b pathname as_answered p -> reports (reported p).
Proof.
  intros Hp d tr d' x (t1 & d1 & y & t2 & -> & (Hs & Hr)%Hp & H2)%exec_try_catch. unfold as_answered in Hr.
  rewrite pushes_app, refused_app, Hs, Hr. destruct y as [y|e].
  - by destruct H2 as (-> & -> & ->).
  - apply (exec_error_notification connectRouter call b pathname d1 SomethingWrong) in H2 as (-> & -> & ->).
    split; [done|]. split; [done|]. intros _.
    by rewrite (red_notification _ _ _ (after_reduced connectRouter call b d1 (SET_NOTIFICATION_MESSAGE SomethingWrong "error") eq_refl)).
Qed.

(** The lists that ask before they delete. *)
Lemma deletions_report :
  (forall app, reports (api application_delete app)) /\ (forall r, reports (api registry_delete r)) /\
  (forall c, reports (api certificate_delete c)) /\ (forall disk, reports (api disk_delete disk)).
Proof.
  repeat match goal with |- _ /\ _ => split end; intros;
    match goal with |- reports ?p => let h := head_of p in unfold h end; apply reported_reports; stay.
Qed.
End deletions.

(** ** Editing a route *)

(** A route submitted as it was opened keeps everything but its methods: with
    seven or more it is taken to allow all of them. *)
Lemma untouched_route route :
  route_methods (submitted_route (route_initial route)) =
    (if Nat.leb 7 (length (route_methods route)) then AllHttpMethods else route_methods route) /\
  set_methods (submitted_route (route_initial route)) (route_methods route) (route_methodsMode route) = route.
Proof.
  unfold submitted_route, route_initial. cbn [route_methodsMode set_methods]. destruct (Nat.leb 7 (length (route_methods route))); cbn; by destruct route.
Qed.

(** A route that forbids tracing and proxying allows both after it was edited. *)
Example route_widened route : route_methods route = ["GET"; "POST"; "PUT"; "PATCH"; "DELETE"; "HEAD"; "OPTIONS"] ->
  "TRACE" ∈ route_methods (submitted_route (route_initial route)) /\ "CONNECT" ∈ route_methods (submitted_route (route_initial route)).
Proof. intros Hm. rewrite (proj1 (untouched_route route)), Hm. cbn. set_solver. Qed.

(** The form of a deploy token has no name to go to: the page pushes the address of
    the list, which redirects, and not that of the page of the token. *)
Example token_page_not_shown : "/ci/keys/" +:+ dat_name newEmptyDeployAccessToken = "/ci/keys/" /\
  parts_match (parts "/ci/keys/:name") (parts "/ci/keys/") = false.
Proof. split; reflexivity. Qed.

(** ** A concrete submission *)

Lemma submissions_leave_witness :
  let accepts := fun pattern path => parts_match (parts pattern) (parts path) in
  lands (R := unit) (fun r _ => r) (fun _ _ => false) (boot None ∅) "/cluster/registries/new" accepts
    "/cluster/registries" (registry_new "https://kalm" "v1alpha1" newEmptyRegistry) /\
  routed accepts "/applications/shop/components/web".
Proof.
  intros accepts.
  destruct (submissions_leave (R := unit) (fun r _ => r) (fun _ _ => false) (boot None ∅) "/cluster/registries/new"
    "https://kalm" "v1alpha1" accepts (fun _ _ H => H) "shop" "web" eq_refl eq_refl)
    as (_ & _ & _ & _ & _ & _ & Hr & _ & _ & Hc & _).
  split; [apply Hr|]. apply (Hc newEmptyComponentLike).
Defined.
