(* ===== verification/Terminals.v ===== *)
(** What the page of logs and shells shows, and the smaller parts with a state of
    their own: the choices and the tabs of [pages/Application/Log.tsx], its address,
    the terminal of [pages/Application/Xterm.tsx], the controlled dialogs, and the
    fields for labels of nodes, rules of routes and uploaded certificates. *)

From S2P Require Import Prelude JsString JsMap JsNumber ResourceTypes ActionTypes UiReducers LogStream LogStreamFacts.

(** ** The choices of the log page *)

(** [renderInputPod]: the pods that can still be chosen, and the chosen ones. *)
Definition input_pods (components : list ApplicationComponentDetails) (s : LogStream) : list string * list string :=
  let chosen := fst <$> subscribedPods s in
  (List.filter (fun x => negb (existsb (seqb x) chosen)) (pod_name <$> getAllPods components), chosen).

(** A click on the chip of a chosen pod. *)
Definition click_chip (option_name : string) (s : LogStream) : LogStream :=
  match find_ref (subscribedPods s) option_name with Some r => set_selection s r (subscribedPods s) | None => s end.

(** [renderInputContainer] *)
Definition input_container (components : list ApplicationComponentDetails) (s : LogStream) : option string * list string :=
  ((ls_value s).2, from_option containerNames [] (find_pod (getAllPods components) (ls_value s).1)).

(** [renderInputTailLines] *)
Definition choose_tailLines (x : Z) (s : LogStream) : LogStream :=
  let o := logOptions s in onLogOptionsChange (mkLogOptions x (opt_timestamps o) (opt_follow o) (opt_previous o)) s.

(** [renderMore]: the three boxes; a click on one of them closes the menu. *)
Inductive MoreOption := ShowTimestamps | FollowLogs | ShowPrevious.
Definition more_checked (o : LogOptions) (key : MoreOption) : bool :=
  match key with ShowTimestamps => opt_timestamps o | FollowLogs => opt_follow o | ShowPrevious => opt_previous o end.
Definition more_toggled (key : MoreOption) (o : LogOptions) : LogOptions :=
  match key with
  | ShowTimestamps => mkLogOptions (opt_tailLines o) (negb (opt_timestamps o)) (opt_follow o) (opt_previous o)
  | FollowLogs => mkLogOptions (opt_tailLines o) (opt_timestamps o) (negb (opt_follow o)) (opt_previous o)
  | ShowPrevious => mkLogOptions (opt_tailLines o) (opt_timestamps o) (opt_follow o) (negb (opt_previous o))
  end.
(** [handleCloseMore] *)
Definition handleCloseMore (logOptions : option LogOptions) (s : LogStream) : LogStream :=
  match logOptions with Some o => onLogOptionsChange o s | None => s end.
Definition click_more (key : MoreOption) (s : LogStream) : LogStream :=
  handleCloseMore (Some (more_toggled key (logOptions s))) s.

(** [renderFromTo]: the first time stamp of the pod on the page. *)
Definition renderFromTo (s : LogStream) : option string :=
  let podName := (ls_value s).1 in
  if seqb podName "" then None
  else match timestampsFrom s !! podName with Some t => if seqb t "" then None else Some t | None => None end.

(** The panels, in order, with whether each is hidden; the first is the empty one. *)
Definition tab_panels (s : LogStream) : list (string * bool) :=
  (fun index => (index, negb (seqb (ls_value s).1 index))) <$> "" :: (fst <$> subscribedPods s).

(** [componentDidUpdate]: with no query in the address the page is left; a change
    of the choice is written into it. *)
Definition leaves_log (search activeNamespaceName : string) : option string :=
  if seqb search "" then Some ("/applications/" +:+ activeNamespaceName +:+ "/components") else None.
Record LogQuery := mkLogQuery { query_pods : option (list PodRef); query_active : option PodRef }.
Definition log_query (s : LogStream) : LogQuery :=
  mkLogQuery (match subscribedPods s with [] => None | pods => Some pods end)
    (if seqb (ls_value s).1 "" then None else Some (ls_value s)).
(** [value_changed] compares the arrays by identity. *)
Definition query_update (prev s : LogStream) (value_changed : bool) : option LogQuery :=
  if negb (Nat.eqb (length (subscribedPods prev)) (length (subscribedPods s))) || value_changed then Some (log_query s) else None.

(** [generateQueryForPods], the links to the page. *)
Definition pods_query (podNames : list PodRef) (active : option PodRef) : LogQuery :=
  mkLogQuery (match podNames with [] => None | pods => Some pods end) active.

(** ** The terminal

    Where the focus of the page is remains the browser's; the calls that move it
    are left out. *)

Record Xterm := mkXterm {
  xt_show : bool;
  xt_shown : bool;
  xt_opened : nat;
  xt_written : list string;
  showSearch : bool;
  searchValue : string;
  isSearchFocused : bool;
  xt_found : list string
}.

Definition set_view (s : Xterm) (show shown : bool) (opened : nat) : Xterm :=
  mkXterm show shown opened (xt_written s) (showSearch s) (searchValue s) (isSearchFocused s) (xt_found s).
Definition set_search (s : Xterm) (search : bool) (value : string) (focused : bool) : Xterm :=
  mkXterm (xt_show s) (xt_shown s) (xt_opened s) (xt_written s) search value focused (xt_found s).

(** The constructor and [componentDidMount]. *)
Definition xterm_mounted (show : bool) (initializedContent : option string) : Xterm :=
  mkXterm show show (if show then 1 else 0)
    (match initializedContent with Some c => if show && negb (seqb c "") then [c] else [] | None => [] end)
    false "" false [].

Definition xterm_didUpdate (s : Xterm) : Xterm :=
  if xt_show s && negb (xt_shown s) then set_view s true true (xt_opened s + 1) else s.

Definition closeSearch (s : Xterm) : Xterm := set_search s false (searchValue s) false.

Definition keyDownHander (keyCode : Z) (ctrlOrMeta : bool) (s : Xterm) : Xterm :=
  if negb (xt_show s) then s
  else if (keyCode =? 70)%Z && ctrlOrMeta then set_search s true (searchValue s) (isSearchFocused s)
  else if (keyCode =? 27)%Z then closeSearch s else s.

Definition find_next (text : string) (s : Xterm) : Xterm :=
  mkXterm (xt_show s) (xt_shown s) (xt_opened s) (xt_written s) (showSearch s) (searchValue s) (isSearchFocused s)
    (xt_found s ++ [text]).
Definition onSearch (newValue : string) (s : Xterm) : Xterm :=
  find_next newValue (set_search s (showSearch s) newValue (isSearchFocused s)).
Definition onSearchInputKeyDown (keyCode : Z) (s : Xterm) : Xterm :=
  if (keyCode =? 13)%Z then find_next (searchValue s) s else if (keyCode =? 27)%Z then closeSearch s else s.

Inductive XtermEvent :=
| ShowProp (show : bool)
| WindowKey (keyCode : Z) (ctrlOrMeta : bool)
| SearchKey (keyCode : Z)
| SearchText (text : string)
| SearchFocus (focused : bool)
| CloseButton.

(** The input of the search exists only while it is shown.  Every change of the
    props or the state is followed by [componentDidUpdate]. *)
Definition xterm_event (s : Xterm) (e : XtermEvent) : Xterm :=
  xterm_didUpdate
    match e with
    | ShowProp show => set_view s show (xt_shown s) (xt_opened s)
    | WindowKey keyCode ctrlOrMeta => keyDownHander keyCode ctrlOrMeta s
    | SearchKey keyCode => if showSearch s then onSearchInputKeyDown keyCode s else s
    | SearchText text => if showSearch s then onSearch text s else s
    | SearchFocus focused => if showSearch s then set_search s true (searchValue s) focused else s
    | CloseButton => if showSearch s then closeSearch s else s
    end.

(** ** Controlled dialogs *)

Definition dialog_open_prop (dialogs : DialogState) (dialogID : string) : bool :=
  match dialogs !! dialogID with Some d => dialog_open d | None => false end.
(** What the component dispatches: when it is mounted and unmounted, when it is
    closed, after a callback of its own, and when it has faded out. *)
Inductive DialogEvent := DialogMount | DialogUnmount | DialogClose | DialogExited.
Definition dialog_dispatches (dialogID : string) (e : DialogEvent) : Actions :=
  match e with
  | DialogMount => INIT_CONTROLLED_DIALOG dialogID
  | DialogUnmount => DESTROY_CONTROLLED_DIALOG dialogID
  | DialogClose => CLOSE_CONTROLLED_DIALOG dialogID
  | DialogExited => CLEAR_CONTROLLED_DIALOG_DATA dialogID
  end.

(** ** Labels of nodes, rules of routes, uploaded certificates *)

(** The choices shown for the labels, and the labels of the choices. *)
Definition label_texts (labels : option (dict string)) : list string :=
  (fun kv => kv.1 +:+ ":" +:+ kv.2) <$> default [] labels.
Definition label_of (nodeLabel : string) : string * option string :=
  let kv := split_char ":" nodeLabel in (default "" (kv !! 0), kv !! 1).
Definition labels_of (value : list string) : dict (option string) :=
  foldl (fun labels nodeLabel => map_set labels (label_of nodeLabel).1 (label_of nodeLabel).2) [] value.

Definition header_rule : HttpRouteCondition := mkRouteCondition "header" "" "equal" "".
Definition query_rule : HttpRouteCondition := mkRouteCondition "query" "" "equal" "".
Definition add_rule (query : bool) (conditions : list HttpRouteCondition) : list HttpRouteCondition :=
  conditions ++ [if query then query_rule else header_rule].
Definition remove_rule (index : nat) (conditions : list HttpRouteCondition) : list HttpRouteCondition :=
  base.delete index conditions.

Section upload.
(** The parser of certificates is third-party. *)
Variable extractDomainsFromCertificateContent : string -> list string.

Definition upload_content (text : string) (v : CertificateFormType) : CertificateFormType :=
  let c := form_certificate v in
  mkCertificateForm
    (mkCertificate (cert_name c) (cert_isSelfManaged c) (cert_isSignedByTrustedCA c) (cert_expireTimestamp c) text
       (cert_selfManagedCertPrivateKey c) (cert_httpsCertIssuer c) (extractDomainsFromCertificateContent text) (cert_ready c)
       (cert_reason c) (cert_wildcardCertDNSChallengeDomainMap c))
    (form_managedType v).
Definition upload_key (text : string) (v : CertificateFormType) : CertificateFormType :=
  let c := form_certificate v in
  mkCertificateForm
    (mkCertificate (cert_name c) (cert_isSelfManaged c) (cert_isSignedByTrustedCA c) (cert_expireTimestamp c)
       (cert_selfManagedCertContent c) text (cert_httpsCertIssuer c) (cert_domains c) (cert_ready c) (cert_reason c)
       (cert_wildcardCertDNSChallengeDomainMap c))
    (form_managedType v).
(** [validate]: the error for the content of the certificate. *)
Definition upload_validate (v : CertificateFormType) : option string :=
  if seqb (form_managedType v) selfManaged && Nat.ltb (length (cert_domains (form_certificate v))) 1
  then Some "Invalid Certificate" else None.
End upload.

(** ** Facts *)

(** A tab is chosen: the panel of the pod in view is on the page. *)
Definition in_view (s : LogStream) : Prop := (ls_value s).1 = "" \/ (ls_value s).1 ∈ fst <$> subscribedPods s.

(** Exactly one panel is visible, whatever the names of the pods. *)
Lemma one_panel s : in_view s -> distinct (subscribedPods s) -> "" ∉ fst <$> subscribedPods s ->
  fst <$> List.filter (fun p => negb p.2) (tab_panels s) = [(ls_value s).1].
Proof.
  unfold in_view, distinct, map_keys, tab_panels. intros Hv Hd He.
  assert (Hn : NoDup ("" :: (fst <$> subscribedPods s))) by by constructor.
  assert (Hin : (ls_value s).1 ∈ "" :: (fst <$> subscribedPods s)) by (rewrite elem_of_cons; tauto).
  revert Hin Hn. clear. generalize ("" :: (fst <$> subscribedPods s)) (ls_value s).1. intros l v Hin Hn.
  induction l as [|x l IH]; [by apply not_elem_of_nil in Hin|]. apply NoDup_cons in Hn as [Hx Hn].
  cbn [fmap list_fmap List.filter snd]. rewrite negb_involutive.
  destruct (seqb_spec v x) as [->|Hne]; cbn [fmap list_fmap fst].
  - f_equal. clear IH Hin Hn. induction l as [|y l IH]; [done|]. apply not_elem_of_cons in Hx as [Hxy Hx]. cbn [fmap list_fmap List.filter snd].
    rewrite negb_involutive. destruct (seqb_spec x y) as [->|_]; [by destruct Hxy|]. by apply IH.
  - apply IH; [|done]. by apply elem_of_cons in Hin as [->|].
Qed.

Lemma chip_in_view name s : in_view s -> in_view (click_chip name s) /\ subscribedPods (click_chip name s) = subscribedPods s.
Proof.
  unfold click_chip. destruct (find_ref (subscribedPods s) name) as [r|] eqn:E; [|done]. intros _. split; [|done]. right.
  apply List.find_some in E as [E%list_elem_of_In _]. apply list_elem_of_fmap. by exists r.
Qed.

Lemma keep_in_view s s' : ls_value s' = ls_value s -> subscribedPods s' = subscribedPods s -> in_view s -> in_view s'.
Proof. unfold in_view. by intros -> ->. Qed.

Lemma emits_in_view s s' ms : emits s s' ms -> in_view s -> in_view s'.
Proof. intros H. apply keep_in_view; apply H. Qed.

Lemma choose_pods_names pods subscribed names l : choose_pods pods subscribed names = Ok l -> fst <$> l = names.
Proof.
  revert l. induction names as [|n names IH]; intros l; cbn; [by intros [= <-]|].
  intros H. apply bind_Ok in H as (r & Hr & H). apply bind_Ok in H as (l' & Hl & [= <-]). cbn. f_equal; [|by apply IH].
  destruct (find_ref subscribed n) as [r'|] eqn:E.
  - injection Hr as <-. apply List.find_some in E as [_ E]. by apply seqb_true in E.
  - destruct (find_pod pods n); [|done]. by injection Hr as <-.
Qed.

Lemma subscribe_new_value pods subscribed names v s :
  exists ms, emits s (subscribe_new pods subscribed names v s).1 ms /\
    forall v', (subscribe_new pods subscribed names v s).2 = Ok v' -> v' = v \/ v'.1 ∈ names.
Proof.
  revert v s. induction names as [|n names IH]; intros v s; cbn [subscribe_new].
  { exists []. split; [apply emits_refl|]. intros v' [= ->]. by left. }
  destruct (find_pod pods n) as [pod|]; [|exists []; split; [apply emits_refl|done]].
  set (r := (n, head (containerNames pod))). set (v1 := if seqb v.1 "" then r else v).
  set (s1 := if existsb _ _ then s else _).
  destruct (IH v1 s1) as (ms & Hms & Hv). assert (Hs1 : exists ms1, emits s s1 ms1).
  { subst s1. destruct (existsb _ _); eexists; [apply emits_refl|apply subscribe_emits]. }
  destruct Hs1 as [ms1 Hs1]. exists (ms1 ++ ms). split; [by eapply emits_trans|]. intros v' [->|Hin]%Hv; [|right; by right].
  subst v1. destruct (seqb v.1 ""); [right; by left|by left].
Qed.

Lemma input_in_view components names s : in_view s -> in_view (onInputChange components names s).1.
Proof.
  intros Hv. unfold onInputChange. destruct (choose_pods _ _ names) as [l|] eqn:El; [|done].
  apply choose_pods_names in El. set (dropped := List.filter _ _). set (value := if existsb _ dropped then _ else _).
  pose proof (foldl_emits (fun s r => unsubscribe r s) (fun _ r => [UnsubscribePod r.1 r.2]) dropped s (fun s r => unsubscribe_emits r s)) as H1.
  set (s1 := foldl _ s dropped) in *.
  destruct (subscribe_new_value (getAllPods components) (fst <$> subscribedPods s) names value s1) as (ms & H2 & Hval).
  destruct (subscribe_new _ _ _ _ _) as [s2 [v|e]]; cbn [fst snd] in *.
  - unfold in_view. cbn [set_selection ls_value subscribedPods]. rewrite El. destruct (Hval v eq_refl) as [->|]; [|by right].
    subst value. destruct (existsb _ dropped) eqn:Ed; [by left|]. destruct Hv as [Hv|Hv]; [by left|]. right.
    destruct (decide ((ls_value s).1 ∈ names)) as [|Hn]; [done|]. apply list_elem_of_fmap in Hv as (r & Hr & Hin).
    assert (existsb (fun r : PodRef => seqb r.1 (ls_value s).1) dropped = true) as ?; [|congruence].
    apply existsb_exists. exists r. split; [|by apply seqb_true]. apply filter_In. split; [by apply list_elem_of_In|].
    apply negb_true_iff. rewrite existsb_seqb. apply bool_decide_eq_false_2. by rewrite <- Hr.
  - eapply emits_in_view; [exact H2|]. by eapply emits_in_view.
Qed.

Lemma container_in_view x s : in_view s -> in_view (onInputContainerChange x s).
Proof.
  unfold in_view, onInputContainerChange. cbn [set_selection ls_value subscribedPods fst].
  rewrite <- list_fmap_compose. intros [Hv|Hv]; [by left|]. right.
  erewrite list_fmap_ext; [exact Hv|]. intros _ r _. cbn. by destruct (seqb r.1 _).
Qed.

Lemma options_in_view o s : in_view s -> in_view (onLogOptionsChange o s).
Proof.
  intros Hv. unfold onLogOptionsChange.
  pose proof (foldl_emits (fun s r => subscribe r (Some o) (unsubscribe r s))
    (fun _ r => [UnsubscribePod r.1 r.2] ++ [SubscribePod r.1 r.2 (wire_options o)]) (subscribedPods s) s
    (fun s r => emits_trans _ _ _ _ _ (unsubscribe_emits r s) (subscribe_emits r (Some o) (unsubscribe r s)))) as H.
  by eapply (keep_in_view (foldl _ s (subscribedPods s))), emits_in_view.
Qed.

(** The states of the page from an address whose active pod is among its pods, as
    in every link to it ([pods_query]). *)
Inductive viewing : LogStream -> Prop :=
| viewing_start components pods active :
    (forall r, active = Some r -> r ∈ default [] pods) -> viewing (initFromQuery components pods active newLogStream)
| viewing_query s components pods active : viewing s -> initalizedFromQuery s = true ->
    viewing (initFromQuery components pods active s)
| viewing_message s token impersonation data : viewing s -> viewing (onmessage token impersonation data s)
| viewing_socket s open sent : viewing s -> viewing (set_socket s open sent)
| viewing_terminal s name present : viewing s -> viewing (saveTerminal name present s)
| viewing_typed s podName data : viewing s -> viewing (terminalOnData podName data s)
| viewing_resized s podName cols rows : viewing s -> viewing (terminalOnResize podName cols rows s)
| viewing_pods s components names : viewing s -> viewing (onInputChange components names s).1
| viewing_container s x : viewing s -> viewing (onInputContainerChange x s)
| viewing_chip s name : viewing s -> viewing (click_chip name s)
| viewing_lines s x : viewing s -> viewing (choose_tailLines x s)
| viewing_more s key : viewing s -> viewing (click_more key s).

Lemma sends_keep q s :
  ls_value (foldl (fun s m => ws_send m s) s q) = ls_value s /\ subscribedPods (foldl (fun s m => ws_send m s) s q) = subscribedPods s.
Proof. revert s. induction q as [|m q IH]; intros s; [done|]. cbn [foldl]. by destruct (IH (ws_send m s)) as [-> ->]. Qed.

Lemma message_in_view token impersonation data s : in_view s -> in_view (onmessage token impersonation data s).
Proof.
  intros Hv. destruct (decide (success data = true)) as [Hs|Hs%not_true_is_false].
  - assert (onmessage token impersonation data s = afterWsAuthSuccess s) as -> by (by destruct data; try done; cbn in *; rewrite Hs).
    unfold afterWsAuthSuccess.
    pose proof (foldl_emits (fun s pod => subscribe pod None s) (fun o r => [SubscribePod r.1 r.2 (wire_options o)])
      (subscribedPods s) s (fun s r => subscribe_emits r None s)) as H. set (s1 := foldl _ s (subscribedPods s)) in *.
    destruct (sends_keep (wsQueueMessages s1) s1) as [E1 E2]. by apply (keep_in_view s1); [..|by eapply emits_in_view].
  - destruct (decide (data = AuthStatusIs (-1))) as [->|Hne]; [by apply (keep_in_view s)|].
    eapply emits_in_view; [|done]. apply data_emits; [done|]. by intros status -> ->.
Qed.

Lemma start_in_view components pods active :
  (forall r, active = Some r -> r ∈ default [] pods) -> in_view (initFromQuery components pods active newLogStream).
Proof.
  intros Ha. unfold initFromQuery. cbn [initalizedFromQuery newLogStream]. set (known := fun r : PodRef => existsb _ _).
  set (valid := List.filter known (default [] pods)). unfold in_view. cbn [set_initalized set_selection ls_value subscribedPods].
  assert (Hl : forall l : list PodRef, (if negb (Nat.eqb 0 (length l)) then l else []) = l) by (by intros []).
  change (subscribedPods newLogStream) with (@nil PodRef). change (@length PodRef []) with 0. rewrite Hl.
  destruct active as [r|]; [|by left].
  change (existsb (seqb r.1) (pod_name <$> getAllPods components)) with (known r). destruct (known r) eqn:Ek; [|by left]. right. apply list_elem_of_fmap. exists r.
  split; [done|]. apply list_elem_of_In, filter_In. split; [|done]. apply list_elem_of_In. by apply Ha.
Qed.

Lemma viewing_in_view s : viewing s -> in_view s.
Proof.
  induction 1 as [components pods active Ha|s components pods active _ IH Hi|s token imp data _ IH|s o sent _ IH|s name present _ IH
    |s podName data _ IH|s podName cols rows _ IH|s components names _ IH|s x _ IH|s name _ IH|s x _ IH|s key _ IH].
  - by apply start_in_view.
  - unfold initFromQuery. by rewrite Hi.
  - by apply message_in_view.
  - by apply (keep_in_view s).
  - by apply (keep_in_view s).
  - eapply emits_in_view; [apply send_emits|done].
  - eapply emits_in_view; [apply send_emits|done].
  - by apply input_in_view.
  - by apply container_in_view.
  - by apply chip_in_view.
  - by apply options_in_view.
  - by apply options_in_view.
Qed.

(** The page of logs and shells always shows exactly one terminal.  From an
    address whose active pod is among its pods, whatever is chosen, clicked, typed
    or received, the panel of the pod in view is the only one that is not hidden:
    the empty one, or that of a pod that is chosen. *)
Theorem one_terminal_shown s : viewing s -> distinct (subscribedPods s) -> "" ∉ fst <$> subscribedPods s ->
  fst <$> List.filter (fun p => negb p.2) (tab_panels s) = [(ls_value s).1] /\ in_view s.
Proof. intros Hs%viewing_in_view Hd He. split; [by apply one_panel|done]. Qed.

(** ** The terminal is opened once *)

Lemma xterm_opened events show content :
  let s := foldl xterm_event (xterm_mounted show content) events in
  xt_opened s = (if xt_shown s then 1 else 0) /\ (xt_show s = true -> xt_shown s = true) /\
  xt_written s = xt_written (xterm_mounted show content).
Proof.
  induction events as [|e events IH] using rev_ind; [by destruct show|]. rewrite foldl_app. cbn [foldl]. cbv zeta in IH.
  set (s := foldl xterm_event _ events) in *. destruct IH as (Ho & Hs & Hw). unfold xterm_event.
  assert (Hd : forall s', xt_opened s' = xt_opened s -> xt_shown s' = xt_shown s -> xt_written s' = xt_written s ->
    xt_opened (xterm_didUpdate s') = (if xt_shown (xterm_didUpdate s') then 1 else 0) /\
    (xt_show (xterm_didUpdate s') = true -> xt_shown (xterm_didUpdate s') = true) /\
    xt_written (xterm_didUpdate s') = xt_written (xterm_mounted show content)).
  { intros s' E1 E2 E3. unfold xterm_didUpdate. rewrite E2. destruct (xt_show s') eqn:Eshow, (xt_shown s) eqn:Eshown; cbn;
      rewrite ?E1, ?E2, ?E3, ?Ho, ?Eshow; done. }
  apply Hd; destruct e as [sh|k c|k|t|f|]; cbn; try done;
    unfold keyDownHander, onSearchInputKeyDown; repeat case_match; done.
Qed.

(** A terminal that is mounted hidden never gets its first text: the hints of an
    empty page are missing when the last pod is closed. *)
Example hints_lost :
  let s := foldl xterm_event (xterm_mounted false (Some "hints")) [ShowProp true] in
  xt_opened s = 1 /\ xt_written s = [] /\ xt_written (xterm_mounted true (Some "hints")) = ["hints"].
Proof. done. Qed.

Example search_in_terminal :
  let s := foldl xterm_event (xterm_mounted true None) [WindowKey 70 true; SearchText "err"; SearchKey 13; SearchKey 27; SearchText "x"] in
  xt_found s = ["err"; "err"] /\ showSearch s = false /\ searchValue s = "err".
Proof. done. Qed.

(** ** A dialog is open exactly between its opening and its closing *)

Lemma dialog_life dialogs id data :
  let step := dialog_reducer in
  let mounted := step dialogs (dialog_dispatches id DialogMount) in
  let opened := step mounted (OPEN_CONTROLLED_DIALOG id data) in
  let closed := step opened (dialog_dispatches id DialogClose) in
  dialog_open_prop mounted id = false /\ dialog_open_prop opened id = true /\ dialog_open_prop closed id = false /\
  dialog_open_prop (step closed (dialog_dispatches id DialogExited)) id = false /\
  step opened (dialog_dispatches id DialogUnmount) = base.delete id dialogs.
Proof.
  intros step mounted opened closed.
  assert (Ho : opened !! id = Some (mkDialog true data)) by (unfold opened; cbn [step dialog_reducer]; apply lookup_insert_eq).
  assert (Hc : closed !! id = Some (mkDialog false data)).
  { unfold closed. cbn [step dialog_reducer dialog_dispatches]. rewrite Ho. apply lookup_insert_eq. }
  unfold dialog_open_prop. rewrite Ho, Hc. cbn [step dialog_reducer dialog_dispatches]. rewrite Hc.
  assert (mounted !! id = Some emptyControlledDialogParams) as -> by apply lookup_insert_eq.
  rewrite lookup_insert_eq. split_and!; try done.
  unfold opened, mounted. cbn [step dialog_reducer dialog_dispatches]. by rewrite insert_insert_eq, delete_insert_eq.
Qed.

(** ** The labels of nodes survive the field *)

Lemma labels_roundtrip (labels : dict string) : NoDup (map_keys labels) ->
  Forall (fun kv => has_char ":" kv.1 = false /\ has_char ":" kv.2 = false) labels ->
  labels_of (label_texts (Some labels)) = (fun kv => (kv.1, Some kv.2)) <$> labels.
Proof.
  unfold labels_of, label_texts. cbn [default from_option id]. intros Hn Hc.
  assert (Hg : forall acc, (forall k, k ∈ map_keys acc -> k ∉ map_keys labels) ->
    foldl (fun m l => map_set m (label_of l).1 (label_of l).2) acc ((fun kv => kv.1 +:+ ":" +:+ kv.2) <$> labels) =
    acc ++ ((fun kv => (kv.1, Some kv.2)) <$> labels)); [|by apply (Hg []); intros k []%not_elem_of_nil].
  induction labels as [|[k v] labels IH]; intros acc Hacc; [by rewrite app_nil_r|].
  cbn [fmap list_fmap foldl fst snd]. apply Forall_cons in Hc as [[Hk Hv] Hc]. cbn in Hn. apply NoDup_cons in Hn as [Hkn Hn].
  assert (label_of (k +:+ ":" +:+ v) = (k, Some v)) as ->.
  { unfold label_of. change (":" +:+ v) with (String ":" v). rewrite split_char_app by done. by rewrite split_char_none. }
  cbn [fst snd]. assert (map_set acc k (Some v) = acc ++ [(k, Some v)]) as ->.
  { assert (Hka : k ∉ map_keys acc) by (intros Hin; apply (Hacc k Hin); by left). clear -Hka.
    induction acc as [|[k' v'] acc IH]; [done|]. cbn in *. apply not_elem_of_cons in Hka as [Hne Hka].
    rewrite decide_False by congruence. by rewrite IH. }
  rewrite IH; [by rewrite <- (assoc_L (++))|done|done|].
  intros k' Hk'. unfold map_keys in Hk'. rewrite fmap_app, elem_of_app in Hk'. destruct Hk' as [Hin|Hin].
  - intros Hin'. apply (Hacc k' Hin). by right.
  - cbn in Hin. by apply list_elem_of_singleton in Hin as ->.
Qed.

(** ** A concrete page *)

Lemma one_terminal_shown_witness :
  let s := (onInputChange (demo_components ["web"; "db"]) ["web"; "db"]
    (initFromQuery (demo_components ["web"; "db"]) None None newLogStream)).1 in
  fst <$> List.filter (fun p => negb p.2) (tab_panels s) = ["web"] /\ length (tab_panels s) = 3.
Proof.
  intros s. assert (Hs : viewing s) by (apply viewing_pods, viewing_start; by intros r).
  split; [|reflexivity].
  destruct (one_terminal_shown s Hs) as [H _]; [vm_compute; repeat constructor; set_solver|vm_compute; set_solver|exact H].
Defined.

(** The labels of a node, chosen and taken back. *)
Example labels_chosen : labels_of (label_texts (Some [("zone", "a"); ("disk", "ssd")])) = [("zone", Some "a"); ("disk", Some "ssd")].
Proof. reflexivity. Qed.
