(* ===== verification/Panels.v ===== *)
(** The cards and panels: the tables of a component's facts (pages/Components/BasicInfo.tsx
    and BrifeInfo.tsx), the panels of the list of components, the card of an
    application ([widgets/ApplicationCard]), and the drawer of the tutorials
    (pages/Tutorial/index.tsx). *)

From S2P Require Import Prelude JsString JsNumber ResourceTypes ActionTypes UiReducers RootReducer Utils TutorialSteps ComponentForms Async Api Actions LogStream Sizes WorkloadViews Shell Navigation Charts.

(** ** The facts of a component *)

(** What a cell of the table shows.  A number of seconds and the size of a disk are
    left unprinted; a limit of memory is [None] where [toFixed] prints an exponent. *)
Record DiskRow := mkDiskRow { disk_kind : string; disk_pvc : string; disk_class : string; disk_path : string; disk_Gi : string + number }.
Inductive Fact :=
| NullFact
| TextFact (s : string)
| CopyFact (value : string)
| EnvFact (title : string) (expanded : bool) (rows : list (string * string))
| FilesFact (mountPaths : list string)
| PortsFact (ports : list (string * number) + string)
| DisksFact (title : string) (expanded : bool) (rows : list DiskRow)
| HealthFact (readiness liveness addProbes : option string)
| UsageFact (limit request : option string) (usage : MetricList)
| SecondsFact (n : number).

Section facts.
(** The printing of times. *)
Variable formatDate : Date -> string.
Variable formatTimeDistance : Date -> string.

(** The two tables have the same methods up to what stands for a missing value: a
    dash or a default in the full table, nothing in the brief one. *)
Variable brief : bool.
Definition missing (full : string) : Fact := if brief then NullFact else TextFact full.

Definition copiable_fact (value : option string) : Fact := from_option CopyFact (missing "-") (renderCopiableValue value).

Definition env_fact (component : ComponentLike) : Fact :=
  match some_items (comp_env component) with
  | None => missing "-"
  | Some envs => EnvFact (nat_to_string (length envs) +:+ " variables") (Nat.leb (length envs) 1)
                   ((fun e => (env_name e, env_value e)) <$> envs)
  end.

Definition files_fact (component : ComponentLike) : Fact :=
  from_option (fun configs => FilesFact (file_mountPath <$> configs)) (missing "-") (some_items (comp_preInjectedFiles component)).

Definition disks_fact (component : ComponentLike) : Fact :=
  match some_items (comp_volumes component) with
  | None => missing "-"
  | Some disks => DisksFact (disks_title disks) (negb brief)
      ((fun d => mkDiskRow (vol_type d) (vol_pvc d) (vol_storageClassName d) (vol_path d) (sizeStringToGi (vol_size d))) <$> disks)
  end.

Definition health_fact (ns : string) (component : ComponentLike) : Fact :=
  let '(readiness, liveness, add) := renderHealth ns component in HealthFact readiness liveness add.

Definition cpu_fact (c : ApplicationComponentDetails) : Fact :=
  let '(limit, request) := limit_texts id (comp_cpuLimit (cd_component c)) (comp_cpuRequest (cd_component c)) in
  UsageFact (Some limit) (Some request) (metrics_cpu (cd_metrics c)).

(** [`Limit: ${sizeStringToMi(limit)}Mi`], or that it is not set *)
Definition mi_text (label unset : string) (size : option string) : option string :=
  match truthy_text size with
  | None => Some unset
  | Some s => (fun n => label +:+ n +:+ "Mi") <$> sizeStringToMi s
  end.
Definition memory_fact (c : ApplicationComponentDetails) : Fact :=
  UsageFact (mi_text "Limit: " "Limit Not Set" (comp_memoryLimit (cd_component c)))
    (mi_text "Request: " "Request Not Set" (comp_memoryRequest (cd_component c))) (metrics_memory (cd_metrics c)).

Definition restart_fact (component : ComponentLike) : Fact :=
  from_option TextFact (missing "Rolling Update") (comp_restartStrategy component).
Definition termination_fact (component : ComponentLike) : Fact :=
  from_option SecondsFact (missing "30s") (comp_terminationGracePeriodSeconds component).

(** The rows that both tables have. *)
Definition shared_facts (ns : string) (c : ApplicationComponentDetails) : list (string * Fact) :=
  let component := cd_component c in
  [("Image", copiable_fact (Some (comp_image component))); ("Command", copiable_fact (comp_command component));
   ("Environment Variables", env_fact component); ("Configuration Files", files_fact component);
   ("Exposed Ports", PortsFact (renderPorts ns component)); ("Disks", disks_fact component);
   ("Health", health_fact ns component); ("CPU", cpu_fact c); ("Memory", memory_fact c);
   ("Restart Strategy", restart_fact component); ("Graceful Termination", termination_fact component)].
End facts.

Definition is_null (f : Fact) : bool := match f with NullFact => true | _ => false end.

(** [render] of both tables. *)
Definition basic_info (formatDate formatTimeDistance : Date -> string) (ns : string) (c : ApplicationComponentDetails) :
    list (string * Fact) :=
  [("Created At", TextFact (getComponentCreatedFromAndAtString formatDate formatTimeDistance c));
   ("Name", TextFact (comp_name (cd_component c))); ("Namespace", TextFact ns);
   ("Workload Type", from_option TextFact NullFact (comp_workloadType (cd_component c)));
   ("Pod Status", TextFact (Counts.brief_component_status c))] ++ shared_facts false ns c.
Definition brief_info (ns : string) (c : ApplicationComponentDetails) : list (string * Fact) :=
  List.filter (fun row => negb (is_null row.2)) (shared_facts true ns c).

(** What the component says of the rows that can be missing. *)
Definition stated (component : ComponentLike) (name : string) : bool :=
  let some {A} (o : option A) := match o with Some _ => true | None => false end in
  if seqb name "Image" then negb (seqb (comp_image component) "")
  else if seqb name "Command" then some (truthy_text (comp_command component))
  else if seqb name "Environment Variables" then some (some_items (comp_env component))
  else if seqb name "Configuration Files" then some (some_items (comp_preInjectedFiles component))
  else if seqb name "Disks" then some (some_items (comp_volumes component))
  else if seqb name "Restart Strategy" then some (comp_restartStrategy component)
  else if seqb name "Graceful Termination" then some (comp_terminationGracePeriodSeconds component)
  else true.
Definition folded (f : Fact) : Fact := match f with DisksFact title _ rows => DisksFact title false rows | _ => f end.

(** Two rows of the tables: the brief one is empty exactly when the component does not
    state it, and is the full one otherwise. *)
Definition row_agrees (component : ComponentLike) (b f : string * Fact) : Prop :=
  b.1 = f.1 /\ (if stated component f.1 then is_null b.2 = false /\ b.2 = folded f.2 else b.2 = NullFact).

Lemma rows_agree component bs fs : Forall2 (row_agrees component) bs fs ->
  List.filter (fun row => negb (is_null row.2)) bs =
    prod_map id folded <$> List.filter (fun row => stated component row.1) fs.
Proof.
  induction 1 as [|[n b] [m f] bs fs (Hn & Hrow) _ IH]; [done|]. cbn [fst snd List.filter] in *. subst m.
  destruct (stated component n).
  - destruct Hrow as (-> & ->). cbn. by rewrite IH.
  - by subst b.
Qed.

Lemma shared_facts_agree ns c : Forall2 (row_agrees (cd_component c)) (shared_facts true ns c) (shared_facts false ns c).
Proof.
  unfold shared_facts. cbv zeta. generalize (renderPorts ns (cd_component c)) as ps; intros ps.
  repeat first [apply Forall2_nil_2 | apply Forall2_cons; split];
    unfold row_agrees; cbn [fst snd]; (split; [reflexivity|]); unfold stated; cbn [seqb].
  - unfold copiable_fact, renderCopiableValue. by destruct (comp_image (cd_component c)).
  - unfold copiable_fact, renderCopiableValue. by destruct (truthy_text (comp_command (cd_component c))).
  - unfold env_fact. by destruct (some_items (comp_env (cd_component c))).
  - unfold files_fact. by destruct (some_items (comp_preInjectedFiles (cd_component c))).
  - done.
  - unfold disks_fact. by destruct (some_items (comp_volumes (cd_component c))).
  - unfold health_fact. by destruct (renderHealth ns (cd_component c)) as [[r l] a].
  - unfold cpu_fact. by destruct (limit_texts _ _ _).
  - done.
  - unfold restart_fact. by destruct (comp_restartStrategy (cd_component c)).
  - unfold termination_fact. by destruct (comp_terminationGracePeriodSeconds (cd_component c)).
Qed.

(** The brief table has the facts of the full one that the component states, with its
    disks folded, and no empty row. *)
Theorem brief_info_of_basic fd ft ns c :
  brief_info ns c =
    prod_map id folded <$> List.filter (fun row => stated (cd_component c) row.1) (drop 5 (basic_info fd ft ns c)).
Proof. apply rows_agree, shared_facts_agree. Qed.

(** ** Expansions ([forms/Route/expansion.tsx]) *)

(** The property [defaultUnfold] is read once, when the panel is made. *)
Definition new_expansion (defaultUnfold : option bool) : bool := default false defaultUnfold.
Definition expansion_onChange (isUnfolded : bool) : bool := negb isUnfolded.

(** ** The list of components *)

Record Link := mkLink { link_text : string; link_to : string }.

(** [getPodsNumber], the titles and [componentControls] of a panel, and its table of
    pods.  The request to delete is [None] where there is no button. *)
Section panels.
Context {R : Type}.
Variables K8sApiPrefix K8sApiVersion : string.
Abbreviation thunk := (Async R).

Record ComponentPanel := mkComponentPanel {
  panel_name : string; panel_pods : string; panel_workloadType : option string; panel_image : string;
  panel_links : list Link; panel_delete : option (thunk unit); panel_unfolded : bool; panel_table : list PodRow
}.
Definition component_page (application component : string) : string := "/applications/" +:+ application +:+ "/components/" +:+ component.
Definition component_panel (application : ApplicationDetails) (component : ApplicationComponentDetails)
    (canEdit : bool) (defaultUnfold : option bool) : ComponentPanel :=
  let name := comp_name (cd_component component) in
  let page := component_page (app_name application) name in
  mkComponentPanel name (Counts.getPodsNumber component) (comp_workloadType (cd_component component)) (comp_image (cd_component component))
    (mkLink "View Details" page :: (if canEdit then [mkLink "Edit" (page +:+ "/edit")] else []))
    (if canEdit then Some (deleteComponentAction K8sApiPrefix K8sApiVersion name (Some (app_name application))) else None)
    (new_expansion defaultUnfold) (pods_table canEdit (cd_pods component)).

(** The page: the button of its header, and the panels, or the button of the box for
    an application without components. *)
Context {H : UserAuth}.
Definition new_component_link (application : string) : Link := mkLink "Add Component" ("/applications/" +:+ application +:+ "/components/new").
Definition renderSecondHeaderRight (activeNamespaceName : string) : list Link :=
  if canEditNamespace activeNamespaceName then [new_component_link activeNamespaceName] else [].
Definition component_panels (activeNamespaceName : string) (activeNamespace : ApplicationDetails)
    (components : option (list ApplicationComponentDetails)) : list ComponentPanel + Link :=
  match components with
  | Some (c :: l) => inl (mapi (fun index component =>
      component_panel activeNamespace component (canEditNamespace (app_name activeNamespace)) (Some (Nat.eqb index 0))) (c :: l))
  | _ => inr (new_component_link activeNamespaceName)
  end.
End panels.

(** ** The card of an application ([widgets/ApplicationCard/index.tsx]) *)

Record Doughnut := mkDoughnut { doughnut_title : string; doughnut_labels_ : list string; doughnut_data : list nat }.
Record ApplicationCard := mkApplicationCard {
  card_avatar : string * string;
  card_title : Link;
  card_createdAt : string;
  card_doughnuts : list Doughnut;
  card_cpu : SmallChart * option string;
  card_memory : SmallChart * option string;
  card_routes : option string;
  card_details : Link;
  card_confirmDelete : option ApplicationDetails
}.

Section card.
Variable formatDate : Date -> string.
Variable light : bool.
Variable componentsMap : gmap string (list ApplicationComponentDetails).

Definition status_labels : list string := ["Running"; "Pending"; "Error"].
Definition card_doughnuts_of (components : list ApplicationComponentDetails) (routes : nat) : list Doughnut :=
  let d := Counts.card_getPieChartData components in
  let c := Counts.card_chart d in
  [mkDoughnut (pluralize "Component" (Z.of_nat (Counts.componentSize d))) status_labels
     [Counts.componentSuccess c; Counts.componentPending c; Counts.componentError c];
   mkDoughnut (pluralize "Pod" (Z.of_nat (Counts.podSize d))) status_labels
     [Counts.podSuccess c; Counts.podPending c; Counts.podError c];
   mkDoughnut (pluralize "Route" (Z.of_nat routes)) ["Running"] [routes]].

Definition card_access (routes : list HttpRoute) : option string :=
  if Nat.ltb 0 (length routes) then Some (pluralize "route" (Z.of_nat (length routes))) else None.

(** The chart of a metric, with the text for an application without pods. *)
Definition card_chart_of (border background : string) (components : list ApplicationComponentDetails) (data : MetricList) :
    SmallChart * option string :=
  (small_generateData light (Some border) (Some background) (Some data),
   small_tooltip (Some (if Counts.hasPods components then "" else "No data")) (Some data)).

Definition application_card (application : ApplicationDetails) (httpRoutes : list HttpRoute) (canEdit : bool) : ApplicationCard :=
  let name := app_name application in
  let components := componentsMap !! name in
  let page := "/applications/" +:+ name +:+ "/components" in
  mkApplicationCard (stringToColor name, charAt0 (map_chars to_upper_char name)) (mkLink name page)
    (from_option (getApplicationCreatedAtString formatDate) "-" components)
    (card_doughnuts_of (default [] components) (length httpRoutes))
    (card_chart_of "rgba(33, 150, 243, 1)" "rgba(33, 150, 243, 0.5)" (default [] components) (metrics_cpu (app_metrics application)))
    (card_chart_of "rgba(75,192,192, 1)" "rgba(75,192,192,0.5)" (default [] components) (metrics_memory (app_metrics application)))
    (card_access httpRoutes) (mkLink "Details" page) (if canEdit then Some application else None).
End card.

(** ** Who is offered what, and where it leads *)

Section offers.
Context {R : Type}.
Variables K8sApiPrefix K8sApiVersion : string.
Abbreviation panel_of := (component_panel (R := R) K8sApiPrefix K8sApiVersion).
Abbreviation panels_of := (component_panels (R := R) K8sApiPrefix K8sApiVersion).
Variable matches_path : string -> string -> bool.
Hypothesis exact_paths : forall pattern path, parts_match (parts pattern) (parts path) = true -> matches_path pattern path = true.
Abbreviation goes := (routed matches_path).

Lemma goes_new_component name : plain name = true -> goes (link_to (new_component_link name)).
Proof.
  intros Hn. change (goes (join "/" [""; "applications"; name; "components"; "new"])).
  apply (routed_join _ exact_paths _ "/applications/:applicationName/components/new"); [in_table|done|parts_ok|].
  by destruct name.
Qed.

(** What a panel offers a user who may not edit: to look. *)
Definition read_only (p : ComponentPanel (R := R)) : Prop :=
  panel_delete p = None /\ length (panel_links p) = 1 /\ Forall (fun r => prow_canEdit r = false) (panel_table p).

Lemma panel_goes application component canEdit unfold_ :
  plain (app_name application) = true -> plain (comp_name (cd_component component)) = true ->
  Forall (fun l => goes (link_to l)) (panel_links (panel_of application component canEdit unfold_)).
Proof.
  intros Ha Hc. destruct (goes_component _ exact_paths _ _ Ha Hc) as (Hd & He). unfold component_panel. cbn.
  destruct canEdit; repeat constructor; cbn; unfold component_page; try rewrite <- !sapp_assoc; done.
Qed.

Lemma panel_read_only application component unfold_ : read_only (panel_of application component false unfold_).
Proof. split; [done|]. split; [done|]. cbn. unfold pods_table. apply Forall_fmap. by apply Forall_true. Qed.

(** The list of an application's components has a panel for each component, in order,
    the first one open.  For names that are one part of an address every link leads to
    a page; a user who may not edit the application is offered nothing but to look. *)
Theorem panels_go (H : UserAuth) (application : ApplicationDetails) (components : list ApplicationComponentDetails)
    (panels : list ComponentPanel)
    (Hname : plain (app_name application) = true)
    (Hcomps : Forall (fun c => plain (comp_name (cd_component c)) = true) components)
    (Hlist : panels_of (app_name application) application (Some components) = inl panels) :
  panel_name <$> panels = (fun c => comp_name (cd_component c)) <$> components /\
  (forall i p, panels !! i = Some p -> panel_unfolded p = Nat.eqb i 0) /\
  Forall (fun p => Forall (fun l => goes (link_to l)) (panel_links p)) panels /\
  Forall (fun l => goes (link_to l)) (renderSecondHeaderRight (app_name application)) /\
  (canEditNamespace (app_name application) = false ->
   Forall read_only panels /\ renderSecondHeaderRight (app_name application) = []).
Proof.
  assert (Hl : panels = mapi (fun index component =>
    panel_of application component (canEditNamespace (app_name application)) (Some (Nat.eqb index 0))) components).
  { destruct components; [done|]. by injection Hlist as <-. }
  assert (Hat : forall i p, panels !! i = Some p -> exists c, components !! i = Some c /\
    p = panel_of application c (canEditNamespace (app_name application)) (Some (Nat.eqb i 0))).
  { intros i p Hp. subst panels. unfold mapi in Hp. rewrite lookup_mapi_from, fmap_Some in Hp. destruct Hp as (c & Hc & ->). by exists c. }
  split; [|split; [|split; [|split]]].
  - apply list_eq. intros i. rewrite Hl. unfold mapi. rewrite !list_lookup_fmap, lookup_mapi_from. by destruct (components !! i).
  - intros i p (c & _ & ->)%Hat. done.
  - apply Forall_lookup. intros i p (c & Hc & ->)%Hat. apply panel_goes; [done|]. by rewrite Forall_lookup in Hcomps; apply (Hcomps i).
  - unfold renderSecondHeaderRight. destruct (canEditNamespace (app_name application)); repeat constructor. by apply goes_new_component.
  - intros He. unfold renderSecondHeaderRight. rewrite He. split; [|done]. apply Forall_lookup. intros i p (c & Hc & ->)%Hat.
    rewrite He. apply panel_read_only.
Qed.

(** The box for an application without components offers to add one also to a user
    whom the header does not offer it. *)
Example empty_list_offers (application : ApplicationDetails) :
  let auth := {| canViewNamespace := fun _ => true; canEditNamespace := fun _ => false; canManageNamespace := fun _ => false;
                 canViewCluster := true; canEditCluster := false; canManageCluster := false |} in
  renderSecondHeaderRight (H := auth) "shop" = [] /\
  component_panels (R := R) (H := auth) K8sApiPrefix K8sApiVersion "shop" application (Some []) = inr (mkLink "Add Component" "/applications/shop/components/new").
Proof. done. Qed.
End offers.

Lemma panels_go_witness :
  let auth := {| canViewNamespace := fun _ => true; canEditNamespace := fun _ => false; canManageNamespace := fun _ => false;
                 canViewCluster := true; canEditCluster := false; canManageCluster := false |} in
  let shop := mkApplication "shop" None "Active" (mkMetrics false [] []) [] in
  let web := mkComponentDetails web_component (mkMetrics false [] []) [] [] (mkIstio None None None None None None None None) in
  read_only (component_panel (R := unit) "" "" shop web (canEditNamespace (UserAuth := auth) "shop") (Some true)).
Proof.
  intros auth shop web.
  destruct (panels_go "" "" (fun pattern path => parts_match (parts pattern) (parts path)) (fun _ _ H => H) auth shop [web]
    [component_panel (R := unit) "" "" shop web false (Some true)]) as (_ & _ & _ & _ & Hr);
    [vm_compute; reflexivity | by repeat constructor | reflexivity |].
  destruct (Hr eq_refl) as (Hp & _). by inversion Hp.
Defined.

(** ** The drawer of the tutorials (pages/Tutorial/index.tsx) *)

Section drawer.
Context {R : Type}.
Variable port : option string.

(** [tutorialConfigs]: groups of titles, each with the tutorial a click makes from the
    state of that moment; [None] is the loop of names that would not end. *)
Definition tutorialConfigs (state : RootState R) : list (string * list (string * option Tutorial)) :=
  [("Basic", [("Deploy an application", BasicApplicationCreationTutorialFactory "Deploy an application" state);
              ("Access your application", Some (AccessYourApplicationTutorialFactory "Access your application" port state))])].

(** [handleClick] of an item, [handleBack] and [handlerClose]: the actions dispatched. *)
Inductive DrawerEvent := ChooseTutorial (t : Tutorial) | BackToOptions | CloseDrawer.
Definition drawer_actions (e : DrawerEvent) : list Actions :=
  Tutorials <$> match e with
                | ChooseTutorial t => [SET_TUTORIAL_ACTION t]
                | BackToOptions => [RESET_TUTORIAL_ACTION]
                | CloseDrawer => [RESET_TUTORIAL_ACTION; CLOSE_TUTORIAL_DRAWER]
                end.

(** [render]: whether the drawer is open, whether it has the button that goes back,
    whether it shows the options, and whether it shows the tutorial. *)
Record DrawerView := mkDrawerView { view_open : bool; view_back : bool; view_options : bool; view_tutorial : bool }.
Definition drawer_view (s : TutorialState) : DrawerView :=
  let chosen := match tutorial s with Some _ => true | None => false end in
  mkDrawerView (drawerOpen s) chosen (negb chosen) chosen.

Variable call : FnRef -> Actions -> bool.
Variable initialState : TutorialState.
Definition tutorial_actions (actions : list Actions) (s : TutorialState * Storage) : result (TutorialState * Storage) :=
  forEachM (fun s action => tutorial_reducer call initialState s.1 s.2 action) actions s.

Lemma item_or_close st : item_or (<[DISABLE_TUTORIAL_AUTO_OPEN := "true"]> st) DISABLE_TUTORIAL_AUTO_OPEN "" = "true".
Proof. unfold item_or. by rewrite lookup_insert_eq. Qed.

(** The drawer does what its buttons say: a tutorial that is chosen is shown at its
    first step with nothing marked, going back shows the options, and closing does
    so in a closed drawer and is remembered.  None of them fails. *)
Theorem drawer_follows (s : TutorialState) (st : Storage) (e : DrawerEvent) (Hinitial : tutorial initialState = None) :
  exists s' st', tutorial_actions (drawer_actions e) (s, st) = Ok (s', st') /\
  match e with
  | ChooseTutorial t => drawer_view s' = mkDrawerView (drawerOpen s) true false true /\ tutorial s' = Some t /\
      currentStepIndex s' = 0%Z /\ tutorialStepStatus s' = tutorialStepStatus initialState /\ st' = st
  | BackToOptions => drawer_view s' = mkDrawerView (drawerOpen s) false true false /\ st' = st
  | CloseDrawer => drawer_view s' = mkDrawerView false false true false /\ drawerOpen (tutorial_initialState st') = false
  end.
Proof.
  destruct e; cbn; eexists _, _; (split; [reflexivity|]); unfold drawer_view; cbn; rewrite ?Hinitial; try done.
  split; [done|]. by rewrite item_or_close.
Qed.

(** Once it was closed, the drawer does not open by itself after a reload, whatever
    else the reducer has handled since. *)
Theorem drawer_stays_closed actions s st s' st' :
  tutorial_actions actions (s, st) = Ok (s', st') ->
  Tutorials CLOSE_TUTORIAL_DRAWER ∈ actions \/ drawerOpen (tutorial_initialState st) = false ->
  drawerOpen (tutorial_initialState st') = false.
Proof.
  revert s st. induction actions as [|a actions IH]; intros s st Hr Hc.
  { injection Hr as <- <-. by destruct Hc as [[]%not_elem_of_nil|]. }
  cbn in Hr. apply bind_Ok in Hr as ([s1 st1] & Ha & Hr). apply (IH s1 st1 Hr).
  assert (Hst : st1 = <[DISABLE_TUTORIAL_AUTO_OPEN := "true"]> st \/ a <> Tutorials CLOSE_TUTORIAL_DRAWER /\ st1 = st).
  { clear -Ha. cbn in Ha. unfold tutorial_reducer in Ha. repeat case_match; simplify_eq;
      try (by left); try (right; split; [done|]; by (done || (apply bind_Ok in Ha as (? & _ & [= _ <-])))). }
  destruct Hst as [-> | (Hne & ->)]; [right; cbn; by rewrite item_or_close|].
  rewrite elem_of_cons in Hc. destruct Hc as [[Heq|Hin]|Hclosed]; [by symmetry in Heq|by left|by right].
Qed.
End drawer.
