(* ===== verification/Forms.v ===== *)
(** The forms: which fields each of them renders for its values, what a field can be set
    to, and what its validator says of the value it has.  [forms/*/*.tsx].

    Formik is third-party.  What the forms rely on is the interface [Formik] with its law:
    the values go to [onSubmit] exactly when no rendered field and no check of the whole
    form has an error.  Helper texts are left out, but for the labels and placeholders
    that depend on the values. *)

From S2P Require Import Prelude JsString Regex JsNumber ResourceTypes Utils Validators FormChecks VolumesForm FilesEditor ComponentEditor Fields.

(** ** Fields and forms *)

Inductive Control :=
| TextInput (type : string)
| AmountInput (unit_ : string)
| CommandInput
| UploadInput
| SelectInput (options : list (string * string))
| ChooseOne (options : list KAutoCompleteOption)
| ChooseMany (options : list KAutoCompleteOption)
| ListInput
| CheckInput
| CheckGroup (options : list string)
| RadioGroup (options : list (string * string))
| SliderInput (min max step : Z)
| LabelsInput (labels : list string).

(** A rendered field; the options of a select and a radio are texts with their values. *)
Record FormField := mkField {
  field_name : string;
  field_label : string;
  field_placeholder : string;
  field_disabled : bool;
  field_control : Control;
  field_error : option ListErrors
}.

(** The fields rendered for the values, and the errors of [validate] and of the schema,
    by the names of the fields they belong to. *)
Record Form (V : Type) := mkForm { form_fields : V -> list FormField; form_errors : V -> list (string * string) }.
Arguments mkForm {V} _ _.
Arguments form_fields {V} _ _.
Arguments form_errors {V} _ _.

Class Formik := formik_submits : forall {V : Type}, Form V -> V -> bool.
Class FormikLaws `{Formik} := formik_law : forall (V : Type) (f : Form V) (v : V),
  formik_submits f v = true <-> Forall (fun d => field_error d = None) (form_fields f v) /\ form_errors f v = [].

(** [Field] with a validator of texts, with [ValidatorRequired], and without one. *)
Definition message (e : option string) : option ListErrors := ListMessage <$> e.
Definition text_field (name label placeholder : string) (disabled : bool) (error : option string) : FormField :=
  mkField name label placeholder disabled (TextInput "") (message error).
Definition required_text (name label placeholder value : string) : FormField :=
  text_field name label placeholder false (ValidatorRequired (FString value)).
Definition select_field (name label placeholder : string) (disabled : bool) (options : list (string * string)) (value : string) : FormField :=
  mkField name label placeholder disabled (SelectInput options) (message (ValidatorRequired (FString value))).
Definition free_field (name label placeholder : string) (control : Control) : FormField :=
  mkField name label placeholder false control None.

(** [`${name}.${index}.${key}`] *)
Definition row_name (name : string) (index : nat) (key : string) : string :=
  name +:+ "." +:+ nat_to_string index +:+ "." +:+ key.
Definition rows {A : Type} (f : nat -> A -> list FormField) (l : list A) : list FormField := concat (mapi f l).

(** ** Small forms *)

(** [forms/Registry/index.tsx] *)
Definition registry_form (isEdit : bool) : Form RegistryFormType := mkForm (fun v =>
  [ text_field "name" "Name" "" isEdit (ValidatorName (Some (regForm_name v)));
    required_text "username" "Username" "" (regForm_username v);
    mkField "password" "Password" "" false (TextInput "password") (message (ValidatorRequired (FString (regForm_password v))));
    text_field "host" "Host" "E.g. https://registry.kalm.dev" false (registry_validateHost (regForm_host v)) ])
  (fun _ => []).

(** [forms/Member/index.tsx] *)
Definition member_form (isClusterLevel : bool) : Form RoleBinding := mkForm (fun v =>
  [ select_field "subjectType" "Subject Type" "" false [("User", SubjectTypeUser); ("Group", SubjectTypeGroup)] (rb_subjectType v);
    required_text "subject" "Subject"
      (if seqb (rb_subjectType v) SubjectTypeUser then "e.g. user@example.com"
       else "e.g. <github-org-name>:<team-name> or <gitlab-group-name>") (rb_subject v);
    select_field "role" "Role" "Select a role" false (rolesOptions isClusterLevel) (rb_role v) ])
  (fun _ => []).

(** [forms/Application/index.tsx]; [tutorial_errors] are the rules of the tutorial. *)
Definition application_form (isEdit : bool) (tutorial_errors : Application -> list (string * string)) : Form Application := mkForm (fun v =>
  [ text_field "name" "App Name" "" isEdit (ValidatorName (Some (application_name v))) ])
  tutorial_errors.

(** [forms/Certificate/acmeForm.tsx] *)
Definition acme_form : Form AcmeServerFormType := mkForm (fun v =>
  [ required_text "acmeDomain" "ACME Domain" "Please type the a domain for ACME DNS server" (acmeForm_acmeDomain v);
    required_text "nsDomain" "NS Domain" "Please type the a domain as ACME Domain's CNAME record" (acmeForm_nsDomain v) ])
  (fun _ => []).

(** [forms/Certificate/issuerForm.tsx], which no page renders. *)
Definition issuer_form (isEdit : bool) : Form CertificateIssuerFormType := mkForm (fun v =>
  (if isEdit then [] else
    [ select_field "issuerType" "Issuer Type" "" false [("Cloudflare", cloudFlare); ("CA for test", caForTest)] (issuerForm_issuerType v);
      required_text "name" "Issuer name" "" (issuer_name (issuerForm_issuer v)) ]) ++
  (if seqb (issuerForm_issuerType v) cloudFlare then
    [ required_text "acmeCloudFlare.account" "Email" "" (from_option acme_account "" (issuer_acmeCloudFlare (issuerForm_issuer v)));
      required_text "acmeCloudFlare.secret" "Token Secret" "" (from_option acme_secret "" (issuer_acmeCloudFlare (issuerForm_issuer v))) ]
   else []))
  (fun _ => []).

(** The name and the domains of both forms of certificates. *)
Definition certificate_basics (isEdit : bool) (domains_label : string) (v : CertificateFormType) : list FormField :=
  let managed := seqb (form_managedType v) selfManaged in
  [ text_field "name" "Certificate name" "Please type a certificate name" isEdit None;
    mkField "domains" domains_label
      (if managed then "Extract domains information when you upload a certificate file" else "Please type domains") managed
      ListInput (ValidatorHosts (Some (cert_domains (form_certificate v)))) ].
Definition certificate_checks (v : CertificateFormType) : list (string * string) :=
  option_list (pair "selfManagedCertContent" <$> certificate_validate v).

(** [forms/Certificate/index.tsx] and [forms/Certificate/uploadForm.tsx] *)
Definition certificate_form (isEdit : bool) : Form CertificateFormType :=
  mkForm (certificate_basics isEdit "Domains") certificate_checks.
Definition renderSelfManagedFields : list FormField :=
  [ free_field "selfManagedCertContent" "Certificate file" "" UploadInput; free_field "selfManagedCertPrivateKey" "Private Key" "" UploadInput ].
Definition certificate_upload_form (isEdit : bool) : Form CertificateFormType := mkForm (fun v =>
  certificate_basics isEdit "" v ++ (if seqb (form_managedType v) selfManaged then renderSelfManagedFields else []))
  certificate_checks.

Definition scope_label (scope : string) : string :=
  if seqb scope DeployAccessTokenScopeCluster then "Cluster - Can update all components on this cluster"
  else if seqb scope DeployAccessTokenScopeNamespace
  then "Specific Applications - Can update all components in selected applications"
  else "Specific Components - Can only update selected components".

(** [forms/DeployAccessToken/index.tsx]: the schema has [RequireString], of yup. *)
Section token.
Variable RequireString : string -> option string.
Definition token_form (canEditCluster : bool) (applications : list ApplicationDetails)
    (allComponents : gmap string (list ApplicationComponentDetails)) : Form DeployAccessToken := mkForm (fun v =>
  [ required_text "memo" "Memo" "" (dat_memo v);
    free_field "scope" "Permission Scope" "" (RadioGroup ((fun s => (scope_label s, s)) <$> scope_options canEditCluster)) ] ++
  (if seqb (dat_scope v) DeployAccessTokenScopeNamespace
   then [ free_field "resources" "Applications" "Select an application" (ChooseMany (application_options applications)) ] else []) ++
  (if seqb (dat_scope v) DeployAccessTokenScopeComponent
   then [ free_field "resources" "Component" "Select a component" (ChooseMany (resource_options applications allComponents)) ] else []))
  (fun v => option_list (pair "memo" <$> RequireString (dat_memo v))).
End token.

(** [forms/ProtectedEndpoint/index.tsx] *)
Definition endpoint_form (initial : ProtectedEndpoint) (applications : list ApplicationDetails)
    (allComponents : gmap string (list ApplicationComponentDetails)) : Form ProtectedEndpoint := mkForm (fun v =>
  let isEdit := endpoint_isEdit initial in
  let same s := (s, s) : string * string in
  let no_namespace := seqb (endpoint_namespace v) "" in
  let no_component := seqb (endpoint_endpointName v) "" in
  [ select_field "namespace" "Application" "" isEdit ((fun a => same (app_name a)) <$> applications) (endpoint_namespace v);
    select_field "endpointName" (if no_namespace then "Please select an Application first" else "Choose a component") ""
      (isEdit || no_namespace) (same <$> endpoint_components allComponents (endpoint_namespace v)) (endpoint_endpointName v);
    mkField "ports" "Ports" (if no_component then "Please select a Component first" else "Select a port") no_component ListInput
      (ElementMessages <$> Validators.validatePorts (endpoint_ports v));
    free_field "groups" "Grant to specific groups" "e.g. my-github-org:a-team-name. a-gitlab-group-name" ListInput ])
  (fun _ => []).

(** ** Single sign-on ([forms/SSOConfig/]) *)

Definition renderOrganizations (name : string) (orgs : list GithubOrg) : list FormField :=
  rows (fun index org =>
    [ required_text (row_name name index "name") "Organization Name" "Please type a organization name" (org_name org);
      free_field (row_name name index "teams") "Teams" "Please type a team name" ListInput ]) orgs.

Definition RenderGithubConnector (fieldName name : string) (config : GithubConfig) : list FormField :=
  [ required_text (fieldName +:+ ".name") "Name" "Give a name of this connector" name;
    required_text (fieldName +:+ ".config.clientID") "Client ID" "Oauth Client ID" (github_clientID config);
    required_text (fieldName +:+ ".config.clientSecret") "Client Secret" "Oauth Client Secret" (github_clientSecret config) ] ++
  renderOrganizations (fieldName +:+ ".config.orgs") (github_orgs config).

Definition RenderGitlabConnector (fieldName name : string) (config : GitlabConfig) : list FormField :=
  [ required_text (fieldName +:+ ".name") "Name" "Give a name of this connector" name;
    required_text (fieldName +:+ ".config.baseURL") "Gitlab Base URL" "Please type Gitlab Base URL" (gitlab_baseURL config);
    required_text (fieldName +:+ ".config.clientID") "Client ID" "Oauth Client ID" (gitlab_clientID config);
    required_text (fieldName +:+ ".config.clientSecret") "Client Secret" "Oauth Client Secret" (gitlab_clientSecret config);
    mkField (fieldName +:+ ".config.groups") "Groups" "Please type a group name" false ListInput
      (message (ValidatorRequired (FArray (FString <$> gitlab_groups config)))) ].

Definition render_connector (index : nat) (connector : SSOConnector) : list FormField :=
  let field := "connectors." +:+ nat_to_string index in
  match connector with
  | SSOGithubConnector _ name config => RenderGithubConnector field name config
  | SSOGitlabConnector _ name config => RenderGitlabConnector field name config
  end.

Definition sso_form (tutorial_errors : SSOConfig -> list (string * string)) : Form SSOConfig := mkForm (fun v =>
  text_field "domain" "Domain" "Please type a domain for your Single Sign-on configuration" false (ValidateHost (Some (sso_domain v))) ::
  rows render_connector (default [] (sso_connectors v)))
  tutorial_errors.

(** The alerts about empty lists are shown, but no validator stands behind them. *)
Definition connectors_alert (v : SSOConfig) : option string :=
  match sso_connectors v with Some [] => Some "You should at least configure one connector." | _ => None end.
Definition organizations_alert (orgs : list GithubOrg) : option string :=
  match orgs with [] => Some "You should at least configure one organization." | _ => None end.

(** ** Routes ([forms/Route/]) *)

Definition destination_fields (options : list KAutoCompleteOption) (destinations : list HttpRouteDestination) : list FormField :=
  rows (fun index destination =>
    mkField (row_name "destinations" index "host") "Choose a target" "" false (ChooseOne options)
      (message (ValidatorRequired (FString (dest_host destination)))) ::
    (if Nat.ltb 1 (length destinations)
     then [ free_field (row_name "destinations" index "weight") "Weight" "" (SliderInput 0 10 1) ] else [])) destinations.
Definition destinations_alert (touched : bool) (destinations : list HttpRouteDestination) : option string :=
  match destinations with [] => if touched then Some "You should at least configure one Targets." else None | _ => None end.

Definition condition_fields (conditions : list HttpRouteCondition) : list FormField :=
  rows (fun index condition =>
    [ required_text (row_name "conditions" index "name") "Name" "" (rc_name condition);
      select_field (row_name "conditions" index "operator") "operator" "" false
        [("Equal", "equal"); ("With Prifix", "withPrifix"); ("Match Regexp", "matchRegexp")] (rc_operator condition);
      required_text (row_name "conditions" index "value") "Value" "" (rc_value condition) ]) conditions.

Definition methodsModeSpecific_ (v : HttpRoute) : bool := bool_decide (route_methodsMode v = Some methodsModeSpecific).

Definition route_form (options : list KAutoCompleteOption) (tutorial_errors : HttpRoute -> list (string * string)) : Form HttpRoute := mkForm (fun v =>
  [ mkField "hosts" "Hosts" "e.g. www.example.com" false ListInput (ValidatorIpAndHosts (Some (route_hosts v)));
    mkField "paths" "Path Prefixes" "e.g. /some/path/to/app" false ListInput (KValidatorPaths (Some (route_paths v)));
    free_field "stripPath" "Strip Path Prefix from request" "" CheckInput;
    free_field "methodsMode" "Http Methods" ""
      (RadioGroup [("All http methods are allowed in this route.", methodsModeAll); ("Choose allowed methods manually.", methodsModeSpecific)]);
    mkField "methods" "" "" false (CheckGroup httpMethods)
      (if methodsModeSpecific_ v then message (ValidatorArrayNotEmpty (Some (route_methods v))) else None);
    mkField "schemes" "Allow traffic through" "" false (CheckGroup ["http"; "https"]) (message (ValidatorArrayNotEmpty (Some (route_schemes v))));
    free_field "httpRedirectToHttps" "Redirect all http request to https with 301 status code." "" CheckInput ] ++
  destination_fields options (route_destinations v) ++ condition_fields (default [] (route_conditions v)))
  tutorial_errors.

(** ** Components ([forms/ComponentLike/]) *)

(** A number of the form: what is not set is [NaN] in the records. *)
Definition number_value (n : number) : FormValue := if isNaN n then FUndefined else FInt (number_to_Z n).
Definition port_ref_value (p : PortRef) : FormValue := match p with PortNumber n => number_value n | PortName s => FString s end.

Definition scale_fields (v : ComponentLike) : list FormField :=
  match renderReplicasOrSchedule (default "" (comp_workloadType v)) with
  | Some ReplicasField => [mkField "replicas" "Replicas" "" false (TextInput "number") (message (ValidatorRequired (number_value (comp_replicas v))))]
  | Some ScheduleField => [text_field "schedule" "Cronjob Schedule" "* * * * *" false (ValidatorSchedule (comp_schedule v))]
  | None => []
  end.

Definition main_fields (initialName : string) (v : ComponentLike) : list FormField :=
  let isEdit := negb (seqb initialName "") in
  [ text_field "name" "Name" "" isEdit (nameValidators (Some (comp_name v)));
    required_text "image" "Image" "e.g. nginx:latest" (comp_image v);
    select_field "workloadType" "Type" "" (isEdit || Nat.ltb 0 (length (default [] (comp_volumes v))))
      [("Service Component", workloadTypeServer); ("CronJob", workloadTypeCronjob); ("DaemonSet", workloadTypeDaemonSet);
       ("StatefulSet", workloadTypeStatefulSet)] (default "" (comp_workloadType v)) ] ++
  scale_fields v.

Definition env_fields (env : list ComponentLikeEnv) : list FormField :=
  rows (fun index e =>
    [ text_field (row_name "env" index "name") "Name" "" false (env_name_error (env_name e));
      required_text (row_name "env" index "value") "Value" "" (env_value e) ]) env.

(** The rows of the saved files, and the dialog's fields for the file it edits. *)
Definition file_fields (editingFileIndex : option nat) (files : list PreInjectedFile) : list FormField :=
  match editingFileIndex with
  | None => []
  | Some i =>
      [ text_field (row_name "preInjectedFiles" i "mountPathTmp") "Mount Path" "" false (validateMountPath (files !! i ≫= file_mountPathTmp));
        free_field (row_name "preInjectedFiles" i "readonly") "Read Only" "" CheckInput ]
  end ++
  rows (fun index file =>
    if shown_file file
    then [ text_field (row_name "preInjectedFiles" index "mountPath") "Mount Path" "" true (ValidatorRequired (FString (file_mountPath file))) ]
    else []) files.

Definition port_fields (ports : list ComponentLikePort) : list FormField :=
  rows (fun index port =>
    [ select_field (row_name "ports" index "protocol") "Protocol" "" false ((fun p => (p, p)) <$> port_protocols) (port_protocol port);
      text_field (row_name "ports" index "containerPort") "Container port" "1~65535,not 443" false
        (ValidatorContainerPortRequired (number_value (containerPort port)));
      text_field (row_name "ports" index "servicePort") "Service Port" "Default to equal publish port" false
        (ValidatorPort (number_value (servicePort port))) ]) ports.

Definition size_field (index : nat) (disk : Volume) : FormField :=
  mkField (row_name "volumes" index "size") "Size" "" false (AmountInput "Gi") (message (ValidatorVolumeSize (Some (vol_size disk)))).
(** The texts of the types of volumes, as [getTypeOptions] names them. *)
Definition type_text (type : string) : string :=
  if seqb type VolumeTypePersistentVolumeClaimNew then "Create and mount disk"
  else if seqb type VolumeTypePersistentVolumeClaim then "Mount an existing disk"
  else if seqb type VolumeTypeHostPath then "Mount a hostPath disk"
  else if seqb type VolumeTypePersistentVolumeClaimTemplate then "Mount an existing disk group"
  else if seqb type VolumeTypePersistentVolumeClaimTemplateNew then "Create and mount disk group"
  else if seqb type VolumeTypeTemporaryDisk then "Mount a temporary disk" else "Mount a temporary memory disk".
Definition disk_fields (p : VolumesProps) (s : VolumesForm) (index : nat) (disk : Volume) : list FormField :=
  let same x := (x, x) : string * string in
  [ select_field (row_name "volumes" index "type") "Type" "Select a volume type" (shouldDisabledStatefulSetPvcTemplate p (vol_type disk))
      ((fun t => (type_text t, t)) <$> getTypeOptions p s (vol_type disk)) (vol_type disk);
    required_text (row_name "volumes" index "path") "Mount Path" "" (vol_path disk) ] ++
  match getFieldComponents p s disk with
  | ClaimField options disabled _ _ =>
      [mkField (row_name "volumes" index "claimName") "Claim Name" "Select a Claim Name" disabled (SelectInput (same <$> options)) None]
  | NewClaimField classes =>
      [ free_field (row_name "volumes" index "storageClassName") "Storage Class" "Select the type of your disk" (SelectInput (same <$> classes));
        size_field index disk ]
  | HostPathField => [required_text (row_name "volumes" index "hostPath") "Host Path" "" (default "" (vol_hostPath disk))]
  | SizeField => [size_field index disk]
  end.

(** [/^https?$/i] *)
Definition scheme_regex : regex :=
  RSeqs (((fun c => RChar (fun d => bool_decide (to_lower_char d = c))) <$> ["h"; "t"; "t"; "p"]%char) ++
         [ROpt (RChar (fun d => bool_decide (to_lower_char d = "s"%char)))]).
Definition ValidatorScheme : option string -> option string := ValidatorOneof [OneofRegex scheme_regex "/^https?$/i"].

Definition number_field (name placeholder : string) : FormField := free_field name "" placeholder (TextInput "number").
Definition probe_text (name placeholder : string) (error : option string) : FormField := text_field name "" placeholder false error.

(** [render] of [RenderProbe]: the fields of the probe's type, then the common ones. *)
Definition renderHttpGet (name : string) (h : ProbeHttpGet) : list FormField :=
  [ number_field (name +:+ ".initialDelaySeconds") "10";
    mkField (name +:+ ".httpGet.scheme") "" "http" false (SelectInput [("http", "HTTP"); ("https", "HTTPS")]) (message (ValidatorScheme (httpGet_scheme h)));
    probe_text (name +:+ ".httpGet.host") "0.0.0.0" (ValidateHost (httpGet_host h));
    probe_text (name +:+ ".httpGet.port") "8080" (ValidatorRequired (port_ref_value (httpGet_port h)));
    probe_text (name +:+ ".httpGet.path") "/healthy" (ValidatorRequired (from_option FString FUndefined (httpGet_path h)));
    number_field (name +:+ ".periodSeconds") "10" ].
Definition renderExec (name : string) (command : option (list string)) : list FormField :=
  [ number_field (name +:+ ".initialDelaySeconds") "10";
    probe_text (name +:+ ".exec.command[0]") "command" (ValidatorRequired (from_option FString FUndefined (default [] command !! 0)));
    number_field (name +:+ ".periodSeconds") "10" ].
Definition renderTcpSocket (name : string) (t : ProbeTcpSocket) : list FormField :=
  [ number_field (name +:+ ".initialDelaySeconds") "10";
    probe_text (name +:+ ".tcpSocket.host") "0.0.0.0" None;
    probe_text (name +:+ ".tcpSocket.port") "8080" (ValidatorRequired (port_ref_value (tcp_port t)));
    number_field (name +:+ ".periodSeconds") "10" ].
Definition renderCommon (name : string) : list FormField :=
  number_field (name +:+ ".timeoutSeconds") "1" ::
  (if seqb name "livenessProbe" then [] else [number_field (name +:+ ".successThreshold") "1"]) ++
  [number_field (name +:+ ".failureThreshold") "3"].
Definition probe_fields (name : string) (probe : option Probe) : list FormField :=
  match probe with
  | None => []
  | Some p =>
      match probe_httpGet p, probe_exec p, probe_tcpSocket p with
      | Some h, _, _ => renderHttpGet name h ++ renderCommon name
      | None, Some command, _ => renderExec name command ++ renderCommon name
      | None, None, Some t => renderTcpSocket name t ++ renderCommon name
      | None, None, None => []
      end
  end.

(** [renderScheduling] and [renderUpgradePolicy] *)
Definition scheduling_fields (nodeLabels : list string) (v : ComponentLike) : list FormField :=
  let cpu name label value := mkField name label "e.g. 100" false (AmountInput "m") (message (ValidatorCPU (CpuText <$> value))) in
  let memory name label value := mkField name label "e.g. 256" false (AmountInput "Mi") (message (ValidatorMemory value)) in
  [ cpu "cpuLimit" "CPU Limit" (comp_cpuLimit v); memory "memoryLimit" "Memory Limit" (comp_memoryLimit v);
    cpu "cpuRequest" "CPU Request" (comp_cpuRequest v); memory "memoryRequest" "Memory Request" (comp_memoryRequest v);
    free_field "nodeSelectorLabels" "" "" (LabelsInput nodeLabels);
    free_field "preferNotCoLocated" "Schedule replicas to different nodes when possible. (Recommended for high availablity)" "" CheckInput ].
Definition upgrade_fields : list FormField :=
  [ free_field "restartStrategy" "" "" (RadioGroup [("Rolling Update - Replace pods one by one, resulting in zero downtime.", "RollingUpdate");
      ("Recreate - All old pods are stopped and replaced at once, resulting in some downtime. Useful if an application cannot support multiple versions running at the same time.", "Recreate")]);
    free_field "terminationGracePeriodSeconds" "Termination Grace Period (seconds)" "e.g. 60" (TextInput "") ].

(** [ComponentAccess]: without a domain for the single sign-on, or while its
    configuration is first loaded, there are no fields.  The ports are numbers since
    they were typed, and texts in the records. *)
Definition access_fields (isSSOConfigLoading isSSOConfigLoaded : bool) (ssoConfig : option SSOConfig) (v : ComponentLike) : list FormField :=
  if isSSOConfigLoading && negb isSSOConfigLoaded then []
  else if seqb (from_option sso_domain "" ssoConfig) "" then []
  else
    [ mkField "protectedEndpoint.ports" "Ports" "Select a port" false ListInput
        (ElementMessages <$> Validators.validatePorts
           (List.map (fun t => from_option num NaN (parseInt t)) <$> (comp_protectedEndpoint v ≫= protected_ports)));
      free_field "protectedEndpoint.groups" "Grant to specific groups" "e.g. my-github-org:a-team-name. a-gitlab-group-name" ListInput ].

(** What the form reads besides its values. *)
Record ComponentFormProps := mkComponentFormProps {
  cfp_volumes : VolumesProps;
  cfp_nodeLabels : list string;
  cfp_editingFile : option nat;
  cfp_sso : bool * bool * option SSOConfig
}.

(** The panels of the tabs are all rendered, and hidden but for the current one. *)
Definition component_fields (p : ComponentFormProps) (v : ComponentLike) : list FormField :=
  let disks := default [] (comp_volumes v) in
  main_fields (vp_initialName (cfp_volumes p)) v ++
  free_field "command" "Command" "e.g. /bin/sh -c 'echo hello; sleep 600'" CommandInput ::
  env_fields (default [] (comp_env v)) ++
  file_fields (cfp_editingFile p) (default [] (comp_preInjectedFiles v)) ++
  port_fields (default [] (comp_ports v)) ++
  rows (disk_fields (cfp_volumes p) (mkVolumesForm (comp_name v) (default "" (comp_workloadType v)) disks)) disks ++
  probe_fields "readinessProbe" (comp_readinessProbe v) ++ probe_fields "livenessProbe" (comp_livenessProbe v) ++
  scheduling_fields (cfp_nodeLabels p) v ++ upgrade_fields ++
  access_fields (cfp_sso p).1.1 (cfp_sso p).1.2 (cfp_sso p).2 v.

(** The schema: [env: array().of(object().unique("name", ...))]. *)
Definition env_errors (env : list ComponentLikeEnv) : list (string * string) :=
  omap (fun i => if unique_test (env_name <$> env) i then None
                 else Some (row_name "env" i "name", "Env names should be unique.")) (seq 0 (length env)).
Definition component_errors (tutorial_errors : gmap string string) (v : ComponentLike) : list (string * string) :=
  map_to_list (component_form_errors (comp_ports v) tutorial_errors) ++ env_errors (default [] (comp_env v)).

Definition component_form (p : ComponentFormProps) (tutorial_errors : ComponentLike -> gmap string string) : Form ComponentLike :=
  mkForm (component_fields p) (fun v => component_errors (tutorial_errors v) v).
