(* ===== verification/FormFacts.v ===== *)
(** What the forms accept: for each form, the values formik hands to its handler, and
    that every field is registered under a name of its own. *)

From Corelib Require Import Floats.SpecFloat.
From S2P Require Import Prelude JsString Regex JsNumber ResourceTypes Utils Validators ValidatorFacts FormChecks VolumesForm FilesEditor ComponentEditor Sizes Fields Terminals Forms.

(** ** Validators of single values *)

Lemma message_None e : message e = None <-> e = None.
Proof. by destruct e. Qed.

Lemma required_string s : ValidatorRequired (FString s) = None <-> s <> "".
Proof. by destruct s. Qed.

Lemma required_number n : ValidatorRequired (number_value n) = None <-> isNaN n = false.
Proof. unfold number_value. destruct (isNaN n); [done|]. by destruct (number_to_Z n). Qed.

Lemma required_optional s : ValidatorRequired (from_option FString FUndefined s) = None <-> exists t, s = Some t /\ t <> "".
Proof.
  destruct s as [s|]; cbn [from_option]; [rewrite required_string|].
  - split; [intros; by exists s|]. by intros (t & [= ->] & H).
  - split; [done|]. by intros (t & ? & _).
Qed.

Lemma required_array {A : Type} (f : A -> FormValue) (l : list A) : ValidatorRequired (FArray (f <$> l)) = None <-> l <> [].
Proof. by destruct l. Qed.

Lemma container_port n : ValidatorContainerPortRequired (number_value n) = None <->
  isNaN n = false /\ number_to_Z n <> 0%Z /\ number_to_Z n <> 443%Z.
Proof.
  unfold ValidatorContainerPortRequired, number_value. destruct (isNaN n); [split; [done|by intros (? & _)]|].
  cbn [value_to_string]. rewrite parseInt_int_to_string. destruct (bool_decide_reflect (Some (number_to_Z n) = Some 443%Z)) as [E|E].
  - split; [done|]. intros (_ & _ & H). congruence.
  - cbn [truthy_value]. destruct (Z.eqb_spec (number_to_Z n) 0) as [E0|E0]; cbn [negb]; split; try done.
    + by intros (_ & H & _).
    + intros _. split_and!; [done|done|]. intros H. by rewrite H in E.
Qed.

Lemma service_port n : ValidatorPort (number_value n) = None <-> isNaN n = true \/ number_to_Z n <> 443%Z.
Proof.
  unfold ValidatorPort, number_value. destruct (isNaN n); [split; [by left|done]|].
  cbn [value_to_string]. rewrite parseInt_int_to_string. destruct (bool_decide_reflect (Some (number_to_Z n) = Some 443%Z)) as [E|E].
  - split; [done|]. intros [?|H]; [done|congruence].
  - split; [intros _; right; congruence|done].
Qed.

Lemma volume_size_ok s : ValidatorVolumeSize (Some s) = None <-> in_lang volume_size s /\ s <> "0Gi".
Proof.
  rewrite <- matches_spec. destruct (decide (s = "")) as [->|Hne]; [by split; [|intros []]|].
  destruct (decide (s = "Gi")) as [->|Hgi]; [by split; [|intros []; vm_compute in *]|].
  assert (Hv : ValidatorVolumeSize (Some s) = if negb (matches volume_size s) || seqb s "0Gi" then Some "Invalid Value" else None).
  { unfold ValidatorVolumeSize. rewrite (proj2 (seqb_false s "Gi") Hgi). by destruct s. }
  rewrite Hv. destruct (matches volume_size s); cbn [negb orb]; [|by split; [|intros []]].
  destruct (seqb s "0Gi") eqn:E; [apply seqb_true in E|apply seqb_false in E]; naive_solver.
Qed.

Lemma some_errors_None (errors : list (option string)) : Forall (fun e => e <> Some "") errors ->
  some_errors errors = None <-> Forall (fun e => e = None) errors.
Proof.
  intros Hne. unfold some_errors. set (g := fun x : option string => match x with Some m => negb (seqb m "") | None => false end).
  assert (Hf : List.filter g errors = [] <-> Forall (fun e => e = None) errors).
  { induction Hne as [|e l He _ IH]; [by split|]. cbn [List.filter]. rewrite Forall_cons, <- IH. destruct e as [m|]; cbn [g].
    - assert (Hm : seqb m "" = false) by (apply seqb_false; congruence). rewrite Hm. cbn. by split; [|intros (? & _)].
    - split; [done|by intros (_ & ?)]. }
  rewrite <- Hf. destruct (List.filter g errors); cbn; by split.
Qed.

Lemma list_errors_None f l : (forall x, f x <> Some "") -> list_errors f (Some l) = None <-> l <> [] /\ Forall (fun x => f x = None) l.
Proof.
  intros Hf. destruct l as [|x l]; [by split; [|intros [? _]]|].
  assert (Hs : some_errors (f <$> x :: l) = None <-> Forall (fun x => f x = None) (x :: l)).
  { rewrite some_errors_None by (apply Forall_fmap, Forall_true; intros; apply Hf). by rewrite Forall_fmap. }
  unfold list_errors. rewrite <- Hs. destruct (some_errors (f <$> x :: l)); [by split; [|intros (_ & ?)]|]. by split.
Qed.

(** A host of a route: anything, an address, or a domain. *)
Definition host_ok (h : string) : Prop :=
  h = "*" \/ ((matches regExpIp h = true \/ domain_name h) /\ String.length h <= 511).

Lemma hosts_ok l : ValidatorIpAndHosts (Some l) = None <-> l <> [] /\ Forall host_ok l.
Proof.
  unfold ValidatorIpAndHosts. rewrite list_errors_None.
  - assert (Hh : forall h, (if seqb h "*" then None else validateHostWithWildcardPrefix h) = None <-> host_ok h).
    { intros h. unfold host_ok. destruct (seqb h "*") eqn:E; [apply seqb_true in E; by split; [left|]|apply seqb_false in E].
      rewrite <- wildcard_domain_spec, <- matches_spec. unfold validateHostWithWildcardPrefix.
      destruct h as [|c h]; [split; [done|]; intros [?|[[H|H] _]]; [done|by vm_compute in H..]|]. cbn [String.length Nat.eqb orb].
      destruct (Nat.ltb_spec 511 (S (String.length h))) as [Hl|Hl]; [split; [done|]; intros [?|[_ ?]]; [done|lia]|].
      destruct (matches regExpIp (String c h)); cbn [negb andb]; [split; [right; split; [by left|lia]|done]|].
      destruct (matches regExpWildcardDomain (String c h)); cbn [negb]; [split; [right; split; [by right|lia]|done]|].
      split; [done|]. by intros [?|[[?|?] _]]. }
    by setoid_rewrite Hh.
  - intros h. destruct (seqb h "*"); [done|]. unfold validateHostWithWildcardPrefix. by repeat case_match.
Qed.

Lemma paths_ok l : KValidatorPaths (Some l) = None <-> l <> [] /\ Forall (fun p => startsWith "/" p = true) l.
Proof.
  unfold KValidatorPaths. rewrite list_errors_None; [|intros p; by destruct (startsWith "/" p)].
  assert (Hp : forall p, (if startsWith "/" p then None else Some ("path should start with a " +:+ quoted "/")) = None <-> startsWith "/" p = true)
    by (intros p; by destruct (startsWith "/" p)).
  by setoid_rewrite Hp.
Qed.

Lemma array_not_empty {A : Type} (l : list A) : ValidatorArrayNotEmpty (Some l) = None <-> l <> [].
Proof. by destruct l. Qed.

(** ** Fields *)

Definition accepted (d : FormField) : Prop := field_error d = None.

Lemma text_field_ok name label placeholder disabled e : accepted (text_field name label placeholder disabled e) <-> e = None.
Proof. apply message_None. Qed.
Lemma required_text_ok name label placeholder s : accepted (required_text name label placeholder s) <-> s <> "".
Proof. unfold required_text. by rewrite text_field_ok, required_string. Qed.
Lemma select_field_ok name label placeholder disabled options s :
  accepted (select_field name label placeholder disabled options s) <-> s <> "".
Proof. unfold accepted, select_field. cbn [field_error]. by rewrite message_None, required_string. Qed.
Lemma free_field_ok name label placeholder control : accepted (free_field name label placeholder control) <-> True.
Proof. by split. Qed.
Lemma field_ok name label placeholder disabled control e :
  accepted (mkField name label placeholder disabled control (message e)) <-> e = None.
Proof. apply message_None. Qed.

Lemma Forall_rows {A : Type} (P : FormField -> Prop) (f : nat -> A -> list FormField) l :
  Forall P (rows f l) <-> forall i x, l !! i = Some x -> Forall P (f i x).
Proof.
  unfold rows. rewrite Forall_concat, Forall_lookup. unfold mapi. setoid_rewrite lookup_mapi_from. split.
  - intros H i x Hx. apply (H i). by rewrite Hx.
  - intros H i fs Hi. apply fmap_Some in Hi as (x & Hx & ->). by apply H.
Qed.

(** Rows whose fields are judged by the element alone. *)
Lemma accepted_rows {A : Type} (f : nat -> A -> list FormField) (P : A -> Prop) l :
  (forall i x, Forall accepted (f i x) <-> P x) -> Forall accepted (rows f l) <-> Forall P l.
Proof.
  intros Hf. rewrite Forall_rows, Forall_lookup. by setoid_rewrite Hf.
Qed.

(** Turns what a list of fields says into what its validators say. *)
Ltac fields_spec :=
  repeat first [rewrite Forall_app | rewrite Forall_cons | rewrite Forall_nil | rewrite text_field_ok | rewrite required_text_ok
               | rewrite select_field_ok | rewrite free_field_ok | rewrite field_ok].

(** ** Routes *)

Definition condition_ok (c : HttpRouteCondition) : Prop := rc_name c <> "" /\ rc_operator c <> "" /\ rc_value c <> "".

Lemma destinations_ok options l :
  Forall accepted (destination_fields options l) <-> Forall (fun d => dest_host d <> "") l.
Proof.
  unfold destination_fields. apply accepted_rows. intros i d. rewrite Forall_cons, field_ok, required_string.
  destruct (Nat.ltb 1 (length l)); fields_spec; naive_solver.
Qed.

Lemma conditions_ok l : Forall accepted (condition_fields l) <-> Forall condition_ok l.
Proof. unfold condition_fields. apply accepted_rows. intros i c. fields_spec. unfold condition_ok. naive_solver. Qed.

Lemma endpoint_ports_ok ports : Validators.validatePorts ports = None <-> Forall (fun n => Validators.port_error n = None) (default [] ports).
Proof.
  destruct ports as [[|n l]|]; cbn [default]; [by split|..|by split]. unfold Validators.validatePorts.
  rewrite some_errors_None; [by rewrite Forall_fmap|]. apply Forall_fmap, Forall_true. intros m. unfold compose, Validators.port_error. by repeat case_match.
Qed.

(** ** Components *)

(** The name of a variable: a letter, a dash, a dot or an underscore, then digits too. *)
Definition env_ok (e : ComponentLikeEnv) : Prop := in_lang env_name_regex (env_name e) /\ env_value e <> "".

Lemma env_name_ok s : env_name_error s = None <-> in_lang env_name_regex s.
Proof.
  rewrite <- matches_spec. unfold env_name_error, ValidatorEnvName. destruct s as [|c s]; [by vm_compute|]. cbn [ValidatorRequired].
  by destruct (matches env_name_regex (String c s)).
Qed.

Lemma envs_ok l : Forall accepted (env_fields l) <-> Forall env_ok l.
Proof. unfold env_fields. apply accepted_rows. intros i e. fields_spec. rewrite env_name_ok. unfold env_ok. naive_solver. Qed.

Lemma env_errors_ok l : env_errors l = [] <-> NoDup (filter (fun n => n <> "") (env_name <$> l)).
Proof.
  rewrite <- unique_test_spec, length_fmap. unfold env_errors. split.
  - intros He i Hi. destruct (unique_test (env_name <$> l) i) eqn:E; [done|]. exfalso.
    apply (not_elem_of_nil (row_name "env" i "name", "Env names should be unique.")). rewrite <- He. apply list_elem_of_omap.
    exists i. split; [apply elem_of_seq; lia|by rewrite E].
  - intros Hu. apply elem_of_nil_inv. intros x (i & Hi & Hx)%list_elem_of_omap. apply elem_of_seq in Hi. by rewrite Hu in Hx by lia.
Qed.

(** The path a file gets in its dialog. *)
Definition mount_path_ok (path : option string) : Prop :=
  exists s, path = Some s /\ startsWith "/" s = true /\ endsWith "/" s = false.

Lemma mount_path_spec path : validateMountPath path = None <-> mount_path_ok path.
Proof.
  unfold mount_path_ok. destruct path as [[|c s]|].
  - split; [done|]. by intros (? & [= <-] & ? & _).
  - unfold validateMountPath. cbn [from_option ValidatorRequired]. unfold KValidatorInjectedFilePath.
    change (truthy_value (FString (String c s)) || false) with true. cbn match.
    destruct (startsWith "/" (String c s)) eqn:E1, (endsWith "/" (String c s)) eqn:E2; cbn [negb]; (split; [|intros (t & Ht & H1 & H2); simplify_eq; congruence]); [done|by intros _; exists (String c s)|done..].
  - split; [done|]. by intros (? & ? & _).
Qed.

Lemma files_ok editing files : Forall accepted (file_fields editing files) <->
  (forall i, editing = Some i -> mount_path_ok (files !! i ≫= file_mountPathTmp)).
Proof.
  unfold file_fields. rewrite Forall_app. rewrite (accepted_rows _ (fun _ => True)).
  - assert (Ht : Forall (fun _ : PreInjectedFile => True) files) by by apply Forall_true.
    destruct editing as [i|]; fields_spec; rewrite ?mount_path_spec; naive_solver.
  - intros i f. unfold shown_file. destruct (seqb (file_mountPath f) "") eqn:E; cbn [negb]; [by rewrite Forall_nil|].
    apply seqb_false in E. fields_spec. rewrite required_string. naive_solver.
Qed.

(** A port of the form: a protocol and a container port that is there and is not 0; no
    port is 443. *)
Definition port_ok (p : ComponentLikePort) : Prop :=
  port_protocol p <> "" /\
  (isNaN (containerPort p) = false /\ number_to_Z (containerPort p) <> 0%Z /\ number_to_Z (containerPort p) <> 443%Z) /\
  (isNaN (servicePort p) = true \/ number_to_Z (servicePort p) <> 443%Z).

Lemma ports_ok l : Forall accepted (port_fields l) <-> Forall port_ok l.
Proof.
  unfold port_fields. apply accepted_rows. intros i p. fields_spec. rewrite container_port, service_port. unfold port_ok. naive_solver.
Qed.

Definition claims_volume (type : string) : bool :=
  seqb type VolumeTypePersistentVolumeClaim || seqb type VolumeTypePersistentVolumeClaimTemplate.

(** A volume: a type and a path, and by its type a path of the host or a size. *)
Definition disk_ok (d : Volume) : Prop :=
  vol_type d <> "" /\ vol_path d <> "" /\
  (if claims_volume (vol_type d) then True
   else if seqb (vol_type d) VolumeTypeHostPath then default "" (vol_hostPath d) <> ""
   else in_lang volume_size (vol_size d) /\ vol_size d <> "0Gi").

Lemma disks_ok p s l : Forall accepted (rows (disk_fields p s) l) <-> Forall disk_ok l.
Proof.
  apply accepted_rows. intros i d. unfold disk_fields. rewrite Forall_app. fields_spec. unfold disk_ok, getFieldComponents, claims_volume, size_field.
  destruct (seqb (vol_type d) VolumeTypePersistentVolumeClaim || seqb (vol_type d) VolumeTypePersistentVolumeClaimTemplate).
  { rewrite Forall_singleton. unfold accepted. cbn [field_error]. naive_solver. }
  destruct (seqb (vol_type d) VolumeTypePersistentVolumeClaimNew || seqb (vol_type d) VolumeTypePersistentVolumeClaimTemplateNew) eqn:En.
  - assert (Hh : seqb (vol_type d) VolumeTypeHostPath = false).
    { apply Bool.orb_true_iff in En as [En|En]; apply seqb_true in En; by rewrite En. }
    rewrite Hh. fields_spec. rewrite volume_size_ok. naive_solver.
  - destruct (seqb (vol_type d) VolumeTypeHostPath); fields_spec; [|rewrite volume_size_ok]; naive_solver.
Qed.

(** *** Probes *)

Definition port_set (p : PortRef) : Prop := match p with PortNumber n => isNaN n = false | PortName s => s <> "" end.
Lemma port_set_spec p : ValidatorRequired (port_ref_value p) = None <-> port_set p.
Proof. destruct p; [apply required_number|apply required_string]. Qed.

Definition scheme_ok (s : option string) : Prop := forall t, s = Some t -> t <> "" -> in_lang scheme_regex t.
Lemma scheme_spec s : ValidatorScheme s = None <-> scheme_ok s.
Proof.
  unfold scheme_ok. setoid_rewrite <- matches_spec. unfold ValidatorScheme, ValidatorOneof.
  destruct s as [[|c s]|]; [by split; [intros _ t [= <-]|]| |by split; [intros _ t [=]|]].
  unfold existsb. rewrite Bool.orb_false_r. destruct (matches scheme_regex (String c s)) eqn:E.
  - split; [|done]. by intros _ t [= <-].
  - split; [done|]. intros Ht. by specialize (Ht _ eq_refl (fun H => ltac:(discriminate))); congruence.
Qed.

(** A probe: by its type, a scheme, a domain, a port and a path, the first word of a
    command, or a port. *)
Definition probe_ok (probe : option Probe) : Prop :=
  match probe with
  | None => True
  | Some p =>
      match probe_httpGet p, probe_exec p, probe_tcpSocket p with
      | Some h, _, _ =>
          scheme_ok (httpGet_scheme h) /\
          (exists host, httpGet_host h = Some host /\ domain_name host /\ String.length host <= 511) /\
          port_set (httpGet_port h) /\ (exists path, httpGet_path h = Some path /\ path <> "")
      | None, Some command, _ => exists word, default [] command !! 0 = Some word /\ word <> ""
      | None, None, Some t => port_set (tcp_port t)
      | None, None, None => True
      end
  end.

Lemma common_ok name : Forall accepted (renderCommon name).
Proof. unfold renderCommon. destruct (seqb name "livenessProbe"); repeat constructor. Qed.

Lemma host_given h : ValidateHost h = None <-> exists host, h = Some host /\ domain_name host /\ String.length host <= 511.
Proof.
  destruct h as [h|]; [rewrite ValidateHost_accepts|]; naive_solver.
Qed.

Lemma probes_ok name probe : Forall accepted (probe_fields name probe) <-> probe_ok probe.
Proof.
  destruct probe as [p|]; cbn [probe_fields probe_ok]; [|by rewrite Forall_nil].
  pose proof (common_ok name) as Hc. unfold renderHttpGet, renderExec, renderTcpSocket, number_field, probe_text.
  destruct (probe_httpGet p) as [h|], (probe_exec p) as [command|], (probe_tcpSocket p) as [t|];
    fields_spec; rewrite ?scheme_spec, ?host_given, ?required_optional, ?port_set_spec; naive_solver.
Qed.

(** *** The tabs *)

(** An amount of CPU is judged by the number at the start of its text. *)
Definition cpu_ok (value : option string) : Prop :=
  forall s, value = Some s -> s <> "" -> nlt (parseFloat s) (ndiv (num 1) (num 1000)) = false.
Lemma cpu_spec value : ValidatorCPU (CpuText <$> value) = None <-> cpu_ok value.
Proof.
  unfold cpu_ok. destruct value as [s|]; cbn; [|by split]. destruct (seqb s "") eqn:E; [apply seqb_true in E|apply seqb_false in E].
  - split; [|done]. intros _ t [= <-]. by subst.
  - destruct (nlt _ _) eqn:En; split; try done; [|by intros _ t [= <-]].
    intros Ht. specialize (Ht _ eq_refl E). congruence.
Qed.

Lemma memory_spec value : ValidatorMemory value = None <-> value <> Some "Gi".
Proof.
  unfold ValidatorMemory. destruct value as [[|c s]|]; [done| |done]. destruct (seqb (String c s) "Gi") eqn:E;
    [apply seqb_true in E|apply seqb_false in E]; naive_solver.
Qed.

Lemma name_spec s : nameValidators (Some s) = None <-> dns_name s /\ s <> "0".
Proof. rewrite <- ValidatorName_accepts. unfold nameValidators. destruct s as [|c s]; [by vm_compute|]. cbn [ValidatorRequired]. done. Qed.

Definition scale_ok (v : ComponentLike) : Prop :=
  match renderReplicasOrSchedule (default "" (comp_workloadType v)) with
  | Some ReplicasField => isNaN (comp_replicas v) = false
  | Some ScheduleField => ValidatorSchedule (comp_schedule v) = None
  | None => True
  end.
Lemma scales_ok v : Forall accepted (scale_fields v) <-> scale_ok v.
Proof. unfold scale_fields, scale_ok. destruct (renderReplicasOrSchedule _) as [[]|]; fields_spec; rewrite ?required_number; naive_solver. Qed.

(** The tab of the access has fields while there is a domain of the single sign-on. *)
Definition access_shown (sso : bool * bool * option SSOConfig) : bool :=
  negb (sso.1.1 && negb sso.1.2) && negb (seqb (from_option sso_domain "" sso.2) "").
Definition access_ports (v : ComponentLike) : list number :=
  default [] (List.map (fun t => from_option num NaN (parseInt t)) <$> (comp_protectedEndpoint v ≫= protected_ports)).
Lemma access_ok sso v : Forall accepted (access_fields sso.1.1 sso.1.2 sso.2 v) <->
  (access_shown sso = true -> Forall (fun n => Validators.port_error n = None) (access_ports v)).
Proof.
  unfold access_fields, access_shown, access_ports. destruct (sso.1.1 && negb sso.1.2); cbn [negb andb]; [by rewrite Forall_nil|].
  destruct (seqb _ ""); cbn [negb]; [by rewrite Forall_nil|]. fields_spec. unfold accepted. cbn [field_error].
  rewrite fmap_None, endpoint_ports_ok. naive_solver.
Qed.

Section submitted.
Context `{FormikLaws}.

Lemma submits_iff {V : Type} (f : Form V) v :
  formik_submits f v = true <-> Forall accepted (form_fields f v) /\ form_errors f v = [].
Proof. apply formik_law. Qed.

(** C17: A route is submitted exactly if it has hosts, each of them [*], an address or a
    domain, and paths from the root; methods, where they are chosen one by one; a
    scheme; a host for each target and all three parts of each condition; and if the
    rules of the tutorial have nothing against it.  Nothing asks for a target. *)
Theorem route_form_accepts options tutorial_errors v :
  formik_submits (route_form options tutorial_errors) v = true <->
  (route_hosts v <> [] /\ Forall host_ok (route_hosts v)) /\
  (route_paths v <> [] /\ Forall (fun p => startsWith "/" p = true) (route_paths v)) /\
  (route_methodsMode v = Some methodsModeSpecific -> route_methods v <> []) /\ route_schemes v <> [] /\
  Forall (fun d => dest_host d <> "") (route_destinations v) /\ Forall condition_ok (default [] (route_conditions v)) /\
  tutorial_errors v = [].
Proof.
  rewrite submits_iff. cbn [form_fields form_errors route_form]. rewrite !Forall_app, destinations_ok, conditions_ok.
  fields_spec. unfold accepted at 1 2 3. cbn [field_error]. rewrite hosts_ok, paths_ok, array_not_empty.
  unfold methodsModeSpecific_.
  destruct (bool_decide_reflect (route_methodsMode v = Some methodsModeSpecific)); rewrite ?message_None, ?array_not_empty; naive_solver.
Qed.

(** ** Small forms *)

(** A list of rows of the certificates: [*] or a domain. *)
Definition cert_domain_ok (h : string) : Prop := h = "*" \/ (domain_name h /\ String.length h <= 511).

Lemma cert_domains_ok l : ValidatorHosts (Some l) = None <-> l <> [] /\ Forall cert_domain_ok l.
Proof.
  unfold ValidatorHosts. rewrite list_errors_None.
  - assert (Hh : forall h, (if seqb h "*" then None else ValidateHost (Some h)) = None <-> cert_domain_ok h).
    { intros h. unfold cert_domain_ok. rewrite <- ValidateHost_accepts. destruct (seqb h "*") eqn:E.
      - apply seqb_true in E. by split; [left|].
      - apply seqb_false in E. naive_solver. }
    by setoid_rewrite Hh.
  - intros h. destruct (seqb h "*"); [done|]. unfold ValidateHost. by repeat case_match.
Qed.

Definition registry_ok (v : RegistryFormType) : Prop :=
  (dns_name (regForm_name v) /\ regForm_name v <> "0") /\ regForm_username v <> "" /\ regForm_password v <> "" /\
  (regForm_host v = "" \/ startsWith "https://" (regForm_host v) = true /\ endsWith "/" (regForm_host v) = false).

Lemma registry_host_ok host : registry_validateHost host = None <->
  host = "" \/ startsWith "https://" host = true /\ endsWith "/" host = false.
Proof.
  unfold registry_validateHost. destruct (seqb host "") eqn:E; [apply seqb_true in E; by split; [left|]|apply seqb_false in E].
  unfold RequirePrefix, RequireNoSuffix. destruct (startsWith "https://" host), (endsWith "/" host); naive_solver.
Qed.

(** The form of a registry asks for a name, a user and a password; a host, if there is
    one, starts with https and does not end with a slash. *)
Theorem registry_form_accepts isEdit v : formik_submits (registry_form isEdit) v = true <-> registry_ok v.
Proof.
  rewrite submits_iff. cbn [form_fields form_errors registry_form]. fields_spec.
  rewrite ValidatorName_accepts, required_string, registry_host_ok. unfold registry_ok. naive_solver.
Qed.

Theorem member_form_accepts isClusterLevel v : formik_submits (member_form isClusterLevel) v = true <->
  rb_subjectType v <> "" /\ rb_subject v <> "" /\ rb_role v <> "".
Proof. rewrite submits_iff. cbn [form_fields form_errors member_form]. fields_spec. naive_solver. Qed.

Theorem application_form_accepts isEdit tutorial_errors v : formik_submits (application_form isEdit tutorial_errors) v = true <->
  (dns_name (application_name v) /\ application_name v <> "0") /\ tutorial_errors v = [].
Proof.
  rewrite submits_iff. cbn [form_fields form_errors application_form]. fields_spec. rewrite ValidatorName_accepts. naive_solver.
Qed.

Theorem acme_form_accepts v : formik_submits acme_form v = true <-> acmeForm_acmeDomain v <> "" /\ acmeForm_nsDomain v <> "".
Proof. rewrite submits_iff. cbn [form_fields form_errors acme_form]. fields_spec. naive_solver. Qed.

(** The two forms of certificates look at the domains only: a certificate without a name
    is submitted, for which the server makes one up. *)
Theorem certificate_forms_accept isEdit v :
  let ok := cert_domains (form_certificate v) <> [] /\ Forall cert_domain_ok (cert_domains (form_certificate v)) in
  (formik_submits (certificate_form isEdit) v = true <-> ok) /\ (formik_submits (certificate_upload_form isEdit) v = true <-> ok).
Proof.
  intros ok. rewrite !submits_iff. cbn [form_fields form_errors certificate_form certificate_upload_form].
  assert (Hb : forall label, Forall accepted (certificate_basics isEdit label v) <-> ok).
  { intros label. unfold certificate_basics. fields_spec. unfold accepted. cbn [field_error]. rewrite cert_domains_ok. subst ok. naive_solver. }
  assert (Hc : ok -> certificate_checks v = []).
  { intros [Hne _]. unfold certificate_checks, certificate_validate. destruct (seqb _ _); [|done]. by destruct (cert_domains (form_certificate v)). }
  assert (Hu : Forall accepted (if seqb (form_managedType v) selfManaged then renderSelfManagedFields else []))
    by (destruct (seqb _ _); unfold renderSelfManagedFields; repeat constructor).
  rewrite Forall_app, !Hb. naive_solver.
Qed.

(** [string().required()] of yup: the schema refuses the empty text. *)
Theorem token_form_accepts (RequireString : string -> option string) canEditCluster applications allComponents v
    (Hrequire : forall s, RequireString s = None <-> s <> "") :
  formik_submits (token_form RequireString canEditCluster applications allComponents) v = true <-> dat_memo v <> "".
Proof.
  rewrite submits_iff. cbn [form_fields form_errors token_form]. rewrite !Forall_app.
  destruct (seqb (dat_scope v) DeployAccessTokenScopeNamespace), (seqb (dat_scope v) DeployAccessTokenScopeComponent);
    fields_spec; pose proof (Hrequire (dat_memo v)) as Hr; destruct (RequireString (dat_memo v)); cbn; naive_solver.
Qed.

Theorem endpoint_form_accepts initial applications allComponents v :
  formik_submits (endpoint_form initial applications allComponents) v = true <->
  endpoint_namespace v <> "" /\ endpoint_endpointName v <> "" /\
  Forall (fun n => Validators.port_error n = None) (default [] (endpoint_ports v)).
Proof.
  rewrite submits_iff. cbn [form_fields form_errors endpoint_form]. fields_spec. unfold accepted. cbn [field_error].
  rewrite fmap_None, endpoint_ports_ok. naive_solver.
Qed.

(** ** Single sign-on *)

Definition connector_ok (c : SSOConnector) : Prop :=
  match c with
  | SSOGithubConnector _ name config =>
      name <> "" /\ github_clientID config <> "" /\ github_clientSecret config <> "" /\ Forall (fun o => org_name o <> "") (github_orgs config)
  | SSOGitlabConnector _ name config =>
      name <> "" /\ gitlab_baseURL config <> "" /\ gitlab_clientID config <> "" /\ gitlab_clientSecret config <> "" /\ gitlab_groups config <> []
  end.

Lemma connector_fields_ok i c : Forall accepted (render_connector i c) <-> connector_ok c.
Proof.
  destruct c as [id name config|id name config]; cbn [render_connector connector_ok].
  - unfold RenderGithubConnector. rewrite Forall_app. fields_spec. unfold renderOrganizations.
    rewrite (accepted_rows _ (fun o => org_name o <> "")); [naive_solver|]. intros j o. fields_spec. naive_solver.
  - unfold RenderGitlabConnector. fields_spec. rewrite required_array. naive_solver.
Qed.

(** The form of the single sign-on asks for a domain and for every text of each
    connector, and for a group of a Gitlab connector; nothing asks for a connector, nor
    for an organization of a Github connector. *)
Theorem sso_form_accepts tutorial_errors v : formik_submits (sso_form tutorial_errors) v = true <->
  (domain_name (sso_domain v) /\ String.length (sso_domain v) <= 511) /\ Forall connector_ok (default [] (sso_connectors v)) /\
  tutorial_errors v = [].
Proof.
  rewrite submits_iff. cbn [form_fields form_errors sso_form]. fields_spec. rewrite ValidateHost_accepts.
  rewrite (accepted_rows _ connector_ok) by apply connector_fields_ok. naive_solver.
Qed.
End submitted.

(** ** The form of a component *)

(** What a component needs to be submitted, part by part. *)
Record component_ok (p : ComponentFormProps) (v : ComponentLike) : Prop := {
  ok_name : dns_name (comp_name v) /\ comp_name v <> "0";
  ok_image : comp_image v <> "";
  ok_type : default "" (comp_workloadType v) <> "";
  ok_scale : scale_ok v;
  ok_env : Forall env_ok (default [] (comp_env v));
  ok_env_names : NoDup (env_name <$> default [] (comp_env v));
  ok_file : forall i, cfp_editingFile p = Some i -> mount_path_ok (default [] (comp_preInjectedFiles v) !! i ≫= file_mountPathTmp);
  ok_ports : Forall port_ok (default [] (comp_ports v));
  ok_listening : NoDup (omap port_key (default [] (comp_ports v)));
  ok_volumes : Forall disk_ok (default [] (comp_volumes v));
  ok_readiness : probe_ok (comp_readinessProbe v);
  ok_liveness : probe_ok (comp_livenessProbe v);
  ok_cpu : cpu_ok (comp_cpuLimit v) /\ cpu_ok (comp_cpuRequest v);
  ok_memory : comp_memoryLimit v <> Some "Gi" /\ comp_memoryRequest v <> Some "Gi";
  ok_access : access_shown (cfp_sso p) = true -> Forall (fun n => Validators.port_error n = None) (access_ports v)
}.

Lemma main_ok initialName v : Forall accepted (main_fields initialName v) <->
  (dns_name (comp_name v) /\ comp_name v <> "0") /\ comp_image v <> "" /\ default "" (comp_workloadType v) <> "" /\ scale_ok v.
Proof. unfold main_fields. rewrite Forall_app, scales_ok. fields_spec. rewrite name_spec. naive_solver. Qed.

Lemma scheduling_ok nodeLabels v : Forall accepted (scheduling_fields nodeLabels v) <->
  (cpu_ok (comp_cpuLimit v) /\ cpu_ok (comp_cpuRequest v)) /\ comp_memoryLimit v <> Some "Gi" /\ comp_memoryRequest v <> Some "Gi".
Proof. unfold scheduling_fields. fields_spec. rewrite !cpu_spec, !memory_spec. naive_solver. Qed.

Lemma upgrade_ok : Forall accepted upgrade_fields.
Proof. repeat constructor. Qed.

(** The check of the whole form: no two ports that listen alike.  The rules of the
    tutorial are never asked. *)
Lemma port_errors_ok ports tutorial_errors : Forall port_in_range (default [] ports) ->
  map_to_list (component_form_errors ports tutorial_errors) = [] <-> NoDup (omap port_key (default [] ports)).
Proof.
  intros Hr. unfold component_form_errors. rewrite map_to_list_empty_iff. destruct ports as [ports|]; cbn [default].
  - rewrite <- (validate_unique ports) by done. destruct (validate (Some ports)); [|done].
    split; [|done]. by intros H%map_non_empty_singleton.
  - split; [|done]. intros _. apply NoDup_nil_2.
Qed.

Lemma filter_kept {A : Type} (P : A -> Prop) `{!forall x, Decision (P x)} (l : list A) : Forall P l -> filter P l = l.
Proof. induction 1 as [|x l Hx _ IH]; [done|]. rewrite filter_cons_True by done. by rewrite IH. Qed.

Lemma env_names_unique env : Forall env_ok env -> env_errors env = [] <-> NoDup (env_name <$> env).
Proof.
  intros He. rewrite env_errors_ok. rewrite filter_kept; [done|]. apply Forall_fmap. eapply Forall_impl; [exact He|].
  intros e [(c & t & Hn & _)%env_name_spec _]. cbn. by rewrite Hn.
Qed.

Section submitted_component.
Context `{FormikLaws}.

(** C16: The form of a component hands its values over exactly if all its parts are in
    order: name, image, workload and its scale, variables with names of their own, the
    open file, ports that listen apart, volumes, probes, amounts and the access; the
    rules of the tutorial never matter.  The ports are in the range the normaliser
    leaves. *)
Theorem component_form_accepts p tutorial_errors v : Forall port_in_range (default [] (comp_ports v)) ->
  formik_submits (component_form p tutorial_errors) v = true <-> component_ok p v.
Proof.
  intros Hports. rewrite submits_iff. cbn [form_fields form_errors component_form]. unfold component_fields, component_errors.
  rewrite !Forall_app, Forall_cons, !Forall_app, main_ok, envs_ok, files_ok, ports_ok, disks_ok, !probes_ok, scheduling_ok, access_ok,
    app_nil, port_errors_ok by done.
  pose proof upgrade_ok as Hu. split.
  - intros (H1 & H2). destruct_and!. constructor; try done; [by apply env_names_unique|naive_solver..].
  - intros []. split; [|by rewrite env_names_unique]. naive_solver.
Qed.
End submitted_component.

(** ** What the forms do not ask, and what they refuse *)

(** The host that choosing the HTTP probe fills in is refused by the validator of its
    own field: the component cannot be submitted before the host is typed anew. *)
Lemma http_probe_refused ports : ~ probe_ok (handleChangeType "httpGet" ports).
Proof.
  intros (_ & (host & [= <-] & H) & _). rewrite <- ValidateHost_accepts in H. by vm_compute in H.
Qed.

Section submitted_examples.
Context `{FormikLaws}.

Lemma http_probe_not_submitted p tutorial_errors v ports : Forall port_in_range (default [] (comp_ports v)) ->
  comp_readinessProbe v = handleChangeType "httpGet" ports \/ comp_livenessProbe v = handleChangeType "httpGet" ports ->
  formik_submits (component_form p tutorial_errors) v = false.
Proof.
  intros Hr Hp. apply Bool.not_true_iff_false. rewrite component_form_accepts by done. intros [].
  destruct Hp as [Hp|Hp]; rewrite Hp in *; by eapply http_probe_refused.
Qed.

(** The alert of a Github connector without organizations does not keep it from being
    submitted, nor does the one about an empty list of connectors. *)
Lemma alerts_do_not_bar domain id name : domain_name domain -> String.length domain <= 511 -> name <> "" ->
  organizations_alert [] <> None /\ connectors_alert (mkSSOConfig domain (Some [])) <> None /\
  formik_submits (sso_form (fun _ => [])) (mkSSOConfig domain (Some [])) = true /\
  formik_submits (sso_form (fun _ => [])) (mkSSOConfig domain (Some [SSOGithubConnector id name (mkGithubConfig "id" "secret" [])])) = true.
Proof.
  intros Hd Hl Hn. split_and!; [done..| |]; apply sso_form_accepts; cbn; split_and!; try done; repeat constructor; done.
Qed.

(** Nor does the one about a route without targets. *)
Lemma route_without_targets_submitted :
  let v := mkHttpRoute "" "" ["a.example.com"] ["/"] [] ["https"] None None [] None None None None None None None (Some methodsModeAll) in
  destinations_alert true (route_destinations v) <> None /\ formik_submits (route_form [] (fun _ => [])) v = true.
Proof.
  cbn zeta. split; [done|]. apply route_form_accepts. cbn.
  split_and!; try done; try apply Forall_nil; try apply Forall_singleton; [|done].
  right. split; [right|cbn; lia]. apply wildcard_domain_spec, matches_spec. by vm_compute.
Qed.
End submitted_examples.

(** The field of CPU counts in thousandths and the validator in cores: a half of the
    least amount is accepted, and the amount of 0 is refused with the words on cores. *)
Example cpu_of_the_field : parse_cpu "0.5" = SizeText "0.5m" /\ cpu_ok (Some "0.5m") /\
  parse_cpu "0" = SizeText "0m" /\ ~ cpu_ok (Some "0m").
Proof. rewrite <- !cpu_spec. by vm_compute. Qed.
(** The validator of memory knows the unit [Gi], the field has [Mi]. *)
Example memory_of_the_field : parse_memory "" = NoSize /\ ValidatorMemory (Some "Mi") = None /\ ValidatorMemory (Some "Gi") = Some "Required".
Proof. done. Qed.

(** ** Witnesses *)

(** A formik that looks at the rendered fields and at the checks. *)
Definition formik_reference : Formik := fun V f v =>
  forallb (fun d => bool_decide (field_error d = None)) (form_fields f v) && bool_decide (form_errors f v = []).

Lemma formik_reference_laws : @FormikLaws formik_reference.
Proof.
  intros V f v. change (formik_submits f v) with (forallb (fun d => bool_decide (field_error d = None)) (form_fields f v) && bool_decide (form_errors f v = [])).
  rewrite Bool.andb_true_iff, bool_decide_eq_true, forallb_forall, Forall_forall.
  setoid_rewrite <- list_elem_of_In. by setoid_rewrite bool_decide_eq_true.
Qed.

(** A route for the methods chosen one by one, to one target. *)
Definition sample_route : HttpRoute :=
  mkHttpRoute "route" "shop" ["shop.example.com"; "10.0.0.1"] ["/"; "/api"] ["GET"] ["https"] None
    (Some [mkRouteCondition "header" "x-version" "equal" "2"]) [mkDestination "web.shop.svc.cluster.local:80" (num 1)]
    (Some false) None None None None None None (Some methodsModeSpecific).

Lemma route_form_accepts_witness : let f := route_form [] (fun _ => []) in
  @formik_submits formik_reference _ f sample_route = true /\ Forall host_ok (route_hosts sample_route).
Proof.
  assert (Hs : @formik_submits formik_reference _ (route_form [] (fun _ => [])) sample_route = true) by (vm_compute; reflexivity).
  split; [exact Hs|]. destruct (proj1 (@route_form_accepts formik_reference formik_reference_laws [] (fun _ => []) sample_route) Hs) as ((_ & H) & _).
  exact H.
Defined.

(** A component with a variable, a port, a disk and a probe. *)
Definition sample_form_component : ComponentLike :=
  mkComponentLike "web" "nginx:latest" (num 2) None None None None (Some "250m") (Some "256Mi") (Some workloadTypeServer) None None None
    "ClusterFirst" (Some [mkEnv "MODE" "static" "production"; mkEnv "LEVEL" "static" "info"])
    (Some [mkPort PortProtocolHTTP (num 8080) (num 80); mkPort PortProtocolTCP (num 9000) NaN])
    (Some [mkVolume VolumeTypePersistentVolumeClaimNew "/data" "10Gi" "standard" "" "" "" None])
    None None (Some (probe_defaults None None (Some (mkProbeTcpSocket None (PortNumber (num 8080)))))) None None None None.
Definition sample_form_props : ComponentFormProps := mkComponentFormProps (mkVolumesProps [] [] [] "") [] None (false, true, None).

Lemma sample_form_ports : Forall port_in_range (default [] (comp_ports sample_form_component)).
Proof. repeat constructor; intros n; cbn; intros [= <-]; [exists 80%Z|exists 9000%Z]; by split. Qed.

Lemma component_form_accepts_witness : let f := component_form sample_form_props (fun _ => ∅) in
  @formik_submits formik_reference _ f sample_form_component = true /\ component_ok sample_form_props sample_form_component.
Proof.
  assert (Hs : @formik_submits formik_reference _ (component_form sample_form_props (fun _ => ∅)) sample_form_component = true)
    by (vm_compute; reflexivity).
  split; [exact Hs|].
  exact (proj1 (@component_form_accepts formik_reference formik_reference_laws sample_form_props (fun _ => ∅) sample_form_component sample_form_ports) Hs).
Defined.
