(* ===== verification/FieldNames.v ===== *)
(** The names of the fields of the forms: formik keeps one validator for a name, so a
    form must not render two fields under one name. *)

From S2P Require Import Prelude JsString Regex JsNumber ResourceTypes Utils Validators FormChecks VolumesForm FilesEditor ComponentEditor Fields Forms FormFacts.

(** ** Names *)

(** A name up to its first dot. *)
Fixpoint first_part (s : string) : string :=
  match s with
  | "" => ""
  | String c s' => if decide (c = "."%char) then "" else String c (first_part s')
  end.

Lemma first_part_app p s : has_char "." p = false -> first_part (p +:+ "." +:+ s) = p.
Proof.
  induction p as [|c p IH]; [done|]. cbn [has_char]. intros [Hc Hp]%Bool.orb_false_iff. rewrite sapp_cons. cbn [first_part].
  destruct (decide (c = "."%char)) as [->|_]; [done|]. by rewrite IH.
Qed.

Lemma nat_no_dot n : has_char "." (nat_to_string n) = false.
Proof. by eapply (str_forall_has_char is_digit); [|apply nat_to_string_digits]. Qed.

Lemma row_name_inj name i k j l : row_name name i k = row_name name j l -> i = j /\ k = l.
Proof.
  unfold row_name. intros H%sapp_inj_l%sapp_inj_l. pose proof (f_equal first_part H) as Hd.
  rewrite !first_part_app in Hd by apply nat_no_dot. rewrite Hd in H. apply nat_to_string_inj in Hd as ->.
  by apply sapp_inj_l, sapp_inj_l in H as ->.
Qed.

Lemma row_name_part name i k : has_char "." name = false -> first_part (row_name name i k) = name.
Proof. apply first_part_app. Qed.

(** ** Rows and groups *)

(** The fields of row [i] are named after it. *)
Definition own_names (name : string) (i : nat) (fields : list FormField) : Prop :=
  exists keys, field_name <$> fields = row_name name i <$> keys /\ NoDup keys.

Lemma rows_names {A : Type} name (f : nat -> A -> list FormField) (l : list A) : (forall i x, own_names name i (f i x)) ->
  NoDup (field_name <$> rows f l) /\ Forall (fun n => exists i k, n = row_name name i k) (field_name <$> rows f l).
Proof.
  intros Hf. unfold rows, mapi.
  assert (H : forall j, NoDup (field_name <$> concat (mapi_from j f l)) /\
    Forall (fun n => exists i k, j <= i /\ n = row_name name i k) (field_name <$> concat (mapi_from j f l))).
  { induction l as [|x l IH]; intros j; cbn; [by split; [apply NoDup_nil_2|]|].
    rewrite fmap_app. destruct (Hf j x) as (keys & Hk & Hn), (IH (S j)) as [IH1 IH2]. rewrite Hk. split.
    - apply NoDup_app. split_and!; [|intros n (k & -> & _)%list_elem_of_fmap Hin|done].
      + apply NoDup_fmap_2_strong; [|done]. by intros k k' _ _ [_ ->]%row_name_inj.
      + rewrite Forall_forall in IH2. destruct (IH2 _ Hin) as (i & k' & Hi & [<- _]%row_name_inj). lia.
    - apply Forall_app. split.
      + apply Forall_fmap, Forall_true. intros k. exists j, k. by split.
      + eapply Forall_impl; [exact IH2|]. intros n (i & k & Hi & ->). exists i, k. split; [lia|done]. }
  destruct (H 0) as [H1 H2]. split; [done|]. eapply Forall_impl; [exact H2|]. intros n (i & k & _ & ->). by exists i, k.
Qed.

(** A group of names with the first parts they may have. *)
Definition group_ok (g : list string * list string) : Prop := NoDup g.1 /\ Forall (fun n => first_part n ∈ g.2) g.1.

Lemma groups_names (groups : list (list string * list string)) : Forall group_ok groups ->
  NoDup (concat (snd <$> groups)) -> NoDup (concat (fst <$> groups)).
Proof.
  intros Hg. assert (H : NoDup (concat (snd <$> groups)) ->
    NoDup (concat (fst <$> groups)) /\ Forall (fun n => first_part n ∈ concat (snd <$> groups)) (concat (fst <$> groups))).
  { induction Hg as [|[names parts] groups [Hn Hp] _ IH]; cbn; [by split; [apply NoDup_nil_2|]|].
    intros (Hd1 & Hd & Hd2)%NoDup_app. destruct (IH Hd2) as [IH1 IH2]. split.
    - apply NoDup_app. split_and!; [done| |done]. intros n Hin1 Hin2. rewrite Forall_forall in Hp. rewrite Forall_forall in IH2.
      by apply (Hd (first_part n)); [apply Hp|apply IH2].
    - apply Forall_app. split; (eapply Forall_impl; [eassumption|]); intros n Hin; apply elem_of_app; [by left|by right]. }
  intros Hd. by apply H.
Qed.

Lemma rows_group {A : Type} name (f : nat -> A -> list FormField) (l : list A) : has_char "." name = false ->
  (forall i x, own_names name i (f i x)) -> group_ok (field_name <$> rows f l, [name]).
Proof.
  intros Hd Hf. destruct (rows_names name f l Hf) as [H1 H2]. split; [done|]. cbn.
  eapply Forall_impl; [exact H2|]. intros n (i & k & ->). rewrite row_name_part by done. by apply list_elem_of_singleton.
Qed.

(** Names that are known are compared by computation. *)
Ltac known_keys keys := exists keys; split; [done|apply (bool_decide_eq_true_1 _); by vm_compute].
Ltac known_group := split; apply (bool_decide_eq_true_1 _); by vm_compute.

(** ** The forms *)

Definition field_names {V : Type} (f : Form V) (v : V) : list string := field_name <$> form_fields f v.

Lemma route_fields_once options tutorial_errors v : NoDup (field_names (route_form options tutorial_errors) v).
Proof.
  unfold field_names. cbn [form_fields route_form]. rewrite !fmap_app.
  set (head := field_name <$> [_; _; _; _; _; _; _]).
  refine (eq_rect _ NoDup (groups_names [(head, ["hosts"; "paths"; "stripPath"; "methodsMode"; "methods"; "schemes"; "httpRedirectToHttps"]);
    (field_name <$> destination_fields options (route_destinations v), ["destinations"]);
    (field_name <$> condition_fields (default [] (route_conditions v)), ["conditions"])] _ _) _ _).
  - repeat apply Forall_cons_2; [known_group| | |done]; apply rows_group; try done; intros i d.
    + destruct (Nat.ltb 1 (length (route_destinations v))); [known_keys ["host"; "weight"]|known_keys ["host"]].
    + known_keys ["name"; "operator"; "value"].
  - apply (bool_decide_eq_true_1 _). by vm_compute.
  - cbn [concat fmap list_fmap fst]. by rewrite app_nil_r.
Qed.

(** The organizations of connector [i] are named behind it. *)
Lemma organizations_behind i orgs :
  field_name <$> renderOrganizations (("connectors." +:+ nat_to_string i) +:+ ".config.orgs") orgs =
  row_name "connectors" i <$> (field_name <$> renderOrganizations "config.orgs" orgs).
Proof.
  assert (Hr : forall j k, row_name (("connectors." +:+ nat_to_string i) +:+ ".config.orgs") j k = row_name "connectors" i (row_name "config.orgs" j k)).
  { intros j k. unfold row_name. change ("connectors." +:+ nat_to_string i) with ("connectors" +:+ "." +:+ nat_to_string i).
    rewrite <- !sapp_assoc. done. }
  unfold renderOrganizations, rows, mapi. generalize 0 as j. induction orgs as [|org orgs IH]; intros j; [done|].
  cbn [mapi_from concat]. rewrite !fmap_app, IH. cbn [fmap list_fmap field_name required_text text_field free_field]. by rewrite !Hr.
Qed.

Lemma connector_names i connector : own_names "connectors" i (render_connector i connector).
Proof.
  destruct connector as [id name config|id name config]; cbn [render_connector].
  - exists (["name"; "config.clientID"; "config.clientSecret"] ++ (field_name <$> renderOrganizations "config.orgs" (github_orgs config))).
    split; [unfold RenderGithubConnector; rewrite !fmap_app, organizations_behind; done|].
    destruct (rows_names "config.orgs" (fun index org =>
      [required_text (row_name "config.orgs" index "name") "Organization Name" "Please type a organization name" (org_name org);
       free_field (row_name "config.orgs" index "teams") "Teams" "Please type a team name" ListInput]) (github_orgs config)) as [H1 H2].
    { intros j org. known_keys ["name"; "teams"]. }
    apply NoDup_app. split_and!; [apply (bool_decide_eq_true_1 _); by vm_compute| |done].
    rewrite Forall_forall in H2. intros n Hn (j & k & ->)%H2. cbn in Hn. rewrite !elem_of_cons, elem_of_nil in Hn. by destruct_or!.
  - known_keys ["name"; "config.baseURL"; "config.clientID"; "config.clientSecret"; "config.groups"].
Qed.

Lemma sso_fields_once tutorial_errors v : NoDup (field_names (sso_form tutorial_errors) v).
Proof.
  unfold field_names. cbn [form_fields sso_form]. rewrite fmap_cons. apply NoDup_cons.
  destruct (rows_names "connectors" render_connector (default [] (sso_connectors v)) connector_names) as [H1 H2].
  split; [|done]. rewrite Forall_forall in H2. by intros (i & k & ?)%H2.
Qed.

(** ** The form of a component *)

Definition main_names : list string := ["name"; "image"; "workloadType"; "replicas"; "schedule"; "command"].

Lemma main_group initialName v : group_ok ((field_name <$> main_fields initialName v) ++ ["command"], main_names).
Proof. unfold main_fields, scale_fields. destruct (renderReplicasOrSchedule _) as [[]|]; known_group. Qed.

(** The dialog and the rows of the files name different parts of a file. *)
Lemma files_group editing files : group_ok (field_name <$> file_fields editing files, ["preInjectedFiles"]).
Proof.
  unfold file_fields. set (rs := rows _ files).
  assert (Hr : Forall (fun n => exists i, n = row_name "preInjectedFiles" i "mountPath") (field_name <$> rs) /\ NoDup (field_name <$> rs)).
  { subst rs. split; [|apply (rows_names "preInjectedFiles")].
    - rewrite Forall_fmap, Forall_rows. intros i f _. destruct (shown_file f); repeat constructor. by exists i.
    - intros i f. destruct (shown_file f); [known_keys ["mountPath"]|known_keys (@nil string)]. }
  destruct Hr as [Hr Hn]. unfold group_ok. cbn [fst snd]. rewrite fmap_app.
  assert (Hp : forall i k, first_part (row_name "preInjectedFiles" i k) ∈ ["preInjectedFiles"])
    by (intros; rewrite row_name_part by done; by apply list_elem_of_singleton).
  split.
  - apply NoDup_app. split_and!; [| |done].
    + destruct editing as [i|]; [|apply NoDup_nil_2]. cbn [fmap list_fmap field_name text_field free_field].
      apply NoDup_cons. split; [|apply NoDup_singleton].
      by intros [_ ?]%list_elem_of_singleton%row_name_inj.
    + rewrite Forall_forall in Hr. intros n Hn1 (j & ->)%Hr. destruct editing as [i|]; cbn [fmap list_fmap field_name text_field free_field] in Hn1; [|by apply not_elem_of_nil in Hn1].
      rewrite !elem_of_cons, elem_of_nil in Hn1. destruct Hn1 as [[_ ?]%row_name_inj|[[_ ?]%row_name_inj|[]]]; done.
  - apply Forall_app. split.
    + destruct editing as [i|]; repeat constructor; apply Hp.
    + eapply Forall_impl; [exact Hr|]. intros n (i & ->). apply Hp.
Qed.

Lemma probe_group name probe : name = "readinessProbe" \/ name = "livenessProbe" -> group_ok (field_name <$> probe_fields name probe, [name]).
Proof.
  intros Hn. destruct probe as [p|]; cbn [probe_fields]; [|by split; [apply NoDup_nil_2|]].
  destruct Hn as [->| ->], (probe_httpGet p), (probe_exec p), (probe_tcpSocket p); known_group.
Qed.

Lemma disk_names p s i d : own_names "volumes" i (disk_fields p s i d).
Proof.
  unfold disk_fields. destruct (getFieldComponents p s d).
  - known_keys ["type"; "path"; "claimName"].
  - known_keys ["type"; "path"; "storageClassName"; "size"].
  - known_keys ["type"; "path"; "hostPath"].
  - known_keys ["type"; "path"; "size"].
Qed.

Lemma access_group loading loaded sso v : group_ok (field_name <$> access_fields loading loaded sso v, ["protectedEndpoint"]).
Proof.
  unfold access_fields. destruct (loading && negb loaded); [known_group|]. destruct (seqb _ ""); [known_group|]. 
  split; [apply (bool_decide_eq_true_1 _); by vm_compute|]. repeat constructor.
Qed.

(** No form of a component renders two fields under one name, whatever its values, its
    tabs and its dialogs are: each validator is kept. *)
Theorem component_fields_once p tutorial_errors v : NoDup (field_names (component_form p tutorial_errors) v).
Proof.
  unfold field_names. cbn [form_fields component_form]. unfold component_fields. set (disks := default [] (comp_volumes v)).
  rewrite fmap_app, fmap_cons, !fmap_app.
  refine (eq_rect _ NoDup (groups_names
    [((field_name <$> main_fields (vp_initialName (cfp_volumes p)) v) ++ ["command"], main_names);
     (field_name <$> env_fields (default [] (comp_env v)), ["env"]);
     (field_name <$> file_fields (cfp_editingFile p) (default [] (comp_preInjectedFiles v)), ["preInjectedFiles"]);
     (field_name <$> port_fields (default [] (comp_ports v)), ["ports"]);
     (field_name <$> rows (disk_fields (cfp_volumes p) (mkVolumesForm (comp_name v) (default "" (comp_workloadType v)) disks)) disks, ["volumes"]);
     (field_name <$> probe_fields "readinessProbe" (comp_readinessProbe v), ["readinessProbe"]);
     (field_name <$> probe_fields "livenessProbe" (comp_livenessProbe v), ["livenessProbe"]);
     (field_name <$> scheduling_fields (cfp_nodeLabels p) v,
      ["cpuLimit"; "memoryLimit"; "cpuRequest"; "memoryRequest"; "nodeSelectorLabels"; "preferNotCoLocated"]);
     (field_name <$> upgrade_fields, ["restartStrategy"; "terminationGracePeriodSeconds"]);
     (field_name <$> access_fields (cfp_sso p).1.1 (cfp_sso p).1.2 (cfp_sso p).2 v, ["protectedEndpoint"])] _ _) _ _).
  - repeat apply Forall_cons_2; try done.
    + apply main_group.
    + apply rows_group; [done|]. intros i e. known_keys ["name"; "value"].
    + apply files_group.
    + apply rows_group; [done|]. intros i e. known_keys ["protocol"; "containerPort"; "servicePort"].
    + apply rows_group; [done|]. apply disk_names.
    + apply probe_group. by left.
    + apply probe_group. by right.
    + known_group.
    + known_group.
    + apply access_group.
  - apply (bool_decide_eq_true_1 _). by vm_compute.
  - cbn [concat fmap list_fmap fst]. by rewrite app_nil_r, <- !(assoc_L (++)).
Qed.
