(* ===== verification/FormSubmissions.v ===== *)
(** What reaches the API of a form: the form hands its values to the handler of its page
    only when it accepts them, and the handler corrects them. *)

From S2P Require Import Prelude JsString Regex JsNumber ResourceTypes ReducerUtils ResourceReducers UiReducers RootReducer ComponentForms ComponentFormFacts Utils Validators ValidatorFacts FormChecks VolumesForm FilesEditor Fields Submissions Forms FormFacts.

Section sent.
Context `{FormikLaws} {RouterState : Type}.
Implicit Types (state : RootState RouterState) (v c : ComponentLike).

(** The component that is sent when the form of one is submitted: the handler of the
    form, the page's filter of the files, and the correction by the action. *)
Definition component_sent state (p : ComponentFormProps) (tutorial_errors : ComponentLike -> gmap string string) v : option ComponentLike :=
  if formik_submits (component_form p tutorial_errors) v
  then Some (correctComponentFormValuesForSubmit state (submitted_component v)) else None.

(** A size in gibibytes, and not none. *)
Definition sized (d : Volume) : Prop := in_lang volume_size (vol_size d) /\ vol_size d <> "0Gi".

(** A volume as it is sent by a component with these options: a type that is not only
    the form's and a path; a path of the host, or a size; a claim may instead be that of
    a disk that is offered under the selected name, or of no disk if none has it. *)
Definition sent_volume (options : list VolumeOption) (d : Volume) : Prop :=
  (vol_type d <> "" /\ ~ derived_type (vol_type d)) /\ vol_path d <> "" /\
  if seqb (vol_type d) VolumeTypeHostPath then default "" (vol_hostPath d) <> ""
  else if ComponentForms.is_claim (vol_type d) then
    sized d \/ (exists o, o ∈ options /\ option_name o = vol_claimName d /\ claims o d) \/
    Forall (fun o => option_name o <> vol_claimName d) options /\ claims_nothing d
  else sized d.

Record sent_component (options : list VolumeOption) (c : ComponentLike) : Prop := {
  sent_name : dns_name (comp_name c) /\ comp_name c <> "0";
  sent_image : comp_image c <> "";
  sent_env : Forall env_ok (default [] (comp_env c));
  sent_env_names : NoDup (env_name <$> default [] (comp_env c));
  sent_ports : Forall port_ok (default [] (comp_ports c));
  sent_listening : NoDup (omap port_key (default [] (comp_ports c)));
  sent_volumes : Forall (sent_volume options) (default [] (comp_volumes c));
  sent_readiness : probe_ok (comp_readinessProbe c);
  sent_liveness : probe_ok (comp_livenessProbe c);
  sent_files : Forall (fun f => file_mountPath f <> "" \/ file_content f <> "") (default [] (comp_preInjectedFiles c))
}.

Lemma sent_volume_ok options d : disk_ok d -> sent_volume options (submit_volume options d).
Proof.
  intros (Ht & Hp & Hk). destruct (submit_volume_as options d) as (Hty & Hpath & Hhost & Hname & Hs).
  set (d' := submit_volume options d) in *. unfold sent_volume. rewrite Hpath, Hhost.
  change (claims_volume (vol_type d)) with (ComponentForms.is_claim (vol_type d)) in Hk.
  destruct (ComponentForms.is_claim (vol_type d)) eqn:Hc.
  - assert (vol_type d' = vol_type d) as E.
    { destruct Hty as [[E _]|[[E _]|[_ E]]]; [by rewrite E in Hc..|done]. }
    rewrite E, Hc, Hname. split; [split; [done|by apply claim_not_derived]|]. split; [done|].
    assert (seqb (vol_type d) VolumeTypeHostPath = false) as ->; [|by right].
    apply seqb_false. intros E1. by rewrite E1 in Hc.
  - assert (Hsize : vol_size d' = vol_size d) by apply Hs.
    assert (Hd : ~ derived_type (vol_type d') /\ vol_type d' <> "" /\ seqb (vol_type d') VolumeTypeHostPath = seqb (vol_type d) VolumeTypeHostPath).
    { destruct Hty as [[E ->]|[[E ->]|[H1 ->]]]; [rewrite E; split_and!; [unfold derived_type; by intros [?|?]|done..]..|by split_and!]. }
    destruct Hd as (Hd & Hne & Hhp). split; [by split|]. split; [done|]. rewrite Hhp. unfold sized. rewrite Hsize.
    destruct (seqb (vol_type d) VolumeTypeHostPath); [done|]. destruct (ComponentForms.is_claim (vol_type d')); [left|]; exact Hk.
Qed.

(** C15: Only components in order are sent, from a form whose ports are within the range
    the fields of ports leave.  The name, the image, the variables, the ports and the
    probes are those the form accepted; no file is sent that was never saved; and each
    volume has a path and a type that is not only the form's, and with it the path on the
    host, or a size, or, if it mounts an existing disk, the claim, class and capacity of
    a disk offered to the component under the selected name.  The form does not ask for
    that disk: when none of the name is offered the volume is sent without a claim and
    without a size, see [claim_not_asked]. *)
Theorem component_sent_in_order state p tutorial_errors v c : Forall port_in_range (default [] (comp_ports v)) ->
  component_sent state p tutorial_errors v = Some c -> sent_component (offered state v) c.
Proof.
  intros Hr. unfold component_sent. destruct (formik_submits _ v) eqn:Hs; [|done]. intros [= <-].
  apply component_form_accepts in Hs as [? ? ? ? ? ? ? ? ? Hvol ? ? ? ? ?]; [|done].
  assert (Hv : Forall (sent_volume (offered state v)) (default [] (comp_volumes (correctComponentFormValuesForSubmit state (submitted_component v))))).
  { rewrite submit_volumes. cbn [comp_volumes submitted_component]. destruct (comp_volumes v) as [l|]; cbn; [|done].
    apply Forall_fmap. eapply Forall_impl; [exact Hvol|]. intros d Hd. by apply sent_volume_ok. }
  assert (Hf : Forall (fun f => file_mountPath f <> "" \/ file_content f <> "") (default [] (comp_preInjectedFiles (submitted_component v)))).
  { cbn. destruct (comp_preInjectedFiles v) as [l|]; cbn; [|done]. apply Forall_forall. intros f Hf.
    apply list_elem_of_In, filter_In in Hf as [_ Hf]. apply Bool.orb_true_iff in Hf. by rewrite !Bool.negb_true_iff, !seqb_false in Hf. }
  unfold correctComponentFormValuesForSubmit in *. destruct (_ || _); by constructor.
Qed.
End sent.

(** A volume that mounts an existing disk is sent without one when none was chosen: the
    validator of the field of the claim is commented out. *)
Example claim_not_asked options :
  let d := mkVolume VolumeTypePersistentVolumeClaim "/data" "" "" "" "" "" None in
  disk_ok d /\ ((forall o, o ∈ options -> option_name o <> "") -> claims_nothing (submit_volume options d)).
Proof.
  intros d. split; [by split_and!|]. intros Ho.
  destruct (submit_volume_as options d) as (_ & _ & _ & _ & [(o & Hin & Hn & _)|[_ H]]); [by apply Ho in Hin|done].
Qed.

Lemma component_sent_in_order_witness :
  exists c, @component_sent formik_reference unit demo_state sample_form_props (fun _ => ∅) sample_form_component = Some c /\ sent_component (offered demo_state sample_form_component) c /\
    vol_type <$> default [] (comp_volumes c) = [VolumeTypePersistentVolumeClaim].
Proof.
  exists (correctComponentFormValuesForSubmit demo_state (submitted_component sample_form_component)).
  assert (Hs : @component_sent formik_reference unit demo_state sample_form_props (fun _ => ∅) sample_form_component =
    Some (correctComponentFormValuesForSubmit demo_state (submitted_component sample_form_component))) by (vm_compute; reflexivity).
  split; [exact Hs|]. split; [|vm_compute; reflexivity].
  exact (@component_sent_in_order formik_reference formik_reference_laws unit demo_state sample_form_props (fun _ => ∅) sample_form_component _ sample_form_ports Hs).
Defined.
