(* ===== verification/ListPages.v ===== *)
(** The pages with a list: how [widgets/KRTable.tsx] turns pages and takes a search, and
    what each page shows - the columns of its table with the rows, the box of an empty
    list, the buttons - for what is loaded and what the user may do. *)

From S2P Require Import Prelude JsString JsNumber ResourceTypes FormChecks WorkloadViews Shell Navigation Tables Pages.

(** ** Pages of a table *)

(** What [react-table] keeps of a table: the page, its size and the search. *)
Record TableState := mkTableState { pageIndex : nat; pageSize : nat; globalFilter : option string }.

(** The functions the hooks of [react-table] return; the first argument of the moves is
    the number of rows.  [newData] is what they do of themselves when the data change. *)
Class TableHooks := {
  gotoPage : nat -> nat -> TableState -> TableState;
  nextPage : nat -> TableState -> TableState;
  previousPage : nat -> TableState -> TableState;
  setPageSize : nat -> TableState -> TableState;
  setGlobalFilter : option string -> TableState -> TableState;
  newData : TableState -> TableState;
  page : forall {A : Type}, TableState -> list A -> list A
}.

(** As documented: [page] holds the rows of the page; a move to a page that has rows
    arrives; new data clear the search. *)
Class TableLaws `{TableHooks} := {
  page_law : forall (A : Type) s (rows : list A), page s rows = take (pageSize s) (drop (pageIndex s * pageSize s) rows);
  gotoPage_law : forall rows n s, n * pageSize s < rows -> gotoPage rows n s = mkTableState n (pageSize s) (globalFilter s);
  nextPage_law : forall rows s, nextPage rows s = gotoPage rows (S (pageIndex s)) s;
  previousPage_law : forall rows s, 0 < pageIndex s -> previousPage rows s = gotoPage rows (pred (pageIndex s)) s;
  setPageSize_law : forall n s, pageSize (setPageSize n s) = n;
  setGlobalFilter_law : forall f s, globalFilter (setGlobalFilter f s) = f /\ pageSize (setGlobalFilter f s) = pageSize s;
  newData_law : forall s, globalFilter (newData s) = None
}.

Definition DefaultPageSize : nat := 20.
Definition initialState : TableState := mkTableState 0 DefaultPageSize None.

(** The control below the table: the sizes offered, the number of rows, and where it is. *)
Record Pagination := mkPagination { rowsPerPageOptions : list nat; pg_count : nat; pg_rowsPerPage : nat; pg_page : nat }.

Section table.
Context `{TableHooks}.

Definition handleChangePage (rows newPage : nat) (s : TableState) : TableState :=
  if Nat.eqb newPage (pageIndex s + 1) then nextPage rows s
  else if Nat.eqb (newPage + 1) (pageIndex s) then previousPage rows s
  else gotoPage rows newPage s.
Definition onChangeRowsPerPage (value : nat) (s : TableState) : TableState := setPageSize value s.

Definition table_pagination (rows : nat) (s : TableState) : option Pagination :=
  if Nat.ltb DefaultPageSize rows then Some (mkPagination [5; 10; 20; 50] rows (pageSize s) (pageIndex s)) else None.

(** ** The box of the search *)

(** The text in the box, and the table. *)
Record FilterBox := mkFilterBox { fb_value : string; fb_table : TableState }.

Definition truthy_filter (s : TableState) : bool := match globalFilter s with Some (String _ _) => true | _ => false end.
(** Each rendering: a text in the box without a search is searched at once. *)
Definition render_filter (b : FilterBox) : FilterBox :=
  if negb (truthy_filter (fb_table b)) && negb (seqb (fb_value b) "")
  then mkFilterBox (fb_value b) (setGlobalFilter (Some (fb_value b)) (fb_table b)) else b.

(** A text is typed; the debounced search is called with a text; the data change. *)
Inductive FilterEvent := TypeFilter (s : string) | FilterCalled (s : string) | DataChanged.
Definition filter_event (b : FilterBox) (e : FilterEvent) : FilterBox :=
  render_filter (match e with
                 | TypeFilter s => mkFilterBox s (fb_table b)
                 | FilterCalled s => mkFilterBox (fb_value b) (setGlobalFilter (if seqb s "" then None else Some s) (fb_table b))
                 | DataChanged => mkFilterBox (fb_value b) (newData (fb_table b))
                 end).
Definition filter_events (events : list FilterEvent) (b : FilterBox) : FilterBox := foldl filter_event b events.

(** ** What they do *)

Context `{!TableLaws}.

Lemma handleChangePage_goes rows newPage s : newPage * pageSize s < rows ->
  handleChangePage rows newPage s = mkTableState newPage (pageSize s) (globalFilter s).
Proof.
  intros Hn. unfold handleChangePage. destruct (Nat.eqb_spec newPage (pageIndex s + 1)) as [E|_].
  - rewrite nextPage_law, <- Nat.add_1_r, <- E. by apply gotoPage_law.
  - destruct (Nat.eqb_spec (newPage + 1) (pageIndex s)) as [E|_]; [|by apply gotoPage_law].
    rewrite previousPage_law by lia. replace (pred (pageIndex s)) with newPage by lia. by apply gotoPage_law.
Qed.

(** Every row is on the page its number says, and the control leads there. *)
Theorem every_row_reached {A : Type} (rows : list A) s k : 0 < pageSize s -> k < length rows ->
  page (handleChangePage (length rows) (k / pageSize s) s) rows !! (k mod pageSize s) = rows !! k.
Proof.
  intros Hs Hk. pose proof (Nat.div_mod_eq k (pageSize s)) as Hd. pose proof (Nat.mod_upper_bound k (pageSize s) ltac:(lia)) as Hm.
  rewrite handleChangePage_goes by (rewrite Nat.mul_comm; lia). rewrite page_law. cbn [pageSize pageIndex].
  rewrite lookup_take_lt by done. rewrite lookup_drop. f_equal. lia.
Qed.

(** The control is there only while more than twenty rows are left: with a smaller size
    chosen before, rows of a search with fewer results are on no page one can reach. *)
Lemma rows_out_of_reach {A : Type} (rows : list A) s : pageSize s < length rows -> length rows <= DefaultPageSize ->
  table_pagination (length rows) s = None /\ page s rows <> rows.
Proof.
  intros H1 H2. split; [unfold table_pagination; by destruct (Nat.ltb_spec DefaultPageSize (length rows)); [lia|]|].
  rewrite page_law. intros He. apply (f_equal length) in He. rewrite length_take, length_drop in He. lia.
Qed.

Lemma render_filter_spec b : fb_value (render_filter b) = fb_value b /\
  (fb_value b <> "" -> truthy_filter (fb_table (render_filter b)) = true) /\
  (truthy_filter (fb_table b) = true -> render_filter b = b).
Proof.
  unfold render_filter. destruct (truthy_filter (fb_table b)) eqn:Et; cbn [negb andb]; [by rewrite Et|].
  destruct (seqb (fb_value b) "") eqn:Ev; cbn [negb]; [apply seqb_true in Ev|apply seqb_false in Ev]; (split; [done|]; split; [|done]).
  - done.
  - intros _. cbn. unfold truthy_filter. rewrite (proj1 (setGlobalFilter_law _ _)). by destruct (fb_value b).
Qed.

(** A text in the box is never without a search, also right after the data changed. *)
Theorem text_is_searched b events : events <> [] -> fb_value (filter_events events b) <> "" ->
  truthy_filter (fb_table (filter_events events b)) = true.
Proof.
  destruct events as [|e events _] using rev_ind; [done|]. intros _. unfold filter_events. rewrite foldl_app. cbn [foldl].
  set (b' := foldl filter_event b events). unfold filter_event. intros Hv.
  match goal with |- context[render_filter ?x] => destruct (render_filter_spec x) as (H1 & H2 & _) end.
  rewrite H1 in Hv. by apply H2.
Qed.

Definition is_new_data (e : FilterEvent) : bool := match e with DataChanged => true | _ => false end.

(** Once the debounced search was called with the text in the box, the table is
    searched for it, and stays so when the data change. *)
Theorem search_follows_text b v late : Forall (fun e => is_new_data e = true) late -> fb_value b = v ->
  let b' := filter_events (FilterCalled v :: late) b in
  fb_value b' = v /\ from_option id "" (globalFilter (fb_table b')) = v.
Proof.
  intros Hl Hv. unfold filter_events. cbn [foldl].
  assert (H1 : let b1 := filter_event b (FilterCalled v) in fb_value b1 = v /\ from_option id "" (globalFilter (fb_table b1)) = v).
  { unfold filter_event, render_filter. cbn [fb_value fb_table]. rewrite Hv. unfold truthy_filter.
    rewrite (proj1 (setGlobalFilter_law _ _)). destruct v as [|c v]; eval_seqb; cbn; by rewrite ?(proj1 (setGlobalFilter_law _ _)). }
  revert H1. generalize (filter_event b (FilterCalled v)) as b1. induction Hl as [|e late He _ IH]; intros b1 H1; [done|].
  cbn [foldl]. apply IH. destruct e; try done. destruct H1 as [Hb1 _]. unfold filter_event, render_filter. cbn [fb_value fb_table].
  unfold truthy_filter. rewrite Hb1, newData_law. destruct v as [|c v]; eval_seqb; cbn; by rewrite ?(proj1 (setGlobalFilter_law _ _)), ?newData_law.
Qed.
End table.

(** ** The boxes beside a list *)

(** [InfoBox]: a guide replaces the options; the content of an option is a text, or an
    element, for which the title is shown again. *)
Inductive InfoPart := InfoText (s : string) | InfoNode (text : string).
Record InfoOption := mkInfoOption { info_title : InfoPart; info_content : InfoPart }.
Definition wrapGuideLink (url title : string) : list InfoOption := [mkInfoOption (InfoNode (title +:+ " Guide")) (InfoText "")].
Definition gridItems (title : string) (options : list InfoOption) (guideLink : option string) : list InfoOption :=
  match guideLink with Some (String _ _ as url) => wrapGuideLink url title | _ => options end.
Definition grid_item (option : InfoOption) : InfoPart * InfoPart :=
  (info_title option, match info_content option with InfoText s => InfoText s | InfoNode _ => info_title option end).
Definition info_box (title : string) (options : list InfoOption) (guideLink : option string) : list (InfoPart * InfoPart) :=
  grid_item <$> gridItems title options guideLink.

(** ** The pages *)

Record PageLink := mkPageLink { pl_text : string; pl_to : string }.

(** The columns of a table have a header and the key of their cells in the rows. *)
Abbreviation Column := (string * string)%type.
Inductive ListBody :=
| BodyLoading
| BodyTable (title : string) (columns : list Column) (rows : list (list (string * Cell)))
| BodyCards (names : list string)
| BodyEmpty (button : option PageLink)
| BodyHint (button : option PageLink)
| BodyNothing.
Record ListPage := mkListPage { lp_header : list PageLink; lp_body : ListBody; lp_info : list (InfoPart * InfoPart) }.

Definition links_if (b : bool) (links : list PageLink) : list PageLink := if b then links else [].
Definition link_if (b : bool) (link : PageLink) : option PageLink := if b then Some link else None.
Definition empty_or_table {A : Type} (items : list A) (empty table : ListBody) : ListBody := match items with [] => empty | _ => table end.
Definition loading_or (isLoading isFirstLoaded : bool) (body : ListBody) : ListBody := if isLoading && negb isFirstLoaded then BodyLoading else body.

(** [pages/Registry/List.tsx] *)
Definition registry_headers : list Column :=
  [("Name", "name"); ("Host", "host"); ("Username", "username"); ("Password", "password"); ("Verified", "verified"); ("Actions", "actions")].
Definition registry_page (canEditCluster isLoading isFirstLoaded : bool) (registries : list Registry) : ListPage :=
  let link := mkPageLink "New Private Registry" "/cluster/registries/new" in
  mkListPage (links_if canEditCluster [link])
    (loading_or isLoading isFirstLoaded
       (empty_or_table registries (if canEditCluster then BodyEmpty (Some link) else BodyNothing)
          (BodyTable "Registries" registry_headers (registry_row canEditCluster <$> registries))))
    (info_box "Private Registry" [] (Some "https://kalm.dev/docs/registry")).

(** [pages/Certificate/List.tsx] *)
Definition certificate_headers : list Column :=
  [("Cert Name", "name"); ("Domains", "domains"); ("Status", "status"); ("Type", "isSelfManaged");
   ("Signed by Trusted CA", "isSignedByTrustedCA"); ("Expiration Time", "expireTimestamp"); ("Actions", "actions")].
Definition certificate_page (date : number -> string) (canEditCluster isLoading isFirstLoaded : bool) (certificates : list Certificate) : ListPage :=
  let link := mkPageLink "New Certificate" "/certificates/new" in
  mkListPage (links_if canEditCluster [link; mkPageLink "Upload Certificate" "/certificates/upload"])
    (loading_or isLoading isFirstLoaded
       (empty_or_table certificates (BodyEmpty (link_if canEditCluster link))
          (BodyTable "Certificates" certificate_headers (certificate_row canEditCluster date <$> certificates))))
    (info_box "Certificates"
       [mkInfoOption (InfoNode "Certificate Docs") (InfoText ""); mkInfoOption (InfoNode "Kalm DNS Server Config Panel") (InfoText "")] None).

(** [pages/Route/List.tsx] *)
Definition route_headers : list Column :=
  [("Domain", "host"); ("Urls", "urls"); ("Http", "http"); ("Https", "https"); ("Methods", "methods"); ("Targets", "targets"); ("Actions", "actions")].
Definition routes_page (json : RoutePart -> HttpRoute -> string) (canEdit : bool) (canViewNamespace : string -> bool)
    (isRoutesLoading isRoutesFirstLoaded : bool) (httpRoutes : list HttpRoute) : ListPage :=
  let link := mkPageLink "Add Route" "/routes/new" in
  mkListPage (links_if canEdit [link])
    (match routes_view isRoutesLoading isRoutesFirstLoaded canEdit canViewNamespace httpRoutes with
     | RoutesLoading => BodyLoading
     | RoutesTable routes => BodyTable "Routes" route_headers (route_row json canEdit <$> routes)
     | NoRoutes can_add => BodyEmpty (link_if can_add link)
     end) [].

(** [pages/Disks/List.tsx]; nothing sets [loadPersistentVolumesError]. *)
Definition disk_headers : list Column :=
  [("Volume Name", "name"); ("Mounted", "isInUse"); ("App", "componentNamespace"); ("Component", "componentName"); ("Size", "capacity"); ("Actions", "actions")].
Definition disks_page (componentsMap : gmap string (list ApplicationComponentDetails)) (print : number -> string) (json_style storageTypes : string)
    (canEditCluster : bool) (persistentVolumes : list Disk) : ListPage :=
  mkListPage []
    (empty_or_table persistentVolumes (BodyEmpty (Some (mkPageLink "View Applications" "/applications")))
       (BodyTable "Disks" disk_headers (disk_row canEditCluster componentsMap print json_style <$> persistentVolumes)))
    (info_box "Disk References"
       [mkInfoOption (InfoText "") (InfoText "You don't need to apply disk manually. Disk will be created when you declare authentic disks in component form."); mkInfoOption (InfoNode storageTypes) (InfoText "")] None).

(** [pages/Members/index.tsx] *)
Definition member_headers : list Column := [("Type", "type"); ("Name", "subject"); ("Role", "role"); ("Action", "actions")].
Definition members_page (pathname activeNamespaceName : string) (roleBindings : list RoleBinding) : ListPage :=
  let cluster := isClusterLevel pathname in
  let link := mkPageLink "Grant permissions"
    (if cluster then "/cluster/members/new" else "/applications/" +:+ activeNamespaceName +:+ "/members/new") in
  let shown := getRoleBindings pathname activeNamespaceName roleBindings in
  mkListPage [link]
    (empty_or_table shown (BodyEmpty (Some link)) (BodyTable "Members" member_headers (member_row cluster <$> shown)))
    (info_box "References" [mkInfoOption (InfoNode "How kalm permission works?") (InfoText "");
                            mkInfoOption (InfoNode "What's the permissions of a role?") (InfoText "")] None).

(** [pages/CI/index.tsx] *)
Definition token_headers : list Column := [("Memo", "memo"); ("Scope", "scope"); ("Resources", "resources"); ("Action", "actions")].
Definition ci_page (canEdit isLoading loaded : bool) (deployAccessTokens : list DeployAccessToken) : ListPage :=
  mkListPage (links_if canEdit [mkPageLink "New Deploy Token" "/ci/keys/new"])
    (match ci_view loaded isLoading canEdit deployAccessTokens with
     | CILoading => BodyLoading
     | CIEmpty can_add => BodyEmpty (link_if can_add (mkPageLink "New Deploy Key" "/ci/keys/new"))
     | CITable => BodyTable "CI/CD" token_headers (token_row canEdit <$> deployAccessTokens)
     end) [].

(** [pages/SSO/EndpointsPage.tsx] *)
Definition endpoint_headers : list Column :=
  [("Namespace", "namespace"); ("Component", "component"); ("Ports", "ports"); ("Granted groups", "grantedGroups"); ("Actions", "actions")].
Definition endpoints_page (canEditNamespace : string -> bool) (canEditCluster isSSOConfigLoaded : bool) (activeNamespaceName : string)
    (ssoConfig : option SSOConfig) (protectedEndpoints : list ProtectedEndpoint) : ListPage :=
  match endpoints_view canEditNamespace canEditCluster isSSOConfigLoaded activeNamespaceName ssoConfig with
  | None => mkListPage [] BodyLoading []
  | Some (configured, can_add) =>
      mkListPage (links_if can_add [mkPageLink "New Protected Endpoint" "/endpoints/new"])
        (if configured then BodyTable "" endpoint_headers (endpoint_row canEditNamespace <$> protectedEndpoints)
         else BodyHint (link_if canEditCluster (mkPageLink "Enable Single Sign-on" "/sso/config"))) []
  end.

(** [pages/Application/List.tsx]: the columns of the table and the buttons. *)
Definition application_headers : list Column :=
  [("Name", "name"); ("Pod Status", "status"); ("CPU", "cpu"); ("Memory", "memory"); ("Created At", "createdAt"); ("Routes", "routes"); ("Actions", "actions")].
Definition new_app_link : PageLink := mkPageLink "Create App" "/applications/new".
Definition applications_header (canEditCluster : bool) : list PageLink := links_if canEditCluster [new_app_link].
Definition applications_empty : option PageLink := Some new_app_link.
Definition view_switch (usingApplicationCard : bool) : string * bool :=
  (if usingApplicationCard then "Using List View" else "Using Card View", negb usingApplicationCard).

(** [pages/LoadBalancer/index.tsx]; nothing sets [loadLoadBalancerInfoError]. *)
Definition loadbalancer_headers : list Column := [("Hostname / IP", "ingressHostname"); ("Ports", "ports")].
Definition generateCopyContent (content : string) : Cell :=
  ElementCell [("icon", ElementCell [("tooltipTitle", TextCell "Copy"); ("aria-label", TextCell "copy"); ("onClick", function_cell)]
                          (bare [("fontSize", TextCell "small")]))] (TextCell content).
Definition renderPort (name : string) : Cell := around (ListCell [around (TextCell name); around (OtherCell true)]).
Definition loadbalancer_row (canViewCluster : bool) (row : ClusterInfo) : list (string * Cell) :=
  [ ("ingressHostname", around (match renderHostName canViewCluster row with inl l => ListCell (generateCopyContent <$> l) | inr s => TextCell s end));
    ("ports", around (ListCell ((fun p => renderPort p.1) <$> loadbalancer_ports row))) ].
Definition loadbalancer_page (canViewCluster : bool) (ingressInfo : ClusterInfo) : ListPage :=
  mkListPage [] (BodyTable "" loadbalancer_headers [loadbalancer_row canViewCluster ingressInfo]) [].

(** The tables of pods and of warnings, and the keys of the rows that are pushed. *)
Definition pod_headers : list Column :=
  [("", "statusIcon"); ("Pod Name", "name"); ("Node", "node"); ("Restarts", "restarts"); ("Status", "status"); ("Age", "age"); ("CPU", "cpu");
   ("Memory", "memory"); ("Actions", "actions")].
Definition pod_keys : list string := ["statusIcon"; "name"; "node"; "restarts"; "status"; "age"; "cpu"; "memory"; "actions"].
Definition warning_headers : list Column := [("Component", "componentName"); ("Pod", "podName"); ("Message", "message")].
Definition warning_keys : list string := ["componentName"; "podName"; "message"].
Definition application_keys : list string := ["name"; "status"; "cpu"; "memory"; "createdAt"; "routes"; "actions"].

(** ** What the pages show *)

(** The columns of a table are told apart by their keys, and each row has a cell for each. *)
Definition columns_ok (columns : list Column) (keys : list string) : Prop := NoDup (columns.*2) /\ Forall (fun c => c.2 ∈ keys) columns.
Definition body_ok (body : ListBody) : Prop :=
  match body with BodyTable _ columns rows => NoDup (columns.*2) /\ Forall (fun row => columns_ok columns (row.*1)) rows | _ => True end.

Lemma table_ok {A : Type} title columns (row : A -> list (string * Cell)) keys items : columns_ok columns keys ->
  (forall x, (row x).*1 = keys) -> body_ok (BodyTable title columns (row <$> items)).
Proof. intros Hc Hk. split; [apply Hc|]. apply Forall_fmap, Forall_true. intros x. cbn. by rewrite Hk. Qed.

Lemma empty_or_table_ok {A : Type} (items : list A) empty table : body_ok empty -> body_ok table -> body_ok (empty_or_table items empty table).
Proof. by destruct items. Qed.
Lemma loading_or_ok isLoading isFirstLoaded body : body_ok body -> body_ok (loading_or isLoading isFirstLoaded body).
Proof. unfold loading_or. by destruct (isLoading && negb isFirstLoaded). Qed.

Ltac known_columns := split; [apply (bool_decide_eq_true_1 _)|apply (bool_decide_eq_true_1 _)]; by vm_compute.

(** In every table of the pages each column has a key of its own and a cell in each row. *)
Theorem columns_filled date json print json_style storageTypes componentsMap canEdit canEdit' canView canEditNamespace canViewNamespace
    loading loaded sso pathname name registries certificates routes disks members tokens endpoints info :
  Forall (fun p => body_ok (lp_body p))
    [ registry_page canEdit loading loaded registries; certificate_page date canEdit loading loaded certificates;
      routes_page json canEdit canViewNamespace loading loaded routes; disks_page componentsMap print json_style storageTypes canEdit disks;
      members_page pathname name members; ci_page canEdit loading loaded tokens;
      endpoints_page canEditNamespace canEdit' loaded name sso endpoints; loadbalancer_page canView info ] /\
  columns_ok application_headers application_keys /\ columns_ok pod_headers pod_keys /\ columns_ok warning_headers warning_keys.
Proof.
  split; [|split_and!; known_columns]. repeat apply Forall_cons_2; [..|apply Forall_nil_2]; cbn [lp_body registry_page certificate_page disks_page members_page].
  - apply loading_or_ok, empty_or_table_ok; [by destruct canEdit|]. apply (table_ok _ _ _ registry_columns); [|done]. known_columns.
  - apply loading_or_ok, empty_or_table_ok; [done|]. apply (table_ok _ _ _ certificate_columns); [|done]. known_columns.
  - cbn. destruct (routes_view _ _ _ _ _); try done. apply (table_ok _ _ _ (route_headers.*2)); [|done]. known_columns.
  - apply empty_or_table_ok; [done|]. apply (table_ok _ _ _ disk_columns); [|done]. known_columns.
  - apply empty_or_table_ok; [done|]. apply (table_ok _ _ _ ["name"; "subject"; "type"; "role"; "actions"]); [|done]. known_columns.
  - cbn. destruct (ci_view _ _ _ _); try done. apply (table_ok _ _ _ token_columns); [|done]. known_columns.
  - unfold endpoints_page. destruct (endpoints_view _ _ _ _ _) as [[[] can_add]|]; try done. apply (table_ok _ _ _ endpoint_columns); [|done]. known_columns.
  - apply (table_ok _ _ (loadbalancer_row canView) ["ingressHostname"; "ports"] [info]); [|done]. known_columns.
Qed.

Definition page_links (p : ListPage) : list PageLink :=
  lp_header p ++ match lp_body p with BodyEmpty l | BodyHint l => option_list l | _ => [] end.

Section links.
Variable matches_path : string -> string -> bool.
Hypothesis exact_paths : forall pattern path, parts_match (parts pattern) (parts path) = true -> matches_path pattern path = true.

Lemma literal_links l : forallb (fun k => existsb (fun r => parts_match (parts r.1) (parts (address_path (pl_to k)))) route_table) l = true ->
  Forall (fun k => routed matches_path (pl_to k)) l.
Proof.
  intros Hl. apply Forall_forall. intros k Hk. apply (goes_literal _ exact_paths). rewrite forallb_forall in Hl. by apply Hl, list_elem_of_In.
Qed.

Lemma members_link_goes pathname name : plain name = true ->
  routed matches_path (if isClusterLevel pathname then "/cluster/members/new" else "/applications/" +:+ name +:+ "/members/new").
Proof.
  intros Hn. destruct (isClusterLevel pathname); [by apply (goes_literal _ exact_paths)|].
  change ("/applications/" +:+ name +:+ "/members/new") with (join "/" [""; "applications"; name; "members"; "new"]).
  apply (routed_join _ exact_paths _ "/applications/:applicationName/members/new"); [in_table|done|parts_ok|]. by destruct name.
Qed.

(** Every button of the pages with a list leads to a page. *)
Theorem list_buttons_lead date json print json_style storageTypes componentsMap canEdit canEdit' canEditNamespace canViewNamespace
    loading loaded sso pathname name registries certificates routes disks members tokens endpoints : plain name = true ->
  Forall (fun p => Forall (fun l => routed matches_path (pl_to l)) (page_links p))
    [ registry_page canEdit loading loaded registries; certificate_page date canEdit loading loaded certificates;
      routes_page json canEdit canViewNamespace loading loaded routes; disks_page componentsMap print json_style storageTypes canEdit disks;
      members_page pathname name members; ci_page canEdit loading loaded tokens;
      endpoints_page canEditNamespace canEdit' loaded name sso endpoints;
      mkListPage (applications_header canEdit) (BodyEmpty applications_empty) [] ].
Proof.
  intros Hn. rewrite !Forall_cons, Forall_nil. split_and!; [..|done]; unfold page_links.
  - apply literal_links. cbn. unfold loading_or. destruct canEdit, (loading && negb loaded), registries; reflexivity.
  - apply literal_links. cbn. unfold loading_or. destruct canEdit, (loading && negb loaded), certificates; reflexivity.
  - apply literal_links. cbn. unfold routes_view. destruct (loading && negb loaded), canEdit, (List.filter (fun r => canViewNamespace (route_namespace r)) routes); reflexivity.
  - apply literal_links. cbn. by destruct disks.
  - unfold members_page. cbn [lp_header lp_body]. rewrite Forall_app.
    assert (Hl : Forall (fun l => routed matches_path (pl_to l)) [mkPageLink "Grant permissions"
      (if isClusterLevel pathname then "/cluster/members/new" else "/applications/" +:+ name +:+ "/members/new")])
      by (apply Forall_singleton; by apply members_link_goes).
    split; [exact Hl|]. by destruct (getRoleBindings pathname name members).
  - apply literal_links. cbn. unfold ci_view. destruct (negb loaded && loading), canEdit, tokens; reflexivity.
  - apply literal_links. unfold endpoints_page, endpoints_view. destruct loaded, sso, (canEditNamespace name), canEdit'; reflexivity.
  - apply literal_links. by destruct canEdit.
Qed.
End links.

(** Nothing can be added from the lists of registries, certificates, routes, deploy keys
    and endpoints by a user who may not. *)
Theorem adding_needs_permission date json canViewNamespace loading loaded sso name registries certificates routes tokens endpoints :
  Forall (fun p => page_links p = [])
    [ registry_page false loading loaded registries; certificate_page date false loading loaded certificates;
      routes_page json false canViewNamespace loading loaded routes; ci_page false loading loaded tokens;
      endpoints_page (fun _ => false) false loaded name sso endpoints ].
Proof.
  repeat apply Forall_cons_2; [..|apply Forall_nil_2]; unfold page_links; cbn; unfold loading_or, routes_view, ci_view, endpoints_page, endpoints_view.
  - by destruct (loading && negb loaded), registries.
  - by destruct (loading && negb loaded), certificates.
  - by destruct (loading && negb loaded), (List.filter (fun r => canViewNamespace (route_namespace r)) routes).
  - by destruct (negb loaded && loading), tokens.
  - by destruct loaded, sso.
Qed.

(** The empty list of applications offers to create one without asking for the right
    that the button of the header asks for. *)
Example create_app_offered : applications_header false = [] /\ applications_empty = Some new_app_link.
Proof. done. Qed.

(** An element as content of a box is not shown: its title is shown twice. *)
Lemma content_not_shown title text : grid_item (mkInfoOption title (InfoNode text)) = (title, title).
Proof. done. Qed.

(** Hooks that do what is documented. *)
Definition table_reference : TableHooks := {|
  gotoPage rows n s := if Nat.ltb (n * pageSize s) rows then mkTableState n (pageSize s) (globalFilter s) else s;
  nextPage rows s := if Nat.ltb (S (pageIndex s) * pageSize s) rows then mkTableState (S (pageIndex s)) (pageSize s) (globalFilter s) else s;
  previousPage rows s :=
    if Nat.ltb (pred (pageIndex s) * pageSize s) rows then mkTableState (pred (pageIndex s)) (pageSize s) (globalFilter s) else s;
  setPageSize n s := mkTableState (pageIndex s * pageSize s / n) n (globalFilter s);
  setGlobalFilter f s := mkTableState 0 (pageSize s) f;
  newData s := mkTableState 0 (pageSize s) None;
  page A s rows := take (pageSize s) (drop (pageIndex s * pageSize s) rows)
|}.
Lemma table_reference_laws : @TableLaws table_reference.
Proof. constructor; try done. intros rows n s Hn. unfold gotoPage, table_reference. destruct (Nat.ltb_spec (n * pageSize s) rows); [done|lia]. Qed.

(** Twelve results of a search, five to a page: the others cannot be reached. *)
Example out_of_reach : let s := @setPageSize table_reference 5 initialState in
  table_pagination 12 s = None /\ @page table_reference nat s (seq 0 12) = [0; 1; 2; 3; 4].
Proof. done. Qed.
