(* ===== verification/DetailPages.v ===== *)
(** The pages that show one thing: a component (pages/Components/Show.tsx, with
    [widgets/ComponentStatus] and pages/Route/Widget.tsx), the profile, a deploy key
    (pages/CI/Detail.tsx), the nodes (pages/Nodes/List.tsx); and the alert about the
    certificates of a route's hosts (forms/Route/index.tsx). *)

From S2P Require Import Prelude JsString JsNumber ResourceTypes ActionTypes UiReducers RootReducer Utils UtilFacts ComponentForms FormChecks Store Async Api Actions WorkloadViews Nodes Shell Navigation Charts Pages Panels ListPages.

(** ** The certificates of a route's hosts *)

Record CertificateAlert := mkCertificateAlert {
  alert_severity : string; alert_title : string; alert_missing : list string; alert_link : option string;
  alert_valid : list (string * string); alert_unfolded : bool
}.
Definition missing_title (n : nat) : string :=
  nat_to_string n +:+ " host" +:+ (if Nat.ltb 1 n then "s are" else " is") +:+
  " missing valid SSL certificate signed by a certificate authority.".
(** The hosts with a certificate, with its name. *)
Definition validHosts (certifications : list Certificate) (hosts : list string) : list (string * string) :=
  omap (fun r => (fun c => (r.1, cert_name c)) <$> r.2) (hostCertResults certifications hosts).
Definition renderCertificationStatus (certifications : list Certificate) (hosts : list string) (isValidCertificationUnfolded : bool) :
    option CertificateAlert :=
  match hosts with
  | [] => None
  | _ =>
      let missing := missingCertsHosts certifications hosts in
      let n := length missing in
      Some (mkCertificateAlert (if Nat.eqb n 0 then "success" else "warning")
        (if Nat.ltb 0 n then missing_title n else "All hosts have valid SSL certifications signed by a certificate authority.")
        missing (if Nat.ltb 0 n then Some "/certificates" else None) (validHosts certifications hosts) isValidCertificationUnfolded)
  end.
(** What the form shows below the schemes: the note about https, the domains that
    require it, and the alert; folded without the scheme. *)
Definition https_notes (certifications : list Certificate) (route : HttpRoute) (unfolded : bool) :
    option (option string * option CertificateAlert) :=
  if has_scheme "https" (route_schemes route) then
    Some (match includesForceHttpsDomain (route_hosts route) with [] => None | l => Some (join ", " l) end,
          renderCertificationStatus certifications (route_hosts route) unfolded)
  else None.

(** ** The status of a component ([widgets/ComponentStatus/index.tsx]) *)

Record PodItem := mkPodItem { item_badge : option Badge; item_name : string; item_status : string; item_messages : list string }.
Definition renderPodItem (pod : PodStatus) : PodItem :=
  mkPodItem (Badges.renderPodStatus pod) (pod_name pod) (pod_status pod) (numbered 1 (warning_message <$> pod_warnings pod)).
Record StatusPanel := mkStatusPanel { panel_doughnut : Doughnut; panel_items : list PodItem }.
Definition ComponentStatus (component : option ApplicationComponentDetails) : option StatusPanel :=
  let '(podSuccess, podPending, podError) := Counts.status_getPieChartData component in
  (fun c => mkStatusPanel (mkDoughnut "" status_labels [podSuccess; podPending; podError]) (renderPodItem <$> Counts.status_pods c)) <$> component.

(** ** A component's page *)

(** [servicePort || containerPort] *)
Definition cluster_port (port : ComponentLikePort) : number :=
  if truthy_port (servicePort port) then servicePort port else containerPort port.
(** The head of a row, and the ports of its text. *)
Definition exposed_port (port : ComponentLikePort) : string * (number * number) :=
  ("Exposed port: " +:+ port_protocol port, (containerPort port, cluster_port port)).

(** A host of a route: the address it opens and the command that is copied. *)
Record HostItem := mkHostItem { host_name : string; host_url : string; host_curl : string }.
Record RouteItem := mkRouteItem {
  item_methods : list string; item_scheme : string; item_hosts : list HostItem; item_paths : list string;
  item_targets : Z * list (Z * string); item_edit : option string
}.
Definition renderRouteItem (clusterInfo : ClusterInfo) (canEdit : bool) (route : HttpRoute) : RouteItem :=
  mkRouteItem (route_methods route) (shown_scheme route)
    ((fun h => mkHostItem h (getRouteUrl route clusterInfo (Some h)) (copyAsCurl clusterInfo route (Some h))) <$> route_hosts route)
    (route_paths route) (targets_view (route_destinations route))
    (if canEdit then Some ("/routes/" +:+ route_name route +:+ "/edit") else None).
(** The rows, or the text for no routes. *)
Definition RouteWidgets (clusterInfo : ClusterInfo) (canEdit : bool) (routes : list HttpRoute) : list RouteItem + string :=
  match routes with [] => inr "No Routes" | _ => inl (renderRouteItem clusterInfo canEdit <$> routes) end.

Record ComponentPage := mkComponentPage {
  cp_header : string; cp_edit : option string; cp_facts : list (string * Fact); cp_pods : list PodRow;
  cp_dns : string * string * string; cp_ports : option (list (string * (number * number))); cp_routes : list RouteItem + string
}.
Section component_page.
Context `{UserAuth}.
Variables formatDate formatTimeDistance : Date -> string.
Definition component_show (clusterInfo : ClusterInfo) (activeNamespaceName : string) (httpRoutes : list HttpRoute)
    (component : ApplicationComponentDetails) : ComponentPage :=
  let name := comp_name (cd_component component) in
  let canEdit := canEditNamespace activeNamespaceName in
  mkComponentPage ("Component " +:+ name)
    (if canEdit then Some ("/applications/" +:+ activeNamespaceName +:+ "/components/" +:+ name +:+ "/edit") else None)
    (basic_info formatDate formatTimeDistance activeNamespaceName component)
    (pods_table canEdit (cd_pods component))
    (dns_names (cd_component component) activeNamespaceName)
    (option_map (map exposed_port) (comp_ports (cd_component component)))
    (RouteWidgets clusterInfo canEdit (component_routes name activeNamespaceName httpRoutes)).
End component_page.

(** ** The profile *)

Record ProfilePage := mkProfilePage {
  profile_impersonating : option string; profile_avatar : option string; profile_who : string * string;
  profile_groups : option string; profile_cluster : option string; profile_applications : option (list (string * string));
  profile_policies : option string
}.
Definition impersonation_alert (auth : AuthState) : option string :=
  let i := auth_impersonation auth in
  if seqb i "" then None
  else Some (if seqb (auth_impersonationType auth) "user" then "You are impersonating " +:+ i
             else "You are impersonating a member in " +:+ i +:+ " group").
(** The names of the groups follow each other, as the items of an array do. *)
Definition profile_page `{UserAuth} (auth : AuthState) (applications : list ApplicationDetails) : ProfilePage :=
  mkProfilePage (impersonation_alert auth) (truthy_text (Some (auth_avatarUrl auth)))
    (renderEmailOrName (auth_email auth) (auth_impersonation auth) (auth_impersonationType auth))
    (if seqb (auth_impersonation auth) "" && Nat.ltb 0 (length (auth_groups auth))
     then Some ("Groups: " +:+ join "" (auth_groups auth)) else None)
    renderClusterRole (renderApplicationRole applications)
    (if seqb (auth_policies auth) "" then None else Some (auth_policies auth)).
(** The button of the alert; the page is loaded anew after it. *)
Definition stopImpersonation {R : Type} : Async R unit := stopImpersonating ;; Push "/" (mret tt).

(** ** A deploy key *)

Section deploy_key.
Context {R : Type}.
Variables K8sApiPrefix K8sApiVersion : string.

Definition TAB_CURL : string := "curl".
Definition TAB_GITHUB_ACTION : string := "Github Action".
Definition TAB_CIRCLE_CI_ORD : string := "CircleCI orb".

Definition curl_text (token : string) : string := join (String "010" "")
  ["curl -X POST \"; "    -H " +:+ quoted "Content-Type: application/json" +:+ " \";
   "    -H " +:+ quoted ("Authorization: Bearer " +:+ token) +:+ " \"; "    -d '{";
   "      " +:+ quoted "application" +:+ ":   " +:+ quoted "<application-name>" +:+ ",";
   "      " +:+ quoted "componentName" +:+ ": " +:+ quoted "<component-name>" +:+ ",";
   "      " +:+ quoted "imageTag" +:+ ":      " +:+ quoted "<image-tag>"; "    }' \";
   "    https://<your-kalm-host>/webhook/components"].
(** A tab: whether it is displayed, what its code begins with, and the key that can be
    copied there, as it is shown. *)
Record TabDetails := mkTabDetails { tab_displayed : bool; tab_mode : string; tab_copy : option string }.
Definition renderTabDetails (currentTabIndex : nat) (token : DeployAccessToken) : list (string * TabDetails) :=
  let shown tab := bool_decide (ci_tabs !! currentTabIndex = Some tab) in
  [ (TAB_CURL, mkTabDetails (shown TAB_CURL) "bash" None);
    (TAB_GITHUB_ACTION, mkTabDetails (shown TAB_GITHUB_ACTION) "yaml" (Some (shown_key (dat_token token))));
    (TAB_CIRCLE_CI_ORD, mkTabDetails (shown TAB_CIRCLE_CI_ORD) "yaml" (Some (shown_key (dat_token token)))) ].
(** The text given to the clipboard, and what is dispatched. *)
Definition copy_key (token : DeployAccessToken) : string * Async R unit :=
  (dat_token token, setSuccessNotificationAction "Copied successful!").

Record TokenDetailPage := mkTokenDetail {
  detail_scope : option (string * list string); detail_key : string; detail_tabs : list (string * TabDetails); detail_curl : string
}.
Definition handleDelete (deployAccessTokens : list DeployAccessToken) (name : string) : option (Async R unit) :=
  deleteDeployAccessTokenAction K8sApiPrefix K8sApiVersion <$> getDeployAccessToken deployAccessTokens name.
(** Loading, the text of a key that is not found, or the page. *)
Definition token_detail (loaded isLoading : bool) (deployAccessTokens : list DeployAccessToken) (name hash : string) :
    option (string + TokenDetailPage) :=
  match token_view loaded isLoading deployAccessTokens name with
  | TokenLoading => None
  | TokenNotFound name => Some (inl ("Deploy key " +:+ name +:+ " not found."))
  | TokenPage t => Some (inr (mkTokenDetail (token_scope t) (shown_key (dat_token t))
                                (renderTabDetails (ci_currentTabIndex hash) t) (curl_text (dat_token t))))
  end.
End deploy_key.

(** ** The nodes *)

Inductive NodeBadge := NodeReady | NodeWarning.
(** [render] of pages/Nodes/NodeStatus.tsx *)
Definition node_badge (node : Node) : NodeBadge :=
  match node_statusTexts node with [t] => if seqb t "Ready" then NodeReady else NodeWarning | _ => NodeWarning end.

Definition SmallCPULineChart (light : bool) (data : MetricList) : SmallChart :=
  small_generateData light (Some "rgba(33, 150, 243, 1)") (Some "rgba(33, 150, 243, 0.5)") (Some data).
Definition SmallMemoryLineChart (light : bool) (data : MetricList) : SmallChart :=
  small_generateData light (Some "rgba(75,192,192, 1)") (Some "rgba(75,192,192,0.5)") (Some data).

(** A bar with the ranks that appear over it; with details, its text. *)
Record Hovered := mkHovered { hov_popup : string; hov_progress : Progress; hov_text : option string; hov_title : string; hov_ranks : list Bar }.
Inductive NodeCell :=
| NodeText (lines : list string) | NodeChart (c : SmallChart) | NodeHovered (h : Hovered) | NodePodsBar (p : Progress) (allocated allocatable : number).
Record NodePanel := mkNodePanel {
  node_panel_badge : NodeBadge; node_title : list string; node_bars : list (string * Hovered);
  node_button : string; node_rows : list (string * NodeCell)
}.
Section nodes_page.
Variable formatTimeDistance : number -> string.
Variable light : bool.

Definition memory_popup (node : Node) : string := "big-memory-popup-popper-" +:+ node_name node.
Definition renderNodePanel (node : Node) : NodePanel :=
  let info := nodeStatus_nodeInfo (node_status node) in
  let '(cpuRankData, memoryRankData) := getNodeResourceRankData node in
  let age := formatTimeDistance (node_creationTimestamp node) in
  let hovered p details ranks := mkHovered (memory_popup node) p details "Pods" (ResourceRank ranks) in
  let one s := NodeText [s] in
  mkNodePanel (node_badge node)
    [node_name node; join "," (node_roles node); kubeletVersion info; "Age: " +:+ age; join "," (node_statusTexts node)]
    [("CPU:", hovered (NodeCPU node) None cpuRankData); ("Memory:", hovered (NodeMemory node) None memoryRankData)]
    (cordon_button node)
    [ ("Name", one (node_name node)); ("Status", one (join ", " (node_statusTexts node))); ("Age", one age);
      ("CPU", NodeChart (SmallCPULineChart light (metrics_cpu (node_metrics node))));
      ("Memory", NodeChart (SmallMemoryLineChart light (metrics_memory (node_metrics node))));
      ("CPU (Allocated / Total allocatable)",
        NodeHovered (hovered (NodeCPU node) (fmap (fun s => s +:+ ".") (cpu_text (NodeCPU node))) cpuRankData));
      ("Memory (Allocated / Total allocatable)",
        NodeHovered (hovered (NodeMemory node) (fmap (fun s => s +:+ ".") (memory_text (NodeMemory node))) memoryRankData));
      ("Pods (Allocated / Total allocatable)", NodePodsBar (NodePods node) (pr_part (NodePods node)) (pr_whole (NodePods node)));
      ("Internal IP", one (node_internalIP node)); ("External IP", one (node_externalIP node));
      ("OS", one (operatingSystem info +:+ "(" +:+ architecture info +:+ ")")); ("OS Image", one (osImage info));
      ("Kernel Version", one (kernelVersion info)); ("Kubelet version", one (kubeletVersion info));
      ("Labels", NodeText (key_values (node_labels node))); ("Annotations", NodeText (key_values (node_annotations node))) ].

(** The two boxes above the panels: a chart of all times, and the sum of the nodes. *)
Record NodesBox := mkNodesBox { box_title : string; box_series : Series; box_hovered : Hovered }.
Definition of_nodes (nodes : list Node) (s : string) : string := s +:+ " of " +:+ nat_to_string (length nodes) +:+ " Nodes.".
(** The guides of the providers, by their titles, and the box with them. *)
Definition provider_guides : list (string * string) :=
  [("Azure Kubernetes Service cluster", "https://docs.microsoft.com/en-us/azure/aks/upgrade-cluster");
   ("Google Compute Engine cluster", "https://cloud.google.com/kubernetes-engine/docs/how-to/cluster-admin-overview");
   ("Amazon EKS cluster", "https://docs.aws.amazon.com/eks/latest/userguide/clusters.html")].
Definition NODES_INFO_BOX_TEXT : string :=
  "Data and metrics regarding nodes in the cluster is displayed here. For cluster administration operations, please see platform specific instructions.".
Definition nodes_info_box : list (InfoPart * InfoPart) :=
  info_box NODES_INFO_BOX_TEXT ((fun g => mkInfoOption (InfoNode g.1) (InfoText "")) <$> provider_guides) None.
Record NodesPage := mkNodesPage {
  nodes_boxes : list NodesBox; nodes_panels : list (number * NodePanel); nodes_info : list (InfoPart * InfoPart)
}.
(** The distance below a panel is 1 but for the one whose index is the number of nodes. *)
Definition nodes_page (now : Z) (chartDateFilter : string) (metrics : Metrics) (nodes : list Node) : NodesPage :=
  let '(cpuRankData, memoryRankData) := getNodesResourceRankData nodes in
  let series data := line_generateData now (Some chartDateFilter) (Some data) in
  mkNodesPage
    [ mkNodesBox "CPU" (series (metrics_cpu metrics))
        (mkHovered "big-cpu-popup-popper" (NodesCPU nodes) (of_nodes nodes <$> cpu_text (NodesCPU nodes)) "Applications" (ResourceRank cpuRankData));
      mkNodesBox "Memory" (series (metrics_memory metrics))
        (mkHovered "big-memory-popup-popper" (NodesMemory nodes)
           ((fun s => of_nodes nodes (s +:+ " Cores")) <$> memory_text (NodesMemory nodes)) "Applications" (ResourceRank memoryRankData)) ]
    (imap (fun index node => (if Nat.eqb index (length nodes) then num 0 else num 1, renderNodePanel node)) nodes) nodes_info_box.
End nodes_page.

(** ** What they show *)

(** A domain of some certificate covers the host, as the form decides it. *)
Definition certified (certifications : list Certificate) (host : string) : bool :=
  existsb (fun c => canCertDomainsSuiteForHost (cert_domains c) host) certifications.

Lemma find_certified certifications host :
  match List.find (fun c => canCertDomainsSuiteForHost (cert_domains c) host) certifications with
  | Some c => certified certifications host = true /\ c ∈ certifications /\ canCertDomainsSuiteForHost (cert_domains c) host = true
  | None => certified certifications host = false
  end.
Proof.
  unfold certified. induction certifications as [|c l IH]; [done|]. cbn.
  destruct (canCertDomainsSuiteForHost (cert_domains c) host) eqn:E; [split; [done|]; split; [left|done]|].
  destruct (List.find _ l); [|done]. destruct IH as (H1 & H2 & H3). split; [done|]. split; [by right|done].
Qed.

Lemma missing_hosts certifications hosts :
  missingCertsHosts certifications hosts = List.filter (fun h => negb (certified certifications h)) hosts.
Proof.
  unfold missingCertsHosts, hostCertResults. induction hosts as [|h l IH]; [done|]. cbn.
  pose proof (find_certified certifications h) as Hf. destruct (List.find _ _) as [c|].
  - destruct Hf as (-> & _). rewrite bool_decide_true by (by eexists). exact IH.
  - rewrite Hf, bool_decide_false by (by intros [? [=]]). cbn. by rewrite IH.
Qed.

Lemma valid_hosts certifications hosts :
  (validHosts certifications hosts).*1 = List.filter (certified certifications) hosts.
Proof.
  unfold validHosts, hostCertResults. induction hosts as [|h l IH]; [done|]. cbn.
  pose proof (find_certified certifications h) as Hf. destruct (List.find _ _) as [c|]; cbn.
  - destruct Hf as (-> & _). cbn. by rewrite <- IH.
  - by rewrite Hf.
Qed.

Lemma filter_split {A} (f : A -> bool) l : l ≡ₚ List.filter (fun x => negb (f x)) l ++ List.filter f l.
Proof.
  induction l as [|x l IH]; [done|]. cbn. destruct (f x); cbn; [|by apply perm_skip].
  eapply Permutation_trans; [apply perm_skip, IH|apply Permutation_middle].
Qed.

(** The alert tells of every host once, as missing a certificate or with the name of
    one that covers it; it is a success exactly when each host has one. *)
Theorem alert_tells certifications hosts unfolded a :
  renderCertificationStatus certifications hosts unfolded = Some a ->
  hosts ≡ₚ alert_missing a ++ (alert_valid a).*1 /\
  (alert_severity a = "success" <-> Forall (fun h => certified certifications h = true) hosts) /\
  alert_missing a = List.filter (fun h => negb (certified certifications h)) hosts /\
  (forall h n, (h, n) ∈ alert_valid a ->
    exists c, c ∈ certifications /\ cert_name c = n /\ canCertDomainsSuiteForHost (cert_domains c) h = true).
Proof.
  unfold renderCertificationStatus. destruct hosts as [|h0 l]; [done|]. set (hosts := h0 :: l). intros [= <-]. cbn [alert_missing alert_valid alert_severity].
  rewrite missing_hosts, valid_hosts. split; [apply filter_split|]. split; [|split; [done|]].
  - assert (Hn : length (List.filter (fun h => negb (certified certifications h)) hosts) = 0 <->
                 Forall (fun h => certified certifications h = true) hosts).
    { clearbody hosts. induction hosts as [|h hosts IH]; [done|]. cbn. rewrite Forall_cons.
      destruct (certified certifications h); cbn; [rewrite IH; tauto|]. split; [done|]. by intros []. }
    rewrite <- Hn. destruct (Nat.eqb_spec (length (List.filter (fun h => negb (certified certifications h)) hosts)) 0); split; done.
  - intros h n Hin. unfold validHosts, hostCertResults in Hin. apply list_elem_of_omap in Hin as ([h' o] & Hin & Ho).
    apply list_elem_of_fmap in Hin as (h'' & [= -> ->] & _). cbn in Ho.
    pose proof (find_certified certifications h'') as Hf. destruct (List.find _ _) as [c|]; [|done]. cbn in Ho.
    injection Ho as <- <-. exists c. naive_solver.
Qed.

(** A certificate that is not ready, or that no authority signed, counts all the same. *)
Example unready_certificate :
  let cert := mkCertificate "shop" (Some true) (Some false) None "" "" None ["shop.com"] (Some "False") (Some "expired") None in
  alert_title <$> renderCertificationStatus [cert] ["shop.com"] false =
    Some "All hosts have valid SSL certifications signed by a certificate authority.".
Proof. reflexivity. Qed.

(** *** The status of a component *)

Definition phases : list string := ["Failed"; "Pending"; "Running"; "Succeeded"].
Definition items_with (phase : string) (p : StatusPanel) : nat := length (List.filter (fun i => seqb (item_status i) phase) (panel_items p)).

Lemma filter_twice {A} (f : A -> string) s t (l : list A) :
  length (List.filter (fun x => seqb (f x) t) (List.filter (fun x => seqb (f x) s) l)) =
  if seqb s t then length (List.filter (fun x => seqb (f x) t) l) else 0.
Proof.
  induction l as [|x l IH]; [by destruct (seqb s t)|]. cbn.
  destruct (seqb_spec (f x) s) as [<-|Hs]; cbn [List.filter length]; [destruct (seqb (f x) t); cbn [length]; lia|].
  destruct (seqb_spec (f x) t) as [<-|]; [|done]. rewrite IH. destruct (seqb_spec s (f x)) as [->|]; done.
Qed.

Lemma filter_items phase pods :
  length (List.filter (fun i => seqb (item_status i) phase) (renderPodItem <$> pods)) =
  length (List.filter (fun pod => seqb (pod_status pod) phase) pods).
Proof. induction pods as [|pod l IH]; [done|]. cbn. destruct (seqb (pod_status pod) phase); cbn; by rewrite IH. Qed.

Lemma items_of_pods component p phase : ComponentStatus (Some component) = Some p -> phase ∈ phases ->
  items_with phase p = length (List.filter (fun pod => seqb (pod_status pod) phase) (cd_pods component)).
Proof.
  unfold ComponentStatus. destruct (Counts.status_getPieChartData (Some component)) as [[s e] q]. cbn. intros [= <-] Hp.
  unfold items_with. cbn [panel_items]. rewrite filter_items. unfold Counts.status_pods. rewrite !List.filter_app, !length_app, !filter_twice.
  unfold phases in Hp. rewrite !elem_of_cons, elem_of_nil in Hp. destruct Hp as [->|[->|[->|[->|[]]]]]; cbn [seqb]; eval_seqb; lia.
Qed.

(** The chart of a component counts the pods the panel lists; a pod of another phase is
    counted as pending and not listed. *)
Theorem status_counts_items component p : ComponentStatus (Some component) = Some p ->
  doughnut_data (panel_doughnut p) =
    [items_with "Running" p + items_with "Succeeded" p;
     items_with "Pending" p + (length (cd_pods component) - length (panel_items p));
     items_with "Failed" p] /\
  length (panel_items p) <= length (cd_pods component).
Proof.
  intros Hc. rewrite !(items_of_pods component p) by (done || unfold phases; set_solver).
  unfold ComponentStatus in Hc. destruct (Counts.status_getPieChartData (Some component)) as [[s q] e] eqn:Ed. cbn in Hc. injection Hc as <-.
  cbn [panel_doughnut doughnut_data panel_items]. rewrite length_fmap. unfold Counts.status_pods. rewrite !length_app.
  unfold Counts.status_getPieChartData in Ed. cbn [from_option] in Ed.
  assert (H : forall pods a b c, foldl Counts.status_pod (a, b, c) pods = (s, q, e) ->
    let n phase := length (List.filter (fun pod => seqb (pod_status pod) phase) pods) in
    s = a + (n "Running" + n "Succeeded") /\ e = c + n "Failed" /\
    n "Failed" + (n "Pending" + (n "Running" + n "Succeeded")) <= length pods /\
    q = b + (n "Pending" + (length pods - (n "Failed" + (n "Pending" + (n "Running" + n "Succeeded")))))).
  { clear. induction pods as [|pod pods IH]; intros a b c Hf; cbn [foldl List.filter length] in *; [injection Hf as -> -> ->; lia|].
    unfold Counts.status_pod at 2 in Hf.
    destruct (seqb_spec (pod_status pod) "Running") as [E|E1]; [|destruct (seqb_spec (pod_status pod) "Succeeded") as [E|E2];
      [|destruct (seqb_spec (pod_status pod) "Failed") as [E|E3]; [|destruct (seqb_spec (pod_status pod) "Pending") as [E|E4]]]];
      revert Hf; rewrite ?E; cbn [List.filter foldl length]; eval_seqb; cbn [orb length]; intros Hf; apply IH in Hf; lia. }
  destruct (H _ _ _ _ Ed) as (-> & -> & Hle & ->). split; [f_equal; lia|lia].
Qed.

(** *** A component's page *)

(** A route to one of the component's own services, as the form of routes offers its
    ports, is on the component's page. *)
Theorem own_routes_shown name ns httpRoutes route svc port current :
  route ∈ httpRoutes -> service_name svc = name -> service_namespace svc = ns ->
  opt_value (port_option current svc port) ∈ (dest_host <$> route_destinations route) ->
  route ∈ component_routes name ns httpRoutes.
Proof.
  intros Hr <- <- (d & Hd & Hin)%list_elem_of_fmap. unfold component_routes. apply list_elem_of_In, filter_In.
  split; [by apply list_elem_of_In|]. apply existsb_exists. exists d. split; [by apply list_elem_of_In|].
  apply startsWith_spec. rewrite <- Hd. cbn [port_option opt_value].
  exists (".svc.cluster.local:" +:+ int_text (sp_port port)). by rewrite !sapp_assoc.
Qed.

Definition page_route (host : string) : HttpRoute :=
  mkHttpRoute "route" "shop" ["shop.com"] ["/"] ["GET"] ["https"] None None [mkDestination host (num 1)] None None None None None None None None.
Definition page_port : ServicePort := mkServicePort "http" "TCP" (num 80) None None.
Definition page_service : Service := mkService "web" "shop" [page_port].

(** So is a route to a service of a namespace whose name only begins like this one. *)
Example route_of_longer_namespace :
  component_routes "web" "shop" [page_route "web.shop-staging.svc.cluster.local:80"] = [page_route "web.shop-staging.svc.cluster.local:80"].
Proof. reflexivity. Qed.

Lemma own_routes_shown_witness :
  page_route "web.shop.svc.cluster.local:80" ∈ component_routes "web" "shop" [page_route "web.shop.svc.cluster.local:80"].
Proof.
  apply (own_routes_shown "web" "shop" _ _ page_service page_port "shop"); [left|done|done|].
  apply list_elem_of_fmap. exists (mkDestination "web.shop.svc.cluster.local:80" (num 1)). split; [vm_compute; reflexivity|left].
Defined.

(** Without the permission to edit, a component's page has no link to edit it, its pods
    or its routes. *)
Theorem component_page_reads (U : UserAuth) fd ft clusterInfo ns httpRoutes component :
  canEditNamespace ns = false ->
  let page := component_show fd ft clusterInfo ns httpRoutes component in
  cp_edit page = None /\ Forall (fun r => prow_canEdit r = false) (cp_pods page) /\
  match cp_routes page with inl items => Forall (fun i => item_edit i = None) items | inr _ => True end.
Proof.
  intros He. unfold component_show. cbn [cp_edit cp_pods cp_routes]. rewrite He. split; [done|]. split.
  - apply Forall_forall. intros r (pod & -> & _)%list_elem_of_fmap. done.
  - unfold RouteWidgets. destruct (component_routes _ _ _) as [|r l]; [done|]. apply Forall_forall.
    by intros i (route & -> & _)%list_elem_of_fmap.
Qed.

(** *** A deploy key *)

(** Whatever the address, one tab is displayed: the one it names, or the first. *)
Theorem one_tab_displayed hash token :
  exists tab, fst <$> List.filter (fun t => tab_displayed t.2) (renderTabDetails (ci_currentTabIndex hash) token) = [tab] /\
    ci_tabs !! ci_currentTabIndex hash = Some tab.
Proof.
  assert (Hlt : ci_currentTabIndex hash < 3).
  { unfold ci_currentTabIndex. cbn. repeat match goal with |- context [if ?b then _ else _] => destruct b end; cbn; lia. }
  destruct (ci_currentTabIndex hash) as [|[|[|n]]]; [eexists; split; reflexivity..|lia].
Qed.

(** *** The profile *)

(** The requests made after impersonation has stopped carry no header for it. *)
Theorem impersonation_stopped {R : Type} connectRouter call b pathname server (d : Dashboard R) withHeaderToken :
  let d' := (run connectRouter call b pathname server stopImpersonation d).1 in
  exists headers, (run connectRouter call b pathname server (getAxiosClient withHeaderToken) d').2 = Fulfilled headers /\
    "Kalm-Impersonation" ∉ headers.*1.
Proof.
  cbn. unfold set_storage. cbn. rewrite lookup_delete_eq. eexists. split; [reflexivity|].
  rewrite app_nil_r. destruct (_ && _); cbn; set_solver.
Qed.

(** Two groups are shown as one word. *)
Example groups_run_together (U : UserAuth) st :
  profile_groups (profile_page (mkAuthState true false true "t" "a@kalm.dev" ["dev"; "ops"] "" "" "" "" (permissionMethods (auth_initialState st))) []) =
  Some "Groups: devops".
Proof. reflexivity. Qed.

(** *** The nodes *)

(** The button of a node's panel makes the request its text announces, and a node that
    takes no pods is not shown as ready. *)
Theorem button_as_announced formatTimeDistance light nodes node :
  NoDup (node_name <$> nodes) -> node ∈ nodes -> node_name node <> "" ->
  let panel := renderNodePanel formatTimeDistance light node in
  handleClickCordonButton nodes (node_name node) =
    Some (if seqb (node_button panel) "Enable Scheduling" then UncordonNode (node_name node) else CordonNode (node_name node)) /\
  (node_button panel = "Enable Scheduling" -> node_panel_badge panel = NodeWarning).
Proof.
  intros Hnd Hin Hne. unfold renderNodePanel. destruct (getNodeResourceRankData node) as [cpu mem]. cbn [node_button node_panel_badge]. split.
  - unfold handleClickCordonButton. apply seqb_false in Hne. rewrite Hne.
    assert (Hf : List.find (fun n => seqb (node_name n) (node_name node)) nodes = Some node).
    { clear Hne. induction nodes as [|n l IH]; [by apply not_elem_of_nil in Hin|]. rewrite fmap_cons in Hnd. apply NoDup_cons in Hnd as [Hn Hnd].
      cbn. destruct (seqb_spec (node_name n) (node_name node)) as [E|E].
      - apply elem_of_cons in Hin as [->|Hin]; [done|]. destruct Hn. rewrite E. by apply list_elem_of_fmap_2.
      - apply elem_of_cons in Hin as [->|Hin]; [done|]. by apply IH. }
    rewrite Hf. unfold cordon_button. by destruct (hasCordon node).
  - unfold cordon_button, hasCordon, node_badge. destruct (node_statusTexts node) as [|t [|t' l]]; [done| |done]. cbn.
    destruct (seqb_spec "SchedulingDisabled" t) as [<-|]; done.
Qed.

(** The four bars of a node that show its ranks share one identifier. *)
Definition panel_popups (p : NodePanel) : list string :=
  (hov_popup ∘ snd <$> node_bars p) ++ omap (fun r => match r.2 with NodeHovered h => Some (hov_popup h) | _ => None end) (node_rows p).
Lemma popups_share_id formatTimeDistance light node :
  panel_popups (renderNodePanel formatTimeDistance light node) = replicate 4 (memory_popup node).
Proof. unfold renderNodePanel. by destruct (getNodeResourceRankData node). Qed.

(** Every panel keeps the distance, the last one too; and the sum of the memory is given
    in cores. *)
Lemma panels_apart formatTimeDistance light now filter metrics nodes :
  (nodes_panels (nodes_page formatTimeDistance light now filter metrics nodes)).*1 = replicate (length nodes) (num 1).
Proof.
  unfold nodes_page. destruct (getNodesResourceRankData nodes) as [cpu mem]. cbn [nodes_panels].
  rewrite list_eq_Forall2, Forall2_same_length_lookup. split; [by rewrite length_fmap, length_imap, length_replicate|].
  intros i x y Hx Hy. rewrite list_lookup_fmap, list_lookup_imap in Hx. apply lookup_replicate in Hy as [-> Hi].
  destruct (nodes !! i) as [n|]; [|done]. cbn in Hx. injection Hx as <-. destruct (Nat.eqb_spec i (length nodes)); [lia|done].
Qed.
Example memory_in_cores formatTimeDistance light :
  hov_text ∘ box_hovered <$> nodes_boxes (nodes_page formatTimeDistance light 0 "all" (mkMetrics false [] []) [sample_node []]) =
  [Some "Allocated 0.50 Cores, Total allocatable 2.00 Cores of 1 Nodes."; Some "Allocated 1.00 Gi, Total allocatable 4.00 Gi Cores of 1 Nodes."].
Proof. vm_compute. reflexivity. Qed.
