(* ===== verification/FieldViews.v ===== *)
(** What the fields show ([forms/Basic/*.tsx]): when an error is shown and in which words,
    the state of check boxes, radios, sliders, menus and chips, and the field that reads
    a file, with the form of certificates behind it (forms/Certificate/uploadForm.tsx). *)

From S2P Require Import Prelude JsString JsNumber ResourceTypes RootReducer Utils Validators NumberFacts FormChecks ComponentForms Fields.

(** ** Errors *)

(** [a || b] on texts. *)
Definition or_else (a b : string) : string := if seqb a "" then b else a.

(** What formik says of a field: whether it was visited, and its error. *)
Record FieldMeta := mkMeta { meta_touched : bool; meta_error : option ListErrors }.
Definition error_holds (m : FieldMeta) : bool := match meta_error m with None | Some (ListMessage "") => false | _ => true end.
(** A list of texts is shown as one. *)
Definition error_text (m : FieldMeta) : string :=
  match meta_error m with Some (ListMessage s) => s | Some (ElementMessages l) => join "" (omap id l) | None => "" end.

(** Whether a field is marked, and the text below it. *)
Record FieldStatus := mkStatus { status_error : bool; status_text : string }.
Definition showError (m : FieldMeta) : bool := error_holds m && meta_touched m.
(** The text fields, the check box for a truth value and the field with one option. *)
Definition throttled_status (m : FieldMeta) (helperText : string) : FieldStatus :=
  mkStatus (showError m) (if showError m then error_text m else helperText).
(** [KRenderFormikTextField]: a blank keeps the place of the text. *)
Definition text_status (m : FieldMeta) (helperText : string) : FieldStatus :=
  mkStatus (showError m) (if showError m then error_text m else or_else helperText " ").
(** [renderFormHelper] *)
Definition renderFormHelper (m : FieldMeta) (helperText : string) : string :=
  if negb (meta_touched m && error_holds m) then helperText else error_text m.
Definition select_status (m : FieldMeta) (helperText : string) : FieldStatus := mkStatus (showError m) (renderFormHelper m helperText).
(** The group of check boxes: the error above it, the help below. *)
Definition group_status (m : FieldMeta) (helperText : string) : FieldStatus * string :=
  (mkStatus (error_holds m) (if error_holds m then error_text m else ""), helperText).
(** The field with several options passes on the help only. *)
Definition multiple_status (m : FieldMeta) (helperText : string) : FieldStatus := mkStatus (showError m) helperText.
(** [mapStateToProps] of [withDebounceField]. *)
Definition debounced_showError {R : Type} (state : RootState R) (name : string) (submitCount : nat) (m : FieldMeta) : bool :=
  error_holds m && ((meta_touched m || Nat.ltb 0 submitCount) || getIsDisplayDebounceError state name).

(** The field for a list: a chip for each value, marked where the value has an error. *)
Record ChipView := mkChip { chip_label : string; chip_error : bool }.
Definition errors_of (m : FieldMeta) : option (list (option string) + string) :=
  match meta_error m with Some (ElementMessages l) => Some (inl l) | Some (ListMessage s) => Some (inr s) | None => None end.
Definition chip_marked (m : FieldMeta) (index : nat) : bool :=
  match meta_error m with
  | Some (ElementMessages l) => match l !! index with Some (Some (String _ _)) => true | _ => false end
  | _ => false
  end.
Definition renderTags (m : FieldMeta) (value : list string) : list ChipView :=
  imap (fun index option => mkChip option (chip_marked m index)) value.
Definition list_status (m : FieldMeta) (helperText : string) : FieldStatus :=
  let errorText := default "" (multi_errorText (errors_of m)) in
  mkStatus (negb (seqb errorText "")) (or_else errorText helperText).

(** ** What can be chosen *)

(** [KFormikCheckboxGroupRender]: boxes, or chips that a click switches. *)
Record CheckView := mkCheck { check_value : string; check_label : string; check_on : bool }.
Definition renderChecks (options : list (string * string)) (value : list string) : list CheckView :=
  (fun x => mkCheck x.1 x.2 (is_checked value x.1)) <$> options.
Definition renderChips (options : list (string * string)) (value : list string) : list CheckView :=
  (fun x => mkCheck x.1 x.1 (is_checked value x.1)) <$> options.
Definition chip_onClick (value : list string) (x : string) : list string := onCheckChange value x (negb (is_checked value x)).

(** [KFormikBoolCheckboxRender] *)
Definition bool_checkbox (value : option bool) (m : FieldMeta) (helperText : string) : bool * FieldStatus :=
  (default false value, throttled_status m helperText).

(** [KFormikRadioGroupRender]: the option that is marked. *)
Definition radio_value (value : string) (options : list (string * string)) : result string :=
  if negb (seqb value "") then Ok value
  else match options with o :: _ => Ok o.1 | [] => Throw "Cannot read property 'value' of undefined" end.
Definition renderRadios (value : string) (options : list (string * string)) : result (list CheckView) :=
  marked ← radio_value value options; Ok ((fun o => mkCheck o.1 o.2 (seqb o.1 marked)) <$> options).

(** [KFormikRenderSlider] *)
Definition slider_value (value : number) : number := if truthy_number value then value else num 0.

(** [RenderFormikSelectField]: a missing value is the empty text; the text shown, and the
    items of the menu. *)
Definition select_view (options : list SelectOption) (value : option string) : string * list (string * string) :=
  (select_renderValue options (default "" value), (fun o => (so_value o, so_text o)) <$> options).

(** [renderGroup] of the field with one option: the mark of the cluster or of an
    application, and whether its name stands out. *)
Inductive GroupIcon := KalmLogoIcon | KalmApplicationIcon.
Record GroupHeader := mkGroup { group_icon : GroupIcon; group_caption : string; group_current : bool }.
Definition renderGroup (key : string) : GroupHeader :=
  if seqb key "default" then mkGroup KalmLogoIcon key false else mkGroup KalmApplicationIcon key (includes "Current" key).
(** The label that the input shows. *)
Definition single_text (options : list KAutoCompleteOption) (fieldValue : string) : string := from_option opt_label "" (single_value options fieldValue).

(** [RenderFormikComplexValueTextField]: the value is printed, and the text parsed, where
    the field has a function for it; leaving the field is a visit. *)
Definition complex_value (format : option (string -> string)) (value : string) : string := from_option (fun f => f value) value format.
Definition complex_onChange (parse : option (string -> string)) (text : string) : string := from_option (fun f => f text) text parse.
Definition complex_onBlur (m : FieldMeta) : FieldMeta := mkMeta true (meta_error m).

(** ** Files *)

(** The field calls the function it was given with the event of its text area, or with
    the text of a file. *)
Inductive HandlerArgument := ChangeEvent (value : string) | FileText (text : string).
Inductive UploadEvent := TextTyped (value : string) | FileChosen (file : option (option string)).
Definition uploader_calls (e : UploadEvent) : option HandlerArgument :=
  match e with
  | TextTyped value => Some (ChangeEvent value)
  | FileChosen None => None
  | FileChosen (Some (Some text)) => Some (FileText text)
  | FileChosen (Some None) => Some (FileText "error reading file")
  end.
(** [event.target.value]: a text has no target. *)
Definition target_value (a : HandlerArgument) : result string :=
  match a with ChangeEvent v => Ok v | FileText _ => Throw "Cannot read property 'value' of undefined" end.

Definition set_content (content : string) (domains : list string) (v : CertificateFormType) : CertificateFormType :=
  let c := form_certificate v in
  mkCertificateForm (mkCertificate (cert_name c) (cert_isSelfManaged c) (cert_isSignedByTrustedCA c) (cert_expireTimestamp c)
    content (cert_selfManagedCertPrivateKey c) (cert_httpsCertIssuer c) domains (cert_ready c) (cert_reason c)
    (cert_wildcardCertDNSChallengeDomainMap c)) (form_managedType v).
Definition set_private_key (key : string) (v : CertificateFormType) : CertificateFormType :=
  let c := form_certificate v in
  mkCertificateForm (mkCertificate (cert_name c) (cert_isSelfManaged c) (cert_isSignedByTrustedCA c) (cert_expireTimestamp c)
    (cert_selfManagedCertContent c) key (cert_httpsCertIssuer c) (cert_domains c) (cert_ready c) (cert_reason c)
    (cert_wildcardCertDNSChallengeDomainMap c)) (form_managedType v).

Section upload.
(** The third-party parser of certificates. *)
Variable extractDomainsFromCertificateContent : string -> list string.
Definition content_handleChange (a : HandlerArgument) (v : CertificateFormType) : result CertificateFormType :=
  value ← target_value a; Ok (set_content value (extractDomainsFromCertificateContent value) v).
Definition private_key_handleChange (a : HandlerArgument) (v : CertificateFormType) : result CertificateFormType :=
  value ← target_value a; Ok (set_private_key value v).

Inductive UploadField := CertificateFile | PrivateKey.
Definition upload_event (field : UploadField) (e : UploadEvent) (v : CertificateFormType) : result CertificateFormType :=
  match uploader_calls e with
  | None => Ok v
  | Some a => match field with CertificateFile => content_handleChange a v | PrivateKey => private_key_handleChange a v end
  end.
End upload.

(** ** What the fields show and hand over *)

(** A field that was not visited shows its help, one that was its error, and all agree on
    which is marked; a group of check boxes is marked from the start. *)
Theorem errors_shown m helperText : meta_error m <> Some (ListMessage "") ->
  let wrong := bool_decide (is_Some (meta_error m)) in
  throttled_status m helperText = (if meta_touched m && wrong then mkStatus true (error_text m) else mkStatus false helperText) /\
  select_status m helperText = throttled_status m helperText /\
  status_error (multiple_status m helperText) = status_error (throttled_status m helperText) /\
  status_error (group_status m helperText).1 = wrong.
Proof.
  intros Hne. unfold throttled_status, select_status, multiple_status, group_status, renderFormHelper, showError, error_holds.
  destruct (meta_error m) as [[[|a s]|l]|]; [done|..]; cbn; rewrite ?(bool_decide_true (is_Some (Some _))) by (by eexists);
    rewrite ?bool_decide_false by (by intros [? [=]]); by destruct (meta_touched m).
Qed.

(** The words of an error of a field with several options are not shown. *)
Example error_without_words :
  multiple_status (mkMeta true (Some (ListMessage "Required"))) "" = mkStatus true "".
Proof. reflexivity. Qed.

Lemma omap_id_head (l : list (option string)) : Forall (fun e => e <> Some "") l ->
  seqb (default "" (head (omap id l))) "" = negb (existsb (fun e => match e with Some (String _ _) => true | _ => false end) l).
Proof. intros Hl. induction Hl as [|[[|a s]|] l He _ IH]; [done|done|done|exact IH]. Qed.

(** A list is marked exactly when one of its chips is. *)
Theorem list_marked touched l value helperText : Forall (fun e => e <> Some "") l -> length l = length value ->
  let m := mkMeta touched (Some (ElementMessages l)) in
  status_error (list_status m helperText) = existsb chip_error (renderTags m value).
Proof.
  intros Hl Hlen m. unfold list_status, errors_of, multi_errorText, m. cbn [meta_error status_error].
  rewrite omap_id_head, Bool.negb_involutive by done. unfold renderTags, chip_marked. cbn [meta_error].
  clear Hl m. revert value Hlen. assert (H : forall pre value, length l = length value ->
    existsb (fun e => match e with Some (String _ _) => true | _ => false end) l =
    existsb chip_error (imap (fun i option => mkChip option match (pre ++ l) !! (length pre + i) with Some (Some (String _ _)) => true | _ => false end) value)).
  { induction l as [|e l IH]; intros pre [|v value] Hlen; [done..|]. cbn [existsb imap chip_error].
    rewrite Nat.add_0_r, list_lookup_middle by done. rewrite (IH (pre ++ [e]) value) by (by injection Hlen).
    f_equal. f_equal. apply imap_ext. intros i v' _. cbn. by rewrite length_app, <- app_assoc, <- Nat.add_assoc. }
  intros value Hlen. exact (H [] value Hlen).
Qed.

(** A chosen option is the one that is shown. *)
Theorem chosen_option_shown options o : NoDup (opt_value <$> options) -> o ∈ options ->
  single_value options (single_onChange (Some o)) = Some o /\ single_text options (single_onChange (Some o)) = opt_label o.
Proof.
  intros Hnd Hin. assert (Hf : single_value options (opt_value o) = Some o).
  { unfold single_value. induction options as [|x l IH]; [by apply not_elem_of_nil in Hin|].
    rewrite fmap_cons in Hnd. apply NoDup_cons in Hnd as [Hx Hnd]. cbn. apply elem_of_cons in Hin as [<-|Hin]; [by rewrite seqb_refl|].
    destruct (seqb_spec (opt_value x) (opt_value o)) as [E|E]; [|by apply IH]. destruct Hx. rewrite E. by apply list_elem_of_fmap_2. }
  unfold single_text. cbn [single_onChange from_option]. by rewrite Hf.
Qed.

(** A click on a chip switches it and no other. *)
Theorem chip_switched options value x : NoDup value ->
  NoDup (chip_onClick value x) /\
  check_on <$> renderChips options (chip_onClick value x) =
    (fun c => if seqb (check_value c) x then negb (check_on c) else check_on c) <$> renderChips options value.
Proof.
  intros Hnd. assert (Hc : forall y, NoDup (chip_onClick value x) /\
    (y ∈ chip_onClick value x <-> if decide (y = x) then negb (is_checked value x) = true else y ∈ value)).
  { intros y. apply checked_box; [done|]. by rewrite Bool.negb_involutive. }
  split; [exact (proj1 (Hc x))|]. unfold renderChips. rewrite <- !list_fmap_compose. apply list_fmap_ext. intros _ [v label] _. cbn.
  assert (Hin : forall l y, is_checked l y = bool_decide (y ∈ l)) by (intros l y; apply existsb_seqb). rewrite !Hin.
  destruct (Hc v) as [_ Hv]. rewrite Hin in Hv. destruct (seqb_spec v x) as [->|Hvx].
  - rewrite decide_True in Hv by done. apply Bool.eq_true_iff_eq. rewrite bool_decide_eq_true. exact Hv.
  - rewrite decide_False in Hv by done. by apply bool_decide_ext.
Qed.

(** Without a value the first radio is marked, though the form has none. *)
Example radio_marked_unset :
  renderRadios "" [("a", "A"); ("b", "B")] = Ok [mkCheck "a" "A" true; mkCheck "b" "B" false].
Proof. reflexivity. Qed.

(** *** Certificates *)

Section certificates.
Variable extractDomains : string -> list string.

(** A certificate that is typed is submitted exactly when the parser finds a domain in
    it; the rest of the form stays as it was. *)
Theorem typed_certificate v content : form_managedType v = selfManaged ->
  exists v', upload_event extractDomains CertificateFile (TextTyped content) v = Ok v' /\
    cert_selfManagedCertContent (form_certificate v') = content /\ cert_domains (form_certificate v') = extractDomains content /\
    cert_name (form_certificate v') = cert_name (form_certificate v) /\ form_managedType v' = selfManaged /\
    (certificate_validate v' = None <-> extractDomains content <> []).
Proof.
  intros Hm. eexists. split; [reflexivity|]. do 3 (split; [reflexivity|]). split; [exact Hm|].
  unfold certificate_validate, set_content. cbn. rewrite Hm, seqb_refl. by destruct (extractDomains content).
Qed.

(** A file that is chosen never arrives: the form asks the text of the file for the
    target of an event, in both fields. *)
Theorem file_never_read field file v :
  upload_event extractDomains field (FileChosen (Some file)) v = Throw "Cannot read property 'value' of undefined".
Proof. by destruct field, file. Qed.
End certificates.
